(* ===== verification/_CoqProject ===== *)
-Q . S2P
Prelude.v
CString.v
Common.v
Json.v
MsgPuck.v
MsgPackRef.v
Coder.v
Fifo.v
Machine.v
Transport.v
ProtoSend.v
Link.v
FifoInit.v
Port.v
Proto.v
Runtime.v
CText.v
Mpy.v
MpyActor.v
Socket.v
ActorStore.v
Calvinsys.v
MpyCalvinsys.v
Timer.v
ActorLib.v
CountTimer.v
Sensors.v
Library.v
X86Devices.v
Coap.v
MpyPort.v
Actor.v
AppManager.v
Node.v
NodeRun.v
Dispatch.v
X86Platform.v
Api.v
Android.v
AndroidDevices.v
Esp8266.v
Nrf52.v
Spritzer.v
CoderSpec.v
FifoSpec.v
MsgSpec.v
Examples.v
TransportSpec.v
TokenMsg.v
Runs.v
Tls.v
PortProps.v
Disconnect.v
TokenProps.v
TokenProtocol.v
ProtoProps.v
ActorProps.v
TimerProps.v
Quiet.v
Inert.v
SensorProps.v
AttributeProps.v
ButtonProps.v
SocketProps.v
StorageProps.v
MpyProps.v
JsonProps.v
CommonProps.v
EspProps.v
TunnelProps.v
LookupProps.v
AndroidProps.v
NrfProps.v
QueueState.v
PortWake.v
ActorWake.v
CoderProps.v
FifoProps.v
Invariant.v
TunnelRefs.v
