(* ===== verification/Prelude.v ===== *)
(** * calvin-constrained: a verification development

    Calvin-constrained is the runtime of Calvin for small devices: actors whose
    ports exchange tokens, on one runtime or across several, over one connection
    to a proxy runtime.  This library models the runtime (src/runtime/north),
    calvinsys with its common capabilities (src/calvinsys), the actors of the
    library (src/actors), the bindings to MicroPython (src/libmpy), the API (cc_api.c,
    main.c) and the platforms and transports below them (src/runtime/south), and proves
    what makes them correct.  The
    configuration of the core is that of cc_config_x86_test.h; a platform has its own.

    ** The program and its model

    A message received by the transport is decoded by the coder and dispatched by
    the protocol to the node, the actors, the tunnels and the ports; these change
    the state of the actors, move tokens between queues and send messages of their
    own, whose replies come back to the handlers they left behind.  The main loop
    of the node waits for events, checks the timers and lets the scheduler fire the
    actors, which read and write the queues of their ports and the objects they
    have opened with calvinsys.  In the order of the files:

    - Prelude: bytes, machine integers, the monad [M] of a C function (a state, a
      value or undefined behaviour [Ub]), its rules, the hint database.
    - CString: the string functions of C ([strlen], [strncmp], [strncpy], ...).
    - Common (cc_common.c): uuids and the lists keyed by a string.
    - Json (cc_common.c): the lookup of a key among the tokens of a text.  jsmn itself is the class [Jsmn].
    - MsgPuck, MsgPackRef: the contract of msgpuck, a library the sources call and
      do not contain.  The class [MsgPuck] has its functions, [MsgPuckLaws] states
      their documented behaviour; [ref_msgpuck] is an implementation of the
      MessagePack format that satisfies them, so that no theorem is vacuous.
    - Coder (coder/cc_coder_msgpuck.c): encoding and the lookups in encoded maps
      and arrays.  A pointer into a message is the list of the bytes from it on.
    - Fifo, FifoInit (cc_token.c, cc_fifo.c): tokens and the queue of a port, on a
      heap [mem] of token buffers.
    - Machine (the structures of cc_node.h, cc_actor.h, cc_port.h, cc_tunnel.h,
      cc_link.h, cc_transport.h): the state [world], one heap per kind of object,
      addresses for pointers, and the class [Platform] of what the platform
      answers (allocations, rand, clock, transport), over which every theorem is
      quantified.
    - Transport (cc_transport.c): the length prefix, sending, assembly, the join.
    - ProtoSend (cc_proto.c, senders; the pending messages of cc_node.c).
    - Link (cc_link.c, cc_tunnel.c): counted links and tunnels.
    - Port (cc_port.c, and the part of cc_actor.c it calls): the ports, and the state of
      an actor as its ports see it.
    - Proto (cc_proto.c, parsers; the tokens and the time of cc_node.c).
    - Runtime (cc_calvinsys.h, cc_actor.h, cc_actor_store.h): the state [rt] of a
      whole runtime, the world with the instances of the actors, the capabilities
      and the objects.  The code behind the function pointers of an actor type, a
      capability or an object is a table, the class [Code]; what a [void *] state
      points to is a type [V], and the class [Holds] says that [V] has room for the
      state of one kind of actor or object.
    - ActorStore (cc_actor_store.c), Calvinsys (cc_calvinsys.c), Timer
      (calvinsys/common: timers, schedules, attributes of the node).
    - ActorLib, CountTimer, Sensors (src/actors): what the actors share, and the
      fifteen actors.  Library ties them together: the states as one type [lib_state], the
      tables of code, the types of cc_config_x86_test.h.  The devices (io.light,
      io.temperature, ...) are the class [Devices].
    - Actor (cc_actor.c): creation, connection, serialisation, migration and
      destruction of actors, and the actors whose Python code is asked of the proxy.  AppManager (cc_app_manager.c): scripts.
    - Node (np_scheduler/cc_scheduler.c, cc_node.c) and NodeRun (cc_node.c): the pass
      over the actors, stored state, requests to stop and migrate, connection to a proxy, start, main loop
      and end.  What happens while the node waits is the class [Events].
    - Dispatch (cc_proto.c): the commands about actors, the table of commands, the
      text commands.
    - Mpy (libmpy/cc_mpy_common.c): the objects of MicroPython as its C API shows them,
      lists and dictionaries on a heap of their own, exceptions (the monad [E]), and
      their encoding.  The virtual machine is the class [MicroPython].
    - MpyActor (cc_actor_mpy.c), MpyCalvinsys (cc_mpy_calvinsys.c,
      cc_mpy_calvinsys_capability.c): actors and capabilities that are Python classes,
      and calvinsys as a module that Python code imports; [python_actors] is what
      [CC_USE_PYTHON] adds to the class [Code].
    - MpyPort (cc_mpy_port.c, cc_mpy_socket.c, cc_mpy_file.c): the ports of an actor, the
      files of the modules, sockets and files as Python code sees them.  The calls of the
      system are the class [Posix].
    - CText: [strstr], [strtol] and the like, and the float of the sources.
    - Socket (transport/socket): the transport over a socket and the discovery of a
      proxy.  The sockets of the system are the class [Sockets].
    - X86Platform, X86Devices, Coap (platform/x86): files, the wait for an event, the
      test devices, the CoAP client.  The disk is the class [Disk], libcoap [LibCoap],
      the lookup of names [Resolver].
    - Api (cc_api.c, main.c): the functions a program calls, and the program, over any
      platform: the class [Storage] has its files, [Events] the rest.
    - Android, AndroidDevices (platform/android, transport/fcm): the pipes between an
      application and its runtime, the commands that come down, the objects of
      applications, the functions Java calls, the transport over Firebase, the sensors.
      The class [Android] is what pipes, looper and sensors answer.
    - Esp8266 (platform/esp-open-rtos): the flash, the configuration over HTTP, the task
      of the board, its devices.  The class [Esp] is what the SDK answers.
    - Nrf52 (platform/nrf52, transport/lwip): the transport over lwIP, whose stack calls
      back, the start of the board and its wait.  The class [Lwip] has the events of every
      wait, [NrfSdk] what the SDK answers.
    - Spritzer (platform/spritzer, transport/spritzer): the LTE modem (class [Lte]), the
      transport, the sensor, the task.
    - Tls (crypto/cc_crypto.c): the transport through mbed TLS, which is the class
      [MbedTls], and the name that a certificate gives the node.

    A definition has the name of the C function it translates.  Control flow that
    returns early is written with [let?], [guard!] and conditionals in the order of
    the source.  Undefined behaviour is explicit: a freed object ([UseAfterFree]), a
    NULL pointer, a write past an array ([BufferOverflow]), a division by zero, a
    state of another kind ([BadCast]), the free of what malloc did not give
    ([BadFree]).  A call through a function pointer kept in a
    pending message is the argument [run_handler] of the parsers.

    ** What is proved

    - Queues.  FifoSpec states the contract: a bounded FIFO with a tentative
      reader; FifoProps shows that every run of the operations implements it
      while the 32-bit counters do not wrap, what acknowledgements do, and what
      happens at the wrap and with an unchecked refusal.
    - Tokens between runtimes.  TokenProtocol composes the operations of two
      queues over two channels: every interleaving without a refusal delivers each
      token once, in order, without undefined behaviour; and whatever the run before,
      a refusal with a second token under way loses the refused token and delivers the
      second twice (the two ends as lists, [ends], with a lemma for each event).  TokenMsg and TokenProps show that a
      transmission puts on the wire a frame that the peer's parser reads back, and
      what the peer answers.
    - Ports.  PortProps, Disconnect, LookupProps: the state
      an actor gets from its ports; local connection, transmission and
      disconnection; disconnection by a peer; lookups by identifier; the attempts to
      connect, which end connected or with the deletion asked for, and all end when the
      peer is nowhere ([searching]); a pointer that outlives its port.
    - QueueState: what is written of a queue when its port is serialised builds,
      on another runtime, a queue with the same positions and tokens.
    - Messages.  CoderSpec, CoderProps, MsgSpec: what the lookups find in an
      encoded map, under the contract of msgpuck, and where they go wrong.
      TransportSpec: a message is assembled from any fragments.  ProtoProps: a
      reply is handled once; an identifier that does not fit its array.
      It also shows which parser a message is given to, and the frame that answers a
      command that is not known.
    - Actors.  ActorProps: the runs of what the actors share, and the identity actor as a
      pipe between two queues.  Quiet states what the code of
      the objects promises to the actors ([QuietCode]: it leaves the actors, the
      ports and the buffers alone) and shows that timers, schedules and attributes
      keep it; over any such code, SensorProps shows that the count timer writes
      each number once and in order in every run with its reader, and that the
      tagged temperature sensor never fires.
    - A whole actor that moves.  PortWake, ActorWake: what [cc_actor_serialize] writes
      of an actor whose type keeps its state (class [KeepsState]), [cc_actor_create]
      makes again in a runtime with tunnels to its peers.
    - Platforms.  StorageProps states what the core needs of a storage (the class
      [StorageLaws]), shows that the disk of x86 keeps it (EspProps: the flash does), and
      that the configuration of a node survives a restart over any such storage.
      SocketProps: the uri that is connected to, and a discovery.  ButtonProps: an actor
      over a test pin.  EspProps: a board that is configured over HTTP, and its start,
      which reads a buffer that it has freed.  AndroidProps: what objects write, the application reads; what the
      application sends overflows an array.  NrfProps: a frame that is never received.
    - Python.  MpyProps: what an actor in Python writes, another one that gets the
      encoded token reads, whatever the nesting of lists and dictionaries (a wire format
      [wire], the relations [sends] and [shows] of a value to the objects of a heap); a
      negative number that does not; a module that is sent is found and read.
    - TLS.  Tls: a join gives nothing to a session whose peer was not verified.
    - State that moves.  TimerProps: the check of the timers against a reference,
      and what becomes of a timer that is sent to another runtime.
      AttributeProps: the private attributes of an actor and their way back.
    - Tunnels.  TunnelProps: two requests that cross.  TunnelRefs: in every run of port
      operations and received messages, a tunnel is counted by the ports and by the
      node that refer to it, so that none of them is left with one that was freed.
    - JSON.  JsonProps: the lookup of a key against the tree of the text, for tokens
      numbered as jsmn numbers them (a key counts its value); [reading_jsmn] is a reader
      of JSON, executable, that the theorems about jsmn are instantiated with.
    - Uuids and lists.  CommonProps.
    - All of it.  Invariant: arrays, counters and attempts keep
      their bounds in every run of port operations and received messages.  Inert has what
      most operations leave alone, for any relation that looks only at the counters of
      tunnels and at the tunnels and attempts of ports; TunnelRefs and LookupProps use it.

    Runs has the equations of the basic operations and the tactics that execute them;
    Examples has the concrete runtimes the theorems with hypotheses are instantiated on.

    ** Bounds and fuel

    Loops over lists are structural.  [handle_payload] gets one more than the bytes
    it still waits for, and every iteration takes at least one
    ([handle_payload_frags] shows that it is enough).  The walk of the reference
    MessagePack decoder gets the length of the message, the walk over jsmn tokens
    their number.  [fire_actors] gets the length of the list of the actors: no
    actor of the library creates another.  The loops that only events end
    ([wait_while], [node_loop]) take their fuel as an argument.  A loop of the
    source that does not advance, or that runs out of fuel, is [Diverges]; so is an
    exception of Python that nobody handles, which the sources end in [while (1)].  The
    objects of Python are encoded and decoded to the depth that the C stack has room for
    ([mpy_stack]); the loops that call mbed TLS again take their fuel as an argument.

    ** What is not modelled, and the plan

    Logging; the clock and the seed; the code of MicroPython, msgpuck, jsmn, libcoap and
    mbed TLS, which the repository does not contain, with the options of mbed TLS and of
    the SDK of the nRF52; the start and the end of MicroPython in the node (its functions
    are in MpyPort, cc_api.c and cc_node.c are those of a build without it); the
    structures (not the token buffers) that failed allocations leak; alignment and the layout of structures.  [char] is signed, as on
    x86.  Calls of an SDK that answer nothing (radio modes, DHCP, power, delays) are left
    out.  A path is a text: two texts are two paths.  Where a transport has functions of
    its own to send and receive, these are defined with it, and [cc_transport_send] and
    [cc_transport_recv] take the answer of [Platform] for them; the platform function that
    is told of a started node is defined with Android and not called by the handler of
    Node.  The initial arguments of a capability that are added to the attributes of an
    actor are freed with them; the model has that undefined behaviour ([BadFree]) where
    they are added.  The nRF52 platform does not fit this version of the runtime: its
    functions are modelled one by one, and cc_platform_add_capabilities, which cannot be
    compiled, is not.  [CC_ACTOR_MODULES_DIR] is that of cc_config.h, [CC_PYTHON_FLOATS]
    is 1, and the names of keyword arguments are interned.

    Next, in this order: the invariant of the reference counts of links; what
    a pass of the scheduler does; what the destruction of an actor gives back; a start of
    a node from the API to its first message over one platform; the send of the lwIP
    transport. *)
From Stdlib Require Export ZArith Lia.
From Stdlib Require Strings.Byte Strings.String.
From stdpp Require Export base option list gmap.
From stdpp Require Import numbers.
Export Stdlib.Strings.String.StringSyntax.

Open Scope Z_scope.

(** ** Bytes and string literals *)

Abbreviation byte := Init.Byte.byte.
Abbreviation bytes := (list Init.Byte.byte).

#[export] Instance byte_eq_decision : EqDecision byte := Strings.Byte.byte_eq_dec.
#[export, refine] Instance byte_countable : Countable byte :=
  inj_countable Byte.to_N Byte.of_N _.
Proof. exact Byte.of_to_N. Defined.

(** The bytes of a C string literal, without its terminating NUL. *)
Definition str (s : String.string) : bytes := String.list_byte_of_string s.
Arguments str s%_string_scope.

Definition byte_val (b : byte) : Z := Z.of_N (Byte.to_N b).
Definition NUL : byte := Byte.x00.

(** The byte holding [z mod 256]. *)
Definition byte_of_Z (z : Z) : byte :=
  match Byte.of_N (Z.to_N (z mod 256)) with Some b => b | None => NUL end.

(** [char] as the signed 8-bit integer of the x86 platform. *)
Definition char_val (b : byte) : Z :=
  let v := byte_val b in if v <? 128 then v else v - 256.

Lemma byte_val_range b : 0 <= byte_val b < 256.
Proof.
  unfold byte_val. pose proof (Byte.to_N_bounded b). lia.
Qed.

Lemma byte_of_Z_val b : byte_of_Z (byte_val b) = b.
Proof.
  unfold byte_of_Z. rewrite Z.mod_small by apply byte_val_range.
  unfold byte_val. rewrite N2Z.id, Byte.of_to_N. done.
Qed.

Lemma byte_val_of_Z z : byte_val (byte_of_Z z) = z mod 256.
Proof.
  unfold byte_of_Z, byte_val.
  assert (0 <= z mod 256 < 256) by (apply Z.mod_pos_bound; lia).
  destruct (Byte.of_N (Z.to_N (z mod 256))) eqn:E.
  - apply Byte.to_of_N in E. rewrite E. lia.
  - apply Byte.of_N_None_iff in E. lia.
Qed.

Lemma byte_val_inj b c : byte_val b = byte_val c -> b = c.
Proof. intros H. rewrite <- (byte_of_Z_val b), <- (byte_of_Z_val c). by f_equal. Qed.

(** ** Machine integers: an unsigned w-bit integer is a [Z] kept in range *)

Definition u8 (z : Z) : Z := z mod 256.
Definition u32 (z : Z) : Z := z mod 4294967296.
Definition UINT32_MAX : Z := 4294967295.

Definition is_u8 (z : Z) : Prop := 0 <= z < 256.
Definition is_u32 (z : Z) : Prop := 0 <= z < 4294967296.

Lemma u32_range z : is_u32 (u32 z).
Proof. apply Z.mod_pos_bound; lia. Qed.
Lemma u8_range z : is_u8 (u8 z).
Proof. apply Z.mod_pos_bound; lia. Qed.
Lemma u32_id z : is_u32 z -> u32 z = z.
Proof. apply Z.mod_small. Qed.
Lemma u8_id z : is_u8 z -> u8 z = z.
Proof. apply Z.mod_small. Qed.
Lemma u32_shift a b n : u32 (a + u32 (n - b)) = u32 (n + (a - b)).
Proof. unfold u32. rewrite Zplus_mod_idemp_r. f_equal. lia. Qed.
Lemma u32_idemp z : u32 (u32 z) = u32 z.
Proof. apply u32_id, u32_range. Qed.

(** The hint database of the development's everyday facts. *)
Create HintDb calvin discriminated.
Create Rewrite HintDb calvin.
#[export] Hint Resolve u32_range u8_range byte_val_range : calvin.
#[export] Hint Rewrite byte_of_Z_val byte_val_of_Z u32_idemp : calvin.

(** ** Results *)

(** [cc_result_t] of cc_common.h. *)
Inductive cc_result_t := CC_SUCCESS | CC_FAIL | CC_PENDING.
#[export] Instance cc_result_eq_decision : EqDecision cc_result_t.
Proof. solve_decision. Defined.

(** Undefined behaviour of C that a run can meet.  [Diverges] is a loop that
    never ends. *)
Inductive ub :=
  | NullDeref | UseAfterFree | DoubleFree | BufferOverflow | DivByZero | BadCast | BadFree | Diverges.
#[export] Instance ub_eq_decision : EqDecision ub.
Proof. solve_decision. Defined.

Inductive outcome (A : Type) := Ok (a : A) | Ub (u : ub).
Arguments Ok {A} a.
Arguments Ub {A} u.

#[export] Instance outcome_ret : MRet outcome := fun A a => Ok a.
#[export] Instance outcome_bind : MBind outcome := fun A B f o =>
  match o with Ok a => f a | Ub u => Ub u end.

(** ** The state monad of a C function: from a state, a value and a new state,
    or undefined behaviour *)

Definition M (S A : Type) : Type := S -> outcome (A * S).

#[export] Instance M_ret {S} : MRet (M S) := fun A a s => Ok (a, s).
#[export] Instance M_bind {S} : MBind (M S) := fun A B f m s =>
  match m s with Ok (a, s') => f a s' | Ub u => Ub u end.

Definition ub_ {S A} (u : ub) : M S A := fun _ => Ub u.
Definition get_ {S} : M S S := fun s => Ok (s, s).
Definition put_ {S} (s : S) : M S unit := fun _ => Ok (tt, s).
Definition gets {S A} (f : S -> A) : M S A := fun s => Ok (f s, s).
Definition modify {S} (f : S -> S) : M S unit := fun s => Ok (tt, f s).

(** A value that must be there: NULL pointers, freed objects, bounds. *)
Definition need {S A} (u : ub) (o : option A) : M S A :=
  match o with Some a => mret a | None => ub_ u end.

Definition lift_outcome {S A} (o : outcome A) : M S A :=
  match o with Ok a => mret a | Ub u => ub_ u end.

Definition when {S} (b : bool) (m : M S unit) : M S unit :=
  if b then m else mret tt.

(** Run a computation on a part of the state. *)
Definition zoom {S T A} (get : S -> T) (set : T -> S -> S) (m : M T A) : M S A :=
  fun s => match m (get s) with
           | Ok (a, t) => Ok (a, set t s)
           | Ub u => Ub u
           end.

(** [let? x := e else r in k]: the early return [r] of a guard that fails. *)
Notation "'let?' x ':=' e 'else' r 'in' k" :=
  (match e with Some x => k | None => r end)
  (at level 10, x pattern, e at level 200, r at level 200, k at level 200,
   format "'[v' 'let?'  x  ':='  e  'else'  r  'in' '/' k ']'").

(** [guard! b else r in k]: [if (!b) return r; k]. *)
Notation "'guard!' b 'else' r 'in' k" :=
  (if b then k else r)
  (at level 10, b at level 200, r at level 200, k at level 200,
   format "'[v' 'guard!'  b  'else'  r  'in' '/' k ']'").

(** ** Total correctness of a computation: it ends without undefined behaviour
    in a result that satisfies [Q] *)

Definition wp {S A} (m : M S A) (Q : A -> S -> Prop) (s : S) : Prop :=
  match m s with Ok (a, s') => Q a s' | Ub _ => False end.

Section wp_rules.
Context {S : Type}.
Implicit Types s : S.

Lemma wp_ret {A} (a : A) (Q : A -> S -> Prop) s : Q a s -> wp (mret a) Q s.
Proof. done. Qed.

Lemma wp_bind {A B} (m : M S A) (f : A -> M S B) Q s :
  wp m (fun a => wp (f a) Q) s -> wp (m ≫= f) Q s.
Proof. unfold wp, mbind, M_bind. destruct (m s) as [[a s']|]; done. Qed.

Lemma wp_mono {A} (m : M S A) (P Q : A -> S -> Prop) s :
  wp m P s -> (forall a s', P a s' -> Q a s') -> wp m Q s.
Proof. unfold wp. destruct (m s) as [[a s']|]; auto. Qed.

Lemma wp_gets {A} (f : S -> A) (Q : A -> S -> Prop) s : Q (f s) s -> wp (gets f) Q s.
Proof. done. Qed.

Lemma wp_modify (f : S -> S) (Q : unit -> S -> Prop) s : Q tt (f s) -> wp (modify f) Q s.
Proof. done. Qed.

Lemma wp_need {A} u (o : option A) (a : A) (Q : A -> S -> Prop) s :
  o = Some a -> Q a s -> wp (need u o) Q s.
Proof. by intros ->. Qed.

Lemma wp_run {A} (m : M S A) a s s' (Q : A -> S -> Prop) :
  m s = Ok (a, s') -> Q a s' -> wp m Q s.
Proof. unfold wp. by intros ->. Qed.

Lemma wp_Ok {A} (m : M S A) Q s :
  wp m Q s -> exists a s', m s = Ok (a, s') /\ Q a s'.
Proof. unfold wp. destruct (m s) as [[a s']|]; [eauto|done]. Qed.

Lemma bind_Ok {A B} (m : M S A) (f : A -> M S B) s a s' :
  m s = Ok (a, s') -> (m ≫= f) s = f a s'.
Proof. unfold mbind, M_bind. by intros ->. Qed.

Lemma bind_Ub {A B} (m : M S A) (f : A -> M S B) s u :
  m s = Ub u -> (m ≫= f) s = Ub u.
Proof. unfold mbind, M_bind. by intros ->. Qed.

Lemma bind_inv {A B} (m : M S A) (f : A -> M S B) s r :
  (m ≫= f) s = Ok r -> exists a s', m s = Ok (a, s') /\ f a s' = Ok r.
Proof. unfold mbind, M_bind. destruct (m s) as [[a s']|]; [eauto|done]. Qed.

(** A predicate on states that a computation never breaks. *)
Definition keeps {A} (P : S -> Prop) (m : M S A) : Prop :=
  forall s a s', m s = Ok (a, s') -> P s -> P s'.

Lemma keeps_ret {A} (P : S -> Prop) (a : A) : keeps P (mret a).
Proof. intros s a' s' H ?. cbv in H. by simplify_eq. Qed.

Lemma keeps_bind {A B} P (m : M S A) (f : A -> M S B) :
  keeps P m -> (forall a, keeps P (f a)) -> keeps P (m ≫= f).
Proof. intros Hm Hf s b s' [a [t [E1 E2]]]%bind_inv HP. eapply Hf, Hm; eauto. Qed.

Lemma keeps_need {A} P u (o : option A) : keeps P (need (S:=S) u o).
Proof. destruct o; [apply keeps_ret|]. intros ? ? ? H. done. Qed.

Lemma keeps_ub {A} P u : keeps P (ub_ (S:=S) (A:=A) u).
Proof. intros ? ? ? H. done. Qed.

Lemma keeps_gets {A} P (f : S -> A) : keeps P (gets f).
Proof. intros ? ? ? H. cbv in H. by simplify_eq. Qed.

Lemma keeps_modify (P : S -> Prop) (f : S -> S) :
  (forall s, P s -> P (f s)) -> keeps P (modify f).
Proof. intros Hf s a s' H ?. cbv in H. simplify_eq. auto. Qed.

Lemma keeps_when P b (m : M S unit) : keeps P m -> keeps P (when b m).
Proof. destruct b; [done|]. intros _. apply keeps_ret. Qed.
End wp_rules.

#[export] Hint Resolve keeps_ret keeps_need keeps_ub keeps_gets keeps_when : calvin.

(** ** Tactics *)

(** Execute the head of a computation whose state is known. *)
Ltac exec := unfold mbind, M_bind, mret, M_ret, gets, modify, need, when, ub_ in *; simpl.

(** Decompose a run that ended normally. *)
Ltac run_inv H :=
  repeat match type of H with
  | (_ ≫= _) _ = Ok _ =>
      let a := fresh "a" in let s := fresh "s" in let E := fresh "E" in
      apply bind_inv in H as [a [s [E H]]]
  end.

(** Split every conjunction and existential of the context. *)
Ltac split_hyps := repeat match goal with
  | H : _ /\ _ |- _ => destruct H
  | H : exists _, _ |- _ => destruct H
  end.

(** ** Generic list facts *)

Lemma take_app_exact {A} (l k : list A) n : n = length l -> take n (l ++ k) = l.
Proof. intros ->. apply take_app_length. Qed.

Lemma drop_app_exact {A} (l k : list A) n : n = length l -> drop n (l ++ k) = k.
Proof. intros ->. apply drop_app_length. Qed.
