(* ===== verification/CString.v ===== *)
(** C strings and fixed character arrays: the functions of <string.h> that the
    sources call.

    A [char *] is the list of the bytes from the pointer to the end of the
    object it points into; one byte past the end reads as NUL (the terminator
    of a literal or of an owned string, which the lists do not store).  A
    [char buf[n]] is a list of exactly [n] bytes; a write outside it is
    undefined behaviour and [None] here. *)
From S2P Require Import Prelude.

(** [strlen]: the bytes before the first NUL. *)
Fixpoint strlen (s : bytes) : nat :=
  match s with
  | [] => 0
  | c :: s' => if decide (c = NUL) then 0 else S (strlen s')
  end.

(** [strnlen]: the same, looking at no more than [n] bytes. *)
Definition strnlen (s : bytes) (n : nat) : nat := strlen (take n s).

(** The string itself: its bytes up to the first NUL. *)
Definition cstr (s : bytes) : bytes := take (strlen s) s.

(** [strncmp]: the difference of the first two bytes that differ, among the
    first [n] and up to a common NUL. *)
Fixpoint strncmp (a b : bytes) (n : nat) : Z :=
  match n with
  | O => 0
  | S n' =>
      let x := hd NUL a in
      let y := hd NUL b in
      if decide (x = y) then
        if decide (x = NUL) then 0 else strncmp (tail a) (tail b) n'
      else byte_val x - byte_val y
  end.

(** [strncmp(a, b, n) == 0]. *)
Definition streq_n (a b : bytes) (n : nat) : bool := strncmp a b n =? 0.

(** [strncpy(dst, src, n)]: [n] bytes of [dst] are written, the string [src]
    cut to [n] and NULs after it. *)
Definition strncpy_bytes (src : bytes) (n : nat) : bytes :=
  let c := take n (cstr src) in c ++ replicate (n - length c) NUL.

Definition strncpy (dst src : bytes) (n : nat) : option bytes :=
  if decide (n <= length dst)%nat then Some (strncpy_bytes src n ++ drop n dst) else None.

(** [buf[i] = c]. *)
Definition store (buf : bytes) (i : nat) (c : byte) : option bytes :=
  if decide (i < length buf)%nat then Some (<[i := c]> buf) else None.

(** [strncpy(buf, src, len); buf[len] = '\0';] *)
Definition strncpy_nul (buf src : bytes) (len : nat) : option bytes :=
  match strncpy buf src len with
  | Some b => store b len NUL
  | None => None
  end.

(** [memset(buf, 0, n)] over the whole array. *)
Definition zeroed (n : nat) : bytes := replicate n NUL.

(** A string in an array of [n] bytes. *)
Definition in_array (n : nat) (s : bytes) : bytes := s ++ drop (length s) (zeroed n).

(** A string without embedded NUL. *)
Definition nul_free (s : bytes) : Prop := NUL ∉ s.
#[export] Instance nul_free_dec s : Decision (nul_free s).
Proof. unfold nul_free. apply _. Defined.

Lemma nul_free_cons c s : nul_free (c :: s) <-> c <> NUL /\ nul_free s.
Proof. unfold nul_free. rewrite not_elem_of_cons. naive_solver. Qed.

Lemma nul_free_app s t : nul_free (s ++ t) <-> nul_free s /\ nul_free t.
Proof. unfold nul_free. rewrite elem_of_app. tauto. Qed.

Lemma strlen_le s : (strlen s <= length s)%nat.
Proof. induction s; simpl; [lia|]. case_decide; lia. Qed.

Lemma strlen_nul_free s t : nul_free s -> strlen (s ++ NUL :: t) = length s.
Proof.
  induction s as [|c s IH]; simpl; intros H; [done|].
  apply nul_free_cons in H as [Hc Hs]. rewrite decide_False by done. by rewrite IH.
Qed.

Lemma strlen_nul_free_all s : nul_free s -> strlen s = length s.
Proof.
  induction s as [|c s IH]; simpl; intros H; [done|].
  apply nul_free_cons in H as [Hc Hs]. rewrite decide_False by done. by rewrite IH.
Qed.

Lemma cstr_nul_free s t : nul_free s -> cstr (s ++ NUL :: t) = s.
Proof. intros H. unfold cstr. rewrite strlen_nul_free by done. by rewrite take_app_length. Qed.

Lemma cstr_nul_free_all s : nul_free s -> cstr s = s.
Proof. intros H. unfold cstr. rewrite strlen_nul_free_all by done. by rewrite firstn_all. Qed.

Lemma cstr_app s t : nul_free s -> cstr (s ++ t) = s ++ cstr t.
Proof.
  unfold cstr. induction s as [|c s IH]; simpl; intros H; [done|].
  apply nul_free_cons in H as [Hc Hs]. rewrite decide_False by done. simpl. by rewrite IH.
Qed.

Lemma nul_free_cstr s : nul_free (cstr s).
Proof.
  unfold cstr. induction s as [|c s IH]; simpl; [apply not_elem_of_nil|].
  case_decide; simpl; [apply not_elem_of_nil|]. by apply nul_free_cons.
Qed.

Lemma strnlen_nul_free s t n :
  nul_free s -> (length s < n)%nat -> strnlen (s ++ NUL :: t) n = length s.
Proof.
  intros H L. unfold strnlen. rewrite take_app, take_ge by lia.
  replace (n - length s)%nat with (S (n - length s - 1)) by lia. simpl.
  by apply strlen_nul_free.
Qed.

Lemma strnlen_le s n : (strnlen s n <= n)%nat.
Proof. unfold strnlen. pose proof (strlen_le (take n s)). rewrite length_take in *. lia. Qed.

(** ** [strncmp] *)

Lemma strncmp_refl a n : strncmp a a n = 0.
Proof.
  revert a; induction n as [|n IH]; intros a; simpl; [done|].
  rewrite decide_True by done. by case_decide.
Qed.

Lemma streq_n_refl a n : streq_n a a n = true.
Proof. unfold streq_n. by rewrite strncmp_refl. Qed.

(** [strncmp] answers 0 exactly when the two strings, terminators included,
    agree on their first [n] bytes. *)
Lemma strncmp_zero_iff a b n :
  strncmp a b n = 0 <-> take n (cstr a ++ [NUL]) = take n (cstr b ++ [NUL]).
Proof.
  revert a b; induction n as [|n IH]; intros a b; [done|].
  destruct a as [|x a], b as [|y b]; unfold cstr; simpl;
    repeat (case_decide; simpl; subst); try done;
    try (split; [intros H'; apply Z.sub_move_0_r, byte_val_inj in H'; congruence | congruence]).
  rewrite IH. unfold cstr. split; [by intros -> | congruence].
Qed.

Lemma streq_n_spec a b n :
  streq_n a b n = true <-> take n (cstr a ++ [NUL]) = take n (cstr b ++ [NUL]).
Proof. unfold streq_n. rewrite Z.eqb_eq. apply strncmp_zero_iff. Qed.

Lemma streq_n_sym a b n : streq_n a b n = streq_n b a n.
Proof. apply eq_true_iff_eq. rewrite !streq_n_spec. naive_solver. Qed.

(** Only the first [length k] bytes of the other string matter when the bound
    is the length of [k]. *)
Lemma strncmp_prefix k s n :
  nul_free k -> n = length k -> strncmp k s n = 0 <-> k `prefix_of` s.
Proof.
  intros Hk ->. revert s. induction k as [|c k IH]; intros s; simpl.
  - split; [intros _; apply prefix_nil | done].
  - apply nul_free_cons in Hk as [Hc Hk].
    destruct s as [|d s]; simpl.
    + rewrite decide_False by done. split.
      * intros H%Z.sub_move_0_r%byte_val_inj. done.
      * intros [? ?]. done.
    + case_decide as E.
      * subst. rewrite decide_False by done. rewrite IH by done. split.
        -- apply prefix_cons.
        -- apply prefix_cons_inv_2.
      * split; [intros H%Z.sub_move_0_r%byte_val_inj; done|].
        intros H%prefix_cons_inv_1. done.
Qed.

Lemma strncmp_sym_zero a b n : strncmp a b n = 0 <-> strncmp b a n = 0.
Proof. rewrite !strncmp_zero_iff. naive_solver. Qed.

(** ** [strncpy] *)

Lemma length_strncpy_bytes src n : length (strncpy_bytes src n) = n.
Proof.
  unfold strncpy_bytes. rewrite length_app, length_replicate, length_take. lia.
Qed.

Lemma strncpy_length dst src n b : strncpy dst src n = Some b -> length b = length dst.
Proof.
  unfold strncpy. case_decide; [|done]. intros [= <-].
  rewrite length_app, length_strncpy_bytes, length_drop. lia.
Qed.

Lemma store_length buf i c b : store buf i c = Some b -> length b = length buf.
Proof. unfold store. case_decide; [|done]. intros [= <-]. apply length_insert. Qed.

Lemma strncpy_nul_length buf src n b : strncpy_nul buf src n = Some b -> length b = length buf.
Proof.
  unfold strncpy_nul. destruct (strncpy buf src n) eqn:E; [|done].
  intros H%store_length. by rewrite H, (strncpy_length _ _ _ _ E).
Qed.

Lemma strncpy_bytes_all s rest : nul_free s -> strncpy_bytes (s ++ rest) (length s) = s.
Proof.
  intros Hs. unfold strncpy_bytes. rewrite cstr_app, take_app_length by done.
  rewrite Nat.sub_diag. simpl. by rewrite app_nil_r.
Qed.

(** The copy of a field of a message into an array: it succeeds exactly when the
    array has room for the terminator, and then holds the field. *)
Lemma strncpy_nul_Some buf s rest len :
  nul_free s -> len = length s -> (len < length buf)%nat ->
  strncpy_nul buf (s ++ rest) len = Some (s ++ NUL :: drop (S len) buf).
Proof.
  intros Hs -> L. unfold strncpy_nul, strncpy. rewrite decide_True by lia.
  assert (strncpy_bytes (s ++ rest) (length s) = s) as ->.
  { unfold strncpy_bytes. rewrite cstr_app, take_app_length by done.
    rewrite Nat.sub_diag. simpl. by rewrite app_nil_r. }
  unfold store. rewrite decide_True by (rewrite length_app, length_drop; lia).
  f_equal. rewrite insert_app_r_alt by lia. rewrite Nat.sub_diag.
  destruct (lookup_lt_is_Some_2 buf (length s) L) as [c Hc].
  by rewrite (drop_S buf c (length s) Hc).
Qed.

Lemma strncpy_nul_all buf s :
  nul_free s -> (length s < length buf)%nat ->
  strncpy_nul buf s (length s) = Some (s ++ NUL :: drop (S (length s)) buf).
Proof. intros Hs L. rewrite <- (app_nil_r s) at 1. by apply strncpy_nul_Some. Qed.

(** A copy into a zeroed array. *)
Lemma in_array_nul s n : (length s < n)%nat -> in_array n s = s ++ NUL :: drop (S (length s)) (zeroed n).
Proof.
  intros L. unfold in_array, zeroed. f_equal. apply drop_S. by apply lookup_replicate_2.
Qed.

Lemma strncpy_nul_zeroed s rest n : nul_free s -> (length s < n)%nat ->
  strncpy_nul (zeroed n) (s ++ rest) (length s) = Some (in_array n s).
Proof.
  intros Hs L. rewrite in_array_nul by done. apply strncpy_nul_Some; [done..|]. unfold zeroed. by rewrite length_replicate.
Qed.

Lemma streq_n_app k r t : nul_free k -> streq_n (k ++ r) t (length k) = streq_n k t (length k).
Proof.
  intros Hk. apply eq_true_iff_eq. rewrite !streq_n_spec, cstr_app, (cstr_nul_free_all k) by done.
  by rewrite <- app_assoc, !take_app_length.
Qed.

Lemma strncpy_nul_None buf src len :
  (length buf <= len)%nat -> strncpy_nul buf src len = None.
Proof.
  intros L. unfold strncpy_nul. destruct (strncpy buf src len) as [b|] eqn:E; [|done].
  unfold store. rewrite decide_False; [done|]. rewrite (strncpy_length _ _ _ _ E). lia.
Qed.

#[export] Hint Resolve strncpy_length store_length strncpy_nul_length nul_free_cstr : calvin.
#[export] Hint Rewrite strncmp_refl streq_n_refl length_strncpy_bytes : calvin.
