(* ===== verification/Common.v ===== *)
(** runtime/north/cc_common.c: uuids, the linked list keyed by a string, and the
    walk over jsmn tokens.

    A [cc_list_t *] is the list of its items.  The functions take the string of
    an item as an argument ([item_id]): for a list filled by [cc_list_add_n] the
    item owns it, while for the lists of links, tunnels, ports and actors
    [cc_list_add] stores a pointer to the [id] array of the object, which the
    runtime later rewrites, so that their items are addresses and [item_id]
    reads the object. *)
From S2P Require Import Prelude CString.

Definition CC_UUID_BUFFER_SIZE : nat := 50.
Definition CC_ATTRIBUTE_BUFFER_SIZE : nat := 1024.
Definition CC_MAX_URI_LEN : nat := 50.
Definition CC_MAX_ATTRIBUTES_LEN : nat := 1024.

(** ** Uuids *)

Definition hex_digits : bytes := str "0123456789abcdef".
Definition dash : byte := Byte.x2d.

Definition hex_digit (r : Z) : byte := nth (Z.to_nat (r mod 16)) hex_digits NUL.

(** The 36 characters written after the prefix, from the [rand] values of the
    36 calls. *)
Definition uuid_chars (rnd : nat -> Z) : bytes :=
  let raw := map (fun i => hex_digit (rnd i)) (seq 0 36) in
  <[8%nat := dash]> (<[13%nat := dash]> (<[18%nat := dash]> (<[23%nat := dash]> raw))).

(** [cc_gen_uuid]: what is written to the buffer, terminator included. *)
Definition cc_gen_uuid (prefix : option bytes) (rnd : nat -> Z) : bytes :=
  cstr (default [] prefix) ++ uuid_chars rnd ++ [NUL].

Fixpoint uuid_scan (id1 id2 : bytes) (i : nat) : bool :=
  if char_val (nth i id2 NUL) <? char_val (nth i id1 NUL) then true
  else match i with O => false | S i' => uuid_scan id1 id2 i' end.

Definition cc_uuid_is_higher (id1 : bytes) (len1 : nat) (id2 : bytes) (len2 : nat) : bool :=
  if (len2 <? len1)%nat then true
  else if (len1 <? len2)%nat then false
  else uuid_scan id1 id2 len1.

(** ** Lists *)

Record cc_list_t (A : Type) := {
  li_id : bytes;
  li_id_len : nat;
  li_data : A;
  li_data_len : Z;
  li_free_id : bool
}.
Arguments li_id {A} _.
Arguments li_id_len {A} _.
Arguments li_data {A} _.
Arguments li_data_len {A} _.
Arguments li_free_id {A} _.

(** The item built by [cc_list_add_n]: a copy of the first [len] bytes. *)
Definition list_item_n {A} (id : bytes) (len : nat) (data : A) (data_len : Z) : cc_list_t A :=
  let name := cstr (take len id) in
  {| li_id := name; li_id_len := length name; li_data := data;
     li_data_len := data_len; li_free_id := true |}.

(** The item built by [cc_list_add] on a string the caller owns. *)
Definition list_item {A} (id : bytes) (data : A) (data_len : Z) : cc_list_t A :=
  {| li_id := cstr id; li_id_len := strlen id; li_data := data;
     li_data_len := data_len; li_free_id := false |}.

Section cc_list.
Context {I : Type} (item_id : I -> bytes) (item_id_len : I -> nat).

(** [cc__list_add] after its allocation: the item goes to the end. *)
Definition cc__list_add (head : list I) (new_item : I) : list I := head ++ [new_item].

Fixpoint cc_list_remove (head : list I) (id : bytes) : list I :=
  match head with
  | [] => []
  | curr :: next =>
      if streq_n (item_id curr) id (strlen (item_id curr)) then next
      else curr :: cc_list_remove next id
  end.

Definition cc_list_count (list : list I) : Z := u32 (Z.of_nat (length list)).

Fixpoint cc_list_get_n (list : list I) (id : bytes) (id_len : nat) : option I :=
  match list with
  | [] => None
  | tmp :: next =>
      if bool_decide (strnlen (item_id tmp) CC_UUID_BUFFER_SIZE = id_len)
         && streq_n (item_id tmp) id id_len
      then Some tmp else cc_list_get_n next id id_len
  end.

Fixpoint cc_list_get (list : list I) (id : bytes) : option I :=
  match list with
  | [] => None
  | tmp :: next =>
      if bool_decide (strnlen (item_id tmp) CC_UUID_BUFFER_SIZE
                      = strnlen id CC_UUID_BUFFER_SIZE)
         && streq_n (item_id tmp) id (item_id_len tmp)
      then Some tmp else cc_list_get next id
  end.
End cc_list.

(** Lists whose items own their string. *)
Abbreviation list_get l id := (cc_list_get li_id li_id_len l id).
Abbreviation list_get_n l id n := (cc_list_get_n li_id l id n).
Abbreviation list_remove l id := (cc_list_remove li_id l id).

(** ** The lists of a string-keyed table *)

(** A key the runtime uses: no NUL inside and room for it in a uuid buffer. *)
Definition key_ok (s : bytes) : Prop := nul_free s /\ (length s < CC_UUID_BUFFER_SIZE)%nat.
#[export] Instance key_ok_dec s : Decision (key_ok s).
Proof. unfold key_ok. apply _. Defined.

Lemma strnlen_key s : key_ok s -> strnlen s CC_UUID_BUFFER_SIZE = length s.
Proof.
  intros [Hs L]. unfold strnlen. rewrite take_ge by lia. by apply strlen_nul_free_all.
Qed.

Lemma strnlen_key_arr s t :
  key_ok s -> strnlen (s ++ NUL :: t) CC_UUID_BUFFER_SIZE = length s.
Proof. intros [Hs L]. by apply strnlen_nul_free. Qed.

Lemma streq_key_iff s k n :
  nul_free s -> n = length s -> (streq_n s k n = true <-> s `prefix_of` k).
Proof. intros Hs Hn. unfold streq_n. rewrite Z.eqb_eq. by apply strncmp_prefix. Qed.

Lemma prefix_same_length {A} (s k : list A) : length s = length k -> s `prefix_of` k -> s = k.
Proof.
  intros L [t ->]. rewrite length_app in L. destruct t; [by rewrite app_nil_r|simpl in *; lia].
Qed.

Lemma prefix_app_same_length {A} (s k t : list A) :
  length s = length k -> s `prefix_of` k ++ t -> s = k.
Proof.
  intros L [u E]. symmetry in E. by apply app_inj_1 in E as [-> _].
Qed.

Section cc_list_facts.
Context {I : Type} (item_id : I -> bytes) (item_id_len : I -> nat).
Implicit Types (l : list I) (k : bytes).

(** Every string of the list is a proper key and its recorded length is its length. *)
Definition keys_ok l : Prop :=
  Forall (fun i => key_ok (item_id i) /\ item_id_len i = length (item_id i)) l.

Lemma get_n_test (i : I) k n rest :
  key_ok (item_id i) -> n = length k ->
  bool_decide (strnlen (item_id i) CC_UUID_BUFFER_SIZE = n)
    && streq_n (item_id i) (k ++ rest) n = bool_decide (item_id i = k).
Proof.
  intros Hi ->. rewrite strnlen_key by done. apply eq_true_iff_eq.
  rewrite andb_true_iff, !bool_decide_eq_true. split.
  - intros [L E]. rewrite streq_key_iff in E by (destruct Hi; done).
    by eapply prefix_app_same_length.
  - intros E. rewrite E. split; [done|].
    rewrite streq_key_iff; [by apply prefix_app_r| by rewrite <- E; destruct Hi | done].
Qed.

Lemma get_test (i : I) k :
  key_ok (item_id i) -> item_id_len i = length (item_id i) -> key_ok k ->
  bool_decide (strnlen (item_id i) CC_UUID_BUFFER_SIZE = strnlen k CC_UUID_BUFFER_SIZE)
    && streq_n (item_id i) k (item_id_len i) = bool_decide (item_id i = k).
Proof.
  intros Hi -> Hk. rewrite !strnlen_key by done. apply eq_true_iff_eq.
  rewrite andb_true_iff, !bool_decide_eq_true. split.
  - intros [L E]. rewrite streq_key_iff in E by (destruct Hi; done).
    by apply prefix_same_length.
  - intros E. split; [by rewrite E|]. rewrite streq_key_iff by (destruct Hi; done). by rewrite E.
Qed.

(** [cc_list_get_n] is the lookup of the first item with that key. *)
Lemma cc_list_get_n_find l k rest :
  keys_ok l ->
  cc_list_get_n item_id l (k ++ rest) (length k)
  = List.find (fun i => bool_decide (item_id i = k)) l.
Proof.
  induction 1 as [|i l [Hi _] _ IH]; simpl; [done|].
  rewrite get_n_test by done. by rewrite IH.
Qed.

Lemma cc_list_get_find l k :
  keys_ok l -> key_ok k ->
  cc_list_get item_id item_id_len l k
  = List.find (fun i => bool_decide (item_id i = k)) l.
Proof.
  intros Hl Hk. induction Hl as [|i l [Hi Hn] _ IH]; simpl; [done|].
  rewrite get_test by done. by rewrite IH.
Qed.

(** What [cc_list_remove] takes out: the first item whose string is a prefix
    of the identifier. *)
Lemma cc_list_remove_spec l k :
  Forall (fun i => nul_free (item_id i)) l ->
  (exists l1 i l2, l = l1 ++ i :: l2 /\ item_id i `prefix_of` k
     /\ Forall (fun j => ~ item_id j `prefix_of` k) l1
     /\ cc_list_remove item_id l k = l1 ++ l2)
  \/ (Forall (fun j => ~ item_id j `prefix_of` k) l /\ cc_list_remove item_id l k = l).
Proof.
  induction 1 as [|i l Hi _ IH]; simpl; [by right|].
  rewrite strlen_nul_free_all by done.
  destruct (streq_n (item_id i) k (length (item_id i))) eqn:E.
  - left. exists [], i, l. repeat split; [by apply streq_key_iff in E|constructor].
  - assert (~ item_id i `prefix_of` k) as Hn.
    { intros H. apply streq_key_iff with (n := length (item_id i)) in H; [congruence|done..]. }
    destruct IH as [(l1 & j & l2 & -> & Hj & Hl1 & ->)|[Hl ->]].
    + left. exists (i :: l1), j, l2. repeat split; [done|by constructor].
    + right. split; [by constructor|done].
Qed.

(** Among keys of the same length (uuids), it removes exactly the item with
    that key. *)
Lemma cc_list_remove_exact l1 i l2 k :
  Forall (fun j => nul_free (item_id j) /\ length (item_id j) = length k /\ item_id j <> k) l1 ->
  nul_free (item_id i) -> item_id i = k ->
  cc_list_remove item_id (l1 ++ i :: l2) k = l1 ++ l2.
Proof.
  intros H Hi Hk. induction H as [|j l1 (Hj & L & N) _ IH]; simpl.
  - rewrite Hk, streq_n_refl. done.
  - rewrite strlen_nul_free_all by done.
    destruct (streq_n (item_id j) k (length (item_id j))) eqn:E.
    + apply streq_key_iff in E; [|done..]. by apply prefix_same_length in E.
    + by rewrite IH.
Qed.
End cc_list_facts.

#[export] Hint Unfold key_ok : calvin.

Lemma list_item_n_id {A} (k rest : bytes) (d : A) n :
  nul_free k -> li_id (list_item_n (k ++ rest) (length k) d n) = k.
Proof. intros H. simpl. by rewrite take_app_length, cstr_nul_free_all. Qed.

Lemma list_item_n_app {A} (k rest : bytes) (d : A) n :
  list_item_n (k ++ rest) (length k) d n = list_item_n k (length k) d n.
Proof. unfold list_item_n. by rewrite take_app_length, firstn_all. Qed.
