(* ===== verification/Json.v ===== *)
(** JSON: the tokens of jsmn and the walk over them (cc_common.c).

    The parser of jsmn, a library the repository does not contain, is the parameter
    [jsmn_parse]. *)
From S2P Require Import Prelude CString Common.

Inductive jsmntype_t := JSMN_UNDEFINED | JSMN_OBJECT | JSMN_ARRAY | JSMN_STRING | JSMN_PRIMITIVE.
#[export] Instance jsmntype_eq_decision : EqDecision jsmntype_t.
Proof. solve_decision. Defined.

Record jsmntok_t := { tok_type : jsmntype_t; tok_start : Z; tok_end : Z; tok_children : nat }.

(** The tokens taken by the value at [token], at most [fuel] deep.  A token past
    the array is read out of bounds. *)
Fixpoint cc_json_skip (fuel : nat) (tokens : list jsmntok_t) (token : nat) : outcome nat :=
  match fuel with
  | O => Ub Diverges
  | S fuel =>
      match tokens !! token with
      | None => Ub BufferOverflow
      | Some t =>
          let children := fix children (i : nat) (j : nat) : outcome nat :=
            match i with
            | O => Ok j
            | S i => k ← cc_json_skip fuel tokens (token + 1 + j); children i (j + k)%nat
            end in
          match tok_type t with
          | JSMN_PRIMITIVE | JSMN_STRING => Ok 1%nat
          | JSMN_OBJECT => j ← children (2 * tok_children t)%nat 0%nat; Ok (S j)
          | JSMN_ARRAY => j ← children (tok_children t) 0%nat; Ok (S j)
          | JSMN_UNDEFINED => Ok 0%nat
          end
      end
  end.

(** The loop over the [n] remaining keys of an object, at token [j]. *)
Fixpoint dict_value (n : nat) (buffer : bytes) (tokens : list jsmntok_t) (j : nat) (key : bytes)
  (key_len : Z) : outcome (option nat) :=
  match n with
  | O => Ok None
  | S n =>
      match tokens !! j with
      | None => Ub BufferOverflow
      | Some t =>
          if bool_decide (tok_type t = JSMN_STRING) && (key_len =? tok_end t - tok_start t)
             && streq_n (drop (Z.to_nat (tok_start t)) buffer) key (Z.to_nat key_len)
          then Ok (Some (S j))
          else
            k ← cc_json_skip (S (length tokens)) tokens (S j);
            dict_value n buffer tokens (S j + k)%nat key key_len
      end
  end.

(** [object] is the position of its token. *)
Definition cc_json_get_dict_value (buffer : bytes) (tokens : list jsmntok_t) (object : nat) (key : bytes)
  (key_len : Z) : outcome (option nat) :=
  match tokens !! object with
  | None => Ub BufferOverflow
  | Some t =>
      if negb (bool_decide (tok_type t = JSMN_OBJECT)) then Ok None
      else dict_value (tok_children t) buffer tokens (S object) key key_len
  end.

(** [jsmn_parse] on an array of [n] tokens: the tokens written, when it succeeds. *)
Class Jsmn := { jsmn_parse : bytes -> nat -> option (list jsmntok_t) }.
