(* ===== verification/MsgPuck.v ===== *)
(** The interface of msgpuck, the MessagePack library the coder is written on.

    msgpuck is a submodule whose code is not part of the repository: its
    functions are the operations of the class [MsgPuck], and what msgpuck.h
    documents of them is the class [MsgPuckLaws].  An encoder is the bytes it
    writes; a decoder [mp_decode_x(const char **data)] returns the value and the
    advanced pointer.  Outside the documented preconditions (a wrong type, a
    truncated buffer) nothing is assumed of them. *)
From S2P Require Import Prelude CString.

Inductive mp_type :=
  | MP_NIL | MP_UINT | MP_INT | MP_STR | MP_BIN | MP_ARRAY | MP_MAP
  | MP_BOOL | MP_FLOAT | MP_DOUBLE | MP_EXT.
#[export] Instance mp_type_eq_decision : EqDecision mp_type.
Proof. solve_decision. Defined.

(** A [float] or [double] is its IEEE 754 bit pattern. *)
Class MsgPuck := {
  mp_typeof : byte -> mp_type;
  mp_encode_map : Z -> bytes;
  mp_encode_array : Z -> bytes;
  mp_encode_str : bytes -> Z -> bytes;
  mp_encode_bin : bytes -> Z -> bytes;
  mp_encode_uint : Z -> bytes;
  mp_encode_int : Z -> bytes;
  mp_encode_double : Z -> bytes;
  mp_encode_float : Z -> bytes;
  mp_encode_nil : bytes;
  mp_encode_bool : bool -> bytes;
  mp_decode_map : bytes -> Z * bytes;
  mp_decode_array : bytes -> Z * bytes;
  mp_decode_str : bytes -> (bytes * Z) * bytes;
  mp_decode_bin : bytes -> (bytes * Z) * bytes;
  mpk_decode_uint : bytes -> Z * bytes;
  mp_decode_int : bytes -> Z * bytes;
  mp_decode_double : bytes -> Z * bytes;
  mp_decode_float : bytes -> Z * bytes;
  mp_decode_bool : bytes -> bool * bytes;
  mp_next : bytes -> bytes;
  mp_sizeof_uint : Z -> Z;
  mp_sizeof_int : Z -> Z;
  mp_sizeof_bool : bool -> Z;
  mp_sizeof_double : Z -> Z;
  mp_sizeof_float : Z -> Z;
  mp_sizeof_str : Z -> Z;
  mp_sizeof_nil : Z
}.

(** ** Values *)

(** The MessagePack values of the protocol.  A map keeps its entries in order
    and may repeat a key. *)
Inductive mpval :=
  | VNil
  | VBool (b : bool)
  | VUint (n : Z)
  | VInt (n : Z)
  | VFloat (bits : Z)
  | VDouble (bits : Z)
  | VStr (s : bytes)
  | VBin (s : bytes)
  | VArr (l : list mpval)
  | VMap (l : list (mpval * mpval)).

Section mpval_ind.
Context (P : mpval -> Prop)
  (Hnil : P VNil) (Hbool : forall b, P (VBool b)) (Huint : forall n, P (VUint n))
  (Hint : forall n, P (VInt n)) (Hfloat : forall n, P (VFloat n))
  (Hdouble : forall n, P (VDouble n)) (Hstr : forall s, P (VStr s))
  (Hbin : forall s, P (VBin s)) (Harr : forall l, Forall P l -> P (VArr l))
  (Hmap : forall l, Forall (fun kv => P kv.1 /\ P kv.2) l -> P (VMap l)).

(** Induction on values that goes through the lists. *)
Fixpoint mpval_deep_ind (v : mpval) : P v :=
  match v with
  | VNil => Hnil
  | VBool b => Hbool b
  | VUint n => Huint n
  | VInt n => Hint n
  | VFloat n => Hfloat n
  | VDouble n => Hdouble n
  | VStr s => Hstr s
  | VBin s => Hbin s
  | VArr l => Harr l
      ((fix go l := match l return Forall P l with
        | [] => Forall_nil_2 P
        | v :: l => Forall_cons_2 P v l (mpval_deep_ind v) (go l) end) l)
  | VMap l => Hmap l
      ((fix go l := match l return Forall (fun kv => P kv.1 /\ P kv.2) l with
        | [] => Forall_nil_2 _
        | kv :: l => Forall_cons_2 _ kv l
            (conj (mpval_deep_ind kv.1) (mpval_deep_ind kv.2)) (go l) end) l)
  end.
End mpval_ind.

Section encoding.
Context `{MP : MsgPuck}.

(** The encoding of a value, by the encoders. *)
Fixpoint mp_enc (v : mpval) : bytes :=
  match v with
  | VNil => mp_encode_nil
  | VBool b => mp_encode_bool b
  | VUint n => mp_encode_uint n
  | VInt n => mp_encode_int n
  | VFloat n => mp_encode_float n
  | VDouble n => mp_encode_double n
  | VStr s => mp_encode_str s (Z.of_nat (length s))
  | VBin s => mp_encode_bin s (Z.of_nat (length s))
  | VArr l => mp_encode_array (Z.of_nat (length l)) ++ concat (map mp_enc l)
  | VMap l => mp_encode_map (Z.of_nat (length l))
      ++ concat (map (fun kv => mp_enc kv.1 ++ mp_enc kv.2) l)
  end.

Definition mp_enc_kvs (l : list (mpval * mpval)) : bytes :=
  concat (map (fun kv => mp_enc kv.1 ++ mp_enc kv.2) l).

Lemma mp_enc_kvs_cons k v l : mp_enc_kvs ((k, v) :: l) = mp_enc k ++ mp_enc v ++ mp_enc_kvs l.
Proof. unfold mp_enc_kvs. simpl. by rewrite <- app_assoc. Qed.

Lemma mp_enc_kvs_nil : mp_enc_kvs [] = [].
Proof. done. Qed.
End encoding.

(** The values an encoder accepts: integers and lengths in range. *)
Fixpoint mp_wf (v : mpval) : Prop :=
  match v with
  | VNil | VBool _ => True
  | VUint n => 0 <= n < 2 ^ 64
  | VInt n => - 2 ^ 63 <= n < 0
  | VFloat n => 0 <= n < 2 ^ 32
  | VDouble n => 0 <= n < 2 ^ 64
  | VStr s | VBin s => Z.of_nat (length s) < 2 ^ 32
  | VArr l => Z.of_nat (length l) < 2 ^ 32
      /\ (fix go l := match l with [] => True | v :: l => mp_wf v /\ go l end) l
  | VMap l => Z.of_nat (length l) < 2 ^ 32
      /\ (fix go l := match l with [] => True | kv :: l => (mp_wf kv.1 /\ mp_wf kv.2) /\ go l end) l
  end.

Definition mp_wf_kvs (l : list (mpval * mpval)) : Prop :=
  Forall (fun kv => mp_wf kv.1 /\ mp_wf kv.2) l.

Lemma mp_wf_map l : mp_wf (VMap l) <-> Z.of_nat (length l) < 2 ^ 32 /\ mp_wf_kvs l.
Proof.
  change (mp_wf (VMap l)) with (Z.of_nat (length l) < 2 ^ 32
      /\ (fix go l := match l with [] => True | kv :: l => (mp_wf kv.1 /\ mp_wf kv.2) /\ go l end) l).
  assert ((fix go l := match l with [] => True | kv :: l => (mp_wf kv.1 /\ mp_wf kv.2) /\ go l end) l
          <-> mp_wf_kvs l) as H; [|by rewrite H].
  unfold mp_wf_kvs. induction l as [|kv l IH]; [done|]. rewrite Forall_cons, IH. done.
Qed.

Lemma mp_wf_arr l : mp_wf (VArr l) <-> Z.of_nat (length l) < 2 ^ 32 /\ Forall mp_wf l.
Proof.
  change (mp_wf (VArr l)) with (Z.of_nat (length l) < 2 ^ 32
      /\ (fix go l := match l with [] => True | v :: l => mp_wf v /\ go l end) l).
  assert ((fix go l := match l with [] => True | v :: l => mp_wf v /\ go l end) l
          <-> Forall mp_wf l) as H; [|by rewrite H].
  induction l as [|v l IH]; [done|]. by rewrite Forall_cons, IH.
Qed.

(** The type a value is decoded as. *)
Definition mpval_type (v : mpval) : mp_type :=
  match v with
  | VNil => MP_NIL | VBool _ => MP_BOOL | VUint _ => MP_UINT | VInt _ => MP_INT
  | VFloat _ => MP_FLOAT | VDouble _ => MP_DOUBLE | VStr _ => MP_STR | VBin _ => MP_BIN
  | VArr _ => MP_ARRAY | VMap _ => MP_MAP
  end.

(** ** The documented contract *)

Class MsgPuckLaws (MP : MsgPuck) : Prop := {
  mp_enc_nonempty v : mp_enc v <> [];
  mp_typeof_enc v rest : mp_wf v -> mp_typeof (hd NUL (mp_enc v ++ rest)) = mpval_type v;
  mp_decode_map_enc n rest : 0 <= n < 2 ^ 32 -> mp_decode_map (mp_encode_map n ++ rest) = (n, rest);
  mp_decode_array_enc n rest :
    0 <= n < 2 ^ 32 -> mp_decode_array (mp_encode_array n ++ rest) = (n, rest);
  (* the string pointer addresses the bytes inside the buffer *)
  mp_decode_str_enc s rest : Z.of_nat (length s) < 2 ^ 32 ->
    mp_decode_str (mp_encode_str s (Z.of_nat (length s)) ++ rest)
    = ((s ++ rest, Z.of_nat (length s)), rest);
  mp_decode_bin_enc s rest : Z.of_nat (length s) < 2 ^ 32 ->
    mp_decode_bin (mp_encode_bin s (Z.of_nat (length s)) ++ rest)
    = ((s ++ rest, Z.of_nat (length s)), rest);
  mpk_decode_uint_enc n rest :
    0 <= n < 2 ^ 64 -> mpk_decode_uint (mp_encode_uint n ++ rest) = (n, rest);
  mp_decode_int_enc n rest :
    - 2 ^ 63 <= n < 0 -> mp_decode_int (mp_encode_int n ++ rest) = (n, rest);
  mp_decode_double_enc n rest :
    0 <= n < 2 ^ 64 -> mp_decode_double (mp_encode_double n ++ rest) = (n, rest);
  mp_decode_float_enc n rest :
    0 <= n < 2 ^ 32 -> mp_decode_float (mp_encode_float n ++ rest) = (n, rest);
  mp_decode_bool_enc b rest : mp_decode_bool (mp_encode_bool b ++ rest) = (b, rest);
  mp_next_enc v rest : mp_wf v -> mp_next (mp_enc v ++ rest) = rest;
  (* an encoder copies the [len] bytes it is given *)
  mp_encode_str_take s len : 0 <= len <= Z.of_nat (length s) ->
    mp_encode_str s len = mp_encode_str (take (Z.to_nat len) s) len;
  mp_encode_bin_take s len : 0 <= len <= Z.of_nat (length s) ->
    mp_encode_bin s len = mp_encode_bin (take (Z.to_nat len) s) len;
  (* the size functions announce what the encoders write *)
  mp_sizeof_uint_enc n : 0 <= n < 2 ^ 64 -> Z.of_nat (length (mp_encode_uint n)) = mp_sizeof_uint n;
  mp_sizeof_bool_enc b : Z.of_nat (length (mp_encode_bool b)) = mp_sizeof_bool b;
  mp_sizeof_nil_enc : Z.of_nat (length mp_encode_nil) = mp_sizeof_nil;
  mp_sizeof_str_enc s : Z.of_nat (length s) < 2 ^ 32 ->
    Z.of_nat (length (mp_encode_str s (Z.of_nat (length s))))
    = mp_sizeof_str (Z.of_nat (length s)) + Z.of_nat (length s)
}.
