(* ===== verification/MsgPackRef.v ===== *)
(** A concrete MessagePack library that satisfies the contract of [MsgPuck]:
    the wire format of the MessagePack specification, executable.

    It models no code of the repository.  It shows that the contract can hold
    and it is the instance on which the witnesses of the development run. *)
From S2P Require Import Prelude CString MsgPuck.

(** Big-endian integers. *)
Fixpoint be_bytes (n : nat) (z : Z) : bytes :=
  match n with
  | O => []
  | S n' => byte_of_Z (z / 256 ^ Z.of_nat n') :: be_bytes n' z
  end.

Definition be_val (s : bytes) : Z := fold_left (fun acc b => acc * 256 + byte_val b) s 0.

Lemma length_be_bytes n z : length (be_bytes n z) = n.
Proof. induction n; simpl; congruence. Qed.

Lemma be_val_acc s acc :
  fold_left (fun acc b => acc * 256 + byte_val b) s acc
  = acc * 256 ^ Z.of_nat (length s) + be_val s.
Proof.
  unfold be_val. revert acc. induction s as [|b s IH]; intros acc; simpl fold_left; simpl length.
  - rewrite Z.pow_0_r. lia.
  - rewrite IH, (IH (0 * 256 + byte_val b)).
    rewrite Nat2Z.inj_succ, Z.pow_succ_r by lia. lia.
Qed.

Lemma be_val_bytes n z : be_val (be_bytes n z) = z mod 256 ^ Z.of_nat n.
Proof.
  induction n as [|n IH]; [by rewrite Z.pow_0_r, Z.mod_1_r|].
  simpl be_bytes. unfold be_val. simpl fold_left. rewrite be_val_acc, IH, length_be_bytes.
  rewrite byte_val_of_Z. rewrite Nat2Z.inj_succ, Z.pow_succ_r, (Z.mul_comm 256) by lia.
  rewrite (Z.rem_mul_r z (256 ^ Z.of_nat n) 256) by lia. lia.
Qed.

Lemma be_val_bytes_small n z : 0 <= z < 256 ^ Z.of_nat n -> be_val (be_bytes n z) = z.
Proof. intros H. rewrite be_val_bytes. by apply Z.mod_small. Qed.

(** A byte that starts a value, with the big-endian bytes that follow it. *)
Definition tagged (tag : Z) (n : nat) (z : Z) : bytes := byte_of_Z tag :: be_bytes n z.

Definition ref_encode_uint (n : Z) : bytes :=
  if n <? 128 then [byte_of_Z n]
  else if n <? 2 ^ 8 then tagged 0xcc 1 n
  else if n <? 2 ^ 16 then tagged 0xcd 2 n
  else if n <? 2 ^ 32 then tagged 0xce 4 n
  else tagged 0xcf 8 n.

Definition ref_encode_int (n : Z) : bytes :=
  if - 32 <=? n then [byte_of_Z (256 + n)]
  else if - 2 ^ 7 <=? n then tagged 0xd0 1 (2 ^ 8 + n)
  else if - 2 ^ 15 <=? n then tagged 0xd1 2 (2 ^ 16 + n)
  else if - 2 ^ 31 <=? n then tagged 0xd2 4 (2 ^ 32 + n)
  else tagged 0xd3 8 (2 ^ 64 + n).

Definition ref_str_head (n : Z) : bytes :=
  if n <? 32 then [byte_of_Z (0xa0 + n)]
  else if n <? 2 ^ 8 then tagged 0xd9 1 n
  else if n <? 2 ^ 16 then tagged 0xda 2 n
  else tagged 0xdb 4 n.

Definition ref_bin_head (n : Z) : bytes :=
  if n <? 2 ^ 8 then tagged 0xc4 1 n
  else if n <? 2 ^ 16 then tagged 0xc5 2 n
  else tagged 0xc6 4 n.

Definition ref_encode_array (n : Z) : bytes :=
  if n <? 16 then [byte_of_Z (0x90 + n)]
  else if n <? 2 ^ 16 then tagged 0xdc 2 n
  else tagged 0xdd 4 n.

Definition ref_encode_map (n : Z) : bytes :=
  if n <? 16 then [byte_of_Z (0x80 + n)]
  else if n <? 2 ^ 16 then tagged 0xde 2 n
  else tagged 0xdf 4 n.

Definition ref_encode_str (s : bytes) (len : Z) : bytes := ref_str_head len ++ take (Z.to_nat len) s.
Definition ref_encode_bin (s : bytes) (len : Z) : bytes := ref_bin_head len ++ take (Z.to_nat len) s.

(** The head of a value: its type and its integer, or its length. *)
Definition ref_head (data : bytes) : (mp_type * Z) * bytes :=
  match data with
  | [] => ((MP_EXT, 0), [])
  | c :: r =>
      let t := byte_val c in
      let be ty (n : nat) := ((ty, be_val (take n r)), drop n r) in
      let sbe (n : nat) := ((MP_INT, be_val (take n r) - 256 ^ Z.of_nat n), drop n r) in
      if t <? 0x80 then ((MP_UINT, t), r)
      else if t <? 0x90 then ((MP_MAP, t - 0x80), r)
      else if t <? 0xa0 then ((MP_ARRAY, t - 0x90), r)
      else if t <? 0xc0 then ((MP_STR, t - 0xa0), r)
      else if t =? 0xc0 then ((MP_NIL, 0), r)
      else if t =? 0xc2 then ((MP_BOOL, 0), r)
      else if t =? 0xc3 then ((MP_BOOL, 1), r)
      else if t =? 0xc4 then be MP_BIN 1%nat
      else if t =? 0xc5 then be MP_BIN 2%nat
      else if t =? 0xc6 then be MP_BIN 4%nat
      else if t =? 0xca then be MP_FLOAT 4%nat
      else if t =? 0xcb then be MP_DOUBLE 8%nat
      else if t =? 0xcc then be MP_UINT 1%nat
      else if t =? 0xcd then be MP_UINT 2%nat
      else if t =? 0xce then be MP_UINT 4%nat
      else if t =? 0xcf then be MP_UINT 8%nat
      else if t =? 0xd0 then sbe 1%nat
      else if t =? 0xd1 then sbe 2%nat
      else if t =? 0xd2 then sbe 4%nat
      else if t =? 0xd3 then sbe 8%nat
      else if t =? 0xd9 then be MP_STR 1%nat
      else if t =? 0xda then be MP_STR 2%nat
      else if t =? 0xdb then be MP_STR 4%nat
      else if t =? 0xdc then be MP_ARRAY 2%nat
      else if t =? 0xdd then be MP_ARRAY 4%nat
      else if t =? 0xde then be MP_MAP 2%nat
      else if t =? 0xdf then be MP_MAP 4%nat
      else if 0xe0 <=? t then ((MP_INT, t - 256), r)
      else ((MP_EXT, 0), r)
  end.

Definition ref_int (data : bytes) : Z * bytes := let '((_, n), r) := ref_head data in (n, r).

Definition ref_chars (data : bytes) : (bytes * Z) * bytes :=
  let '((_, n), r) := ref_head data in ((r, n), drop (Z.to_nat n) r).

(** Skip [k] values. *)
Fixpoint ref_skip (fuel : nat) (k : Z) (data : bytes) : bytes :=
  if k <=? 0 then data
  else match fuel with
  | O => data
  | S fuel' =>
      let '((ty, n), r) := ref_head data in
      match ty with
      | MP_STR | MP_BIN => ref_skip fuel' (k - 1) (drop (Z.to_nat n) r)
      | MP_ARRAY => ref_skip fuel' (k - 1 + n) r
      | MP_MAP => ref_skip fuel' (k - 1 + 2 * n) r
      | _ => ref_skip fuel' (k - 1) r
      end
  end.

Definition ref_typeof (c : byte) : mp_type := (ref_head [c]).1.1.

#[export] Instance ref_msgpuck : MsgPuck := {|
  mp_typeof := ref_typeof;
  mp_encode_map := ref_encode_map;
  mp_encode_array := ref_encode_array;
  mp_encode_str := ref_encode_str;
  mp_encode_bin := ref_encode_bin;
  mp_encode_uint := ref_encode_uint;
  mp_encode_int := ref_encode_int;
  mp_encode_double := tagged 0xcb 8;
  mp_encode_float := tagged 0xca 4;
  mp_encode_nil := [byte_of_Z 0xc0];
  mp_encode_bool b := [byte_of_Z (if b then 0xc3 else 0xc2)];
  mp_decode_map := ref_int;
  mp_decode_array := ref_int;
  mp_decode_str := ref_chars;
  mp_decode_bin := ref_chars;
  mpk_decode_uint := ref_int;
  mp_decode_int := ref_int;
  mp_decode_double := ref_int;
  mp_decode_float := ref_int;
  mp_decode_bool data := let '(n, r) := ref_int data in (negb (n =? 0), r);
  mp_next data := ref_skip (length data) 1 data;
  mp_sizeof_uint n := Z.of_nat (length (ref_encode_uint n));
  mp_sizeof_int n := Z.of_nat (length (ref_encode_int n));
  mp_sizeof_bool _ := 1;
  mp_sizeof_double _ := 9;
  mp_sizeof_float _ := 5;
  mp_sizeof_str n := Z.of_nat (length (ref_str_head n));
  mp_sizeof_nil := 1
|}.

(** ** The contract *)

Arguments be_bytes : simpl never.

(** The integer read back by a big-endian head. *)
Ltac solve_be :=
  rewrite ?take_app_exact, ?drop_app_exact by (symmetry; apply length_be_bytes);
  repeat match goal with
  | |- context [be_val (be_bytes ?n ?z)] =>
      rewrite (be_val_bytes_small n z) by
        (let v := eval vm_compute in (256 ^ Z.of_nat n) in
         change (256 ^ Z.of_nat n) with v; lia)
  | |- context [256 ^ Z.of_nat ?n] =>
      let v := eval vm_compute in (256 ^ Z.of_nat n) in change (256 ^ Z.of_nat n) with v
  end.

(** Evaluate [ref_head] on an encoded head whose ranges are known. *)
Ltac solve_head :=
  repeat match goal with
  | |- context [if ?a <? ?b then _ else _] => destruct (Z.ltb_spec a b)
  | |- context [if ?a <=? ?b then _ else _] => destruct (Z.leb_spec a b)
  end; unfold tagged; rewrite <- app_comm_cons; unfold ref_head; rewrite byte_val_of_Z;
  try (rewrite Z.mod_small by lia);
  repeat match goal with
  | |- context [if ?a <? ?b then _ else _] => destruct (Z.ltb_spec a b); try lia
  | |- context [if ?a =? ?b then _ else _] => destruct (Z.eqb_spec a b); try lia
  | |- context [if ?a <=? ?b then _ else _] => destruct (Z.leb_spec a b); try lia
  end; solve_be; simpl app; f_equal; f_equal; lia.

Lemma ref_head_uint n rest :
  0 <= n < 2 ^ 64 -> ref_head (ref_encode_uint n ++ rest) = ((MP_UINT, n), rest).
Proof. intros. unfold ref_encode_uint. solve_head. Qed.

Lemma ref_head_int n rest :
  - 2 ^ 63 <= n < 0 -> ref_head (ref_encode_int n ++ rest) = ((MP_INT, n), rest).
Proof. intros. unfold ref_encode_int. solve_head. Qed.

Lemma ref_head_str n rest :
  0 <= n < 2 ^ 32 -> ref_head (ref_str_head n ++ rest) = ((MP_STR, n), rest).
Proof. intros. unfold ref_str_head. solve_head. Qed.

Lemma ref_head_bin n rest :
  0 <= n < 2 ^ 32 -> ref_head (ref_bin_head n ++ rest) = ((MP_BIN, n), rest).
Proof. intros. unfold ref_bin_head. solve_head. Qed.

Lemma ref_head_array n rest :
  0 <= n < 2 ^ 32 -> ref_head (ref_encode_array n ++ rest) = ((MP_ARRAY, n), rest).
Proof. intros. unfold ref_encode_array. solve_head. Qed.

Lemma ref_head_map n rest :
  0 <= n < 2 ^ 32 -> ref_head (ref_encode_map n ++ rest) = ((MP_MAP, n), rest).
Proof. intros. unfold ref_encode_map. solve_head. Qed.

Lemma ref_head_double n rest :
  0 <= n < 2 ^ 64 -> ref_head (tagged 0xcb 8 n ++ rest) = ((MP_DOUBLE, n), rest).
Proof. intros. solve_head. Qed.

Lemma ref_head_float n rest :
  0 <= n < 2 ^ 32 -> ref_head (tagged 0xca 4 n ++ rest) = ((MP_FLOAT, n), rest).
Proof. intros. solve_head. Qed.

(** The integer in the head of a value. *)
Definition head_int (v : mpval) : Z :=
  match v with
  | VNil => 0
  | VBool b => if b then 1 else 0
  | VUint n | VInt n | VFloat n | VDouble n => n
  | VStr s | VBin s => Z.of_nat (length s)
  | VArr l => Z.of_nat (length l)
  | VMap l => Z.of_nat (length l)
  end.

(** What follows the head. *)
Definition head_rest (v : mpval) : bytes :=
  match v with
  | VStr s | VBin s => s
  | VArr l => concat (map mp_enc l)
  | VMap l => mp_enc_kvs l
  | _ => []
  end.

Lemma ref_head_enc v rest :
  mp_wf v -> ref_head (mp_enc v ++ rest) = ((mpval_type v, head_int v), head_rest v ++ rest).
Proof.
  intros H. destruct v as [|b| | | | |s|s|l|l]; cbn [mp_enc mpval_type head_int head_rest].
  - done.
  - by destruct b.
  - by apply ref_head_uint.
  - by apply ref_head_int.
  - by apply ref_head_float.
  - by apply ref_head_double.
  - cbn. unfold ref_encode_str. rewrite Nat2Z.id, firstn_all, <- app_assoc.
    apply ref_head_str. cbn in H. lia.
  - cbn. unfold ref_encode_bin. rewrite Nat2Z.id, firstn_all, <- app_assoc.
    apply ref_head_bin. cbn in H. lia.
  - apply mp_wf_arr in H as [? _]. rewrite <- app_assoc. apply ref_head_array. lia.
  - apply mp_wf_map in H as [? _]. rewrite <- app_assoc. apply ref_head_map. lia.
Qed.

Lemma mp_enc_cons v : exists c r, mp_enc v = c :: r.
Proof.
  assert (mp_enc v <> []) as H; [|destruct (mp_enc v); [done|eauto]].
  destruct v as [|b| | | | | | | |]; cbn; try done.
  all: unfold ref_encode_uint, ref_encode_int, ref_encode_str, ref_encode_bin, ref_str_head,
         ref_bin_head, ref_encode_array, ref_encode_map;
    repeat (match goal with |- context [if ?c then _ else _] => destruct c end); done.
Qed.

Lemma ref_head_type c r : (ref_head (c :: r)).1.1 = ref_typeof c.
Proof.
  unfold ref_typeof, ref_head. cbv zeta.
  repeat (match goal with |- context [if ?b then _ else _] => destruct b end; [done|]). done.
Qed.

Lemma ref_typeof_enc v rest :
  mp_wf v -> ref_typeof (hd NUL (mp_enc v ++ rest)) = mpval_type v.
Proof.
  intros H. pose proof (ref_head_enc v rest H) as E.
  destruct (mp_enc_cons v) as (c & r & Ec). rewrite Ec in *. cbn [hd app] in *.
  rewrite <- (ref_head_type c (r ++ rest)). by rewrite E.
Qed.

(** Skipping one value consumes exactly its encoding, with fuel to spare. *)
Definition skips (v : mpval) : Prop := forall fuel k rest,
  mp_wf v -> 0 < k -> (length (mp_enc v ++ rest) <= fuel)%nat ->
  exists fuel', (length rest <= fuel')%nat
    /\ ref_skip fuel k (mp_enc v ++ rest) = ref_skip fuel' (k - 1) rest.

Lemma skips_list l :
  Forall skips l -> Forall mp_wf l -> forall fuel k rest,
  Z.of_nat (length l) <= k -> (length (concat (map mp_enc l) ++ rest) <= fuel)%nat ->
  exists fuel', (length rest <= fuel')%nat
    /\ ref_skip fuel k (concat (map mp_enc l) ++ rest) = ref_skip fuel' (k - Z.of_nat (length l)) rest.
Proof.
  induction 1 as [|v l Hv _ IH]; intros Hw fuel k rest Hk L; simpl in *.
  - exists fuel. split; [done|]. by rewrite Z.sub_0_r.
  - apply Forall_cons in Hw as [Hwv Hwl]. rewrite <- app_assoc in *.
    destruct (Hv fuel k (concat (map mp_enc l) ++ rest)) as (f1 & L1 & E1); [done|lia|done|].
    destruct (IH Hwl f1 (k - 1) rest) as (f2 & L2 & E2); [lia|done|].
    exists f2. split; [done|]. rewrite E1, E2. f_equal. lia.
Qed.

(** A map is skipped like the list of its keys and values. *)
Definition flat (l : list (mpval * mpval)) : list mpval := concat (map (fun kv => [kv.1; kv.2]) l).

Lemma flat_enc l : mp_enc_kvs l = concat (map mp_enc (flat l)).
Proof.
  induction l as [|[k v] l IH]; [done|]. rewrite mp_enc_kvs_cons, IH. done.
Qed.

Lemma flat_length l : length (flat l) = (2 * length l)%nat.
Proof. induction l as [|kv l IH]; [done|]. unfold flat in *. simpl in *. lia. Qed.

Lemma flat_Forall (P : mpval -> Prop) l :
  Forall (fun kv => P kv.1 /\ P kv.2) l -> Forall P (flat l).
Proof. induction 1 as [|kv l [H1 H2] _ IH]; simpl; repeat constructor; done. Qed.

Lemma ref_skip_step fuel k v rest :
  mp_wf v -> 0 < k ->
  ref_skip (S fuel) k (mp_enc v ++ rest)
  = match v with
    | VArr l => ref_skip fuel (k - 1 + Z.of_nat (length l)) (concat (map mp_enc l) ++ rest)
    | VMap l => ref_skip fuel (k - 1 + 2 * Z.of_nat (length l)) (mp_enc_kvs l ++ rest)
    | _ => ref_skip fuel (k - 1) rest
    end.
Proof.
  intros Hw Hk. cbn [ref_skip]. destruct (Z.leb_spec k 0); [lia|].
  rewrite ref_head_enc by done. destruct v; cbn [mpval_type head_int head_rest app]; try done.
  all: by rewrite drop_app_exact by lia.
Qed.

Lemma skips_all v : skips v.
Proof.
  induction v as [|b| | | | |s|s|l IH|l IH] using mpval_deep_ind; intros fuel k rest Hw Hk L.
  all: destruct (mp_enc_cons (ltac:(match goal with H : mp_wf ?v |- _ => exact v end)))
         as (c & r & Ec).
  all: destruct fuel as [|fuel]; [rewrite Ec in L; simpl in L; lia|].
  all: rewrite ref_skip_step by done.
  1-8: exists fuel; split; [rewrite Ec in L; simpl in L; rewrite length_app in L; lia|done].
  - apply mp_wf_arr in Hw as [Hn Hw].
    destruct (skips_list l IH Hw fuel (k - 1 + Z.of_nat (length l)) rest) as (f & Lf & E).
    + lia.
    + cbn [mp_enc] in L. rewrite <- app_assoc, length_app in L.
      destruct (mp_enc_cons (VArr [])) as (? & ? & _).
      assert (1 <= length (mp_encode_array (Z.of_nat (length l))))%nat; [|lia].
      cbn. unfold ref_encode_array.
      repeat (match goal with |- context [if ?c then _ else _] => destruct c end);
        simpl; lia.
    + exists f. split; [done|]. rewrite E. f_equal. lia.
  - apply mp_wf_map in Hw as [Hn Hw].
    destruct (skips_list (flat l) (flat_Forall _ _ IH) (flat_Forall _ _ Hw) fuel
                (k - 1 + 2 * Z.of_nat (length l)) rest) as (f & Lf & E).
    + rewrite flat_length. lia.
    + rewrite <- flat_enc. cbn [mp_enc] in L. fold (mp_enc_kvs l) in L.
      rewrite <- app_assoc, length_app in L.
      assert (1 <= length (mp_encode_map (Z.of_nat (length l))))%nat; [|lia].
      cbn. unfold ref_encode_map.
      repeat (match goal with |- context [if ?c then _ else _] => destruct c end);
        simpl; lia.
    + exists f. split; [done|]. rewrite flat_enc, E, flat_length. f_equal. lia.
Qed.

Lemma ref_next_enc v rest :
  mp_wf v -> ref_skip (length (mp_enc v ++ rest)) 1 (mp_enc v ++ rest) = rest.
Proof.
  intros H. destruct (skips_all v (length (mp_enc v ++ rest)) 1 rest) as (f & _ & ->); [done|lia|done|].
  by destruct f.
Qed.

#[export] Instance ref_msgpuck_laws : MsgPuckLaws ref_msgpuck.
Proof.
  split.
  - intros v. by destruct (mp_enc_cons v) as (c & r & ->).
  - apply ref_typeof_enc.
  - intros n rest H. cbn. unfold ref_int. by rewrite ref_head_map.
  - intros n rest H. cbn. unfold ref_int. by rewrite ref_head_array.
  - intros s rest H. change (ref_chars (mp_enc (VStr s) ++ rest) = (s ++ rest, Z.of_nat (length s), rest)).
    unfold ref_chars. rewrite ref_head_enc by done. cbn [head_int head_rest].
    by rewrite drop_app_exact by lia.
  - intros s rest H. change (ref_chars (mp_enc (VBin s) ++ rest) = (s ++ rest, Z.of_nat (length s), rest)).
    unfold ref_chars. rewrite ref_head_enc by done. cbn [head_int head_rest].
    by rewrite drop_app_exact by lia.
  - intros n rest H. cbn. unfold ref_int. by rewrite ref_head_uint.
  - intros n rest H. cbn. unfold ref_int. by rewrite ref_head_int.
  - intros n rest H. cbn [mp_encode_double mp_decode_double ref_msgpuck]. unfold ref_int.
    by rewrite ref_head_double.
  - intros n rest H. cbn [mp_encode_float mp_decode_float ref_msgpuck]. unfold ref_int.
    by rewrite ref_head_float.
  - by intros [] rest.
  - apply ref_next_enc.
  - intros s len H. cbn. unfold ref_encode_str. by rewrite take_idemp.
  - intros s len H. cbn. unfold ref_encode_bin. by rewrite take_idemp.
  - done.
  - by intros [].
  - done.
  - intros s H. cbn. unfold ref_encode_str. rewrite length_app, length_take. lia.
Qed.
