(* ===== verification/Coder.v ===== *)
(** runtime/north/coder/cc_coder_msgpuck.c: the coder of every message and of the
    stored state, written on msgpuck ([MsgPuck]).

    A writer [char *buffer] is the bytes written so far and an encoder appends to
    them; the capacity of the buffer is checked where the buffer is sent
    (Transport.v).  A reader [char *buffer] is the bytes from the pointer to the
    end of the received message; [None] is [CC_FAIL], and a string comes out as
    the pointer to its first byte, inside the message, with its length. *)
From S2P Require Import Prelude CString MsgPuck.

Inductive cc_coder_type_t :=
  | CC_CODER_UNDEF | CC_CODER_FLOAT | CC_CODER_DOUBLE | CC_CODER_INT | CC_CODER_UINT
  | CC_CODER_STR | CC_CODER_BOOL | CC_CODER_ARRAY | CC_CODER_BIN | CC_CODER_MAP | CC_CODER_NIL.
#[export] Instance cc_coder_type_eq_decision : EqDecision cc_coder_type_t.
Proof. solve_decision. Defined.

(** ** Casts from floating point: the value cut toward zero, undefined when it
    does not fit *)

Definition ieee_trunc (mant_bits exp_bits : Z) (bits : Z) : option Z :=
  let m := bits mod 2 ^ mant_bits in
  let e := (bits / 2 ^ mant_bits) mod 2 ^ exp_bits in
  let sign := bits / 2 ^ (mant_bits + exp_bits) in
  if e =? 2 ^ exp_bits - 1 then None
  else
    let bias := 2 ^ (exp_bits - 1) - 1 in
    let mant := if e =? 0 then m else m + 2 ^ mant_bits in
    let v := Z.shiftl mant (Z.max e 1 - bias - mant_bits) in
    Some (if sign =? 0 then v else - v).

Definition to_u32 (v : option Z) : outcome Z :=
  match v with
  | Some t => if (0 <=? t) && (t <? 2 ^ 32) then Ok t else Ub BadCast
  | None => Ub BadCast
  end.

Definition double_to_u32 (bits : Z) : outcome Z := to_u32 (ieee_trunc 52 11 bits).
Definition float_to_u32 (bits : Z) : outcome Z := to_u32 (ieee_trunc 23 8 bits).

(** A string of a message: its bytes from the pointer on, and its length. *)
Abbreviation msg_str := (bytes * nat)%type.

Section coder.
Context `{MP : MsgPuck}.

(** ** Sizes *)
Definition cc_coder_sizeof_uint (value : Z) : Z := mp_sizeof_uint value.
Definition cc_coder_sizeof_int (value : Z) : Z := mp_sizeof_int value.
Definition cc_coder_sizeof_bool (value : bool) : Z := mp_sizeof_bool value.
Definition cc_coder_sizeof_double (value : Z) : Z := mp_sizeof_double value.
Definition cc_coder_sizeof_float (value : Z) : Z := mp_sizeof_float value.
Definition cc_coder_sizeof_str (len : Z) : Z := u32 (mp_sizeof_str len + len).
Definition cc_coder_sizeof_nil : Z := mp_sizeof_nil.

(** ** Encoders *)
Definition cc_coder_encode_map (buffer : bytes) (items : Z) : bytes :=
  buffer ++ mp_encode_map items.
Definition cc_coder_encode_str (buffer data : bytes) (len : nat) : bytes :=
  buffer ++ mp_encode_str data (Z.of_nat len).
Definition cc_coder_encode_bin (buffer data : bytes) (len : nat) : bytes :=
  buffer ++ mp_encode_bin data (Z.of_nat len).
Definition cc_coder_encode_uint (buffer : bytes) (data : Z) : bytes :=
  buffer ++ mp_encode_uint data.
(** The integer is passed as a [uint32_t]. *)
Definition cc_coder_encode_int (buffer : bytes) (data : Z) : bytes :=
  buffer ++ mp_encode_int (u32 data).
Definition cc_coder_encode_double (buffer : bytes) (data : Z) : bytes :=
  buffer ++ mp_encode_double data.
Definition cc_coder_encode_float (buffer : bytes) (data : Z) : bytes :=
  buffer ++ mp_encode_float data.
Definition cc_coder_encode_nil (buffer : bytes) : bytes := buffer ++ mp_encode_nil.
Definition cc_coder_encode_array (buffer : bytes) (items : Z) : bytes :=
  buffer ++ mp_encode_array items.
Definition cc_coder_encode_bool (buffer : bytes) (value : bool) : bytes :=
  buffer ++ mp_encode_bool value.

(** The key of an entry: [mp_encode_str(buffer, key, strlen(key))]. *)
Definition encode_key (buffer key : bytes) : bytes :=
  buffer ++ mp_encode_str key (Z.of_nat (strlen key)).

Definition cc_coder_encode_kv_str (buffer key value : bytes) (value_len : nat) : bytes :=
  encode_key buffer key ++ mp_encode_str value (Z.of_nat value_len).
Definition cc_coder_encode_kv_bin (buffer key value : bytes) (value_len : nat) : bytes :=
  encode_key buffer key ++ mp_encode_bin value (Z.of_nat value_len).
Definition cc_coder_encode_kv_uint (buffer key : bytes) (value : Z) : bytes :=
  encode_key buffer key ++ mp_encode_uint value.
Definition cc_coder_encode_kv_int (buffer key : bytes) (value : Z) : bytes :=
  encode_key buffer key ++ mp_encode_int value.
Definition cc_coder_encode_kv_double (buffer key : bytes) (value : Z) : bytes :=
  encode_key buffer key ++ mp_encode_double value.
Definition cc_coder_encode_kv_float (buffer key : bytes) (value : Z) : bytes :=
  encode_key buffer key ++ mp_encode_float value.
Definition cc_coder_encode_kv_bool (buffer key : bytes) (value : bool) : bytes :=
  encode_key buffer key ++ mp_encode_bool value.
Definition cc_coder_encode_kv_nil (buffer key : bytes) : bytes :=
  encode_key buffer key ++ mp_encode_nil.
Definition cc_coder_encode_kv_map (buffer key : bytes) (keys : Z) : bytes :=
  encode_key buffer key ++ mp_encode_map keys.
Definition cc_coder_encode_kv_array (buffer key : bytes) (keys : Z) : bytes :=
  encode_key buffer key ++ mp_encode_array keys.
Definition cc_coder_encode_kv_value (buffer key : bytes) (value : option bytes) (size : nat)
  : bytes :=
  let buffer := encode_key buffer key in
  match value with
  | None => cc_coder_encode_nil buffer
  | Some v => buffer ++ take size v
  end.

(** ** Decoders *)
Definition cc_coder_type_of (buffer : bytes) : cc_coder_type_t :=
  match mp_typeof (hd NUL buffer) with
  | MP_FLOAT => CC_CODER_FLOAT
  | MP_DOUBLE => CC_CODER_DOUBLE
  | MP_BOOL => CC_CODER_BOOL
  | MP_INT => CC_CODER_INT
  | MP_UINT => CC_CODER_UINT
  | MP_MAP => CC_CODER_MAP
  | MP_STR => CC_CODER_STR
  | MP_NIL => CC_CODER_NIL
  | MP_BIN => CC_CODER_BIN
  | MP_ARRAY => CC_CODER_ARRAY
  | _ => CC_CODER_UNDEF
  end.

Definition is_type (r : bytes) (t : mp_type) : bool :=
  bool_decide (mp_typeof (hd NUL r) = t).

Definition cc_coder_decode_str (buffer : bytes) : option (bytes * nat) :=
  if is_type buffer MP_STR
  then let '((s, len), _) := mp_decode_str buffer in Some (s, Z.to_nat (u32 len))
  else None.

Definition cc_coder_decode_bin (buffer : bytes) : option (bytes * nat) :=
  if is_type buffer MP_BIN
  then let '((s, len), _) := mp_decode_bin buffer in Some (s, Z.to_nat (u32 len))
  else None.

Definition cc_coder_decode_bool (buffer : bytes) : option bool :=
  if is_type buffer MP_BOOL then Some (mp_decode_bool buffer).1 else None.

Definition cc_coder_decode_uint (buffer : bytes) : outcome (option Z) :=
  match mp_typeof (hd NUL buffer) with
  | MP_UINT => Ok (Some (u32 (mpk_decode_uint buffer).1))
  | MP_FLOAT => v ← float_to_u32 (mp_decode_float buffer).1; Ok (Some v)
  | MP_DOUBLE => v ← double_to_u32 (mp_decode_double buffer).1; Ok (Some v)
  | _ => Ok None
  end.

(** [int32_t]: the value modulo 2^32, in two's complement. *)
Definition i32 (z : Z) : Z := let v := u32 z in if v <? 2 ^ 31 then v else v - 2 ^ 32.

Definition cc_coder_decode_int (buffer : bytes) : option Z :=
  if is_type buffer MP_INT then Some (i32 (mp_decode_int buffer).1) else None.

Definition cc_coder_decode_float (buffer : bytes) : option Z :=
  if is_type buffer MP_FLOAT then Some (mp_decode_float buffer).1 else None.

Definition cc_coder_decode_double (buffer : bytes) : option Z :=
  if is_type buffer MP_DOUBLE then Some (mp_decode_double buffer).1 else None.

(** The loop of the lookups that skip a key that is not a string
    ([cc_coder_has_key], [cc_coder_decode_string_from_map],
    [cc_coder_decode_bin_from_map]): at a match, [found] on the value. *)
Fixpoint scan_keys {A} (n : nat) (r key : bytes) (found : bytes -> A) (none : A) : A :=
  match n with
  | O => none
  | S n' =>
      match cc_coder_decode_str r with
      | Some (tmp, len) =>
          let r := mp_next r in
          if streq_n tmp key len then found r
          else scan_keys n' (mp_next r) key found none
      | None => scan_keys n' (mp_next r) key found none
      end
  end.

(** The loop of the scalar lookups ([cc_coder_decode_uint_from_map] and the
    like): a key that is not a string is looked at again and again. *)
Fixpoint scan_str_keys {A} (n : nat) (r key : bytes) (found : bytes -> A) : option A :=
  match n with
  | O => None
  | S n' =>
      match cc_coder_decode_str r with
      | Some (tmp, len) =>
          let r := mp_next r in
          if streq_n tmp key len then Some (found r)
          else scan_str_keys n' (mp_next r) key found
      | None => scan_str_keys n' r key found
      end
  end.

Definition in_map {A} (buffer : bytes) (scan : nat -> bytes -> A) (other : A) : A :=
  if is_type buffer MP_MAP
  then let '(map_size, r) := mp_decode_map buffer in scan (Z.to_nat map_size) r
  else other.

Definition cc_coder_has_key (buffer key : bytes) : bool :=
  in_map buffer (fun n r => scan_keys n r key (fun _ => true) false) false.

Definition cc_coder_decode_string_from_map (buffer key : bytes) : option (bytes * nat) :=
  in_map buffer (fun n r => scan_keys n r key cc_coder_decode_str None) None.

Definition cc_coder_decode_bin_from_map (buffer key : bytes) : option (bytes * nat) :=
  in_map buffer (fun n r => scan_keys n r key cc_coder_decode_bin None) None.

Definition cc_coder_decode_uint_from_map (buffer key : bytes) : option Z :=
  in_map buffer (fun n r => scan_str_keys n r key (fun r => u32 (mpk_decode_uint r).1)) None.

Definition cc_coder_decode_bool_from_map (buffer key : bytes) : option bool :=
  in_map buffer (fun n r => scan_str_keys n r key (fun r => (mp_decode_bool r).1)) None.

Definition cc_coder_decode_double_from_map (buffer key : bytes) : option Z :=
  in_map buffer (fun n r => scan_str_keys n r key (fun r => (mp_decode_double r).1)) None.

Definition cc_coder_decode_float_from_map (buffer key : bytes) : option Z :=
  in_map buffer (fun n r => scan_str_keys n r key (fun r => (mp_decode_float r).1)) None.

(** The lookup that returns the value itself; it gives up at a key that is not
    a string and compares the length of the wanted key only. *)
Fixpoint scan_value (n : nat) (r key : bytes) (key_len : nat) : option bytes :=
  match n with
  | O => None
  | S n' =>
      match cc_coder_decode_str r with
      | Some (tmp_key, _) =>
          let r := mp_next r in
          if streq_n key tmp_key key_len then Some r
          else scan_value n' (mp_next r) key key_len
      | None => None
      end
  end.

Definition cc_coder_get_value_from_map_n (buffer key : bytes) (key_len : nat) : option bytes :=
  in_map buffer (fun n r => scan_value n r key key_len) None.

Definition cc_coder_get_value_from_map (buffer key : bytes) : option bytes :=
  cc_coder_get_value_from_map_n buffer key (strlen key).

Definition cc_coder_decode_map (data : bytes) : Z * bytes := mp_decode_map data.
Definition cc_coder_decode_map_next (data : bytes) : bytes := mp_next data.
Definition cc_coder_decode_array (data : bytes) : Z * bytes := mp_decode_array data.
Definition cc_coder_decode_array_next (data : bytes) : bytes := mp_next data.

Definition cc_coder_get_size_of_array (buffer : bytes) : Z := (mp_decode_array buffer).1.

Definition cc_coder_get_value_from_array (buffer : bytes) (index : nat) : option bytes :=
  let '(size, r) := mp_decode_array buffer in
  if Z.of_nat index <? size then Some (Nat.iter index mp_next r) else None.

Definition cc_coder_decode_string_from_array (buffer : bytes) (index : nat)
  : option (bytes * nat) :=
  let '(size, r) := mp_decode_array buffer in
  if Z.of_nat index <? size then cc_coder_decode_str (Nat.iter index mp_next r) else None.

Definition cc_coder_get_size_of_value (value : bytes) : nat :=
  (length value - length (mp_next value))%nat.
End coder.
