(* ===== verification/Fifo.v ===== *)
(** runtime/north/cc_token.c and cc_fifo.c: tokens and the queue of a port.

    A token holds a pointer to a buffer of the allocator ([mem]); the queue moves
    pointers and frees them, so that its operations run on [mem].  The four
    counters are 32-bit and wrap; a [% size] with [size] 0 is undefined. *)
From S2P Require Import Prelude CString MsgPuck Coder.

Abbreviation loc := positive.
(** The byte buffers obtained from [cc_platform_mem_alloc] and not freed. *)
Abbreviation mem := (gmap loc bytes).

Definition mem_free (l : loc) : M mem unit :=
  m ← get_;
  match m !! l with
  | Some _ => put_ (delete l m)
  | None => ub_ DoubleFree
  end.

Definition mem_read (l : loc) : M mem bytes := m ← get_; need UseAfterFree (m !! l).

(** ** Tokens *)

Record cc_token_t := { tok_value : option loc; tok_size : Z }.
#[export] Instance cc_token_inhabited : Inhabited cc_token_t :=
  populate {| tok_value := None; tok_size := 0 |}.
#[export] Instance cc_token_eq_decision : EqDecision cc_token_t.
Proof. solve_decision. Defined.

Definition no_token : cc_token_t := {| tok_value := None; tok_size := 0 |}.

Definition cc_token_set_data (token : cc_token_t) (data : option loc) (size : Z)
  : M mem cc_token_t :=
  match tok_value token with
  | Some v => mem_free v
  | None => mret tt
  end ;;
  mret {| tok_value := data; tok_size := size |}.

Definition cc_token_free (token : cc_token_t) : M mem cc_token_t :=
  match tok_value token with
  | Some v => mem_free v ;; mret no_token
  | None => mret token
  end.

Definition cc_token_encode `{MP : MsgPuck} (buffer : bytes) (token : cc_token_t) (with_key : bool)
  : M mem bytes :=
  let buffer := if with_key then cc_coder_encode_kv_map buffer (str "token") 2
                else cc_coder_encode_map buffer 2 in
  let buffer := cc_coder_encode_kv_str buffer (str "type") (str "Token") 5 in
  if negb (tok_size token =? 0) then
    match tok_value token with
    | Some v =>
        data ← mem_read v;
        mret (cc_coder_encode_kv_value buffer (str "data") (Some data) (Z.to_nat (tok_size token)))
    | None => mret (cc_coder_encode_kv_value buffer (str "data") None (Z.to_nat (tok_size token)))
    end
  else mret (cc_coder_encode_kv_nil buffer (str "data")).

(** ** The queue *)

Record cc_fifo_t := {
  fifo_size : Z;
  write_pos : Z;
  read_pos : Z;
  tentative_read_pos : Z;
  tokens : list cc_token_t
}.

Definition set_write_pos (v : Z) (f : cc_fifo_t) : cc_fifo_t :=
  {| fifo_size := fifo_size f; write_pos := v; read_pos := read_pos f;
     tentative_read_pos := tentative_read_pos f; tokens := tokens f |}.
Definition set_read_pos (v : Z) (f : cc_fifo_t) : cc_fifo_t :=
  {| fifo_size := fifo_size f; write_pos := write_pos f; read_pos := v;
     tentative_read_pos := tentative_read_pos f; tokens := tokens f |}.
Definition set_tentative_read_pos (v : Z) (f : cc_fifo_t) : cc_fifo_t :=
  {| fifo_size := fifo_size f; write_pos := write_pos f; read_pos := read_pos f;
     tentative_read_pos := v; tokens := tokens f |}.
Definition set_token (i : nat) (t : cc_token_t) (f : cc_fifo_t) : cc_fifo_t :=
  {| fifo_size := fifo_size f; write_pos := write_pos f; read_pos := read_pos f;
     tentative_read_pos := tentative_read_pos f; tokens := <[i := t]> (tokens f) |}.

(** The queue [cc_fifo_init_empty] and [cc_fifo_init] start from. *)
Definition new_fifo (size : Z) : cc_fifo_t :=
  {| fifo_size := size; write_pos := 0; read_pos := 0; tentative_read_pos := 0;
     tokens := replicate (Z.to_nat size) no_token |}.

(** [pos % fifo->size]. *)
Definition slot_index (f : cc_fifo_t) (pos : Z) : outcome nat :=
  if fifo_size f =? 0 then Ub DivByZero else Ok (Z.to_nat (pos mod fifo_size f)).

(** [fifo->tokens[pos % fifo->size]]. *)
Definition get_slot {S} (f : cc_fifo_t) (pos : Z) : M S (nat * cc_token_t) :=
  i ← lift_outcome (slot_index f pos);
  t ← need BufferOverflow (tokens f !! i);
  mret (i, t).

(** [cc_fifo_free]: the buffers of the queue go back to the allocator. *)
Definition cc_fifo_free (f : cc_fifo_t) : M mem unit :=
  foldr (fun t k => cc_token_free t ;; k) (mret tt) (take (Z.to_nat (fifo_size f)) (tokens f)).

Definition cc_fifo_cancel (f : cc_fifo_t) : cc_fifo_t := set_tentative_read_pos (read_pos f) f.

Definition cc_fifo_peek {S} (f : cc_fifo_t) : M S (cc_fifo_t * cc_token_t) :=
  let pos := tentative_read_pos f in
  '(_, t) ← get_slot f pos;
  mret (set_tentative_read_pos (u32 (pos + 1)) f, t).

Definition cc_fifo_commit_read (f : cc_fifo_t) (free_token : bool) : M mem cc_fifo_t :=
  if read_pos f <? tentative_read_pos f then
    '(i, t) ← get_slot f (read_pos f);
    t' ← (if free_token then cc_token_free t else mret no_token);
    mret (set_read_pos (u32 (read_pos f + 1)) (set_token i t' f))
  else mret f.

Definition cc_fifo_cancel_commit (f : cc_fifo_t) : cc_fifo_t :=
  set_tentative_read_pos (read_pos f) f.

Definition cc_fifo_slots_available (f : cc_fifo_t) (length : Z) : outcome bool :=
  if fifo_size f =? 0 then Ub DivByZero
  else Ok (length <=? u32 (fifo_size f - (u32 (write_pos f - read_pos f)) mod fifo_size f - 1)).

Definition cc_fifo_tokens_available (f : cc_fifo_t) (length : Z) : bool :=
  length <=? u32 (write_pos f - tentative_read_pos f).

Definition cc_fifo_write (f : cc_fifo_t) (data : option loc) (size : Z)
  : M mem (cc_result_t * cc_fifo_t) :=
  free ← lift_outcome (cc_fifo_slots_available f 1);
  if negb free then mret (CC_FAIL, f)
  else
    '(i, t) ← get_slot f (write_pos f);
    t' ← cc_token_set_data t data size;
    mret (CC_SUCCESS, set_write_pos (u32 (write_pos f + 1)) (set_token i t' f)).

(** The token to send and its sequence number. *)
Definition cc_fifo_com_peek {S} (f : cc_fifo_t) : M S (cc_fifo_t * (cc_token_t * Z)) :=
  let sequence_nbr := tentative_read_pos f in
  '(f', t) ← cc_fifo_peek f;
  mret (f', (t, sequence_nbr)).

Definition cc_fifo_com_write (f : cc_fifo_t) (data : option loc) (size sequence_nbr : Z)
  : M mem (cc_result_t * cc_fifo_t) :=
  if write_pos f <=? sequence_nbr then
    '(_, f') ← cc_fifo_write f data size;
    mret (CC_SUCCESS, f')
  else mret (CC_SUCCESS, f).

Definition cc_fifo_com_commit_read (f : cc_fifo_t) (sequence_nbr : Z) : M mem cc_fifo_t :=
  if tentative_read_pos f <=? sequence_nbr then mret f
  else if (read_pos f <? tentative_read_pos f) && (sequence_nbr =? read_pos f) then
    '(i, t) ← get_slot f (read_pos f);
    t' ← cc_token_free t;
    mret (set_read_pos (u32 (read_pos f + 1)) (set_token i t' f))
  else mret f.

Definition cc_fifo_com_cancel_read (f : cc_fifo_t) (sequence_nbr : Z) : cc_fifo_t :=
  if (tentative_read_pos f <=? sequence_nbr) && (sequence_nbr <? read_pos f) then f
  else set_tentative_read_pos sequence_nbr f.
