(* ===== verification/Machine.v ===== *)
(** The state of a runtime: the structures of cc_link.h, cc_tunnel.h, cc_port.h,
    cc_actor.h, cc_transport.h, cc_node.h and cc_calvinsys.h, the heap they live
    in, and the calls to the platform.

    A C pointer to a structure is an address ([loc]) into the heap of that kind
    of structure, [None] for NULL; freeing a structure removes it, and reading or
    writing a freed one is undefined behaviour.  The platform (allocator, random
    numbers, clock, transport) is the class [Platform]: the n-th call of a run
    gets the n-th answer, and every theorem holds for all answers. *)
From S2P Require Import Prelude CString Common MsgPuck Coder Fifo.

(** ** The platform *)

Class Platform := {
  plat_alloc : nat -> bool;        (* does the allocation succeed? *)
  plat_rand : nat -> Z;            (* rand() *)
  plat_time : nat -> Z;            (* cc_platform_get_time() *)
  plat_send : nat -> bytes -> Z;   (* transport_client->send(buffer, size) *)
  plat_recv : nat -> bytes         (* what transport_client->recv can deliver *)
}.

(** ** Structures *)

Record cc_link_t := {
  link_peer_id : bytes;        (* char[CC_UUID_BUFFER_SIZE] *)
  link_ref_count : Z;          (* uint8_t *)
  link_is_proxy : bool
}.

(** The [_RAW] constructors of the enumerations are the integers that name no
    constant: a stored state is cast to the enumeration unchecked. *)
Inductive cc_tunnel_state_t :=
  | CC_TUNNEL_DISCONNECTED | CC_TUNNEL_ENABLED | CC_TUNNEL_PENDING | CC_TUNNEL_STATE_RAW (n : Z).
Inductive cc_tunnel_type_t :=
  | CC_TUNNEL_TYPE_STORAGE | CC_TUNNEL_TYPE_TOKEN | CC_TUNNEL_TYPE_PROXY | CC_TUNNEL_TYPE_RAW (n : Z).
#[export] Instance cc_tunnel_state_eq_decision : EqDecision cc_tunnel_state_t.
Proof. solve_decision. Defined.
#[export] Instance cc_tunnel_type_eq_decision : EqDecision cc_tunnel_type_t.
Proof. solve_decision. Defined.

Record cc_tunnel_t := {
  tunnel_id : bytes;           (* char[CC_UUID_BUFFER_SIZE] *)
  tunnel_link : option loc;
  tunnel_state : cc_tunnel_state_t;
  tunnel_ref_count : Z;        (* uint8_t *)
  tunnel_type : cc_tunnel_type_t
}.

Inductive cc_port_direction_t := CC_PORT_DIRECTION_IN | CC_PORT_DIRECTION_OUT.
Inductive cc_port_state_t :=
  | CC_PORT_DISCONNECTED | CC_PORT_ENABLED | CC_PORT_PENDING_LOOKUP | CC_PORT_PENDING_TUNNEL
  | CC_PORT_PENDING_CONNECT | CC_PORT_DO_DELETE | CC_PORT_STATE_RAW (n : Z).
Inductive cc_port_reply_type_t :=
  | CC_PORT_REPLY_TYPE_ACK | CC_PORT_REPLY_TYPE_NACK | CC_PORT_REPLY_TYPE_ABORT.
#[export] Instance cc_port_direction_eq_decision : EqDecision cc_port_direction_t.
Proof. solve_decision. Defined.
#[export] Instance cc_port_state_eq_decision : EqDecision cc_port_state_t.
Proof. solve_decision. Defined.

Definition CC_MAX_PORT_NAME_LENGTH : nat := 20.

Record cc_port_t := {
  port_id : bytes;             (* char[CC_UUID_BUFFER_SIZE] *)
  port_name : bytes;           (* char[CC_MAX_PORT_NAME_LENGTH] *)
  port_peer_port_id : bytes;   (* char[CC_UUID_BUFFER_SIZE] *)
  port_peer_id : bytes;        (* char[CC_UUID_BUFFER_SIZE] *)
  port_direction : cc_port_direction_t;
  port_peer_port : option loc;
  port_tunnel : option loc;
  port_state : cc_port_state_t;
  port_fifo : option cc_fifo_t;
  port_retries : Z;            (* uint8_t *)
  port_actor : loc
}.

Inductive cc_actor_state_t :=
  | CC_ACTOR_PENDING | CC_ACTOR_PENDING_IMPL | CC_ACTOR_ENABLED | CC_ACTOR_DO_DELETE.
Inductive cc_state_was_t := CC_STATE_WAS_ACTOR | CC_STATE_WAS_SHADOW | CC_STATE_WAS_REPLICA.
#[export] Instance cc_actor_state_eq_decision : EqDecision cc_actor_state_t.
Proof. solve_decision. Defined.

(** [actor->in_ports] and [actor->out_ports] hold pointers to the ports under
    their [id] arrays; the attribute lists own an encoded value each. *)
Record cc_actor_t := {
  actor_type : bytes;
  actor_id : option bytes;
  actor_name : option bytes;
  actor_state_was : cc_state_was_t;
  actor_state : cc_actor_state_t;
  actor_in_ports : list loc;
  actor_out_ports : list loc;
  actor_private_attributes : list (cc_list_t bytes);
  actor_managed_attributes : list (cc_list_t bytes)
}.

Inductive cc_transport_state_t :=
  | CC_TRANSPORT_INTERFACE_DOWN | CC_TRANSPORT_INTERFACE_UP | CC_TRANSPORT_CONNECTED
  | CC_TRANSPORT_DISCONNECTED | CC_TRANSPORT_PENDING | CC_TRANSPORT_ENABLED.
#[export] Instance cc_transport_state_eq_decision : EqDecision cc_transport_state_t.
Proof. solve_decision. Defined.

(** [cc_transport_buffer_t]: the message under assembly. *)
Record cc_transport_buffer_t := {
  rx_data : option bytes;      (* buffer: the bytes of the allocated block *)
  rx_pos : Z;
  rx_size : Z
}.

Inductive cc_transport_type_t :=
  | CC_TRANSPORT_SOCKET_TYPE | CC_TRANSPORT_BT_TYPE | CC_TRANSPORT_FCM_TYPE | CC_TRANSPORT_SPRITZER_TYPE.

Record cc_transport_client_t := {
  tc_transport_type : cc_transport_type_t;
  tc_uri : bytes;              (* char[CC_MAX_URI_LEN] *)
  tc_peer_id : bytes;          (* char[CC_UUID_BUFFER_SIZE] *)
  tc_state : cc_transport_state_t;
  tc_rx_buffer : cc_transport_buffer_t;
  tc_prefix_len : nat          (* uint8_t *)
}.

(** The reply handlers a request can leave behind, and the pointer kept for them. *)
Inductive cc_msg_handler_t :=
  | H_port_remove_reply | H_port_disconnect_reply | H_port_store_reply
  | H_port_get_peer_port_reply | H_port_connect_reply
  | H_tunnel_destroy | H_tunnel_request
  | H_actor_req_match_reply | H_actor_remove_reply | H_actor_migrate_reply | H_actor_set_reply
  | H_node_setup_reply | H_node_enter_sleep_reply | H_replica_remove_reply | H_platform_setup_reply
  | H_get_compiled_actor_reply.

Inductive msg_data_t :=
  | MD_null
  | MD_tunnel (l : loc) | MD_tunnel_id (l : loc)
  | MD_port_id (l : loc) | MD_actor_id (l : loc).

Record cc_pending_msg_t := { pm_handler : cc_msg_handler_t; pm_msg_data : msg_data_t }.

Inductive cc_node_state_t :=
  | CC_NODE_DO_START | CC_NODE_DO_SLEEP | CC_NODE_PENDING | CC_NODE_STARTED | CC_NODE_STOP
  | CC_NODE_STATE_RAW (n : Z).
Inductive cc_node_stop_method_t := CC_NODE_STOP_CLEAN | CC_NODE_STOP_MIGRATE.
#[export] Instance cc_node_state_eq_decision : EqDecision cc_node_state_t.
Proof. solve_decision. Defined.

Record cc_node_t := {
  node_state : cc_node_state_t;
  node_stop_method : cc_node_stop_method_t;
  node_id : bytes;             (* char[CC_UUID_BUFFER_SIZE] *)
  node_attributes : option bytes;
  node_pending_msgs : list (cc_list_t cc_pending_msg_t);
  node_proxy_link : option loc;
  node_links : list loc;
  node_storage_tunnel : option loc;
  node_proxy_tunnel : option loc;
  node_tunnels : list loc;
  node_actors : list loc;
  node_transport_client : option cc_transport_client_t;
  node_capabilities : list (cc_list_t unit);
  node_proxy_uris : list (cc_list_t unit);
  node_seconds_since_epoch : Z;
  node_time_at_sync : Z
}.

(** The whole state: the node, the heaps, and what was sent. *)
Record world := {
  w_node : cc_node_t;
  w_links : gmap loc cc_link_t;
  w_tunnels : gmap loc cc_tunnel_t;
  w_ports : gmap loc cc_port_t;
  w_actors : gmap loc cc_actor_t;
  w_mem : mem;
  w_next : loc;                (* the next fresh address *)
  w_calls : nat;               (* platform calls made *)
  w_sent : list bytes          (* buffers given to transport_client->send, in order *)
}.

Abbreviation W := (M world).

(** ** Updates *)

Definition set_node (n : cc_node_t) (w : world) : world :=
  {| w_node := n; w_links := w_links w; w_tunnels := w_tunnels w; w_ports := w_ports w;
     w_actors := w_actors w; w_mem := w_mem w; w_next := w_next w; w_calls := w_calls w;
     w_sent := w_sent w |}.
Definition set_links (x : gmap loc cc_link_t) (w : world) : world :=
  {| w_node := w_node w; w_links := x; w_tunnels := w_tunnels w; w_ports := w_ports w;
     w_actors := w_actors w; w_mem := w_mem w; w_next := w_next w; w_calls := w_calls w;
     w_sent := w_sent w |}.
Definition set_tunnels (x : gmap loc cc_tunnel_t) (w : world) : world :=
  {| w_node := w_node w; w_links := w_links w; w_tunnels := x; w_ports := w_ports w;
     w_actors := w_actors w; w_mem := w_mem w; w_next := w_next w; w_calls := w_calls w;
     w_sent := w_sent w |}.
Definition set_ports (x : gmap loc cc_port_t) (w : world) : world :=
  {| w_node := w_node w; w_links := w_links w; w_tunnels := w_tunnels w; w_ports := x;
     w_actors := w_actors w; w_mem := w_mem w; w_next := w_next w; w_calls := w_calls w;
     w_sent := w_sent w |}.
Definition set_actors (x : gmap loc cc_actor_t) (w : world) : world :=
  {| w_node := w_node w; w_links := w_links w; w_tunnels := w_tunnels w; w_ports := w_ports w;
     w_actors := x; w_mem := w_mem w; w_next := w_next w; w_calls := w_calls w;
     w_sent := w_sent w |}.
Definition set_mem (x : mem) (w : world) : world :=
  {| w_node := w_node w; w_links := w_links w; w_tunnels := w_tunnels w; w_ports := w_ports w;
     w_actors := w_actors w; w_mem := x; w_next := w_next w; w_calls := w_calls w;
     w_sent := w_sent w |}.
Definition set_next (x : loc) (w : world) : world :=
  {| w_node := w_node w; w_links := w_links w; w_tunnels := w_tunnels w; w_ports := w_ports w;
     w_actors := w_actors w; w_mem := w_mem w; w_next := x; w_calls := w_calls w;
     w_sent := w_sent w |}.
Definition set_calls (x : nat) (w : world) : world :=
  {| w_node := w_node w; w_links := w_links w; w_tunnels := w_tunnels w; w_ports := w_ports w;
     w_actors := w_actors w; w_mem := w_mem w; w_next := w_next w; w_calls := x;
     w_sent := w_sent w |}.
Definition set_sent (x : list bytes) (w : world) : world :=
  {| w_node := w_node w; w_links := w_links w; w_tunnels := w_tunnels w; w_ports := w_ports w;
     w_actors := w_actors w; w_mem := w_mem w; w_next := w_next w; w_calls := w_calls w;
     w_sent := x |}.

(** Field assignments. *)
Definition set_link_ref_count (v : Z) (x : cc_link_t) : cc_link_t :=
  {| link_peer_id := link_peer_id x; link_ref_count := v; link_is_proxy := link_is_proxy x |}.
Definition set_tunnel_id (v : bytes) (x : cc_tunnel_t) : cc_tunnel_t :=
  {| tunnel_id := v; tunnel_link := tunnel_link x; tunnel_state := tunnel_state x;
     tunnel_ref_count := tunnel_ref_count x; tunnel_type := tunnel_type x |}.
Definition set_tunnel_state (v : cc_tunnel_state_t) (x : cc_tunnel_t) : cc_tunnel_t :=
  {| tunnel_id := tunnel_id x; tunnel_link := tunnel_link x; tunnel_state := v;
     tunnel_ref_count := tunnel_ref_count x; tunnel_type := tunnel_type x |}.
Definition set_tunnel_ref_count (v : Z) (x : cc_tunnel_t) : cc_tunnel_t :=
  {| tunnel_id := tunnel_id x; tunnel_link := tunnel_link x; tunnel_state := tunnel_state x;
     tunnel_ref_count := v; tunnel_type := tunnel_type x |}.
Definition set_port_peer_port_id (v : bytes) (x : cc_port_t) : cc_port_t :=
  {| port_id := port_id x; port_name := port_name x; port_peer_port_id := v; port_peer_id :=
     port_peer_id x; port_direction := port_direction x; port_peer_port := port_peer_port x;
     port_tunnel := port_tunnel x; port_state := port_state x; port_fifo := port_fifo x;
     port_retries := port_retries x; port_actor := port_actor x |}.
Definition set_port_peer_id (v : bytes) (x : cc_port_t) : cc_port_t :=
  {| port_id := port_id x; port_name := port_name x; port_peer_port_id := port_peer_port_id x;
     port_peer_id := v; port_direction := port_direction x; port_peer_port := port_peer_port
     x; port_tunnel := port_tunnel x; port_state := port_state x; port_fifo := port_fifo x;
     port_retries := port_retries x; port_actor := port_actor x |}.
Definition set_port_peer_port (v : option loc) (x : cc_port_t) : cc_port_t :=
  {| port_id := port_id x; port_name := port_name x; port_peer_port_id := port_peer_port_id x;
     port_peer_id := port_peer_id x; port_direction := port_direction x; port_peer_port := v;
     port_tunnel := port_tunnel x; port_state := port_state x; port_fifo := port_fifo x;
     port_retries := port_retries x; port_actor := port_actor x |}.
Definition set_port_tunnel (v : option loc) (x : cc_port_t) : cc_port_t :=
  {| port_id := port_id x; port_name := port_name x; port_peer_port_id := port_peer_port_id x;
     port_peer_id := port_peer_id x; port_direction := port_direction x; port_peer_port :=
     port_peer_port x; port_tunnel := v; port_state := port_state x; port_fifo := port_fifo x;
     port_retries := port_retries x; port_actor := port_actor x |}.
Definition set_port_state (v : cc_port_state_t) (x : cc_port_t) : cc_port_t :=
  {| port_id := port_id x; port_name := port_name x; port_peer_port_id := port_peer_port_id x;
     port_peer_id := port_peer_id x; port_direction := port_direction x; port_peer_port :=
     port_peer_port x; port_tunnel := port_tunnel x; port_state := v; port_fifo := port_fifo
     x; port_retries := port_retries x; port_actor := port_actor x |}.
Definition set_port_fifo (v : option cc_fifo_t) (x : cc_port_t) : cc_port_t :=
  {| port_id := port_id x; port_name := port_name x; port_peer_port_id := port_peer_port_id x;
     port_peer_id := port_peer_id x; port_direction := port_direction x; port_peer_port :=
     port_peer_port x; port_tunnel := port_tunnel x; port_state := port_state x; port_fifo :=
     v; port_retries := port_retries x; port_actor := port_actor x |}.
Definition set_port_retries (v : Z) (x : cc_port_t) : cc_port_t :=
  {| port_id := port_id x; port_name := port_name x; port_peer_port_id := port_peer_port_id x;
     port_peer_id := port_peer_id x; port_direction := port_direction x; port_peer_port :=
     port_peer_port x; port_tunnel := port_tunnel x; port_state := port_state x; port_fifo :=
     port_fifo x; port_retries := v; port_actor := port_actor x |}.
Definition set_actor_id (v : option bytes) (x : cc_actor_t) : cc_actor_t :=
  {| actor_type := actor_type x; actor_id := v; actor_name := actor_name x; actor_state_was :=
     actor_state_was x; actor_state := actor_state x; actor_in_ports := actor_in_ports x;
     actor_out_ports := actor_out_ports x; actor_private_attributes :=
     actor_private_attributes x; actor_managed_attributes := actor_managed_attributes x |}.
Definition set_actor_name (v : option bytes) (x : cc_actor_t) : cc_actor_t :=
  {| actor_type := actor_type x; actor_id := actor_id x; actor_name := v; actor_state_was :=
     actor_state_was x; actor_state := actor_state x; actor_in_ports := actor_in_ports x;
     actor_out_ports := actor_out_ports x; actor_private_attributes :=
     actor_private_attributes x; actor_managed_attributes := actor_managed_attributes x |}.
Definition set_actor_state_was (v : cc_state_was_t) (x : cc_actor_t) : cc_actor_t :=
  {| actor_type := actor_type x; actor_id := actor_id x; actor_name := actor_name x;
     actor_state_was := v; actor_state := actor_state x; actor_in_ports := actor_in_ports x;
     actor_out_ports := actor_out_ports x; actor_private_attributes :=
     actor_private_attributes x; actor_managed_attributes := actor_managed_attributes x |}.
Definition set_actor_state (v : cc_actor_state_t) (x : cc_actor_t) : cc_actor_t :=
  {| actor_type := actor_type x; actor_id := actor_id x; actor_name := actor_name x;
     actor_state_was := actor_state_was x; actor_state := v; actor_in_ports := actor_in_ports
     x; actor_out_ports := actor_out_ports x; actor_private_attributes :=
     actor_private_attributes x; actor_managed_attributes := actor_managed_attributes x |}.
Definition set_actor_in_ports (v : list loc) (x : cc_actor_t) : cc_actor_t :=
  {| actor_type := actor_type x; actor_id := actor_id x; actor_name := actor_name x;
     actor_state_was := actor_state_was x; actor_state := actor_state x; actor_in_ports := v;
     actor_out_ports := actor_out_ports x; actor_private_attributes :=
     actor_private_attributes x; actor_managed_attributes := actor_managed_attributes x |}.
Definition set_actor_out_ports (v : list loc) (x : cc_actor_t) : cc_actor_t :=
  {| actor_type := actor_type x; actor_id := actor_id x; actor_name := actor_name x;
     actor_state_was := actor_state_was x; actor_state := actor_state x; actor_in_ports :=
     actor_in_ports x; actor_out_ports := v; actor_private_attributes :=
     actor_private_attributes x; actor_managed_attributes := actor_managed_attributes x |}.
Definition set_actor_private_attributes (v : list (cc_list_t bytes)) (x : cc_actor_t) : cc_actor_t :=
  {| actor_type := actor_type x; actor_id := actor_id x; actor_name := actor_name x;
     actor_state_was := actor_state_was x; actor_state := actor_state x; actor_in_ports :=
     actor_in_ports x; actor_out_ports := actor_out_ports x; actor_private_attributes := v;
     actor_managed_attributes := actor_managed_attributes x |}.
Definition set_actor_managed_attributes (v : list (cc_list_t bytes)) (x : cc_actor_t) : cc_actor_t :=
  {| actor_type := actor_type x; actor_id := actor_id x; actor_name := actor_name x;
     actor_state_was := actor_state_was x; actor_state := actor_state x; actor_in_ports :=
     actor_in_ports x; actor_out_ports := actor_out_ports x; actor_private_attributes :=
     actor_private_attributes x; actor_managed_attributes := v |}.
Definition set_tc_peer_id (v : bytes) (x : cc_transport_client_t) : cc_transport_client_t :=
  {| tc_transport_type := tc_transport_type x; tc_uri := tc_uri x;
     tc_peer_id := v; tc_state := tc_state x; tc_rx_buffer := tc_rx_buffer x; tc_prefix_len :=
     tc_prefix_len x |}.
Definition set_tc_state (v : cc_transport_state_t) (x : cc_transport_client_t) : cc_transport_client_t :=
  {| tc_transport_type := tc_transport_type x; tc_uri := tc_uri x;
     tc_peer_id := tc_peer_id x; tc_state := v; tc_rx_buffer := tc_rx_buffer x; tc_prefix_len
     := tc_prefix_len x |}.
Definition set_tc_rx_buffer (v : cc_transport_buffer_t) (x : cc_transport_client_t) : cc_transport_client_t :=
  {| tc_transport_type := tc_transport_type x; tc_uri := tc_uri x;
     tc_peer_id := tc_peer_id x; tc_state := tc_state x; tc_rx_buffer := v; tc_prefix_len :=
     tc_prefix_len x |}.
Definition set_node_state (v : cc_node_state_t) (x : cc_node_t) : cc_node_t :=
  {| node_state := v; node_stop_method := node_stop_method x; node_id := node_id x;
     node_attributes := node_attributes x; node_pending_msgs := node_pending_msgs x;
     node_proxy_link := node_proxy_link x; node_links := node_links x; node_storage_tunnel :=
     node_storage_tunnel x; node_proxy_tunnel := node_proxy_tunnel x; node_tunnels :=
     node_tunnels x; node_actors := node_actors x; node_transport_client :=
     node_transport_client x; node_capabilities := node_capabilities x; node_proxy_uris :=
     node_proxy_uris x; node_seconds_since_epoch := node_seconds_since_epoch x;
     node_time_at_sync := node_time_at_sync x |}.
Definition set_node_stop_method (v : cc_node_stop_method_t) (x : cc_node_t) : cc_node_t :=
  {| node_state := node_state x; node_stop_method := v; node_id := node_id x; node_attributes
     := node_attributes x; node_pending_msgs := node_pending_msgs x; node_proxy_link :=
     node_proxy_link x; node_links := node_links x; node_storage_tunnel := node_storage_tunnel
     x; node_proxy_tunnel := node_proxy_tunnel x; node_tunnels := node_tunnels x; node_actors
     := node_actors x; node_transport_client := node_transport_client x; node_capabilities :=
     node_capabilities x; node_proxy_uris := node_proxy_uris x; node_seconds_since_epoch :=
     node_seconds_since_epoch x; node_time_at_sync := node_time_at_sync x |}.
Definition set_node_id (v : bytes) (x : cc_node_t) : cc_node_t :=
  {| node_state := node_state x; node_stop_method := node_stop_method x; node_id := v;
     node_attributes := node_attributes x; node_pending_msgs := node_pending_msgs x;
     node_proxy_link := node_proxy_link x; node_links := node_links x; node_storage_tunnel :=
     node_storage_tunnel x; node_proxy_tunnel := node_proxy_tunnel x; node_tunnels :=
     node_tunnels x; node_actors := node_actors x; node_transport_client :=
     node_transport_client x; node_capabilities := node_capabilities x; node_proxy_uris :=
     node_proxy_uris x; node_seconds_since_epoch := node_seconds_since_epoch x;
     node_time_at_sync := node_time_at_sync x |}.
Definition set_node_pending_msgs (v : list (cc_list_t cc_pending_msg_t)) (x : cc_node_t) : cc_node_t :=
  {| node_state := node_state x; node_stop_method := node_stop_method x; node_id := node_id x;
     node_attributes := node_attributes x; node_pending_msgs := v; node_proxy_link :=
     node_proxy_link x; node_links := node_links x; node_storage_tunnel := node_storage_tunnel
     x; node_proxy_tunnel := node_proxy_tunnel x; node_tunnels := node_tunnels x; node_actors
     := node_actors x; node_transport_client := node_transport_client x; node_capabilities :=
     node_capabilities x; node_proxy_uris := node_proxy_uris x; node_seconds_since_epoch :=
     node_seconds_since_epoch x; node_time_at_sync := node_time_at_sync x |}.
Definition set_node_proxy_link (v : option loc) (x : cc_node_t) : cc_node_t :=
  {| node_state := node_state x; node_stop_method := node_stop_method x; node_id := node_id x;
     node_attributes := node_attributes x; node_pending_msgs := node_pending_msgs x;
     node_proxy_link := v; node_links := node_links x; node_storage_tunnel :=
     node_storage_tunnel x; node_proxy_tunnel := node_proxy_tunnel x; node_tunnels :=
     node_tunnels x; node_actors := node_actors x; node_transport_client :=
     node_transport_client x; node_capabilities := node_capabilities x; node_proxy_uris :=
     node_proxy_uris x; node_seconds_since_epoch := node_seconds_since_epoch x;
     node_time_at_sync := node_time_at_sync x |}.
Definition set_node_links (v : list loc) (x : cc_node_t) : cc_node_t :=
  {| node_state := node_state x; node_stop_method := node_stop_method x; node_id := node_id x;
     node_attributes := node_attributes x; node_pending_msgs := node_pending_msgs x;
     node_proxy_link := node_proxy_link x; node_links := v; node_storage_tunnel :=
     node_storage_tunnel x; node_proxy_tunnel := node_proxy_tunnel x; node_tunnels :=
     node_tunnels x; node_actors := node_actors x; node_transport_client :=
     node_transport_client x; node_capabilities := node_capabilities x; node_proxy_uris :=
     node_proxy_uris x; node_seconds_since_epoch := node_seconds_since_epoch x;
     node_time_at_sync := node_time_at_sync x |}.
Definition set_node_storage_tunnel (v : option loc) (x : cc_node_t) : cc_node_t :=
  {| node_state := node_state x; node_stop_method := node_stop_method x; node_id := node_id x;
     node_attributes := node_attributes x; node_pending_msgs := node_pending_msgs x;
     node_proxy_link := node_proxy_link x; node_links := node_links x; node_storage_tunnel :=
     v; node_proxy_tunnel := node_proxy_tunnel x; node_tunnels := node_tunnels x; node_actors
     := node_actors x; node_transport_client := node_transport_client x; node_capabilities :=
     node_capabilities x; node_proxy_uris := node_proxy_uris x; node_seconds_since_epoch :=
     node_seconds_since_epoch x; node_time_at_sync := node_time_at_sync x |}.
Definition set_node_proxy_tunnel (v : option loc) (x : cc_node_t) : cc_node_t :=
  {| node_state := node_state x; node_stop_method := node_stop_method x; node_id := node_id x;
     node_attributes := node_attributes x; node_pending_msgs := node_pending_msgs x;
     node_proxy_link := node_proxy_link x; node_links := node_links x; node_storage_tunnel :=
     node_storage_tunnel x; node_proxy_tunnel := v; node_tunnels := node_tunnels x;
     node_actors := node_actors x; node_transport_client := node_transport_client x;
     node_capabilities := node_capabilities x; node_proxy_uris := node_proxy_uris x;
     node_seconds_since_epoch := node_seconds_since_epoch x; node_time_at_sync :=
     node_time_at_sync x |}.
Definition set_node_tunnels (v : list loc) (x : cc_node_t) : cc_node_t :=
  {| node_state := node_state x; node_stop_method := node_stop_method x; node_id := node_id x;
     node_attributes := node_attributes x; node_pending_msgs := node_pending_msgs x;
     node_proxy_link := node_proxy_link x; node_links := node_links x; node_storage_tunnel :=
     node_storage_tunnel x; node_proxy_tunnel := node_proxy_tunnel x; node_tunnels := v;
     node_actors := node_actors x; node_transport_client := node_transport_client x;
     node_capabilities := node_capabilities x; node_proxy_uris := node_proxy_uris x;
     node_seconds_since_epoch := node_seconds_since_epoch x; node_time_at_sync :=
     node_time_at_sync x |}.
Definition set_node_actors (v : list loc) (x : cc_node_t) : cc_node_t :=
  {| node_state := node_state x; node_stop_method := node_stop_method x; node_id := node_id x;
     node_attributes := node_attributes x; node_pending_msgs := node_pending_msgs x;
     node_proxy_link := node_proxy_link x; node_links := node_links x; node_storage_tunnel :=
     node_storage_tunnel x; node_proxy_tunnel := node_proxy_tunnel x; node_tunnels :=
     node_tunnels x; node_actors := v; node_transport_client := node_transport_client x;
     node_capabilities := node_capabilities x; node_proxy_uris := node_proxy_uris x;
     node_seconds_since_epoch := node_seconds_since_epoch x; node_time_at_sync :=
     node_time_at_sync x |}.
Definition set_node_transport_client (v : option cc_transport_client_t) (x : cc_node_t) : cc_node_t :=
  {| node_state := node_state x; node_stop_method := node_stop_method x; node_id := node_id x;
     node_attributes := node_attributes x; node_pending_msgs := node_pending_msgs x;
     node_proxy_link := node_proxy_link x; node_links := node_links x; node_storage_tunnel :=
     node_storage_tunnel x; node_proxy_tunnel := node_proxy_tunnel x; node_tunnels :=
     node_tunnels x; node_actors := node_actors x; node_transport_client := v;
     node_capabilities := node_capabilities x; node_proxy_uris := node_proxy_uris x;
     node_seconds_since_epoch := node_seconds_since_epoch x; node_time_at_sync :=
     node_time_at_sync x |}.
Definition set_node_seconds_since_epoch (v : Z) (x : cc_node_t) : cc_node_t :=
  {| node_state := node_state x; node_stop_method := node_stop_method x; node_id := node_id x;
     node_attributes := node_attributes x; node_pending_msgs := node_pending_msgs x;
     node_proxy_link := node_proxy_link x; node_links := node_links x; node_storage_tunnel :=
     node_storage_tunnel x; node_proxy_tunnel := node_proxy_tunnel x; node_tunnels :=
     node_tunnels x; node_actors := node_actors x; node_transport_client :=
     node_transport_client x; node_capabilities := node_capabilities x; node_proxy_uris :=
     node_proxy_uris x; node_seconds_since_epoch := v; node_time_at_sync := node_time_at_sync
     x |}.
Definition set_node_time_at_sync (v : Z) (x : cc_node_t) : cc_node_t :=
  {| node_state := node_state x; node_stop_method := node_stop_method x; node_id := node_id x;
     node_attributes := node_attributes x; node_pending_msgs := node_pending_msgs x;
     node_proxy_link := node_proxy_link x; node_links := node_links x; node_storage_tunnel :=
     node_storage_tunnel x; node_proxy_tunnel := node_proxy_tunnel x; node_tunnels :=
     node_tunnels x; node_actors := node_actors x; node_transport_client :=
     node_transport_client x; node_capabilities := node_capabilities x; node_proxy_uris :=
     node_proxy_uris x; node_seconds_since_epoch := node_seconds_since_epoch x;
     node_time_at_sync := v |}.

(** ** Primitive operations *)

Definition get_node : W cc_node_t := gets w_node.
Definition upd_node (f : cc_node_t -> cc_node_t) : W unit :=
  modify (fun w => set_node (f (w_node w)) w).

Definition get_link (l : loc) : W cc_link_t := w ← get_; need UseAfterFree (w_links w !! l).
Definition put_link (l : loc) (x : cc_link_t) : W unit :=
  modify (fun w => set_links (<[l := x]> (w_links w)) w).
Definition free_link (l : loc) : W unit :=
  _ ← get_link l; modify (fun w => set_links (delete l (w_links w)) w).

Definition get_tunnel (l : loc) : W cc_tunnel_t := w ← get_; need UseAfterFree (w_tunnels w !! l).
Definition put_tunnel (l : loc) (x : cc_tunnel_t) : W unit :=
  modify (fun w => set_tunnels (<[l := x]> (w_tunnels w)) w).
Definition upd_tunnel (l : loc) (f : cc_tunnel_t -> cc_tunnel_t) : W unit :=
  x ← get_tunnel l; put_tunnel l (f x).
Definition free_tunnel (l : loc) : W unit :=
  _ ← get_tunnel l; modify (fun w => set_tunnels (delete l (w_tunnels w)) w).

Definition get_port (l : loc) : W cc_port_t := w ← get_; need UseAfterFree (w_ports w !! l).
Definition put_port (l : loc) (x : cc_port_t) : W unit :=
  modify (fun w => set_ports (<[l := x]> (w_ports w)) w).
Definition upd_port (l : loc) (f : cc_port_t -> cc_port_t) : W unit :=
  x ← get_port l; put_port l (f x).
Definition free_port (l : loc) : W unit :=
  _ ← get_port l; modify (fun w => set_ports (delete l (w_ports w)) w).

Definition get_actor (l : loc) : W cc_actor_t := w ← get_; need UseAfterFree (w_actors w !! l).
Definition put_actor (l : loc) (x : cc_actor_t) : W unit :=
  modify (fun w => set_actors (<[l := x]> (w_actors w)) w).
Definition upd_actor (l : loc) (f : cc_actor_t -> cc_actor_t) : W unit :=
  x ← get_actor l; put_actor l (f x).

(** Follow a pointer that may be NULL. *)
Definition deref {A} (p : option A) : W A := need NullDeref p.

(** A computation on the token buffers. *)
Definition on_mem {A} (m : M mem A) : W A := zoom w_mem set_mem m.

(** A fresh address. *)
Definition fresh_loc : W loc :=
  w ← get_; put_ (set_next (Pos.succ (w_next w)) w) ;; mret (w_next w).

(** The strings the node's lists look their items up by: the [id] array of the
    object, as it is now. *)
Definition link_key (w : world) (l : loc) : bytes := default [] (link_peer_id <$> w_links w !! l).
Definition tunnel_key (w : world) (l : loc) : bytes := default [] (tunnel_id <$> w_tunnels w !! l).
Definition port_key (w : world) (l : loc) : bytes := default [] (port_id <$> w_ports w !! l).
Definition actor_key (w : world) (l : loc) : bytes :=
  default [] (w_actors w !! l ≫= actor_id).

(** A walk over a list of objects reads them in order and stops at an answer: the
    objects up to it must be alive.  [live] is the longest live part of the list
    and [find] the walk on it. *)
Fixpoint live_part (alive : loc -> bool) (l : list loc) : list loc :=
  match l with
  | [] => []
  | x :: l => if alive x then x :: live_part alive l else []
  end.

Definition walk {R} (alive : loc -> bool) (l : list loc) (find : list loc -> option R)
  : W (option R) :=
  let p := live_part alive l in
  match find p with
  | Some r => mret (Some r)
  | None => if (length p <? length l)%nat then ub_ UseAfterFree else mret None
  end.

(** [cc_list_remove] on a list of objects. *)
Definition walk_remove (alive : loc -> bool) (key : loc -> bytes) (l : list loc) (id : bytes)
  : W (list loc) :=
  r ← walk alive l (fun p => let p' := cc_list_remove key p id in
        if (length p' <? length p)%nat then Some (p' ++ drop (length p) l) else None);
  mret (default l r).

Definition link_live (w : world) (l : loc) : bool := bool_decide (is_Some (w_links w !! l)).
Definition tunnel_live (w : world) (l : loc) : bool := bool_decide (is_Some (w_tunnels w !! l)).
Definition port_live (w : world) (l : loc) : bool := bool_decide (is_Some (w_ports w !! l)).
Definition actor_live (w : world) (l : loc) : bool := bool_decide (is_Some (w_actors w !! l)).

Lemma live_part_all alive l : Forall (fun x => alive x = true) l -> live_part alive l = l.
Proof. induction 1 as [|x l Hx _ IH]; simpl; [done|]. by rewrite Hx, IH. Qed.

(** On live objects a walk is the pure function. *)
Lemma walk_live {R} alive l (find : list loc -> option R) w :
  Forall (fun x => alive x = true) l -> walk alive l find w = Ok (find l, w).
Proof.
  intros H. unfold walk. rewrite live_part_all by done.
  destruct (find l); [done|]. by rewrite Nat.ltb_irrefl.
Qed.

Lemma walk_remove_live alive key l id w :
  Forall (fun x => alive x = true) l ->
  walk_remove alive key l id w = Ok (cc_list_remove key l id, w).
Proof.
  intros H. unfold walk_remove. rewrite (bind_Ok _ _ _ _ _ (walk_live _ _ _ _ H)).
  assert (cc_list_remove key l id = l
    \/ (length (cc_list_remove key l id) < length l)%nat) as [->|L].
  { clear H. induction l as [|x l IH]; simpl; [by left|]. destruct (streq_n _ _ _).
    - right. lia.
    - destruct IH as [->|]; [by left|]. right. simpl. lia. }
  - by rewrite Nat.ltb_irrefl.
  - rewrite (proj2 (Nat.ltb_lt _ _) L), drop_all, app_nil_r. done.
Qed.

(** A state of which the [world] is a part: [lift] runs a computation on the world
    there. *)
Class Above (S : Type) := lift : forall A, W A -> M S A.
Arguments lift {S _ A} _.
#[export] Instance world_above : Above world := fun A m => m.

Section platform.
Context `{P : Platform}.

(** One platform call: the index of the answer. *)
Definition tick : W nat := w ← get_; put_ (set_calls (S (w_calls w)) w) ;; mret (w_calls w).

(** [cc_platform_mem_alloc]: does it succeed? *)
Definition cc_platform_mem_alloc : W bool := n ← tick; mret (plat_alloc n).

(** Allocate a byte buffer and fill it. *)
Definition alloc_buffer (data : bytes) : W (option loc) :=
  ok ← cc_platform_mem_alloc;
  if (ok : bool) then l ← fresh_loc;
       modify (fun w => set_mem (<[l := data]> (w_mem w)) w) ;; mret (Some l)
  else mret None.

Definition cc_platform_get_time : W Z := n ← tick; mret (u32 (plat_time n)).

(** [cc_gen_uuid]: 36 calls of [rand]; what it writes, terminator included. *)
Definition gen_uuid (prefix : option bytes) : W bytes :=
  w ← get_;
  put_ (set_calls (36 + w_calls w) w) ;;
  mret (cc_gen_uuid prefix (fun i => plat_rand (w_calls w + i))).

(** The uuid in a fresh or zeroed [char[CC_UUID_BUFFER_SIZE]]. *)
Definition gen_uuid_buffer (prefix : option bytes) : W bytes :=
  u ← gen_uuid prefix;
  mret (u ++ drop (length u) (zeroed CC_UUID_BUFFER_SIZE)).

(** [cc_list_add_n]: the name and the item are allocated. *)
Definition cc_list_add_n {A} (head : list (cc_list_t A)) (id : bytes) (len : nat) (data : A)
  (data_len : Z) : W (option (list (cc_list_t A))) :=
  ok_name ← cc_platform_mem_alloc;
  if negb ok_name then mret None
  else
    ok_item ← cc_platform_mem_alloc;
    if negb ok_item then mret None
    else mret (Some (cc__list_add head (list_item_n id len data data_len))).

(** [cc_list_add] on a list of objects. *)
Definition cc_list_add (head : list loc) (data : loc) : W (option (list loc)) :=
  ok ← cc_platform_mem_alloc;
  mret (if (ok : bool) then Some (cc__list_add head data) else None).
End platform.
