(* ===== verification/Transport.v ===== *)
(** runtime/north/cc_transport.c: the length prefix, sending, and the assembly of
    a message from fragments.

    [transport_client->send] and [->recv] belong to the platform.  A [recv] of at
    most [size] bytes delivers a prefix of what [plat_recv] holds for that call;
    an error or a closed connection is a delivery of nothing.  The model is that
    of a build without TLS. *)
From S2P Require Import Prelude CString Common MsgPuck Coder Fifo Machine.

Definition CC_TRANSPORT_LEN_PREFIX_SIZE : nat := 4.

(** [(buffer[i] & 0xFF)]. *)
Definition octet (buffer : bytes) (i : nat) : Z := Z.land (char_val (nth i buffer NUL)) 255.

Definition cc_transport_get_message_len (buffer : bytes) : Z :=
  Z.lor (Z.lor (Z.lor (Z.shiftl (octet buffer 3) 0) (Z.shiftl (octet buffer 2) 8))
               (Z.shiftl (octet buffer 1) 16)) (Z.shiftl (octet buffer 0) 24).

(** The four bytes written at the start of the buffer. *)
Definition length_prefix (size : Z) : bytes :=
  [ byte_of_Z (Z.land (Z.shiftr size 24) 255); byte_of_Z (Z.land (Z.shiftr size 16) 255);
    byte_of_Z (Z.land (Z.shiftr size 8) 255); byte_of_Z (Z.land size 255) ].

Definition cc_transport_set_length_prefix (buffer : bytes) (size : Z) : bytes :=
  length_prefix size ++ drop 4 buffer.

Definition get_client : W cc_transport_client_t :=
  node ← get_node; deref (node_transport_client node).
Definition upd_client (f : cc_transport_client_t -> cc_transport_client_t) : W unit :=
  c ← get_client; upd_node (set_node_transport_client (Some (f c))).

Definition no_rx : cc_transport_buffer_t := {| rx_data := None; rx_pos := 0; rx_size := 0 |}.

Section transport.
Context `{P : Platform}.

(** [cc_transport_recv] of at most [size] bytes: what is delivered. *)
Definition cc_transport_recv (size : Z) : W bytes :=
  n ← tick; mret (take (Z.to_nat size) (plat_recv n)).

(** [cc_transport_send]: the [size] is that of the buffer written so far, whose
    first four bytes are the prefix's. *)
Definition cc_transport_send (transport_client : option cc_transport_client_t) (buffer : bytes)
  : W cc_result_t :=
  match transport_client with
  | None => mret CC_FAIL
  | Some _ =>
      let size := Z.of_nat (length buffer) in
      let buffer := take (length buffer)
        (cc_transport_set_length_prefix buffer
           (size - Z.of_nat CC_TRANSPORT_LEN_PREFIX_SIZE)) in
      n ← tick;
      modify (fun w => set_sent (w_sent w ++ [buffer]) w) ;;
      mret (if plat_send n buffer =? size then CC_SUCCESS else CC_FAIL)
  end.

(** The handler of a complete message works on a state of which the [world] is a
    part. *)
Section handle_data.
Context {T : Type} `{A : !Above T}.

(** The iterations of [cc_transport_handle_data] once the buffer of the message
    exists; each one that does not return takes at least a byte. *)
Fixpoint handle_payload (handler : bytes -> M T cc_result_t) (fuel : nat) : M T cc_result_t :=
  match fuel with
  | O => ub_ Diverges
  | S fuel =>
      c ← lift get_client;
      let rx := tc_rx_buffer c in
      data ← lift (deref (rx_data rx));
      got ← lift (cc_transport_recv (rx_size rx - rx_pos rx));
      if bool_decide (got = []) then mret CC_FAIL
      else
        let rx := {| rx_data := Some (data ++ got); rx_pos := rx_pos rx + Z.of_nat (length got);
                     rx_size := rx_size rx |} in
        lift (upd_client (set_tc_rx_buffer rx)) ;;
        if rx_pos rx =? rx_size rx then
          _ ← handler (data ++ got);
          lift (upd_client (set_tc_rx_buffer no_rx)) ;;
          mret CC_SUCCESS
        else handle_payload handler fuel
  end.

(** [cc_transport_handle_data].  The bytes of the allocated buffer are those
    received so far.  A length of 2^31 or more becomes a negative [int] and the
    allocation of that [size_t] fails. *)
Definition cc_transport_handle_data (handler : bytes -> M T cc_result_t) : M T cc_result_t :=
  c ← lift get_client;
  let rx := tc_rx_buffer c in
  match rx_data rx with
  | Some _ => handle_payload handler (S (Z.to_nat (rx_size rx - rx_pos rx)))
  | None =>
      prefix ← lift (cc_transport_recv 4);
      if (length prefix <? 4)%nat then mret CC_FAIL
      else
        let msg_size := cc_transport_get_message_len prefix in
        ok ← lift cc_platform_mem_alloc;
        if negb ok || (2 ^ 31 <=? msg_size) then mret CC_FAIL
        else
          lift (upd_client (set_tc_rx_buffer {| rx_data := Some []; rx_pos := 0; rx_size := msg_size |})) ;;
          handle_payload handler (S (Z.to_nat msg_size))
  end.
End handle_data.

(** [cc_transport_disconnect]; [transport_client->disconnect] is the platform's. *)
Definition cc_transport_disconnect : W unit :=
  _ ← get_client;
  _ ← tick;
  upd_client (set_tc_state CC_TRANSPORT_DISCONNECTED) ;;
  upd_client (set_tc_rx_buffer no_rx).
End transport.
