(* ===== verification/ProtoSend.v ===== *)
(** runtime/north/cc_proto.c, the half that sends, with the table of pending
    messages of cc_node.c that the replies are matched against.

    Every [cc_proto_send_*] fills a zeroed [char buffer[n]] from
    [transport_client->prefix_len] on, and hands it to [cc_transport_send].  The
    model appends to a list that starts with the prefix; a message that does not
    fit the buffer is the undefined behaviour of [in_buffer].  A request first
    registers its [msg_uuid] with the handler of its reply and takes it back when
    the transport refuses the message ([send_request]). *)
From S2P Require Import Prelude CString Common MsgPuck Coder Fifo Machine Transport.

(** [strnlen(id, CC_UUID_BUFFER_SIZE)]. *)
Definition uuid_len (id : bytes) : nat := strnlen id CC_UUID_BUFFER_SIZE.

(** [snprintf(buf, size, ...)] of a text into a zeroed array of [cap] bytes. *)
Definition snprintf (cap size : nat) (text : bytes) : bytes :=
  let t := take (size - 1) text in t ++ replicate (cap - length t) NUL.

(** The first [len] bytes of an array are read. *)
Definition readable (buf : bytes) (len : nat) : W unit :=
  if (len <=? length buf)%nat then mret tt else ub_ BufferOverflow.

(** What was written fits [char buffer[cap]]. *)
Definition in_buffer (cap : nat) (w : bytes) : W unit :=
  if (length w <=? cap)%nat then mret tt else ub_ BufferOverflow.

(** The writer at the start of a message. *)
Definition message_start (client : cc_transport_client_t) : bytes :=
  replicate (tc_prefix_len client) NUL.

(** The identity of the peer behind a tunnel. *)
Definition tunnel_peer (t : cc_tunnel_t) : W bytes :=
  l ← deref (tunnel_link t); l ← get_link l; mret (link_peer_id l).

Section pending.
Context `{P : Platform}.

Definition cc_node_add_pending_msg (msg_uuid : bytes) (handler : cc_msg_handler_t)
  (msg_data : msg_data_t) : W cc_result_t :=
  ok ← cc_platform_mem_alloc;
  if negb ok then mret CC_FAIL
  else
    node ← get_node;
    r ← cc_list_add_n (node_pending_msgs node) msg_uuid (uuid_len msg_uuid)
          {| pm_handler := handler; pm_msg_data := msg_data |} 0;
    match r with
    | None => mret CC_FAIL
    | Some l => upd_node (set_node_pending_msgs l) ;; mret CC_SUCCESS
    end.

Definition cc_node_remove_pending_msg (msg_uuid : bytes) : W unit :=
  node ← get_node;
  match list_get_n (node_pending_msgs node) msg_uuid (uuid_len msg_uuid) with
  | Some _ => upd_node (set_node_pending_msgs (list_remove (node_pending_msgs node) msg_uuid))
  | None => mret tt
  end.

Definition cc_node_get_pending_msg (msg_uuid : bytes) : W (option cc_pending_msg_t) :=
  node ← get_node;
  mret (li_data <$> list_get_n (node_pending_msgs node) msg_uuid (uuid_len msg_uuid)).
End pending.

Section proto_send.
Context `{P : Platform} `{MP : MsgPuck}.

(** The end of every request: register the message, send it, take it back when
    it was not sent. *)
Definition send_request (cap : nat) (w msg_uuid : bytes) (handler : cc_msg_handler_t)
  (msg_data : msg_data_t) : W cc_result_t :=
  in_buffer cap w ;;
  r ← cc_node_add_pending_msg msg_uuid handler msg_data;
  if bool_decide (r = CC_SUCCESS) then
    node ← get_node;
    s ← cc_transport_send (node_transport_client node) w;
    if bool_decide (s = CC_SUCCESS) then mret CC_SUCCESS
    else cc_node_remove_pending_msg msg_uuid ;; mret CC_FAIL
  else mret CC_FAIL.

(** The end of every reply. *)
Definition send_buffer (cap : nat) (w : bytes) : W cc_result_t :=
  in_buffer cap w ;;
  node ← get_node;
  cc_transport_send (node_transport_client node) w.

(** [cc_gen_uuid(msg_uuid, "MSGID_")]. *)
Definition gen_msg_uuid : W bytes := gen_uuid_buffer (Some (str "MSGID_")).

(** A [kv_str] of an identifier in an array. *)
Definition kv_uuid (w key id : bytes) : bytes := cc_coder_encode_kv_str w key id (uuid_len id).

(** The four entries before the "value" of a TUNNEL_DATA message. *)
Definition tunnel_data_to_from (w to_id from_id tunnel_id : bytes) : bytes :=
  let w := cc_coder_encode_map w 5 in
  let w := kv_uuid w (str "to_rt_uuid") to_id in
  let w := kv_uuid w (str "from_rt_uuid") from_id in
  let w := cc_coder_encode_kv_str w (str "cmd") (str "TUNNEL_DATA") 11 in
  kv_uuid w (str "tunnel_id") tunnel_id.
Definition tunnel_data_from_to (w from_id to_id tunnel_id : bytes) : bytes :=
  let w := cc_coder_encode_map w 5 in
  let w := kv_uuid w (str "from_rt_uuid") from_id in
  let w := kv_uuid w (str "to_rt_uuid") to_id in
  let w := cc_coder_encode_kv_str w (str "cmd") (str "TUNNEL_DATA") 11 in
  kv_uuid w (str "tunnel_id") tunnel_id.

(** What the messages through the proxy tunnel are built from: the client, the
    peer of the proxy tunnel, the node and the tunnel identifier. *)
Definition proxy_route : W (cc_transport_client_t * bytes * bytes * bytes) :=
  node ← get_node;
  client ← deref (node_transport_client node);
  t ← deref (node_proxy_tunnel node);
  t ← get_tunnel t;
  peer ← tunnel_peer t;
  mret (client, peer, node_id node, tunnel_id t).

(** The same for the messages to the storage: the peer is that of the proxy link. *)
Definition storage_route : W (cc_transport_client_t * bytes * bytes * bytes) :=
  node ← get_node;
  client ← deref (node_transport_client node);
  l ← deref (node_proxy_link node);
  l ← get_link l;
  t ← deref (node_storage_tunnel node);
  t ← get_tunnel t;
  mret (client, link_peer_id l, node_id node, tunnel_id t).

(** The text of the JOIN_REQUEST; [snprintf] cuts it to the array, which 599
    characters and the prefix leave alone. *)
Definition quote : bytes := [Byte.x22].
Definition join_text (node_id sid serializer : bytes) : bytes :=
  str "{" ++ quote ++ str "cmd" ++ quote ++ str ": " ++ quote ++ str "JOIN_REQUEST" ++ quote
  ++ str ", " ++ quote ++ str "id" ++ quote ++ str ": " ++ quote ++ cstr node_id ++ quote
  ++ str ", " ++ quote ++ str "sid" ++ quote ++ str ": " ++ quote ++ cstr sid ++ quote
  ++ str ", " ++ quote ++ str "serializers" ++ quote ++ str ": [" ++ quote ++ cstr serializer
  ++ quote ++ str "]}".

(** [send] is [cc_transport_send]. *)
Definition send_join_request (send : option cc_transport_client_t -> bytes -> W cc_result_t)
  (client : cc_transport_client_t) (serializer : bytes) : W cc_result_t :=
  msg_uuid ← gen_msg_uuid;
  node ← get_node;
  let w := message_start client ++ join_text (node_id node) msg_uuid serializer in
  in_buffer 599 w ;;
  send (Some client) w.
Definition cc_proto_send_join_request : cc_transport_client_t -> bytes -> W cc_result_t :=
  send_join_request cc_transport_send.

Definition cc_proto_send_node_setup (handler : cc_msg_handler_t) : W cc_result_t :=
  node ← get_node;
  let capabilities := node_capabilities node in
  match node_transport_client node with
  | None => mret CC_FAIL
  | Some _ =>
      msg_uuid ← gen_msg_uuid;
      '(client, peer, id, tid) ← proxy_route;
      let w := tunnel_data_to_from (message_start client) peer id tid in
      let w := cc_coder_encode_kv_map w (str "value") 5 in
      let w := kv_uuid w (str "msg_uuid") msg_uuid in
      let w := cc_coder_encode_kv_str w (str "cmd") (str "CONFIG") 6 in
      let w := match node_attributes node with
               | Some a => cc_coder_encode_kv_str w (str "attributes") a
                             (strnlen a CC_ATTRIBUTE_BUFFER_SIZE)
               | None => cc_coder_encode_kv_nil w (str "attributes")
               end in
      let w := cc_coder_encode_kv_array w (str "capabilities") (cc_list_count capabilities) in
      let w := foldl (fun w c => cc_coder_encode_str w (li_id c) (uuid_len (li_id c))) w capabilities in
      let w := cc_coder_encode_kv_str w (str "port_property_capability")
                 (str "runtime.constrained.1") 21 in
      let w := cc_coder_encode_kv_bool w (str "redeploy") false in
      send_request 1000 w msg_uuid handler MD_null
  end.

Definition cc_proto_send_wake_signal (handler : cc_msg_handler_t) : W cc_result_t :=
  node ← get_node;
  match node_transport_client node with
  | None => mret CC_FAIL
  | Some _ =>
      msg_uuid ← gen_msg_uuid;
      '(client, peer, id, tid) ← proxy_route;
      let w := tunnel_data_to_from (message_start client) peer id tid in
      let w := cc_coder_encode_kv_map w (str "value") 2 in
      let w := kv_uuid w (str "msg_uuid") msg_uuid in
      let w := cc_coder_encode_kv_str w (str "cmd") (str "WAKEUP") 6 in
      send_request 500 w msg_uuid handler MD_null
  end.

Definition cc_proto_send_get_actor_module (actor_type : bytes) (handler : cc_msg_handler_t)
  : W cc_result_t :=
  msg_uuid ← gen_msg_uuid;
  '(client, peer, id, tid) ← proxy_route;
  let w := tunnel_data_to_from (message_start client) peer id tid in
  let w := cc_coder_encode_kv_map w (str "value") 4 in
  let w := kv_uuid w (str "msg_uuid") msg_uuid in
  let w := cc_coder_encode_kv_str w (str "cmd") (str "GET_ACTOR_MODULE") 16 in
  let w := cc_coder_encode_kv_str w (str "actor_type") actor_type (strlen actor_type) in
  let w := cc_coder_encode_kv_str w (str "compiler") (str "mpy-cross") 9 in
  send_request 1000 w msg_uuid handler MD_null.

Definition cc_proto_send_req_match (actor : loc) (requirements : bytes) (requirements_len : nat)
  (handler : cc_msg_handler_t) : W cc_result_t :=
  msg_uuid ← gen_msg_uuid;
  '(client, peer, id, tid) ← proxy_route;
  a ← get_actor actor;
  aid ← deref (actor_id a);
  readable requirements requirements_len ;;
  let w := tunnel_data_to_from (message_start client) peer id tid in
  let w := cc_coder_encode_kv_map w (str "value") 5 in
  let w := kv_uuid w (str "msg_uuid") msg_uuid in
  let w := cc_coder_encode_kv_str w (str "cmd") (str "REQ_MATCH") 9 in
  let w := cc_coder_encode_kv_str w (str "actor_id") aid (strlen aid) in
  let w := cc_coder_encode_kv_value w (str "requirements") (Some requirements) requirements_len in
  let w := cc_coder_encode_kv_uint w (str "max_placements") 1 in
  send_request 1000 w msg_uuid handler MD_null.

Definition cc_proto_send_sleep_request (time_to_sleep : Z) (handler : cc_msg_handler_t)
  : W cc_result_t :=
  msg_uuid ← gen_msg_uuid;
  '(client, peer, id, tid) ← proxy_route;
  let w := tunnel_data_to_from (message_start client) peer id tid in
  let w := cc_coder_encode_kv_map w (str "value") 3 in
  let w := kv_uuid w (str "msg_uuid") msg_uuid in
  let w := cc_coder_encode_kv_str w (str "cmd") (str "WILL_SLEEP") 10 in
  let w := cc_coder_encode_kv_uint w (str "time") time_to_sleep in
  send_request 1000 w msg_uuid handler MD_null.

(** The wire name of a tunnel type; [None] for the integers that are no type. *)
Definition tunnel_type_name (t : cc_tunnel_type_t) : option bytes :=
  match t with
  | CC_TUNNEL_TYPE_STORAGE => Some (str "storage")
  | CC_TUNNEL_TYPE_PROXY => Some (str "proxy")
  | CC_TUNNEL_TYPE_TOKEN => Some (str "token")
  | CC_TUNNEL_TYPE_RAW _ => None
  end.

Definition cc_proto_send_tunnel_request (tunnel : loc) (handler : cc_msg_handler_t)
  : W cc_result_t :=
  t ← get_tunnel tunnel;
  match tunnel_type_name (tunnel_type t) with
  | None => mret CC_FAIL
  | Some type =>
      msg_uuid ← gen_msg_uuid;
      node ← get_node;
      client ← deref (node_transport_client node);
      peer ← tunnel_peer t;
      let w := cc_coder_encode_map (message_start client) 7 in
      let w := kv_uuid w (str "msg_uuid") msg_uuid in
      let w := kv_uuid w (str "from_rt_uuid") (node_id node) in
      let w := kv_uuid w (str "to_rt_uuid") peer in
      let w := cc_coder_encode_kv_str w (str "cmd") (str "TUNNEL_NEW") 10 in
      let w := kv_uuid w (str "tunnel_id") (tunnel_id t) in
      let w := cc_coder_encode_kv_str w (str "type") type (strlen type) in
      let w := cc_coder_encode_kv_map w (str "policy") 0 in
      send_request 1000 w msg_uuid handler (MD_tunnel tunnel)
  end.

Definition cc_proto_send_tunnel_destroy (tunnel : loc) (handler : cc_msg_handler_t)
  : W cc_result_t :=
  msg_uuid ← gen_msg_uuid;
  node ← get_node;
  client ← deref (node_transport_client node);
  t ← get_tunnel tunnel;
  peer ← tunnel_peer t;
  let w := cc_coder_encode_map (message_start client) 5 in
  let w := kv_uuid w (str "msg_uuid") msg_uuid in
  let w := kv_uuid w (str "from_rt_uuid") (node_id node) in
  let w := kv_uuid w (str "to_rt_uuid") peer in
  let w := cc_coder_encode_kv_str w (str "cmd") (str "TUNNEL_DESTROY") 14 in
  let w := kv_uuid w (str "tunnel_id") (tunnel_id t) in
  send_request 1000 w msg_uuid handler (MD_tunnel_id tunnel).

(** The "success_list" of a reply. *)
Definition success_list (w : bytes) : bytes :=
  let w := cc_coder_encode_kv_array w (str "success_list") 7 in
  foldl cc_coder_encode_uint w [200; 201; 202; 203; 204; 205; 206].

(** The head of a reply: four entries and the "value" of three. *)
Definition reply_head (client : cc_transport_client_t) (msg_uuid : bytes) (msg_uuid_len : nat)
  (to_rt_uuid : bytes) (to_rt_uuid_len : nat) (from_id : bytes) (status : Z) : bytes :=
  let w := cc_coder_encode_map (message_start client) 5 in
  let w := cc_coder_encode_kv_str w (str "msg_uuid") msg_uuid msg_uuid_len in
  let w := cc_coder_encode_kv_str w (str "to_rt_uuid") to_rt_uuid to_rt_uuid_len in
  let w := kv_uuid w (str "from_rt_uuid") from_id in
  let w := cc_coder_encode_kv_str w (str "cmd") (str "REPLY") 5 in
  let w := cc_coder_encode_kv_map w (str "value") 3 in
  cc_coder_encode_kv_uint w (str "status") status.

Definition proto_send_reply (msg_uuid to_rt_uuid : bytes) (to_rt_uuid_len : nat) (status : Z)
  : W cc_result_t :=
  node ← get_node;
  match node_transport_client node with
  | None => mret CC_FAIL
  | Some client =>
      let w := reply_head client msg_uuid (uuid_len msg_uuid) to_rt_uuid to_rt_uuid_len
                 (node_id node) status in
      let w := cc_coder_encode_kv_nil w (str "data") in
      let w := success_list w in
      send_buffer 1000 w
  end.

(** A reply whose "data" is a map of one identifier. *)
Definition reply_with_id (client : cc_transport_client_t) (node : cc_node_t) (msg_uuid : bytes)
  (msg_uuid_len : nat) (to_rt_uuid : bytes) (to_rt_uuid_len : nat) (status : Z)
  (key id : bytes) (id_len : nat) : bytes :=
  let w := reply_head client msg_uuid msg_uuid_len to_rt_uuid to_rt_uuid_len (node_id node) status in
  let w := success_list w in
  let w := cc_coder_encode_kv_map w (str "data") 1 in
  cc_coder_encode_kv_str w key id id_len.

Definition proto_send_tunnel_new_reply (msg_uuid : bytes) (msg_uuid_len : nat)
  (to_rt_uuid : bytes) (to_rt_uuid_len : nat) (status : Z) (tunnel_id : bytes)
  (tunnel_id_len : nat) : W cc_result_t :=
  node ← get_node;
  match node_transport_client node with
  | None => mret CC_FAIL
  | Some client =>
      send_buffer 1000 (reply_with_id client node msg_uuid msg_uuid_len to_rt_uuid to_rt_uuid_len
                          status (str "tunnel_id") tunnel_id tunnel_id_len)
  end.

Definition proto_send_route_request_reply (msg_uuid : bytes) (msg_uuid_len : nat)
  (to_rt_uuid : bytes) (to_rt_uuid_len : nat) (status : Z) (dest_peer_id : bytes)
  (dest_peer_id_len : nat) : W cc_result_t :=
  node ← get_node;
  match node_transport_client node with
  | None => mret CC_FAIL
  | Some client =>
      send_buffer 1000 (reply_with_id client node msg_uuid msg_uuid_len to_rt_uuid to_rt_uuid_len
                          status (str "peer_id") dest_peer_id dest_peer_id_len)
  end.

Definition cc_proto_send_port_connect_reply (msg_uuid : bytes) (msg_uuid_len : nat)
  (to_rt_uuid : bytes) (to_rt_uuid_len : nat) (status : Z) (port_id : bytes)
  (port_id_len : nat) : W cc_result_t :=
  node ← get_node;
  client ← deref (node_transport_client node);
  send_buffer 1000 (reply_with_id client node msg_uuid msg_uuid_len to_rt_uuid to_rt_uuid_len
                      status (str "port_id") port_id port_id_len).

Definition cc_proto_send_port_disconnect_reply (msg_uuid : bytes) (msg_uuid_len : nat)
  (to_rt_uuid : bytes) (to_rt_uuid_len : nat) (status : Z) : W cc_result_t :=
  node ← get_node;
  client ← deref (node_transport_client node);
  let w := reply_head client msg_uuid msg_uuid_len to_rt_uuid to_rt_uuid_len (node_id node) status in
  let w := success_list w in
  let w := cc_coder_encode_kv_map w (str "data") 1 in
  let w := cc_coder_encode_kv_map w (str "remaining_tokens") 0 in
  send_buffer 1000 w.

(** The identifier of the tunnel of a port. *)
Definition port_tunnel_id (p : cc_port_t) : W bytes :=
  t ← deref (port_tunnel p); t ← get_tunnel t; mret (tunnel_id t).

Definition cc_proto_send_token (port : loc) (token : cc_token_t) (sequencenbr : Z)
  : W cc_result_t :=
  node ← get_node;
  client ← deref (node_transport_client node);
  p ← get_port port;
  tid ← port_tunnel_id p;
  let w := tunnel_data_to_from (message_start client) (port_peer_id p) (node_id node) tid in
  let w := cc_coder_encode_kv_map w (str "value") 5 in
  let w := cc_coder_encode_kv_str w (str "cmd") (str "TOKEN") 5 in
  let w := cc_coder_encode_kv_uint w (str "sequencenbr") sequencenbr in
  let w := kv_uuid w (str "port_id") (port_id p) in
  let w := kv_uuid w (str "peer_port_id") (port_peer_port_id p) in
  w ← on_mem (cc_token_encode w token true);
  send_buffer 1000 w.

(** The five entries that a PORT_CONNECT and a PORT_DISCONNECT start with, and
    the four after them. *)
Definition port_request (w : bytes) (p : cc_port_t) (node : cc_node_t) (msg_uuid tid cmd : bytes)
  : bytes :=
  let w := kv_uuid w (str "to_rt_uuid") (port_peer_id p) in
  let w := kv_uuid w (str "from_rt_uuid") (node_id node) in
  let w := kv_uuid w (str "msg_uuid") msg_uuid in
  let w := kv_uuid w (str "tunnel_id") tid in
  let w := cc_coder_encode_kv_str w (str "cmd") cmd (length cmd) in
  let w := cc_coder_encode_kv_nil w (str "peer_port_name") in
  let w := cc_coder_encode_kv_nil w (str "peer_actor_id") in
  let w := kv_uuid w (str "peer_port_id") (port_peer_port_id p) in
  kv_uuid w (str "port_id") (port_id p).

Definition direction_name (d : cc_port_direction_t) : bytes :=
  match d with CC_PORT_DIRECTION_IN => str "in" | CC_PORT_DIRECTION_OUT => str "out" end.

Definition cc_proto_send_port_connect (port : loc) (handler : cc_msg_handler_t) : W cc_result_t :=
  msg_uuid ← gen_msg_uuid;
  node ← get_node;
  client ← deref (node_transport_client node);
  p ← get_port port;
  tid ← port_tunnel_id p;
  let w := cc_coder_encode_map (message_start client) 11 in
  let w := port_request w p node msg_uuid tid (str "PORT_CONNECT") in
  let w := cc_coder_encode_kv_nil w (str "peer_port_properties") in
  let w := cc_coder_encode_kv_map w (str "port_properties") 3 in
  let d := direction_name (port_direction p) in
  let w := cc_coder_encode_kv_str w (str "direction") d (strlen d) in
  let w := cc_coder_encode_kv_str w (str "routing") (str "default") 7 in
  let w := cc_coder_encode_kv_uint w (str "nbr_peers") 1 in
  send_request 1000 w msg_uuid handler (MD_port_id port).

Definition cc_proto_send_port_disconnect (port : loc) (handler : cc_msg_handler_t)
  : W cc_result_t :=
  msg_uuid ← gen_msg_uuid;
  node ← get_node;
  client ← deref (node_transport_client node);
  p ← get_port port;
  tid ← port_tunnel_id p;
  let w := cc_coder_encode_map (message_start client) 10 in
  let w := port_request w p node msg_uuid tid (str "PORT_DISCONNECT") in
  let w := cc_coder_encode_kv_nil w (str "peer_port_dir") in
  send_request 1000 w msg_uuid handler (MD_port_id port).

(** [key_len = snprintf(key, 50, prefix "%s", id)]: the array and the length. *)
Definition storage_key (prefix id : bytes) : bytes * nat :=
  let text := prefix ++ cstr id in (snprintf 50 50 text, length text).

(** The "id" and "name" of each port of a list. *)
Fixpoint encode_port_names (w : bytes) (ports : list loc) : W bytes :=
  match ports with
  | [] => mret w
  | l :: ports =>
      p ← get_port l;
      let w := cc_coder_encode_map w 2 in
      let w := cc_coder_encode_kv_str w (str "id") (port_id p) (strlen (port_id p)) in
      let w := cc_coder_encode_kv_str w (str "name") (port_name p) (strlen (port_name p)) in
      encode_port_names w ports
  end.

(** The attribute "_replication_id" when it is a map. *)
Definition replication_map (a : cc_actor_t) : option bytes :=
  match list_get (actor_private_attributes a) (str "_replication_id") with
  | Some item =>
      if bool_decide (cc_coder_type_of (li_data item) = CC_CODER_MAP)
      then Some (li_data item) else None
  | None => None
  end.

Definition encode_replication (w obj_replication_id : bytes) : W bytes :=
  let w := match cc_coder_decode_string_from_map obj_replication_id (str "id") with
           | Some (s, len) => cc_coder_encode_kv_str w (str "replication_id") s len
           | None => cc_coder_encode_kv_nil w (str "replication_id")
           end in
  let w := match cc_coder_decode_string_from_map obj_replication_id (str "original_actor_id") with
           | Some (s, len) => cc_coder_encode_kv_str w (str "replication_master_id") s len
           | None => cc_coder_encode_kv_nil w (str "replication_master_id")
           end in
  index ← match cc_coder_get_value_from_map obj_replication_id (str "index") with
          | Some v => lift_outcome (cc_coder_decode_uint v)
          | None => mret None
          end;
  mret (cc_coder_encode_kv_uint w (str "replication_index") (default 0 index)).

Definition cc_proto_send_set_actor (actor : loc) (handler : cc_msg_handler_t) : W cc_result_t :=
  a ← get_actor actor;
  aid ← deref (actor_id a);
  let '(key, key_len) := storage_key (str "actor-") aid in
  msg_uuid ← gen_msg_uuid;
  '(client, peer, id, tid) ← storage_route;
  readable key key_len ;;
  name ← deref (actor_name a);
  let w := tunnel_data_from_to (message_start client) id peer tid in
  let w := cc_coder_encode_kv_map w (str "value") 4 in
  let w := kv_uuid w (str "msg_uuid") msg_uuid in
  let w := cc_coder_encode_kv_str w (str "cmd") (str "SET") 3 in
  let w := cc_coder_encode_kv_str w (str "key") key key_len in
  let replication := replication_map a in
  let w := cc_coder_encode_kv_map w (str "value")
             (match replication with None => 6 | Some _ => 9 end) in
  let w := cc_coder_encode_kv_bool w (str "is_shadow") false in
  let w := cc_coder_encode_kv_str w (str "name") name (strlen name) in
  let w := cc_coder_encode_kv_str w (str "node_id") id (strlen id) in
  let w := cc_coder_encode_kv_str w (str "type") (actor_type a) (strlen (actor_type a)) in
  let w := cc_coder_encode_kv_array w (str "inports") (cc_list_count (actor_in_ports a)) in
  w ← encode_port_names w (actor_in_ports a);
  let w := cc_coder_encode_kv_array w (str "outports") (cc_list_count (actor_out_ports a)) in
  w ← encode_port_names w (actor_out_ports a);
  w ← match replication with Some obj => encode_replication w obj | None => mret w end;
  send_request 1000 w msg_uuid handler (MD_actor_id actor).

Definition cc_proto_send_remove_actor (actor : loc) (handler : cc_msg_handler_t) : W cc_result_t :=
  a ← get_actor actor;
  aid ← deref (actor_id a);
  let '(key, key_len) := storage_key (str "actor-") aid in
  msg_uuid ← gen_msg_uuid;
  '(client, peer, id, tid) ← storage_route;
  readable key key_len ;;
  let w := tunnel_data_from_to (message_start client) id peer tid in
  let w := cc_coder_encode_kv_map w (str "value") 3 in
  let w := cc_coder_encode_kv_str w (str "cmd") (str "DELETE") 6 in
  let w := cc_coder_encode_kv_str w (str "key") key key_len in
  let w := kv_uuid w (str "msg_uuid") msg_uuid in
  send_request 1000 w msg_uuid handler MD_null.

(** One of the two messages of [cc_proto_send_remove_replica]: the text of the
    index is [folder] and the replication identifier, the value an identifier. *)
Definition send_remove_index (folder id value : bytes) (key_size : nat)
  (handler : cc_msg_handler_t) : W cc_result_t :=
  let text := folder ++ cstr id in
  let key := snprintf 80 key_size text in
  msg_uuid ← gen_msg_uuid;
  '(client, peer, nid, tid) ← storage_route;
  readable key (length text) ;;
  let w := tunnel_data_from_to (message_start client) nid peer tid in
  let w := cc_coder_encode_kv_map w (str "value") 5 in
  let w := cc_coder_encode_kv_str w (str "cmd") (str "REMOVE_INDEX") 12 in
  let w := cc_coder_encode_kv_str w (str "prefix") (str "index-") 6 in
  let w := cc_coder_encode_kv_array w (str "index") 1 in
  let w := cc_coder_encode_str w key (length text) in
  let w := kv_uuid w (str "value") value in
  let w := kv_uuid w (str "msg_uuid") msg_uuid in
  send_request 1000 w msg_uuid handler MD_null.

Definition cc_proto_send_remove_replica (actor : loc) (node_also : bool)
  (handler : cc_msg_handler_t) : W cc_result_t :=
  a ← get_actor actor;
  match replication_map a ≫= (fun m => cc_coder_decode_string_from_map m (str "id")) with
  | None => mret CC_FAIL
  | Some (replication_id, replication_id_len) =>
      id ← need BufferOverflow (strncpy_nul (zeroed 40) replication_id replication_id_len);
      aid ← deref (actor_id a);
      r ← send_remove_index (str "replicas/actors/") id aid (17 + replication_id_len) handler;
      if negb (bool_decide (r = CC_SUCCESS)) then mret CC_FAIL
      else if negb node_also then mret CC_SUCCESS
      else
        node ← get_node;
        send_remove_index (str "replicas/nodes/") id (node_id node) (16 + replication_id_len) handler
  end.

Definition cc_proto_send_set_port (port : loc) (handler : cc_msg_handler_t) : W cc_result_t :=
  msg_uuid ← gen_msg_uuid;
  p ← get_port port;
  let '(key, key_len) := storage_key (str "port-") (port_id p) in
  '(client, peer, id, tid) ← storage_route;
  readable key key_len ;;
  a ← get_actor (port_actor p);
  aid ← deref (actor_id a);
  let w := tunnel_data_to_from (message_start client) peer id tid in
  let w := cc_coder_encode_kv_map w (str "value") 4 in
  let w := kv_uuid w (str "msg_uuid") msg_uuid in
  let w := cc_coder_encode_kv_str w (str "cmd") (str "SET") 3 in
  let w := cc_coder_encode_kv_str w (str "key") key key_len in
  let w := cc_coder_encode_kv_map w (str "value") 6 in
  let w := cc_coder_encode_kv_array w (str "peers") 1 in
  let w := cc_coder_encode_array w 2 in
  let w := if (0 <? uuid_len (port_peer_id p))%nat
           then cc_coder_encode_str w (port_peer_id p) (strlen (port_peer_id p))
           else cc_coder_encode_nil w in
  let w := cc_coder_encode_str w (port_peer_port_id p) (strlen (port_peer_port_id p)) in
  let w := cc_coder_encode_kv_map w (str "properties") 3 in
  let w := match port_direction p with
           | CC_PORT_DIRECTION_IN => cc_coder_encode_kv_str w (str "direction") (str "in") 2
           | CC_PORT_DIRECTION_OUT => cc_coder_encode_kv_str w (str "direction") (str "out") 3
           end in
  let w := cc_coder_encode_kv_str w (str "routing") (str "default") 7 in
  let w := cc_coder_encode_kv_uint w (str "nbr_peers") 1 in
  let w := cc_coder_encode_kv_str w (str "name") (port_name p) (strlen (port_name p)) in
  let w := cc_coder_encode_kv_str w (str "node_id") id (strlen id) in
  let w := if bool_decide (port_state p = CC_PORT_ENABLED)
           then cc_coder_encode_kv_str w (str "connected") (str "true") 4
           else cc_coder_encode_kv_str w (str "connected") (str "false") 5 in
  let w := cc_coder_encode_kv_str w (str "actor_id") aid (strlen aid) in
  send_request 2000 w msg_uuid handler (MD_port_id port).

(** The message data of the only caller is the [id] of the port. *)
Definition cc_proto_send_get_port (peer_port_id : bytes) (handler : cc_msg_handler_t)
  (msg_data : msg_data_t) : W cc_result_t :=
  let '(key, key_len) := storage_key (str "port-") peer_port_id in
  msg_uuid ← gen_msg_uuid;
  '(client, peer, id, tid) ← storage_route;
  let w := tunnel_data_to_from (message_start client) peer id tid in
  let w := cc_coder_encode_kv_map w (str "value") 3 in
  let w := cc_coder_encode_kv_str w (str "cmd") (str "GET") 3 in
  let w := cc_coder_encode_kv_str w (str "key") key (strnlen key key_len) in
  let w := kv_uuid w (str "msg_uuid") msg_uuid in
  send_request 1000 w msg_uuid handler msg_data.

Definition cc_proto_send_remove_port (port : loc) (handler : cc_msg_handler_t) : W cc_result_t :=
  p ← get_port port;
  let '(key, key_len) := storage_key (str "port-") (port_id p) in
  msg_uuid ← gen_msg_uuid;
  '(client, peer, id, tid) ← storage_route;
  readable key key_len ;;
  let w := tunnel_data_to_from (message_start client) peer id tid in
  let w := cc_coder_encode_kv_map w (str "value") 3 in
  let w := cc_coder_encode_kv_str w (str "cmd") (str "DELETE") 6 in
  let w := cc_coder_encode_kv_str w (str "key") key key_len in
  let w := kv_uuid w (str "msg_uuid") msg_uuid in
  send_request 1000 w msg_uuid handler (MD_port_id port).

(** [cc_coder_get_name]: the string in a buffer of its own. *)
Definition cc_coder_get_name : W (option loc) := alloc_buffer (str "msgpack" ++ [NUL]).

(** [cc_transport_join]: the request to join, and without TLS no more. *)
Definition request_join (send : option cc_transport_client_t -> bytes -> W cc_result_t)
  (client : cc_transport_client_t) : W cc_result_t :=
  serializer ← cc_coder_get_name;
  match serializer with
  | None => mret CC_FAIL
  | Some s =>
      name ← on_mem (mem_read s);
      r ← send_join_request send client name;
      if negb (bool_decide (r = CC_SUCCESS)) then on_mem (mem_free s) ;; mret CC_FAIL
      else
        upd_client (set_tc_state CC_TRANSPORT_PENDING) ;;
        on_mem (mem_free s) ;;
        mret CC_SUCCESS
  end.
Definition cc_transport_join : cc_transport_client_t -> W cc_result_t := request_join cc_transport_send.
End proto_send.
