(* ===== verification/Link.v ===== *)
(** runtime/north/cc_link.c and cc_tunnel.c: the links to the peer runtimes, counted by
    the tunnels that use them, and the tunnels, counted by the ports. *)
From S2P Require Import Prelude CString Common MsgPuck Coder Fifo Machine Transport ProtoSend.

(** [cc_link_get]: the first link whose peer agrees with the first [len] bytes. *)
Definition cc_link_get (peer_id : bytes) (peer_id_len : nat) : W (option loc) :=
  w ← get_;
  walk (link_live w) (node_links (w_node w))
    (List.find (fun l => streq_n (link_key w l) peer_id peer_id_len)).

Definition cc_link_free (link : loc) : W unit :=
  l ← get_link link;
  w ← get_;
  links ← walk_remove (link_live w) (link_key w) (node_links (w_node w)) (link_peer_id l);
  upd_node (set_node_links links) ;;
  free_link link.

Definition cc_link_add_ref (link : option loc) : W unit :=
  match link with
  | None => mret tt
  | Some l => x ← get_link l; put_link l (set_link_ref_count (u8 (link_ref_count x + 1)) x)
  end.

Definition cc_link_remove_ref (link : option loc) : W unit :=
  match link with
  | None => mret tt
  | Some l =>
      x ← get_link l;
      let count := u8 (link_ref_count x - 1) in
      put_link l (set_link_ref_count count x) ;;
      when (count =? 0) (cc_link_free l)
  end.

Section link.
Context `{P : Platform}.

Definition cc_link_create (peer_id : bytes) (peer_id_len : nat) (is_proxy : bool)
  : W (option loc) :=
  link ← cc_link_get peer_id peer_id_len;
  match link with
  | Some l => mret (Some l)
  | None =>
      ok ← cc_platform_mem_alloc;
      if negb ok then mret None
      else
        id ← need BufferOverflow (strncpy (zeroed CC_UUID_BUFFER_SIZE) peer_id peer_id_len);
        l ← fresh_loc;
        put_link l {| link_peer_id := id; link_ref_count := 0; link_is_proxy := is_proxy |} ;;
        node ← get_node;
        r ← cc_list_add (node_links node) l;
        match r with
        | None => free_link l ;; mret None
        | Some links => upd_node (set_node_links links) ;; mret (Some l)
        end
  end.

Context `{MP : MsgPuck}.

Definition cc_link_serialize (link : loc) (buffer : bytes) : W bytes :=
  l ← get_link link;
  let buffer := cc_coder_encode_map buffer 2 in
  let buffer := cc_coder_encode_kv_str buffer (str "peer_id") (link_peer_id l)
                  (strnlen (link_peer_id l) CC_UUID_BUFFER_SIZE) in
  mret (cc_coder_encode_kv_bool buffer (str "is_proxy") (link_is_proxy l)).

Definition cc_link_deserialize (buffer : bytes) : W (option loc) :=
  let? (peer_id, len) := cc_coder_decode_string_from_map buffer (str "peer_id") else mret None in
  let? is_proxy := cc_coder_decode_bool_from_map buffer (str "is_proxy") else mret None in
  cc_link_create peer_id len is_proxy.
End link.

(** * runtime/north/cc_tunnel.c: tunnels over the links, counted by the ports and
    the node that use them, and the two ways they get connected.

    The handlers of the replies come last: [cc_tunnel_create] names
    [tunnel_request_handler] by its tag [H_tunnel_request]. *)

(** The integers of the enumerations: a stored number is cast unchecked. *)
Definition tunnel_state_val (s : cc_tunnel_state_t) : Z :=
  match s with
  | CC_TUNNEL_DISCONNECTED => 0 | CC_TUNNEL_ENABLED => 1 | CC_TUNNEL_PENDING => 2
  | CC_TUNNEL_STATE_RAW n => n
  end.
Definition tunnel_state_of (n : Z) : cc_tunnel_state_t :=
  if n =? 0 then CC_TUNNEL_DISCONNECTED else if n =? 1 then CC_TUNNEL_ENABLED
  else if n =? 2 then CC_TUNNEL_PENDING else CC_TUNNEL_STATE_RAW n.
Definition tunnel_type_val (t : cc_tunnel_type_t) : Z :=
  match t with
  | CC_TUNNEL_TYPE_STORAGE => 0 | CC_TUNNEL_TYPE_TOKEN => 1 | CC_TUNNEL_TYPE_PROXY => 2
  | CC_TUNNEL_TYPE_RAW n => n
  end.
Definition tunnel_type_of (n : Z) : cc_tunnel_type_t :=
  if n =? 0 then CC_TUNNEL_TYPE_STORAGE else if n =? 1 then CC_TUNNEL_TYPE_TOKEN
  else if n =? 2 then CC_TUNNEL_TYPE_PROXY else CC_TUNNEL_TYPE_RAW n.

(** ** Lookups *)

Definition cc_tunnel_get_from_id (tunnel_id : bytes) (tunnel_id_len : nat) : W (option loc) :=
  w ← get_;
  walk (tunnel_live w) (node_tunnels (w_node w))
    (fun l => cc_list_get_n (tunnel_key w) l tunnel_id tunnel_id_len).

(** A tunnel without a link makes the loop go on without advancing. *)
Fixpoint find_peer_tunnel (peer_id : bytes) (peer_id_len : nat) (type : cc_tunnel_type_t)
  (tunnels : list loc) : W (option loc) :=
  match tunnels with
  | [] => mret None
  | l :: tunnels =>
      t ← get_tunnel l;
      match tunnel_link t with
      | None => ub_ Diverges
      | Some k =>
          if bool_decide (tunnel_type t = type) then
            link ← get_link k;
            if streq_n (link_peer_id link) peer_id peer_id_len then mret (Some l)
            else find_peer_tunnel peer_id peer_id_len type tunnels
          else find_peer_tunnel peer_id peer_id_len type tunnels
      end
  end.

Definition cc_tunnel_get_from_peerid_and_type (peer_id : bytes) (peer_id_len : nat)
  (type : cc_tunnel_type_t) : W (option loc) :=
  node ← get_node; find_peer_tunnel peer_id peer_id_len type (node_tunnels node).

(** ** References *)

Definition cc_tunnel_add_ref (tunnel : option loc) : W unit :=
  match tunnel with
  | None => mret tt
  | Some t => upd_tunnel t (fun x => set_tunnel_ref_count (u8 (tunnel_ref_count x + 1)) x)
  end.

Definition cc_tunnel_free (tunnel : option loc) (unref_link : bool) : W unit :=
  match tunnel with
  | None => mret tt
  | Some l =>
      t ← get_tunnel l;
      when unref_link (cc_link_remove_ref (tunnel_link t)) ;;
      w ← get_;
      tunnels ← walk_remove (tunnel_live w) (tunnel_key w) (node_tunnels (w_node w)) (tunnel_id t);
      upd_node (set_node_tunnels tunnels) ;;
      free_tunnel l
  end.

Section tunnel.
Context `{P : Platform} `{MP : MsgPuck}.

Definition cc_tunnel_remove_ref (tunnel : option loc) : W unit :=
  match tunnel with
  | None => mret tt
  | Some l =>
      t ← get_tunnel l;
      let count := u8 (tunnel_ref_count t - 1) in
      put_tunnel l (set_tunnel_ref_count count t) ;;
      when (count =? 0)
        (node ← get_node;
         when (bool_decide (node_state node <> CC_NODE_DO_SLEEP)
               && bool_decide (node_transport_client node <> None))
           (_ ← cc_proto_send_tunnel_destroy l H_tunnel_destroy; mret tt) ;;
         cc_tunnel_free (Some l) true)
  end.

(** ** Creation *)

Definition cc_tunnel_create (type : cc_tunnel_type_t) (state : cc_tunnel_state_t)
  (peer_id : bytes) (peer_id_len : nat) (given_id : option (bytes * nat)) : W (option loc) :=
  tunnel ← cc_tunnel_get_from_peerid_and_type peer_id peer_id_len type;
  match tunnel with
  | Some l => mret (Some l)
  | None =>
      link ← cc_link_get peer_id peer_id_len;
      link ← match link with
             | Some k => mret (Some k)
             | None =>
                 node ← get_node;
                 proxy ← deref (node_proxy_link node);
                 proxy ← get_link proxy;
                 cc_link_create peer_id peer_id_len
                   (streq_n (link_peer_id proxy) peer_id peer_id_len)
             end;
      match link with
      | None => mret None
      | Some k =>
          ok ← cc_platform_mem_alloc;
          if negb ok then mret None
          else
            id ← match given_id with
                 | None => gen_uuid_buffer None
                 | Some (tid, len) =>
                     need BufferOverflow (strncpy_nul (zeroed CC_UUID_BUFFER_SIZE) tid len)
                 end;
            l ← fresh_loc;
            put_tunnel l {| tunnel_id := id; tunnel_link := Some k; tunnel_state := state;
                            tunnel_ref_count := 0; tunnel_type := type |} ;;
            sent ← (if bool_decide (state = CC_TUNNEL_ENABLED) then mret true
                    else
                      r ← cc_proto_send_tunnel_request l H_tunnel_request;
                      if bool_decide (r = CC_SUCCESS)
                      then upd_tunnel l (set_tunnel_state CC_TUNNEL_PENDING) ;; mret true
                      else mret false);
            if negb sent then free_tunnel l ;; mret None
            else
              node ← get_node;
              r ← cc_list_add (node_tunnels node) l;
              match r with
              | None => free_tunnel l ;; mret None
              | Some tunnels =>
                  upd_node (set_node_tunnels tunnels) ;;
                  cc_link_add_ref (Some k) ;;
                  mret (Some l)
              end
      end
  end.

(** The answer to a TUNNEL_NEW of the peer. *)
Definition cc_tunnel_handle_tunnel_new_request (peer_id : bytes) (peer_id_len : nat)
  (given_id : bytes) (given_id_len : nat) : W cc_result_t :=
  tunnel ← cc_tunnel_get_from_peerid_and_type peer_id peer_id_len CC_TUNNEL_TYPE_TOKEN;
  match tunnel with
  | Some l =>
      t ← get_tunnel l;
      if bool_decide (tunnel_state t = CC_TUNNEL_ENABLED) then mret CC_SUCCESS
      else
        when (cc_uuid_is_higher given_id given_id_len (tunnel_id t) (uuid_len (tunnel_id t)))
          (id ← need BufferOverflow (strncpy (tunnel_id t) given_id given_id_len);
           upd_tunnel l (set_tunnel_id id)) ;;
        upd_tunnel l (set_tunnel_state CC_TUNNEL_ENABLED) ;;
        mret CC_SUCCESS
  | None =>
      tunnel ← cc_tunnel_create CC_TUNNEL_TYPE_TOKEN CC_TUNNEL_ENABLED peer_id peer_id_len
                 (Some (given_id, given_id_len));
      match tunnel with
      | None => mret CC_FAIL
      | Some _ => mret CC_SUCCESS
      end
  end.

(** ** State *)

Definition cc_tunnel_serialize (tunnel : loc) (buffer : bytes) : W bytes :=
  t ← get_tunnel tunnel;
  peer ← tunnel_peer t;
  let buffer := cc_coder_encode_map buffer 4 in
  let buffer := kv_uuid buffer (str "id") (tunnel_id t) in
  let buffer := kv_uuid buffer (str "peer_id") peer in
  let buffer := cc_coder_encode_kv_uint buffer (str "state") (tunnel_state_val (tunnel_state t)) in
  mret (cc_coder_encode_kv_uint buffer (str "type") (tunnel_type_val (tunnel_type t))).

Definition cc_tunnel_deserialize (buffer : bytes) : W (option loc) :=
  let? (id, len_id) := cc_coder_decode_string_from_map buffer (str "id") else mret None in
  let? (peer_id, len_peer_id) := cc_coder_decode_string_from_map buffer (str "peer_id")
    else mret None in
  let? state := cc_coder_decode_uint_from_map buffer (str "state") else mret None in
  let? type := cc_coder_decode_uint_from_map buffer (str "type") else mret None in
  cc_tunnel_create (tunnel_type_of type) (tunnel_state_of state) peer_id len_peer_id
    (Some (id, len_id)).

(** ** Replies *)

Definition tunnel_destroy_handler (data : bytes) : W cc_result_t := mret CC_SUCCESS.

(** The reply to [cc_proto_send_tunnel_request]; the message data is not used. *)
Definition tunnel_request_handler (data : bytes) : W cc_result_t :=
  let? value := cc_coder_get_value_from_map data (str "value") else mret CC_FAIL in
  let? data_value := cc_coder_get_value_from_map value (str "data") else mret CC_FAIL in
  let? (tunnel_id_, tunnel_id_len) :=
    cc_coder_decode_string_from_map data_value (str "tunnel_id") else mret CC_FAIL in
  let? status := cc_coder_decode_uint_from_map value (str "status") else mret CC_FAIL in
  tunnel ← cc_tunnel_get_from_id tunnel_id_ tunnel_id_len;
  match tunnel with
  | None => mret CC_FAIL
  | Some l =>
      if status =? 200 then
        t ← get_tunnel l;
        id ← need BufferOverflow (strncpy_nul (tunnel_id t) tunnel_id_ tunnel_id_len);
        upd_tunnel l (set_tunnel_id id) ;;
        upd_tunnel l (set_tunnel_state CC_TUNNEL_ENABLED) ;;
        mret CC_SUCCESS
      else upd_tunnel l (set_tunnel_state CC_TUNNEL_DISCONNECTED) ;; mret CC_SUCCESS
  end.
End tunnel.
