(* ===== verification/FifoInit.v ===== *)
(** runtime/north/cc_fifo.c: the creation of a queue, empty or from the state of a
    migrated or stored port.  Of the memory only the byte buffers are modelled:
    the structures that an early return leaks are not. *)
From S2P Require Import Prelude CString Common MsgPuck Coder Fifo Machine.

Section fifo_init.
Context `{P : Platform}.

Definition cc_fifo_init_empty : W (option cc_fifo_t) :=
  ok ← cc_platform_mem_alloc;
  if negb ok then mret None
  else
    ok ← cc_platform_mem_alloc;
    mret (if (ok : bool) then Some (new_fifo 4) else None).

Context `{MP : MsgPuck}.

(** [&fifo->tokens[i]]: outside the array, undefined. *)
Definition set_slot_data (f : cc_fifo_t) (i : nat) (data : option loc) (size : Z) : W cc_fifo_t :=
  t ← need BufferOverflow (tokens f !! i);
  t' ← on_mem (cc_token_set_data t data size);
  mret (set_token i t' f).

(** The loop over the stored tokens from the index [i] on, [n] of them left. *)
Fixpoint init_tokens (obj_tokens : bytes) (n i : nat) (f : cc_fifo_t) : W (cc_result_t * cc_fifo_t) :=
  match n with
  | O => mret (CC_SUCCESS, f)
  | S n =>
      let? obj_token := cc_coder_get_value_from_array obj_tokens i else mret (CC_FAIL, f) in
      let? obj_data := cc_coder_get_value_from_map obj_token (str "data") else mret (CC_FAIL, f) in
      if negb (read_pos f =? tentative_read_pos f) || negb (write_pos f =? read_pos f) then
        let size := cc_coder_get_size_of_value obj_data in
        data ← alloc_buffer (take size obj_data);
        match data with
        | None => mret (CC_FAIL, f)
        | Some _ =>
            f ← set_slot_data f i data (Z.of_nat size);
            init_tokens obj_tokens n (S i) f
        end
      else init_tokens obj_tokens n (S i) f
  end.

(** The positions and tokens of a stored queue. *)
Definition init_positions (r : bytes) (f : cc_fifo_t) : W (option cc_fifo_t) :=
  let? wp := cc_coder_decode_uint_from_map r (str "write_pos") else mret None in
  let f := set_write_pos wp f in
  let? obj_tentative := cc_coder_get_value_from_map r (str "tentative_read_pos") else mret None in
  let? obj_readers := cc_coder_get_value_from_map r (str "readers") else mret None in
  let? (reader, reader_len) := cc_coder_decode_string_from_array obj_readers 0 else mret None in
  let name := strncpy_bytes reader reader_len ++ [NUL] in
  tmp_reader ← alloc_buffer name;
  match tmp_reader with
  | None => mret None
  | Some tmp_reader =>
      let tentative := cc_coder_decode_uint_from_map obj_tentative name in
      let f := set_tentative_read_pos (default (tentative_read_pos f) tentative) f in
      let? obj_read_pos := cc_coder_get_value_from_map r (str "read_pos") else mret None in
      let rp := match tentative with
                | Some _ => cc_coder_decode_uint_from_map obj_read_pos name
                | None => None
                end in
      let f := set_read_pos (default (read_pos f) rp) f in
      let result := match rp with Some _ => CC_SUCCESS | None => CC_FAIL end in
      '(result, f) ←
        match cc_coder_get_value_from_map r (str "fifo") with
        | Some obj_tokens =>
            '(loop_result, f) ← init_tokens obj_tokens
                                  (Z.to_nat (cc_coder_get_size_of_array obj_tokens)) 0 f;
            mret (if bool_decide (loop_result = CC_SUCCESS) then result else CC_FAIL, f)
        | None => mret (result, f)
        end;
      on_mem (mem_free tmp_reader) ;;
      mret (if bool_decide (result = CC_SUCCESS) then Some f else None)
  end.

Definition cc_fifo_init (obj_fifo : option bytes) (obj_properties : bytes) : W (option cc_fifo_t) :=
  ok ← cc_platform_mem_alloc;
  if negb ok then mret None
  else
    match obj_fifo with
    | Some r =>
        let? (queuetype, queuetype_len) := cc_coder_decode_string_from_map r (str "queuetype")
          else mret None in
        if negb (streq_n (str "fanout_fifo") queuetype queuetype_len) then mret None
        else
          let? size := cc_coder_decode_uint_from_map r (str "N") else mret None in
          ok ← cc_platform_mem_alloc;
          if negb ok then mret None else init_positions r (new_fifo size)
    | None =>
        let size := default 4 (cc_coder_decode_uint_from_map obj_properties (str "queue_length")) in
        ok ← cc_platform_mem_alloc;
        mret (if (ok : bool) then Some (new_fifo size) else None)
    end.
End fifo_init.
