(* ===== verification/Port.v ===== *)
(** runtime/north/cc_port.c, and the part of cc_actor.c that the ports call back into: the
    state of an actor follows the states of its ports. *)
From S2P Require Import Prelude CString Common MsgPuck Coder Fifo Machine Transport ProtoSend Link.
From S2P Require Import FifoInit.

Definition cc_actor_set_state (actor : loc) (state : cc_actor_state_t) : W unit :=
  upd_actor actor (set_actor_state state).

(** The loop over one list of ports: the state the first port that is not enabled
    imposes. *)
Fixpoint ports_state (ports : list loc) : W cc_actor_state_t :=
  match ports with
  | [] => mret CC_ACTOR_ENABLED
  | l :: ports =>
      p ← get_port l;
      if bool_decide (port_state p = CC_PORT_DO_DELETE) then mret CC_ACTOR_DO_DELETE
      else if negb (bool_decide (port_state p = CC_PORT_ENABLED)) then mret CC_ACTOR_PENDING
      else ports_state ports
  end.

Definition cc_actor_port_state_changed (actor : loc) : W unit :=
  a ← get_actor actor;
  s ← ports_state (actor_in_ports a);
  s ← (if bool_decide (s = CC_ACTOR_ENABLED) then ports_state (actor_out_ports a) else mret s);
  cc_actor_set_state actor s.

Definition cc_actor_port_disconnected (actor : loc) : W unit :=
  cc_actor_set_state actor CC_ACTOR_PENDING.

Definition cc_actor_get (actor_id_ : bytes) (actor_id_len : nat) : W (option loc) :=
  w ← get_;
  walk (actor_live w) (node_actors (w_node w))
    (fun l => cc_list_get_n (actor_key w) l actor_id_ actor_id_len).

Fixpoint find_actor_name (name : bytes) (name_len : nat) (actors : list loc) : W (option loc) :=
  match actors with
  | [] => mret None
  | l :: actors =>
      a ← get_actor l;
      n ← deref (actor_name a);
      if streq_n n name name_len then mret (Some l) else find_actor_name name name_len actors
  end.

Definition cc_actor_get_from_name (name : bytes) (name_len : nat) : W (option loc) :=
  node ← get_node; find_actor_name name name_len (node_actors node).

(** * runtime/north/cc_port.c: the ports of the actors, their connection to a local
    port or through a tunnel, the transmission of tokens, and their state on the
    wire.  The lookups are in this order: lookups, state, connection, creation
    and destruction, transmission, serialisation, reply handlers. *)

Definition port_state_val (s : cc_port_state_t) : Z :=
  match s with
  | CC_PORT_DISCONNECTED => 0 | CC_PORT_ENABLED => 1 | CC_PORT_PENDING_LOOKUP => 2
  | CC_PORT_PENDING_TUNNEL => 3 | CC_PORT_PENDING_CONNECT => 4 | CC_PORT_DO_DELETE => 5
  | CC_PORT_STATE_RAW n => n
  end.
Definition port_state_of (n : Z) : cc_port_state_t :=
  if n =? 0 then CC_PORT_DISCONNECTED else if n =? 1 then CC_PORT_ENABLED
  else if n =? 2 then CC_PORT_PENDING_LOOKUP else if n =? 3 then CC_PORT_PENDING_TUNNEL
  else if n =? 4 then CC_PORT_PENDING_CONNECT else if n =? 5 then CC_PORT_DO_DELETE
  else CC_PORT_STATE_RAW n.

(** ** Lookups *)

(** The first port of a list with an identifier. *)
Definition port_in (ports : list loc) (id : bytes) (id_len : nat) : W (option loc) :=
  w ← get_;
  walk (port_live w) ports (fun l => cc_list_get_n (port_key w) l id id_len).

Fixpoint find_port (id : bytes) (id_len : nat) (actors : list loc) : W (option loc) :=
  match actors with
  | [] => mret None
  | l :: actors =>
      a ← get_actor l;
      port ← port_in (actor_in_ports a) id id_len;
      match port with
      | Some p => mret (Some p)
      | None =>
          port ← port_in (actor_out_ports a) id id_len;
          match port with
          | Some p => mret (Some p)
          | None => find_port id id_len actors
          end
      end
  end.

Definition cc_port_get (id : bytes) (id_len : nat) : W (option loc) :=
  node ← get_node; find_port id id_len (node_actors node).

(** The first port of a list that satisfies a test on its fields. *)
Fixpoint first_port (test : cc_port_t -> bool) (ports : list loc) : W (option loc) :=
  match ports with
  | [] => mret None
  | l :: ports =>
      p ← get_port l;
      if test p then mret (Some l) else first_port test ports
  end.

Fixpoint find_peer_port (peer_port_id : bytes) (len : nat) (actors : list loc) : W (option loc) :=
  match actors with
  | [] => mret None
  | l :: actors =>
      a ← get_actor l;
      let test := fun p => streq_n (port_peer_port_id p) peer_port_id len in
      port ← first_port test (actor_in_ports a);
      match port with
      | Some p => mret (Some p)
      | None =>
          port ← first_port test (actor_out_ports a);
          match port with
          | Some p => mret (Some p)
          | None => find_peer_port peer_port_id len actors
          end
      end
  end.

Definition cc_port_get_from_peer_port_id (peer_port_id : bytes) (len : nat) : W (option loc) :=
  node ← get_node; find_peer_port peer_port_id len (node_actors node).

Definition cc_port_get_from_name (actor : loc) (name : bytes) (name_len : nat)
  (direction : cc_port_direction_t) : W (option loc) :=
  a ← get_actor actor;
  first_port (fun p => bool_decide (port_direction p = direction) && streq_n (port_name p) name name_len)
    (match direction with
     | CC_PORT_DIRECTION_IN => actor_in_ports a
     | CC_PORT_DIRECTION_OUT => actor_out_ports a
     end).

(** ** State *)

Definition cc_port_set_state (port : loc) (state : cc_port_state_t) : W unit :=
  p ← get_port port;
  let p := if bool_decide (state = CC_PORT_ENABLED) && negb (bool_decide (port_state p = CC_PORT_ENABLED))
           then set_port_retries 0 p else p in
  put_port port (set_port_state state p) ;;
  cc_actor_port_state_changed (port_actor p).

(** [memset(port->peer_id, 0, CC_UUID_BUFFER_SIZE)]. *)
Definition clear_peer_id (port : loc) : W unit :=
  upd_port port (set_port_peer_id (zeroed CC_UUID_BUFFER_SIZE)).

(** The queue of a port; a port under destruction may have none. *)
Definition get_fifo (port : loc) : W cc_fifo_t := p ← get_port port; deref (port_fifo p).
Definition put_fifo (port : loc) (f : cc_fifo_t) : W unit := upd_port port (set_port_fifo (Some f)).

Section port.
Context `{P : Platform} `{MP : MsgPuck}.

(** [cc_tunnel_remove_ref(node, port->tunnel); port->tunnel = NULL;] *)
Definition drop_tunnel (port : loc) : W unit :=
  p ← get_port port;
  cc_tunnel_remove_ref (port_tunnel p) ;;
  upd_port port (set_port_tunnel None).

(** The same when there is a tunnel. *)
Definition drop_tunnel_if_any (port : loc) : W unit :=
  p ← get_port port;
  match port_tunnel p with Some _ => drop_tunnel port | None => mret tt end.

(** ** Connection *)

Definition cc_port_handle_connect (id : bytes) (id_len : nat) (tid : bytes) (tid_len : nat)
  : W cc_result_t :=
  port ← cc_port_get id id_len;
  match port with
  | None => mret CC_FAIL
  | Some l =>
      p ← get_port l;
      same ← match port_tunnel p with
             | Some t => t ← get_tunnel t; mret (streq_n (tunnel_id t) tid tid_len)
             | None => mret false
             end;
      if (same : bool) then cc_port_set_state l CC_PORT_ENABLED ;; mret CC_SUCCESS
      else
        drop_tunnel_if_any l ;;
        tunnel ← cc_tunnel_get_from_id tid tid_len;
        upd_port l (set_port_tunnel tunnel) ;;
        match tunnel with
        | None => mret CC_FAIL
        | Some t =>
            cc_tunnel_add_ref (Some t) ;;
            cc_port_set_state l CC_PORT_ENABLED ;;
            x ← get_tunnel t;
            peer ← tunnel_peer x;
            id ← need BufferOverflow (strncpy (zeroed CC_UUID_BUFFER_SIZE) peer (uuid_len peer));
            upd_port l (set_port_peer_id id) ;;
            mret CC_SUCCESS
        end
  end.

Definition cc_port_handle_disconnect (id : bytes) (id_len : nat) : W cc_result_t :=
  port ← cc_port_get id id_len;
  match port with
  | None => mret CC_FAIL
  | Some l =>
      f ← get_fifo l;
      put_fifo l (cc_fifo_cancel f) ;;
      cc_port_set_state l CC_PORT_DISCONNECTED ;;
      clear_peer_id l ;;
      drop_tunnel_if_any l ;;
      mret CC_SUCCESS
  end.

Definition cc_port_do_peer_lookup (port : loc) : W unit :=
  p ← get_port port;
  r ← cc_proto_send_get_port (port_peer_port_id p) H_port_get_peer_port_reply (MD_port_id port);
  if bool_decide (r = CC_SUCCESS) then cc_port_set_state port CC_PORT_PENDING_LOOKUP
  else cc_port_set_state port CC_PORT_DISCONNECTED.

(** [strncpy(port->peer_id, node->id, CC_UUID_BUFFER_SIZE)]. *)
Definition set_peer_to_self (port : loc) : W unit :=
  node ← get_node;
  upd_port port (set_port_peer_id (strncpy_bytes (node_id node) CC_UUID_BUFFER_SIZE)).

Definition cc_port_connect_local (port : loc) : W cc_result_t :=
  p ← get_port port;
  peer ← cc_port_get (port_peer_port_id p) (uuid_len (port_peer_port_id p));
  match peer with
  | None => mret CC_FAIL
  | Some peer =>
      drop_tunnel_if_any port ;;
      drop_tunnel_if_any peer ;;
      upd_port port (set_port_peer_port (Some peer)) ;;
      set_peer_to_self port ;;
      cc_port_set_state port CC_PORT_ENABLED ;;
      upd_port peer (set_port_peer_port (Some port)) ;;
      set_peer_to_self peer ;;
      cc_port_set_state peer CC_PORT_ENABLED ;;
      mret CC_SUCCESS
  end.

Definition cc_port_connect_with_pending_tunnel (port : loc) : W cc_result_t :=
  p ← get_port port;
  t ← deref (port_tunnel p);
  x ← get_tunnel t;
  if bool_decide (tunnel_state x = CC_TUNNEL_PENDING) then mret CC_SUCCESS
  else
    sent ← (if bool_decide (tunnel_state x = CC_TUNNEL_ENABLED) then
              r ← cc_proto_send_port_connect port H_port_connect_reply;
              mret (bool_decide (r = CC_SUCCESS))
            else mret false);
    if (sent : bool) then cc_port_set_state port CC_PORT_PENDING_CONNECT ;; mret CC_SUCCESS
    else
      drop_tunnel port ;;
      cc_port_set_state port CC_PORT_DISCONNECTED ;;
      mret CC_FAIL.

Definition cc_port_get_tunnel (port : loc) : W cc_result_t :=
  p ← get_port port;
  let peer := port_peer_id p in
  let len := uuid_len peer in
  tunnel ← cc_tunnel_get_from_peerid_and_type peer len CC_TUNNEL_TYPE_TOKEN;
  upd_port port (set_port_tunnel tunnel) ;;
  tunnel ← match tunnel with
           | Some t => mret (Some t)
           | None =>
               t ← cc_tunnel_create CC_TUNNEL_TYPE_TOKEN CC_TUNNEL_DISCONNECTED peer len None;
               upd_port port (set_port_tunnel t) ;;
               mret t
           end;
  match tunnel with
  | None => mret CC_FAIL
  | Some t =>
      cc_tunnel_add_ref (Some t) ;;
      cc_port_set_state port CC_PORT_PENDING_TUNNEL ;;
      mret CC_SUCCESS
  end.

(** The attempts after the local one: a tunnel to the known peer, then the lookup
    of the peer in the storage. *)
Definition cc_port_connect_remote (port : loc) : W unit :=
  p ← get_port port;
  match port_tunnel p with
  | None => when (0 <? uuid_len (port_peer_id p))%nat (_ ← cc_port_get_tunnel port; mret tt)
  | Some _ => mret tt
  end ;;
  p ← get_port port;
  r ← match port_tunnel p with
      | Some _ =>
          r ← cc_port_connect_with_pending_tunnel port;
          if bool_decide (r = CC_SUCCESS) then mret CC_SUCCESS
          else drop_tunnel port ;; mret CC_FAIL
      | None => mret CC_FAIL
      end;
  if bool_decide (r = CC_SUCCESS) then mret tt
  else
    clear_peer_id port ;;
    cc_port_set_state port CC_PORT_DISCONNECTED ;;
    cc_port_do_peer_lookup port.

Definition cc_port_connect (port : loc) : W unit :=
  p ← get_port port;
  if bool_decide (port_state p = CC_PORT_ENABLED) then mret tt
  else if port_retries p =? 5 then cc_port_set_state port CC_PORT_DO_DELETE
  else
    upd_port port (set_port_retries (u8 (port_retries p + 1))) ;;
    r ← cc_port_connect_local port;
    if bool_decide (r = CC_SUCCESS) then mret tt
    else cc_port_connect_remote port.

Definition cc_port_disconnect (port : loc) (unref_tunnel : bool) : W unit :=
  p ← get_port port;
  when (bool_decide (port_tunnel p <> None) && unref_tunnel)
    (_ ← cc_proto_send_port_disconnect port H_port_disconnect_reply;
     cc_tunnel_remove_ref (port_tunnel p)) ;;
  upd_port port (set_port_tunnel None) ;;
  match port_peer_port p with
  | Some peer =>
      cc_port_set_state peer CC_PORT_DISCONNECTED ;;
      upd_port port (set_port_peer_port None)
  | None => mret tt
  end ;;
  clear_peer_id port ;;
  cc_port_set_state port CC_PORT_DISCONNECTED ;;
  f ← get_fifo port;
  put_fifo port (cc_fifo_cancel f).

(** ** Creation and destruction *)

Definition cc_port_free (port : loc) (remove_from_registry : bool) : W unit :=
  _ ← get_port port;
  when remove_from_registry (_ ← cc_proto_send_remove_port port H_port_remove_reply; mret tt) ;;
  p ← get_port port;
  match port_tunnel p with Some t => cc_tunnel_remove_ref (Some t) | None => mret tt end ;;
  f ← deref (port_fifo p);
  on_mem (cc_fifo_free f) ;;
  free_port port.

(** The checks on the description of a port that come before anything else: its
    identifier, its name and its properties. *)
Definition port_description (r : bytes) : option (msg_str * msg_str * bytes) :=
  id ← cc_coder_decode_string_from_map r (str "id");
  name ← cc_coder_decode_string_from_map r (str "name");
  obj_properties ← cc_coder_get_value_from_map r (str "properties");
  '(routing, routing_len) ← cc_coder_decode_string_from_map obj_properties (str "routing");
  if negb (streq_n (str "default") routing routing_len)
     && negb (streq_n (str "fanout") routing routing_len) then None
  else
    nbr_peers ← cc_coder_decode_uint_from_map obj_properties (str "nbr_peers");
    if negb (nbr_peers =? 1) then None else Some (id, name, obj_properties).

(** The peer from the previous connections: its runtime, when it is a string, and
    its port. *)
Definition peer_of_prev (obj_prev_connections : bytes) (direction : cc_port_direction_t)
  (id : msg_str) : option (option msg_str * msg_str) :=
  obj_prev_ports ← cc_coder_get_value_from_map obj_prev_connections
    (match direction with CC_PORT_DIRECTION_IN => str "inports" | CC_PORT_DIRECTION_OUT => str "outports" end);
  obj_prev_port ← cc_coder_get_value_from_map_n obj_prev_ports id.1 id.2;
  obj_peer ← cc_coder_get_value_from_array obj_prev_port 0;
  tmp_value ← cc_coder_get_value_from_array obj_peer 0;
  peer_id ← (if bool_decide (cc_coder_type_of tmp_value = CC_CODER_STR)
             then Some <$> cc_coder_decode_str tmp_value else Some None);
  peer_port_id ← cc_coder_decode_string_from_array obj_peer 1;
  Some (peer_id, peer_port_id).

(** The peer from the connection list
    [[<node_id>, <port_id>, <peer_id>, <peer_port_id>], ...]. *)
Fixpoint peer_of_list (n : nat) (cl port_id : bytes) : option (option msg_str * msg_str) :=
  match n with
  | O => None
  | S n =>
      let? (tmp_port_id, len) := cc_coder_decode_string_from_array cl 1 else None in
      if negb (streq_n port_id tmp_port_id len)
      then peer_of_list n (cc_coder_decode_array_next cl) port_id
      else
        let peer_id := cc_coder_decode_string_from_array cl 2 in
        let? peer_port_id := cc_coder_decode_string_from_array cl 3 else None in
        match peer_id with None => None | Some _ => Some (peer_id, peer_port_id) end
  end.

(** [strncpy(dst, s, len); dst[len] = '\0';] into a zeroed array of [n] bytes. *)
Definition copy_field (n : nat) (s : msg_str) : W bytes :=
  need BufferOverflow (strncpy_nul (zeroed n) s.1 s.2).

(** What [cc_port_create] does with the port once its queue exists: the stored
    state, or the announcement to the storage. *)
Definition port_restore (port : loc) (r : bytes) (peer_id_len : nat) : W bool :=
  if cc_coder_has_key r (str "constrained_state") then
    match cc_coder_decode_uint_from_map r (str "constrained_state") with
    | None => cc_port_free port false ;; mret false
    | Some s =>
        upd_port port (set_port_state (port_state_of s)) ;;
        when (bool_decide (port_state_of s = CC_PORT_ENABLED))
          (p ← get_port port;
           node ← get_node;
           if streq_n (port_peer_id p) (node_id node) (uuid_len (port_peer_id p))
           then _ ← cc_port_connect_local port; mret tt
           else
             t ← cc_tunnel_get_from_peerid_and_type (port_peer_id p) peer_id_len CC_TUNNEL_TYPE_TOKEN;
             upd_port port (set_port_tunnel t) ;;
             match t with
             | Some t => cc_tunnel_add_ref (Some t)
             | None => cc_port_set_state port CC_PORT_DISCONNECTED
             end) ;;
        mret true
    end
  else
    node ← get_node;
    match node_transport_client node with
    | None => mret true
    | Some _ =>
        s ← cc_proto_send_set_port port H_port_store_reply;
        if bool_decide (s = CC_SUCCESS) then mret true
        else cc_port_free port false ;; mret false
    end.

Definition cc_port_create (actor : loc) (obj_port obj_prev_connections : bytes)
  (direction : cc_port_direction_t) (obj_connection_list : option bytes) : W (option loc) :=
  let? (id, name, obj_properties) := port_description obj_port else mret None in
  let obj_queue := cc_coder_get_value_from_map obj_port (str "queue") in
  peer ← (if negb (bool_decide (cc_coder_type_of obj_prev_connections = CC_CODER_NIL))
          then mret (peer_of_prev obj_prev_connections direction id)
          else
            cl ← deref obj_connection_list;
            let '(size, cl) := cc_coder_decode_array cl in
            mret (peer_of_list (Z.to_nat size) cl id.1));
  let? (peer_id, peer_port_id) := peer else mret None in
  ok ← cc_platform_mem_alloc;
  if negb ok then mret None
  else
    id_ ← copy_field CC_UUID_BUFFER_SIZE id;
    name_ ← copy_field CC_MAX_PORT_NAME_LENGTH name;
    peer_port_id_ ← copy_field CC_UUID_BUFFER_SIZE peer_port_id;
    peer_id_ ← match peer_id with
               | Some s => copy_field CC_UUID_BUFFER_SIZE s
               | None => mret (zeroed CC_UUID_BUFFER_SIZE)
               end;
    port ← fresh_loc;
    put_port port
      {| port_id := id_; port_name := name_; port_peer_port_id := peer_port_id_;
         port_peer_id := peer_id_; port_direction := direction; port_peer_port := None;
         port_tunnel := None; port_state := CC_PORT_DISCONNECTED; port_fifo := None;
         port_retries := 0; port_actor := actor |} ;;
    fifo ← cc_fifo_init obj_queue obj_properties;
    upd_port port (set_port_fifo fifo) ;;
    match fifo with
    | None => cc_port_free port false ;; mret None
    | Some _ =>
        ok ← port_restore port obj_port (match peer_id with Some s => s.2 | None => 0%nat end);
        mret (if (ok : bool) then Some port else None)
    end.

(** ** Transmission *)

(** A token of an enabled out-port: to the tunnel, to the local peer, or back. *)
Definition transmit_token (port : loc) : W unit :=
  f ← get_fifo port;
  '(f, (token, sequencenbr)) ← cc_fifo_com_peek f;
  put_fifo port f ;;
  p ← get_port port;
  match port_tunnel p, port_peer_port p with
  | Some _, _ =>
      r ← cc_proto_send_token port token sequencenbr;
      if bool_decide (r = CC_SUCCESS) then mret tt
      else f ← get_fifo port; put_fifo port (cc_fifo_com_cancel_read f sequencenbr)
  | None, Some peer =>
      pf ← get_fifo peer;
      '(r, pf) ← on_mem (cc_fifo_write pf (tok_value token) (tok_size token));
      put_fifo peer pf ;;
      f ← get_fifo port;
      if bool_decide (r = CC_SUCCESS) then
        f ← on_mem (cc_fifo_commit_read f false); put_fifo port f
      else put_fifo port (cc_fifo_cancel_commit f)
  | None, None =>
      f ← get_fifo port; put_fifo port (cc_fifo_com_cancel_read f sequencenbr)
  end.

Definition cc_port_transmit (port : loc) : W unit :=
  p ← get_port port;
  if bool_decide (port_state p = CC_PORT_ENABLED) then
    a ← get_actor (port_actor p);
    if bool_decide (actor_state a = CC_ACTOR_ENABLED)
       && bool_decide (port_direction p = CC_PORT_DIRECTION_OUT) then
      f ← get_fifo port;
      when (cc_fifo_tokens_available f 1) (transmit_token port)
    else mret tt
  else if bool_decide (port_state p = CC_PORT_PENDING_TUNNEL) then
    match port_tunnel p with
    | Some t =>
        x ← get_tunnel t;
        when (bool_decide (tunnel_state x = CC_TUNNEL_ENABLED))
          (_ ← cc_port_connect_with_pending_tunnel port; mret tt)
    | None => mret tt
    end
  else mret tt.

(** ** Serialisation *)

Definition cc_port_serialize_prev_connections (buffer : bytes) (port : loc) : W bytes :=
  p ← get_port port;
  let peer_id_len := uuid_len (port_peer_id p) in
  let buffer := cc_coder_encode_str buffer (port_id p) (uuid_len (port_id p)) in
  let buffer := cc_coder_encode_array buffer 1 in
  let buffer := cc_coder_encode_array buffer 2 in
  let buffer := if (peer_id_len =? 0)%nat then cc_coder_encode_nil buffer
                else cc_coder_encode_str buffer (port_peer_id p) peer_id_len in
  mret (cc_coder_encode_str buffer (port_peer_port_id p) (uuid_len (port_peer_port_id p))).

(** The tokens of the queue, in the order of the slots. *)
Fixpoint encode_tokens (buffer : bytes) (ts : list cc_token_t) : W bytes :=
  match ts with
  | [] => mret buffer
  | t :: ts => buffer ← on_mem (cc_token_encode buffer t false); encode_tokens buffer ts
  end.

(** The reader of the queue of a port, as the name of its positions. *)
Definition reader_name (p : cc_port_t) : bytes :=
  match port_direction p with
  | CC_PORT_DIRECTION_IN => port_id p
  | CC_PORT_DIRECTION_OUT => port_peer_port_id p
  end.

Definition cc_port_serialize_port (buffer : bytes) (port : loc) (include_state : bool) : W bytes :=
  p ← get_port port;
  f ← deref (port_fifo p);
  let reader := reader_name p in
  let buffer := cc_coder_encode_kv_map buffer (port_name p) (if include_state then 5 else 4) in
  let buffer := if include_state
                then cc_coder_encode_kv_uint buffer (str "constrained_state") (port_state_val (port_state p))
                else buffer in
  let buffer := kv_uuid buffer (str "id") (port_id p) in
  let buffer := kv_uuid buffer (str "name") (port_name p) in
  let buffer := cc_coder_encode_kv_map buffer (str "queue") 7 in
  let buffer := cc_coder_encode_kv_str buffer (str "queuetype") (str "fanout_fifo") 11 in
  let buffer := cc_coder_encode_kv_uint buffer (str "write_pos") (write_pos f) in
  let buffer := cc_coder_encode_kv_array buffer (str "readers") 1 in
  let buffer := cc_coder_encode_str buffer reader (uuid_len reader) in
  let buffer := cc_coder_encode_kv_uint buffer (str "N") (fifo_size f) in
  let buffer := cc_coder_encode_kv_map buffer (str "tentative_read_pos") 1 in
  let buffer := cc_coder_encode_kv_uint buffer reader (tentative_read_pos f) in
  let buffer := cc_coder_encode_kv_map buffer (str "read_pos") 1 in
  let buffer := cc_coder_encode_kv_uint buffer reader
                  (match port_direction p with
                   | CC_PORT_DIRECTION_IN => tentative_read_pos f
                   | CC_PORT_DIRECTION_OUT => read_pos f
                   end) in
  let buffer := cc_coder_encode_kv_array buffer (str "fifo") (fifo_size f) in
  buffer ← encode_tokens buffer (take (Z.to_nat (fifo_size f)) (tokens f));
  let buffer := cc_coder_encode_kv_map buffer (str "properties") 3 in
  let buffer := cc_coder_encode_kv_uint buffer (str "nbr_peers") 1 in
  let buffer := match port_direction p with
                | CC_PORT_DIRECTION_IN => cc_coder_encode_kv_str buffer (str "direction") (str "in") 2
                | CC_PORT_DIRECTION_OUT => cc_coder_encode_kv_str buffer (str "direction") (str "out") 3
                end in
  mret (cc_coder_encode_kv_str buffer (str "routing") (str "default") 7).

(** ** Replies *)

Definition cc_port_remove_reply_handler (data : bytes) : W cc_result_t := mret CC_SUCCESS.
Definition cc_port_disconnect_reply_handler (data : bytes) : W cc_result_t := mret CC_SUCCESS.

(** [key_len - 5] of an unsigned [key_len]. *)
Definition minus_u32 (len n : nat) : nat := Z.to_nat (u32 (Z.of_nat len - Z.of_nat n)).

Definition cc_port_store_reply_handler (data : bytes) : W cc_result_t :=
  let? value := cc_coder_get_value_from_map data (str "value") else mret CC_FAIL in
  let? (key, key_len) := cc_coder_decode_string_from_map value (str "key") else mret CC_FAIL in
  if negb (streq_n key (str "port-") 5) then mret CC_FAIL
  else
    port ← cc_port_get (drop 5 key) (minus_u32 key_len 5);
    match port with
    | None => mret CC_SUCCESS
    | Some _ =>
        let? response := cc_coder_get_value_from_map value (str "response") else mret CC_FAIL in
        let? status := cc_coder_decode_uint_from_map response (str "status") else mret CC_FAIL in
        mret CC_SUCCESS
    end.

Definition cc_port_get_peer_port_reply_handler (data : bytes) : W cc_result_t :=
  let? value := cc_coder_get_value_from_map data (str "value") else mret CC_FAIL in
  let? (key, key_len) := cc_coder_decode_string_from_map value (str "key") else mret CC_FAIL in
  port ← cc_port_get_from_peer_port_id (drop 5 key) (minus_u32 key_len 5);
  match port with
  | None => mret CC_SUCCESS
  | Some l =>
      p ← get_port l;
      if bool_decide (port_state p = CC_PORT_ENABLED) then mret CC_SUCCESS
      else
        let? value_value := cc_coder_get_value_from_map value (str "value") else mret CC_FAIL in
        match cc_coder_decode_string_from_map value_value (str "node_id") with
        | None => cc_port_set_state l CC_PORT_DO_DELETE ;; mret CC_FAIL
        | Some (node_id_, node_id_len) =>
            id ← need BufferOverflow (strncpy_nul (port_peer_id p) node_id_ node_id_len);
            upd_port l (set_port_peer_id id) ;;
            cc_port_connect l ;;
            mret CC_SUCCESS
        end
  end.

Definition cc_port_connect_reply_handler (data : bytes) : W cc_result_t :=
  let? value := cc_coder_get_value_from_map data (str "value") else mret CC_FAIL in
  let? status := cc_coder_decode_uint_from_map value (str "status") else mret CC_FAIL in
  let? value_data := cc_coder_get_value_from_map value (str "data") else mret CC_FAIL in
  port ← match cc_coder_decode_string_from_map value_data (str "port_id") with
         | Some (peer_port_id, len) => cc_port_get_from_peer_port_id peer_port_id len
         | None => mret None
         end;
  match port with
  | Some l =>
      cc_port_set_state l (if status =? 200 then CC_PORT_ENABLED else CC_PORT_DISCONNECTED)
  | None => mret tt
  end ;;
  mret CC_SUCCESS.
End port.
