(* ===== verification/Proto.v ===== *)
(** What a runtime does with the messages it receives: the parsers of
    runtime/north/cc_proto.c and the functions of cc_node.c that they call.

    A message is the list of its bytes; a value found inside it is the list from
    its first byte on.  A stored reply handler is called through [run_handler],
    the meaning of the function pointer a pending message keeps. *)
From S2P Require Import Prelude CString Common MsgPuck Coder Fifo Machine Transport ProtoSend.
From S2P Require Import Link FifoInit Port.

(** Assignments to the state of the node. *)
Definition upd_node_state (s : cc_node_state_t) : W unit :=
  upd_node (fun n =>
    {| node_state := s; node_stop_method := node_stop_method n; node_id := node_id n;
       node_attributes := node_attributes n; node_pending_msgs := node_pending_msgs n;
       node_proxy_link := node_proxy_link n; node_links := node_links n;
       node_storage_tunnel := node_storage_tunnel n; node_proxy_tunnel := node_proxy_tunnel n;
       node_tunnels := node_tunnels n; node_actors := node_actors n;
       node_transport_client := node_transport_client n; node_capabilities := node_capabilities n;
       node_proxy_uris := node_proxy_uris n;
       node_seconds_since_epoch := node_seconds_since_epoch n;
       node_time_at_sync := node_time_at_sync n |}).
Definition upd_node_stop_method (s : cc_node_stop_method_t) : W unit :=
  upd_node (fun n =>
    {| node_state := node_state n; node_stop_method := s; node_id := node_id n;
       node_attributes := node_attributes n; node_pending_msgs := node_pending_msgs n;
       node_proxy_link := node_proxy_link n; node_links := node_links n;
       node_storage_tunnel := node_storage_tunnel n; node_proxy_tunnel := node_proxy_tunnel n;
       node_tunnels := node_tunnels n; node_actors := node_actors n;
       node_transport_client := node_transport_client n; node_capabilities := node_capabilities n;
       node_proxy_uris := node_proxy_uris n;
       node_seconds_since_epoch := node_seconds_since_epoch n;
       node_time_at_sync := node_time_at_sync n |}).

(** A [msg_uuid] copied into [char[CC_UUID_BUFFER_SIZE]]: the length is that of the
    message. *)
Definition copy_msg_uuid (s : msg_str) : W bytes := copy_field CC_UUID_BUFFER_SIZE s.

Section node.
Context `{P : Platform}.

(** ** Tokens at a port (cc_node.c) *)

Definition cc_node_handle_token (port : loc) (data : bytes) (size : nat) (sequencenbr : Z)
  : W cc_result_t :=
  p ← get_port port;
  a ← get_actor (port_actor p);
  if negb (bool_decide (actor_state a = CC_ACTOR_ENABLED)) then mret CC_FAIL
  else
    f ← get_fifo port;
    free ← lift_outcome (cc_fifo_slots_available f 1);
    if negb free then mret CC_FAIL
    else
      readable data size ;;
      buffer ← alloc_buffer (take size data);
      match buffer with
      | None => mret CC_FAIL
      | Some b =>
          '(r, f) ← on_mem (cc_fifo_com_write f (Some b) (Z.of_nat size) sequencenbr);
          put_fifo port f ;;
          if bool_decide (r = CC_SUCCESS) then mret CC_SUCCESS
          else on_mem (mem_free b) ;; mret CC_FAIL
      end.

Definition cc_node_handle_token_reply (port_id_ : bytes) (port_id_len : nat)
  (reply_type : cc_port_reply_type_t) (sequencenbr : Z) : W unit :=
  port ← cc_port_get port_id_ port_id_len;
  match port with
  | None => mret tt
  | Some l =>
      f ← get_fifo l;
      match reply_type with
      | CC_PORT_REPLY_TYPE_ACK => f ← on_mem (cc_fifo_com_commit_read f sequencenbr); put_fifo l f
      | CC_PORT_REPLY_TYPE_NACK => put_fifo l (cc_fifo_com_cancel_read f sequencenbr)
      | CC_PORT_REPLY_TYPE_ABORT => mret tt
      end
  end.

Definition cc_node_get_time : W Z :=
  now ← cc_platform_get_time;
  node ← get_node;
  mret (u32 (node_seconds_since_epoch node + u32 (now - node_time_at_sync node))).
End node.

Section proto.
Context `{P : Platform} `{MP : MsgPuck}.

(** ** Tokens (TUNNEL_DATA) *)

(** The fields of a TOKEN message. *)
Record token_msg := {
  tm_from : msg_str; tm_tunnel : msg_str; tm_port : msg_str; tm_peer_port : msg_str;
  tm_sequencenbr : Z; tm_data : bytes
}.

Definition decode_token_msg (r : bytes) : option token_msg :=
  from_rt_uuid ← cc_coder_decode_string_from_map r (str "from_rt_uuid");
  tunnel_id ← cc_coder_decode_string_from_map r (str "tunnel_id");
  obj_value ← cc_coder_get_value_from_map r (str "value");
  port_id ← cc_coder_decode_string_from_map obj_value (str "peer_port_id");
  peer_port_id ← cc_coder_decode_string_from_map obj_value (str "port_id");
  sequencenbr ← cc_coder_decode_uint_from_map obj_value (str "sequencenbr");
  obj_token ← cc_coder_get_value_from_map obj_value (str "token");
  obj_data ← cc_coder_get_value_from_map obj_token (str "data");
  Some {| tm_from := from_rt_uuid; tm_tunnel := tunnel_id; tm_port := port_id;
          tm_peer_port := peer_port_id; tm_sequencenbr := sequencenbr; tm_data := obj_data |}.

(** The TOKEN_REPLY. *)
Definition token_reply (client : cc_transport_client_t) (node : cc_node_t) (m : token_msg)
  (ack : bool) : bytes :=
  let w := cc_coder_encode_map (message_start client) 5 in
  let w := cc_coder_encode_kv_str w (str "to_rt_uuid") (tm_from m).1 (tm_from m).2 in
  let w := kv_uuid w (str "from_rt_uuid") (node_id node) in
  let w := cc_coder_encode_kv_str w (str "cmd") (str "TUNNEL_DATA") 11 in
  let w := cc_coder_encode_kv_str w (str "tunnel_id") (tm_tunnel m).1 (tm_tunnel m).2 in
  let w := cc_coder_encode_kv_map w (str "value") 5 in
  let w := cc_coder_encode_kv_str w (str "cmd") (str "TOKEN_REPLY") 11 in
  let w := cc_coder_encode_kv_uint w (str "sequencenbr") (tm_sequencenbr m) in
  let w := cc_coder_encode_kv_str w (str "peer_port_id") (tm_port m).1 (tm_port m).2 in
  let w := cc_coder_encode_kv_str w (str "port_id") (tm_peer_port m).1 (tm_peer_port m).2 in
  cc_coder_encode_kv_str w (str "value") (if ack then str "ACK" else str "NACK") (if ack then 3 else 4).

Definition proto_parse_token (root : bytes) : W cc_result_t :=
  let? m := decode_token_msg root else mret CC_FAIL in
  port ← cc_port_get (tm_port m).1 (tm_port m).2;
  ack ← match port with
        | Some l =>
            let size := cc_coder_get_size_of_value (tm_data m) in
            r ← cc_node_handle_token l (tm_data m) size (tm_sequencenbr m);
            mret (bool_decide (r = CC_SUCCESS))
        | None => mret false
        end;
  node ← get_node;
  client ← deref (node_transport_client node);
  send_buffer 400 (token_reply client node m ack).

Definition proto_parse_token_reply (root : bytes) : W cc_result_t :=
  let? value := cc_coder_get_value_from_map root (str "value") else mret CC_FAIL in
  let? (id, id_len) := cc_coder_decode_string_from_map value (str "port_id") else mret CC_FAIL in
  let? (status, status_len) := cc_coder_decode_string_from_map value (str "value")
    else mret CC_FAIL in
  let? sequencenbr := cc_coder_decode_uint_from_map value (str "sequencenbr") else mret CC_FAIL in
  if streq_n status (str "ACK") status_len then
    cc_node_handle_token_reply id id_len CC_PORT_REPLY_TYPE_ACK sequencenbr ;; mret CC_SUCCESS
  else if streq_n status (str "NACK") status_len then
    cc_node_handle_token_reply id id_len CC_PORT_REPLY_TYPE_NACK sequencenbr ;; mret CC_SUCCESS
  else if streq_n status (str "ABORT") status_len then
    cc_node_handle_token_reply id id_len CC_PORT_REPLY_TYPE_ABORT sequencenbr ;; mret CC_SUCCESS
  else mret CC_FAIL.

Definition proto_parse_destroy (root : bytes) : W cc_result_t :=
  let? (from, from_len) := cc_coder_decode_string_from_map root (str "from_rt_uuid")
    else mret CC_FAIL in
  let? (tid, tid_len) := cc_coder_decode_string_from_map root (str "tunnel_id") else mret CC_FAIL in
  let? obj_value := cc_coder_get_value_from_map root (str "value") else mret CC_FAIL in
  let? (method, method_len) := cc_coder_decode_string_from_map obj_value (str "method")
    else mret CC_FAIL in
  upd_node_state CC_NODE_STOP ;;
  upd_node_stop_method (if streq_n method (str "/migrate") 8 then CC_NODE_STOP_MIGRATE
                        else CC_NODE_STOP_CLEAN) ;;
  node ← get_node;
  client ← deref (node_transport_client node);
  let w := cc_coder_encode_map (message_start client) 5 in
  let w := cc_coder_encode_kv_str w (str "to_rt_uuid") from from_len in
  let w := kv_uuid w (str "from_rt_uuid") (node_id node) in
  let w := cc_coder_encode_kv_str w (str "cmd") (str "TUNNEL_DATA") 11 in
  let w := cc_coder_encode_kv_str w (str "tunnel_id") tid tid_len in
  let w := cc_coder_encode_kv_map w (str "value") 2 in
  let w := cc_coder_encode_kv_str w (str "cmd") (str "DESTROY_REPLY") 13 in
  let w := cc_coder_encode_kv_uint w (str "value") 200 in
  send_buffer 400 w.

(** ** Replies *)

Section handlers.
Context {S : Type} `{A : !Above S}.
Context (run_handler : cc_msg_handler_t -> bytes -> msg_data_t -> M S cc_result_t).

(** The pending message is looked up, its handler run, then it is removed. *)
Definition run_pending (msg_uuid data : bytes) (unknown : cc_result_t) : M S cc_result_t :=
  pending_msg ← lift (cc_node_get_pending_msg msg_uuid);
  match pending_msg with
  | None => mret unknown
  | Some m =>
      result ← run_handler (pm_handler m) data (pm_msg_data m);
      lift (cc_node_remove_pending_msg msg_uuid) ;;
      mret result
  end.

Definition cc_proto_parse_reply (data : bytes) : M S cc_result_t :=
  let? s := cc_coder_decode_string_from_map data (str "msg_uuid") else mret CC_FAIL in
  msg_uuid ← lift (copy_msg_uuid s);
  run_pending msg_uuid data CC_SUCCESS.

Definition cc_proto_parse_tunnel_data (root : bytes) : M S cc_result_t :=
  let? value := cc_coder_get_value_from_map root (str "value") else mret CC_FAIL in
  if cc_coder_has_key value (str "msg_uuid") then
    let? s := cc_coder_decode_string_from_map value (str "msg_uuid") else mret CC_FAIL in
    msg_uuid ← lift (copy_msg_uuid s);
    run_pending msg_uuid root CC_FAIL
  else if cc_coder_has_key value (str "cmd") then
    let? (cmd, cmd_len) := cc_coder_decode_string_from_map value (str "cmd") else mret CC_FAIL in
    if streq_n cmd (str "TOKEN_REPLY") 11 then lift (proto_parse_token_reply root)
    else if streq_n cmd (str "TOKEN") 5 then lift (proto_parse_token root)
    else if streq_n cmd (str "DESTROY") 7 then lift (proto_parse_destroy root)
    else mret CC_FAIL
  else mret CC_FAIL.
End handlers.

(** ** Ports and tunnels *)

Definition cc_proto_parse_port_disconnect (root : bytes) : W cc_result_t :=
  let? (from, from_len) := cc_coder_decode_string_from_map root (str "from_rt_uuid")
    else mret CC_FAIL in
  let? (uuid, uuid_len_) := cc_coder_decode_string_from_map root (str "msg_uuid")
    else mret CC_FAIL in
  let? (port, port_len) := cc_coder_decode_string_from_map root (str "peer_port_id")
    else mret CC_FAIL in
  result ← cc_port_handle_disconnect port port_len;
  cc_proto_send_port_disconnect_reply uuid uuid_len_ from from_len
    (if bool_decide (result = CC_SUCCESS) then 200 else 500).

Definition cc_proto_parse_port_connect (root : bytes) : W cc_result_t :=
  let? (from, from_len) := cc_coder_decode_string_from_map root (str "from_rt_uuid")
    else mret CC_FAIL in
  let? (uuid, uuid_len_) := cc_coder_decode_string_from_map root (str "msg_uuid")
    else mret CC_FAIL in
  let? (port, port_len) := cc_coder_decode_string_from_map root (str "peer_port_id")
    else mret CC_FAIL in
  let? (tid, tid_len) := cc_coder_decode_string_from_map root (str "tunnel_id") else mret CC_FAIL in
  result ← cc_port_handle_connect port port_len tid tid_len;
  cc_proto_send_port_connect_reply uuid uuid_len_ from from_len
    (if bool_decide (result = CC_SUCCESS) then 200 else 404) port port_len.

Definition cc_proto_parse_tunnel_new (root : bytes) : W cc_result_t :=
  let? (from, from_len) := cc_coder_decode_string_from_map root (str "from_rt_uuid")
    else mret CC_FAIL in
  let? (uuid, uuid_len_) := cc_coder_decode_string_from_map root (str "msg_uuid")
    else mret CC_FAIL in
  let? (type, type_len) := cc_coder_decode_string_from_map root (str "type") else mret CC_FAIL in
  let? (tid, tid_len) := cc_coder_decode_string_from_map root (str "tunnel_id") else mret CC_FAIL in
  '(result, link) ←
    (if negb (streq_n type (str "token") 5) then mret (CC_FAIL, None)
     else
       link ← cc_link_get from from_len;
       match link with
       | Some l => mret (CC_SUCCESS, Some l)
       | None =>
           link ← cc_link_create from from_len false;
           mret (match link with None => CC_FAIL | Some _ => CC_SUCCESS end, link)
       end);
  result ← (if bool_decide (result = CC_SUCCESS)
            then cc_tunnel_handle_tunnel_new_request from from_len tid tid_len
            else mret result);
  if bool_decide (result = CC_SUCCESS)
  then proto_send_tunnel_new_reply uuid uuid_len_ from from_len 200 tid tid_len
  else
    cc_link_remove_ref link ;;
    proto_send_tunnel_new_reply uuid uuid_len_ from from_len 500 tid tid_len.
End proto.
