(* ===== verification/Runtime.v ===== *)
(** The whole state of a runtime: the [world] of ports, tunnels and messages, the
    instances of the actors and calvinsys (cc_calvinsys.h, cc_actor_store.h).

    The code behind a function pointer (an actor type, a capability, an object of
    a capability) is outside this component: an actor keeps the number of its type
    in the table of types, an object the number of its methods, and the tables are
    the class [Code].  [V] is what a [void *] of that code points to. *)
From S2P Require Import Prelude CString Common MsgPuck Coder Fifo Machine.

(** ** Structures *)

Record cc_calvinsys_capability_t := {
  cap_name : bytes;
  cap_code : nat;                  (* open and deserialize *)
  cap_init_args : option bytes;
  cap_python_module : option bytes
}.

Record cc_calvinsys_obj_t (V : Type) := {
  obj_methods : option nat;        (* can_write, write, can_read, read, close, serialize *)
  obj_state : option V;
  obj_actor : loc;
  obj_capability : loc
}.
Arguments obj_methods {V} _.
Arguments obj_state {V} _.
Arguments obj_actor {V} _.
Arguments obj_capability {V} _.

(** What an actor has besides [cc_actor_t]: its type, an index of the table, and
    the state of that code. *)
Record cc_instance_t (V : Type) := {
  inst_type : nat;
  inst_state : option V
}.
Arguments inst_type {V} _.
Arguments inst_state {V} _.

(** What the platform keeps: the static variables of its code, by number,
    [transport_client->client_state], the descriptors [calvinsys->fds] that the
    objects wait on, [node->fds], the descriptors that [select] found ready, the
    descriptors that are open, and the disk. *)
Record platform_state (V : Type) := {
  ps_statics : gmap nat V;
  ps_client_state : option V;
  ps_fds : list Z;
  ps_ready : gset Z;
  ps_open : gset Z;
  ps_files : gmap bytes bytes;     (* regular files, by path *)
  ps_dirs : gset bytes             (* directories *)
}.
Arguments ps_statics {V} _.
Arguments ps_client_state {V} _.
Arguments ps_fds {V} _.
Arguments ps_ready {V} _.
Arguments ps_open {V} _.
Arguments ps_files {V} _.
Arguments ps_dirs {V} _.

Record rt (V : Type) := {
  rt_world : world;
  rt_instances : gmap loc (cc_instance_t V);
  rt_caps : gmap loc cc_calvinsys_capability_t;
  rt_objs : gmap loc (cc_calvinsys_obj_t V);
  cs_capabilities : list (cc_list_t loc);
  cs_objects : list (cc_list_t loc);
  rt_platform : platform_state V
}.
Arguments rt_world {V} _.
Arguments rt_instances {V} _.
Arguments rt_caps {V} _.
Arguments rt_objs {V} _.
Arguments cs_capabilities {V} _.
Arguments cs_objects {V} _.
Arguments rt_platform {V} _.

Abbreviation R V := (M (rt V)).

(** [cc_actor_type_t].  The data of a managed attribute may be NULL. *)
Record cc_actor_type_t (V : Type) := {
  at_init : loc -> list (cc_list_t bytes) -> R V cc_result_t;
  at_set_state : loc -> list (cc_list_t bytes) -> R V cc_result_t;
  at_free_state : option (loc -> R V unit);
  at_fire_actor : loc -> R V bool;
  at_get_managed_attributes : option (loc -> R V (option (list (cc_list_t (option bytes)))));
  at_will_migrate : option (loc -> R V unit);
  at_will_end : option (loc -> R V unit);
  at_did_migrate : option (loc -> R V unit);
  at_did_replicate : option (loc -> Z -> R V unit);
  at_get_requires : option (loc -> R V (option (list (cc_list_t unit))))
}.
Arguments at_init {V} _.
Arguments at_set_state {V} _.
Arguments at_free_state {V} _.
Arguments at_fire_actor {V} _.
Arguments at_get_managed_attributes {V} _.
Arguments at_will_migrate {V} _.
Arguments at_will_end {V} _.
Arguments at_did_migrate {V} _.
Arguments at_did_replicate {V} _.
Arguments at_get_requires {V} _.

(** The two functions of a capability, on the object and its arguments. *)
Record cc_capability_code_t (V : Type) := {
  cap_open : option (loc -> list (cc_list_t bytes) -> R V cc_result_t);
  cap_deserialize : option (loc -> list (cc_list_t bytes) -> R V cc_result_t)
}.
Arguments cap_open {V} _.
Arguments cap_deserialize {V} _.

(** The methods of an object; [read] answers its result and the data it points to,
    NULL when there is none; [serialize] appends to the buffer or answers NULL. *)
Record cc_obj_code_t (V : Type) := {
  oc_can_write : option (loc -> R V bool);
  oc_write : option (loc -> option bytes -> R V cc_result_t);
  oc_can_read : option (loc -> R V bool);
  oc_read : option (loc -> R V (cc_result_t * option bytes));
  oc_close : option (loc -> R V cc_result_t);
  oc_serialize : option (bytes -> loc -> bytes -> R V (option bytes))
}.
Arguments oc_can_write {V} _.
Arguments oc_write {V} _.
Arguments oc_can_read {V} _.
Arguments oc_read {V} _.
Arguments oc_close {V} _.
Arguments oc_serialize {V} _.

(** What [CC_USE_PYTHON] adds to the actors (libmpy/cc_actor_mpy.c and
    [cc_actor_store_module]): the functions of the actors written in Python, and
    the three functions that cc_actor.c calls for them. *)
Record python_code_t (V : Type) := {
  py_actor_type : cc_actor_type_t V;
  py_has_module : bytes -> R V bool;
  py_init_from_type : loc -> R V cc_result_t;
  py_store_module : bytes -> nat -> bytes -> nat -> R V unit
}.
Arguments py_actor_type {V} _.
Arguments py_has_module {V} _.
Arguments py_init_from_type {V} _.
Arguments py_store_module {V} _.

(** The code of the actors and of the capabilities.  The table of types is filled
    once, by [cc_actor_store_init]; [python_code] is there with [CC_USE_PYTHON]. *)
Class Code (V : Type) := {
  actor_types : list (cc_list_t (cc_actor_type_t V));
  capability_code : nat -> cc_capability_code_t V;
  object_code : nat -> cc_obj_code_t V;
  python_code : option (python_code_t V)
}.

(** What the platform stores: its files. *)
Inductive cc_stat_t := CC_STAT_NO_EXIST | CC_STAT_DIR | CC_STAT_FILE.
#[export] Instance cc_stat_eq_decision : EqDecision cc_stat_t.
Proof. solve_decision. Defined.

Class Storage (V : Type) := {
  cc_platform_file_stat : bytes -> R V cc_stat_t;
  cc_platform_file_read : bytes -> R V (option bytes);
  cc_platform_file_write : bytes -> bytes -> R V cc_result_t;
  cc_platform_file_del : bytes -> R V cc_result_t
}.

(** A state [S] that [V] holds: what an object or an actor of one kind keeps behind
    its [void *]. *)
Class Holds (V S : Type) := {
  hold : S -> V;
  held : V -> option S;
  held_hold x : held (hold x) = Some x
}.

(** ** Updates *)

Section runtime.
Context {V : Type}.
Implicit Types s : rt V.

Definition set_world (w : world) (s : rt V) : rt V :=
  {| rt_world := w; rt_instances := rt_instances s; rt_caps := rt_caps s; rt_objs := rt_objs s;
     cs_capabilities := cs_capabilities s; cs_objects := cs_objects s;
     rt_platform := rt_platform s |}.
Definition set_instances (x : gmap loc (cc_instance_t V)) (s : rt V) : rt V :=
  {| rt_world := rt_world s; rt_instances := x; rt_caps := rt_caps s; rt_objs := rt_objs s;
     cs_capabilities := cs_capabilities s; cs_objects := cs_objects s;
     rt_platform := rt_platform s |}.
Definition set_caps (x : gmap loc cc_calvinsys_capability_t) (s : rt V) : rt V :=
  {| rt_world := rt_world s; rt_instances := rt_instances s; rt_caps := x; rt_objs := rt_objs s;
     cs_capabilities := cs_capabilities s; cs_objects := cs_objects s;
     rt_platform := rt_platform s |}.
Definition set_objs (x : gmap loc (cc_calvinsys_obj_t V)) (s : rt V) : rt V :=
  {| rt_world := rt_world s; rt_instances := rt_instances s; rt_caps := rt_caps s; rt_objs := x;
     cs_capabilities := cs_capabilities s; cs_objects := cs_objects s;
     rt_platform := rt_platform s |}.
Definition set_cs_capabilities (x : list (cc_list_t loc)) (s : rt V) : rt V :=
  {| rt_world := rt_world s; rt_instances := rt_instances s; rt_caps := rt_caps s; rt_objs := rt_objs s;
     cs_capabilities := x; cs_objects := cs_objects s;
     rt_platform := rt_platform s |}.
Definition set_cs_objects (x : list (cc_list_t loc)) (s : rt V) : rt V :=
  {| rt_world := rt_world s; rt_instances := rt_instances s; rt_caps := rt_caps s; rt_objs := rt_objs s;
     cs_capabilities := cs_capabilities s; cs_objects := x;
     rt_platform := rt_platform s |}.
Definition set_platform (x : platform_state V) (s : rt V) : rt V :=
  {| rt_world := rt_world s; rt_instances := rt_instances s; rt_caps := rt_caps s; rt_objs := rt_objs s;
     cs_capabilities := cs_capabilities s; cs_objects := cs_objects s; rt_platform := x |}.

(** ** Primitive operations *)

(** A computation on the world. *)
Definition on_world {A} (m : W A) : R V A := zoom rt_world set_world m.
#[export] Instance rt_above : Above (rt V) := fun A => on_world.

(** The descriptors, and the state of the transport client. *)
Definition get_platform : R V (platform_state V) := gets rt_platform.
Definition upd_platform (f : platform_state V -> platform_state V) : R V unit :=
  modify (fun s => set_platform (f (rt_platform s)) s).
Definition set_ps_statics (x : gmap nat V) (p : platform_state V) : platform_state V :=
  {| ps_statics := x; ps_client_state := ps_client_state p; ps_fds := ps_fds p;
     ps_ready := ps_ready p; ps_open := ps_open p;
     ps_files := ps_files p; ps_dirs := ps_dirs p |}.
Definition set_ps_client_state (x : option V) (p : platform_state V) : platform_state V :=
  {| ps_statics := ps_statics p; ps_client_state := x; ps_fds := ps_fds p;
     ps_ready := ps_ready p; ps_open := ps_open p;
     ps_files := ps_files p; ps_dirs := ps_dirs p |}.
Definition set_ps_fds (x : list Z) (p : platform_state V) : platform_state V :=
  {| ps_statics := ps_statics p; ps_client_state := ps_client_state p; ps_fds := x;
     ps_ready := ps_ready p; ps_open := ps_open p;
     ps_files := ps_files p; ps_dirs := ps_dirs p |}.
Definition set_ps_ready (x : gset Z) (p : platform_state V) : platform_state V :=
  {| ps_statics := ps_statics p; ps_client_state := ps_client_state p; ps_fds := ps_fds p;
     ps_ready := x; ps_open := ps_open p;
     ps_files := ps_files p; ps_dirs := ps_dirs p |}.
Definition set_ps_open (x : gset Z) (p : platform_state V) : platform_state V :=
  {| ps_statics := ps_statics p; ps_client_state := ps_client_state p; ps_fds := ps_fds p;
     ps_ready := ps_ready p; ps_open := x;
     ps_files := ps_files p; ps_dirs := ps_dirs p |}.
Definition set_ps_files (x : gmap bytes bytes) (p : platform_state V) : platform_state V :=
  {| ps_statics := ps_statics p; ps_client_state := ps_client_state p; ps_fds := ps_fds p;
     ps_ready := ps_ready p; ps_open := ps_open p;
     ps_files := x; ps_dirs := ps_dirs p |}.
Definition set_ps_dirs (x : gset bytes) (p : platform_state V) : platform_state V :=
  {| ps_statics := ps_statics p; ps_client_state := ps_client_state p; ps_fds := ps_fds p;
     ps_ready := ps_ready p; ps_open := ps_open p;
     ps_files := ps_files p; ps_dirs := x |}.

Definition get_instance (l : loc) : R V (cc_instance_t V) :=
  s ← get_; need UseAfterFree (rt_instances s !! l).
Definition put_instance (l : loc) (x : cc_instance_t V) : R V unit :=
  modify (fun s => set_instances (<[l := x]> (rt_instances s)) s).

Definition get_cap (l : loc) : R V cc_calvinsys_capability_t :=
  s ← get_; need UseAfterFree (rt_caps s !! l).
Definition put_cap (l : loc) (x : cc_calvinsys_capability_t) : R V unit :=
  modify (fun s => set_caps (<[l := x]> (rt_caps s)) s).
Definition free_cap (l : loc) : R V unit :=
  _ ← get_cap l; modify (fun s => set_caps (delete l (rt_caps s)) s).

Definition get_obj (l : loc) : R V (cc_calvinsys_obj_t V) :=
  s ← get_; need UseAfterFree (rt_objs s !! l).
Definition put_obj (l : loc) (x : cc_calvinsys_obj_t V) : R V unit :=
  modify (fun s => set_objs (<[l := x]> (rt_objs s)) s).
Definition free_obj (l : loc) : R V unit :=
  _ ← get_obj l; modify (fun s => set_objs (delete l (rt_objs s)) s).

Definition upd_obj (l : loc) (f : cc_calvinsys_obj_t V -> cc_calvinsys_obj_t V) : R V unit :=
  x ← get_obj l; put_obj l (f x).
Definition set_obj_state (v : option V) (x : cc_calvinsys_obj_t V) : cc_calvinsys_obj_t V :=
  {| obj_methods := obj_methods x; obj_state := v; obj_actor := obj_actor x;
     obj_capability := obj_capability x |}.
Definition set_obj_methods (v : option nat) (x : cc_calvinsys_obj_t V) : cc_calvinsys_obj_t V :=
  {| obj_methods := v; obj_state := obj_state x; obj_actor := obj_actor x;
     obj_capability := obj_capability x |}.
Definition set_inst_state (v : option V) (x : cc_instance_t V) : cc_instance_t V :=
  {| inst_type := inst_type x; inst_state := v |}.

(** The state of an object or of an actor, as the kind its code takes it for. *)
Definition state_as (S : Type) `{!Holds V S} (v : option V) : R V S :=
  v ← need NullDeref v; need BadCast (held v).
Definition get_obj_state (S : Type) `{!Holds V S} (l : loc) : R V S :=
  o ← get_obj l; state_as S (obj_state o).
Definition put_obj_state {S} `{!Holds V S} (l : loc) (x : S) : R V unit :=
  upd_obj l (set_obj_state (Some (hold x))).
Definition get_inst_state (S : Type) `{!Holds V S} (l : loc) : R V S :=
  i ← get_instance l; state_as S (inst_state i).
Definition put_inst_state {S} `{!Holds V S} (l : loc) (x : S) : R V unit :=
  i ← get_instance l; put_instance l (set_inst_state (Some (hold x)) i).

(** An actor freed with its instance. *)
Definition free_actor (l : loc) : R V unit :=
  _ ← on_world (get_actor l);
  modify (fun s => set_world (set_actors (delete l (w_actors (rt_world s))) (rt_world s)) s) ;;
  modify (fun s => set_instances (delete l (rt_instances s)) s).

Context `{C : !Code V}.

(** The pointers of an actor that has no code yet: they are NULL. *)
Definition null_type : cc_actor_type_t V :=
  {| at_init := fun _ _ => ub_ NullDeref; at_set_state := fun _ _ => ub_ NullDeref; at_free_state := None;
     at_fire_actor := fun _ => ub_ NullDeref; at_get_managed_attributes := None; at_will_migrate := None;
     at_will_end := None; at_did_migrate := None; at_did_replicate := None; at_get_requires := None |}.

(** After the types of the table come the actors without code and those in Python. *)
Definition type_code (i : nat) : option (cc_actor_type_t V) :=
  match actor_types !! i with
  | Some t => Some (li_data t)
  | None => py ← python_code;
            Some (if (i =? length actor_types)%nat then null_type else py_actor_type py)
  end.

(** The code behind the pointers of an actor and of an object. *)
Definition type_of (actor : loc) : R V (cc_actor_type_t V) :=
  i ← get_instance actor;
  need NullDeref (type_code (inst_type i)).

Definition methods_of (obj : loc) : R V (option (cc_obj_code_t V)) :=
  o ← get_obj obj; mret (object_code <$> obj_methods o).

(** A hook that may be NULL. *)
Definition call_hook (hook : option (loc -> R V unit)) (actor : loc) : R V unit :=
  match hook with Some f => f actor | None => mret tt end.
End runtime.
