(* ===== verification/CText.v ===== *)
(** The functions of <string.h> and <stdlib.h> that look for text in a string: [strchr],
    [strstr] and [strtol], text that [sprintf] makes, and the [float]. *)
From stdpp Require Import pretty.
From Stdlib Require Import SpecFloat.
From S2P Require Import Prelude CString Coder.

Definition SLASH : byte := Byte.x2f.

(** The position of the first occurrence of [pat] in [s]. *)
Fixpoint find_text (pat s : bytes) : option nat :=
  if decide (pat `prefix_of` s) then Some 0%nat
  else match s with [] => None | _ :: s => S <$> find_text pat s end.

(** [strstr], and [strchr] for a character that is not NUL: the offset of the answer. *)
Definition strstr (s pat : bytes) : option nat := find_text pat (cstr s).
Definition strchr (s : bytes) (c : byte) : option nat := find_text [c] (cstr s).

(** [strstr] on what an array holds from a position on: the array may end before its
    string does. *)
Definition strstr_array (s pat : bytes) : outcome (option nat) :=
  match strstr s pat with
  | Some i => Ok (Some i)
  | None => if bool_decide (NUL ∈ s) then Ok None else Ub BufferOverflow
  end.

(** ** [strtol] in base 10 *)

Definition is_space (c : byte) : bool :=
  let v := byte_val c in ((9 <=? v) && (v <=? 13)) || (v =? 32).
Definition digit (c : byte) : option Z :=
  let v := byte_val c in if (48 <=? v) && (v <=? 57) then Some (v - 48) else None.

Fixpoint spaces (s : bytes) : nat :=
  match s with c :: s => if is_space c then S (spaces s) else 0%nat | [] => 0%nat end.

(** The number that the digits at the start make after [acc], and how many they are. *)
Fixpoint digits (s : bytes) (acc : Z) : Z * nat :=
  match s with
  | c :: s =>
      match digit c with
      | Some d => let '(v, n) := digits s (10 * acc + d) in (v, S n)
      | None => (acc, 0%nat)
      end
  | [] => (acc, 0%nat)
  end.

(** The value, clamped to a [long] of 64 bits, and the length of the text it was read
    from: 0 when there is no number. *)
Definition strtol (s : bytes) : Z * nat :=
  let blank := spaces s in
  let s := drop blank s in
  let '(neg, sign) :=
    match s with
    | c :: _ => if bool_decide (c = Byte.x2d) then (true, 1%nat)
                else if bool_decide (c = Byte.x2b) then (false, 1%nat) else (false, 0%nat)
    | [] => (false, 0%nat)
    end in
  let '(v, n) := digits (drop sign s) 0 in
  if (n =? 0)%nat then (0, 0%nat)
  else
    let v := if neg then - v else v in
    (Z.max (- 2 ^ 63) (Z.min v (2 ^ 63 - 1)), (blank + sign + n)%nat).

(** A number printed with [%d]. *)
Definition decimal (n : Z) : bytes := str (pretty n).

(** * The [float] of the sources, a binary32 number in the format of SpecFloat, and its
    bits. *)

Definition f32 (n : Z) : spec_float := binary_normalize 24 128 n 0 false.
Definition f32_add : spec_float -> spec_float -> spec_float := SFadd 24 128.
Definition f32_sub : spec_float -> spec_float -> spec_float := SFsub 24 128.
Definition f32_le : spec_float -> spec_float -> bool := SFleb.

Definition f32_mul : spec_float -> spec_float -> spec_float := SFmul 24 128.
Definition f32_div : spec_float -> spec_float -> spec_float := SFdiv 24 128.

(** 15.5 and 5.5. *)
Definition f32_15_5 : spec_float := binary_normalize 24 128 31 (-1) false.
Definition f32_5_5 : spec_float := binary_normalize 24 128 11 (-1) false.

(** The bits of a [float]. *)
Definition float_bits (f : spec_float) : Z :=
  let sign s := if (s : bool) then 2 ^ 31 else 0 in
  match f with
  | S754_zero s => sign s
  | S754_infinity s => sign s + Z.shiftl 255 23
  | S754_nan => Z.shiftl 511 22
  | S754_finite s m e =>
      sign s + (if Z.pos m <? 2 ^ 23 then Z.pos m else Z.shiftl (e + 150) 23 + (Z.pos m - 2 ^ 23))
  end.

(** The bits of the [double] that a [float] is converted to. *)
Definition double_bits (f : spec_float) : Z :=
  let sign s := if (s : bool) then 2 ^ 63 else 0 in
  match f with
  | S754_zero s => sign s
  | S754_infinity s => sign s + Z.shiftl 2047 52
  | S754_nan => Z.shiftl 4095 51
  | S754_finite s m e =>
      match binary_normalize 53 1024 (Z.pos m) e false with
      | S754_finite _ m e =>
          sign s + (if Z.pos m <? 2 ^ 52 then Z.pos m else Z.shiftl (e + 1075) 52 + (Z.pos m - 2 ^ 52))
      | _ => sign s
      end
  end.
