(* ===== verification/Mpy.v ===== *)
(** libmpy/cc_mpy_common.c: Python objects and their MessagePack encoding.

    MicroPython is a submodule whose code is not part of the repository.  What the
    bindings read and write of its objects through its C API is modelled here: a small
    integer, a string or the like is its value, a list and a dictionary are boxes on
    the heap [py_heap], a dictionary being the table of its hash map, whose places
    may be empty.  What the virtual machine does (imports, calls, attributes) and how
    it is configured is the class [MicroPython].  [CC_PYTHON_FLOATS] is 1, as
    cc_config.h has it, and the float of the machine is a double. *)
From Stdlib Require Import SpecFloat.
From S2P Require Import Prelude CString CText Common MsgPuck Coder Fifo Machine Runtime.

(** ** Objects *)

(** A C pointer that is passed as an object. *)
Inductive c_ptr := CActor (l : loc) | CCalvinsys | CName (name : bytes).

Inductive mp_obj :=
  | MP_OBJ_NULL
  | PyNone
  | PyBool (b : bool)
  | PySmallInt (n : Z)
  | PyInt (n : Z)                    (* an integer on the heap *)
  | PyFloat (f : spec_float)
  | PyStr (s : bytes)
  | PyBytes (s : bytes)
  | PyList (l : loc)
  | PyDict (l : loc)
  | PyTuple (items : list mp_obj)
  | PyObject (l : loc)               (* any other object: an instance, a module, a function *)
  | PyPtr (p : c_ptr).

(** The items of the lists and the tables of the dictionaries. *)
Record py_heap := {
  ph_next : loc;
  ph_lists : gmap loc (list mp_obj);
  ph_dicts : gmap loc (list (mp_obj * mp_obj))
}.
Definition set_ph_lists (x : gmap loc (list mp_obj)) (h : py_heap) : py_heap :=
  {| ph_next := ph_next h; ph_lists := x; ph_dicts := ph_dicts h |}.
Definition set_ph_dicts (x : gmap loc (list (mp_obj * mp_obj))) (h : py_heap) : py_heap :=
  {| ph_next := ph_next h; ph_lists := ph_lists h; ph_dicts := x |}.
Definition set_ph_next (x : loc) (h : py_heap) : py_heap :=
  {| ph_next := x; ph_lists := ph_lists h; ph_dicts := ph_dicts h |}.

Definition is_null (o : mp_obj) : bool := match o with MP_OBJ_NULL => true | _ => false end.

(** ** Exceptions *)

Inductive py_exn := TypeError | OverflowError | AttributeError | ImportError | ValueError
  | OSError (errno : Z) | PyException (o : mp_obj).

(** A computation that may raise: it jumps to the handler of its caller. *)
Definition E (S A : Type) : Type := M S (A + py_exn).
#[export] Instance E_ret {S} : MRet (E S) := fun A a s => Ok (inl a, s).
#[export] Instance E_bind {S} : MBind (E S) := fun A B f m s =>
  match m s with
  | Ok (inl a, s') => f a s'
  | Ok (inr e, s') => Ok (inr e, s')
  | Ub u => Ub u
  end.
Definition raise {S A} (e : py_exn) : E S A := fun s => Ok (inr e, s).
(** A computation that raises nothing. *)
Definition pure_ {S A} (m : M S A) : E S A := fun s =>
  match m s with Ok (a, s') => Ok (inl a, s') | Ub u => Ub u end.
(** [nlr_jump_fail]: an exception that nobody handles ends in [while (1)]. *)
Definition uncaught {S A} (m : E S A) : M S A := fun s =>
  match m s with
  | Ok (inl a, s') => Ok (a, s')
  | Ok (inr _, _) => Ub Diverges
  | Ub u => Ub u
  end.

(** ** The machine *)

Class MicroPython (V : Type) := {
  (* its configuration: the integers that are small, those of a machine word, the
     calls its C stack has room for, and what malloc leaves in a buffer *)
  mp_small_int_fits : Z -> bool;
  mp_int_fits : Z -> bool;
  mpy_stack : nat;
  mpy_junk : nat -> bytes;
  (* a value stored in a hash map; [None]: the key has no hash *)
  mp_map_store : list (mp_obj * mp_obj) -> mp_obj -> mp_obj -> option (list (mp_obj * mp_obj));
  (* modules, attributes and calls *)
  mp_import_name : bytes -> E (rt V) mp_obj;
  mp_load_method_maybe : mp_obj -> bytes -> R V (option (mp_obj * option mp_obj));
  mp_call : mp_obj -> option mp_obj -> list mp_obj -> list (mp_obj * mp_obj) -> E (rt V) mp_obj;
  mp_store_attr : mp_obj -> bytes -> mp_obj -> E (rt V) unit;
  mp_store_global : bytes -> mp_obj -> R V unit;
  mp_store_name : bytes -> mp_obj -> R V unit;
  mp_obj_is_true : mp_obj -> E (rt V) bool;
  mp_gc : R V unit;
  mp_start : R V unit;
  mp_stop : R V unit;
  mp_frozen_stat : bytes -> bool         (* a module of the firmware *)
}.

(** The static variables of the bindings: the state of the machine, and the counters
    that name the actors and the objects. *)
Definition mp_state_ctx : nat := 100.

(** ** Numbers *)

(** A number in another binary format: rounded to the nearest. *)
Definition to_format (prec emax : Z) (f : spec_float) : spec_float :=
  match f with
  | S754_finite s m e => binary_normalize prec emax (if s then Z.neg m else Z.pos m) e s
  | _ => f
  end.

(** The number with given bits, [mant] of them after the point. *)
Definition bits_to_float (mant exp bits : Z) : spec_float :=
  let m := bits mod 2 ^ mant in
  let e := (bits / 2 ^ mant) mod 2 ^ exp in
  let s := 0 <? bits / 2 ^ (mant + exp) in
  let finite m e := match m with Z.pos p => S754_finite s p e | _ => S754_zero s end in
  if e =? 2 ^ exp - 1 then (if m =? 0 then S754_infinity s else S754_nan)
  else finite (if e =? 0 then m else m + 2 ^ mant) (Z.max e 1 - (2 ^ (exp - 1) - 1) - mant).

Definition float_of_bits (bits : Z) : spec_float := to_format 53 1024 (bits_to_float 23 8 bits).
Definition double_of_bits (bits : Z) : spec_float := bits_to_float 52 11 bits.

(** What an encoding leaves: whether it succeeded, the buffer, and [*size]. *)
Abbreviation encoded := (bool * (bytes * Z))%type.

Section values.
Context {V : Type} `{MV : !MicroPython V} `{MP : MsgPuck}.

(** [mp_obj_new_int]. *)
Definition mp_obj_new_int (n : Z) : mp_obj := if mp_small_int_fits n then PySmallInt n else PyInt n.

(** [mp_obj_get_int] of an integer object. *)
Definition mp_obj_int_get (n : Z) : E py_heap Z := if mp_int_fits n then mret n else raise OverflowError.

(** ** Boxes *)

Definition mp_obj_new_list (items : list mp_obj) : E py_heap mp_obj :=
  pure_ (h ← get_;
         put_ (set_ph_next (Pos.succ (ph_next h)) (set_ph_lists (<[ph_next h := items]> (ph_lists h)) h)) ;;
         mret (PyList (ph_next h))).
Definition mp_obj_new_dict (n : nat) : E py_heap mp_obj :=
  pure_ (h ← get_;
         put_ (set_ph_next (Pos.succ (ph_next h))
                 (set_ph_dicts (<[ph_next h := replicate n (MP_OBJ_NULL, MP_OBJ_NULL)]> (ph_dicts h)) h)) ;;
         mret (PyDict (ph_next h))).
Definition list_items (l : loc) : E py_heap (list mp_obj) :=
  pure_ (h ← get_; need UseAfterFree (ph_lists h !! l)).
Definition dict_table (l : loc) : E py_heap (list (mp_obj * mp_obj)) :=
  pure_ (h ← get_; need UseAfterFree (ph_dicts h !! l)).

(** [mp_obj_list_store] of an index of the list. *)
Definition mp_obj_list_store (list : mp_obj) (i : nat) (value : mp_obj) : E py_heap unit :=
  match list with
  | PyList l => items ← list_items l; pure_ (modify (fun h => set_ph_lists (<[l := <[i := value]> items]> (ph_lists h)) h))
  | _ => pure_ (ub_ BadCast)
  end.
Definition mp_obj_dict_store (dict key value : mp_obj) : E py_heap unit :=
  match dict with
  | PyDict l =>
      table ← dict_table l;
      match mp_map_store table key value with
      | Some table => pure_ (modify (fun h => set_ph_dicts (<[l := table]> (ph_dicts h)) h))
      | None => raise TypeError
      end
  | _ => pure_ (ub_ BadCast)
  end.
(** [mp_obj_dict_len]: the places in use. *)
Definition mp_obj_dict_len (table : list (mp_obj * mp_obj)) : nat :=
  length (List.filter (fun e => negb (is_null e.1)) table).

(** ** Decoding *)

(** The items of an array, from the [i]-th of [n] on; the index is below the size, so
    that the lookup finds the item. *)
Fixpoint decode_items (decode : bytes -> E py_heap (option mp_obj)) (n i : nat) (buffer : bytes) (list : mp_obj)
  : E py_heap bool :=
  match n with
  | O => mret true
  | S n =>
      let? item := cc_coder_get_value_from_array buffer i else mret false in
      value ← decode item;
      match value with
      | Some value => mp_obj_list_store list i value ;; decode_items decode n (S i) buffer list
      | None => mret false
      end
  end.

(** [n] entries of a map. *)
Fixpoint decode_entries (decode : bytes -> E py_heap (option mp_obj)) (n : nat) (temp : bytes) (dict : mp_obj)
  : E py_heap bool :=
  match n with
  | O => mret true
  | S n =>
      key ← decode temp;
      let? key := key else mret false in
      let temp := cc_coder_decode_map_next temp in
      value ← decode temp;
      let? value := value else mret false in
      let temp := cc_coder_decode_map_next temp in
      mp_obj_dict_store dict key value ;;
      decode_entries decode n temp dict
  end.

(** The object, [None] when the decoding fails; [stack] is the room that is left for
    calls. *)
Fixpoint decode_obj (stack : nat) (buffer : bytes) : E py_heap (option mp_obj) :=
  match stack with
  | O => pure_ (ub_ BufferOverflow)
  | S stack =>
      match cc_coder_type_of buffer with
      | CC_CODER_NIL => mret (Some PyNone)
      | CC_CODER_STR => mret ('(s, len) ← cc_coder_decode_str buffer; Some (PyStr (take len s)))
      | CC_CODER_UINT =>
          n ← pure_ (lift_outcome (cc_coder_decode_uint buffer));
          mret (mp_obj_new_int <$> n)
      | CC_CODER_INT => mret (mp_obj_new_int <$> cc_coder_decode_int buffer)
      | CC_CODER_BOOL => mret (PyBool <$> cc_coder_decode_bool buffer)
      | CC_CODER_FLOAT => mret ((fun f => PyFloat (float_of_bits f)) <$> cc_coder_decode_float buffer)
      | CC_CODER_DOUBLE => mret ((fun d => PyFloat (double_of_bits d)) <$> cc_coder_decode_double buffer)
      | CC_CODER_ARRAY =>
          let len := Z.to_nat (cc_coder_get_size_of_array buffer) in
          list ← mp_obj_new_list (replicate len MP_OBJ_NULL);
          ok ← decode_items (decode_obj stack) len 0 buffer list;
          mret (if (ok : bool) then Some list else None)
      | CC_CODER_MAP =>
          let '(len, temp) := cc_coder_decode_map buffer in
          dict ← mp_obj_new_dict (Z.to_nat len);
          ok ← decode_entries (decode_obj stack) (Z.to_nat len) temp dict;
          mret (if (ok : bool) then Some dict else None)
      | CC_CODER_BIN => mret ('(s, len) ← cc_coder_decode_bin buffer; Some (PyBytes (take len s)))
      | _ => mret None
      end
  end.

(** ** Encoding *)

(** [w] written at [pos] of a buffer. *)
Definition write_at (mem : bytes) (pos : nat) (w : bytes) : outcome bytes :=
  if (pos + length w <=? length mem)%nat then Ok (take pos mem ++ w ++ drop (pos + length w) mem)
  else Ub BufferOverflow.

(** A value written whole, with its size. *)
Definition put_value (mem : bytes) (pos : nat) (w : bytes) : E py_heap encoded :=
  mem ← pure_ (lift_outcome (write_at mem pos w));
  mret (true, (mem, Z.of_nat (length w))).

(** Objects one after the other, each [*size] bytes after the one before; at the end
    the position that is reached. *)
Fixpoint encode_objs (encode : mp_obj -> nat -> bytes -> Z -> E py_heap encoded) (objs : list mp_obj)
  (pos : nat) (mem : bytes) (size : Z) : E py_heap (bool * (bytes * Z) * nat) :=
  match objs with
  | [] => mret (true, (mem, size), pos)
  | o :: objs =>
      '(ok, (mem, size)) ← encode o pos mem size;
      if negb ok then mret (false, (mem, size), pos)
      else encode_objs encode objs (pos + Z.to_nat size)%nat mem size
  end.

(** The keys and the values of the first [n] places of a table. *)
Definition first_entries (n : nat) (table : list (mp_obj * mp_obj)) : list mp_obj :=
  concat (map (fun e => [e.1; e.2]) (take n table)).

(** A head and the objects after it. *)
Definition put_objs (encode : mp_obj -> nat -> bytes -> Z -> E py_heap encoded) (head : bytes)
  (objs : list mp_obj) (pos : nat) (mem : bytes) (size : Z) : E py_heap encoded :=
  mem ← pure_ (lift_outcome (write_at mem pos head));
  '(ok, (mem, size), end_) ← encode_objs encode objs (pos + length head)%nat mem size;
  mret (if ok : bool then (true, (mem, Z.of_nat end_ - Z.of_nat pos)) else (false, (mem, size))).

(** [cc_mpy_encode_from_mpy_obj] once the buffer is there ([alloc] is false): written at
    [pos] of it.  The size of an object of bytes is not set.  The type of an object is
    read through its pointer. *)
Fixpoint encode_obj (stack : nat) (input : mp_obj) (pos : nat) (mem : bytes) (size : Z) : E py_heap encoded :=
  match stack with
  | O => pure_ (ub_ BufferOverflow)
  | S stack =>
      match input with
      | PySmallInt value => put_value mem pos (cc_coder_encode_uint [] (u32 value))
      | PyInt value => value ← mp_obj_int_get value; put_value mem pos (cc_coder_encode_int [] (i32 value))
      | PyFloat value => put_value mem pos (cc_coder_encode_float [] (float_bits (to_format 24 128 value)))
      | PyBool value => put_value mem pos (cc_coder_encode_bool [] value)
      | PyNone => put_value mem pos (cc_coder_encode_nil [])
      | PyStr s => put_value mem pos (cc_coder_encode_str [] s (strlen s))
      | PyBytes s =>
          mem ← pure_ (lift_outcome (write_at mem pos (cc_coder_encode_bin [] s (length s))));
          mret (true, (mem, size))
      | PyList l =>
          items ← list_items l;
          put_objs (encode_obj stack) (cc_coder_encode_array [] (Z.of_nat (length items))) items pos mem size
      | PyDict l =>
          table ← dict_table l;
          let kw_dict_len := mp_obj_dict_len table in
          put_objs (encode_obj stack) (cc_coder_encode_map [] (Z.of_nat kw_dict_len))
            (first_entries kw_dict_len table) pos mem size
      | PyTuple _ | PyObject _ => mret (false, (mem, size))
      | MP_OBJ_NULL => pure_ (ub_ NullDeref)
      | PyPtr _ => pure_ (ub_ BadCast)
      end
  end.

(** The bytes that are allocated for an object; [None]: its type is not supported. *)
Definition encoding_room (input : mp_obj) : E py_heap (option nat) :=
  match input with
  | PySmallInt value => mret (Some (Z.to_nat (cc_coder_sizeof_uint (u32 value))))
  | PyInt value => value ← mp_obj_int_get value; mret (Some (Z.to_nat (cc_coder_sizeof_int (i32 value))))
  | PyFloat value => mret (Some (Z.to_nat (cc_coder_sizeof_float (float_bits (to_format 24 128 value)))))
  | PyBool value => mret (Some (Z.to_nat (cc_coder_sizeof_bool value)))
  | PyNone => mret (Some (Z.to_nat cc_coder_sizeof_nil))
  | PyStr s => mret (Some (Z.to_nat (cc_coder_sizeof_str (Z.of_nat (strlen s)))))
  | PyBytes s => mret (Some (length s + 10)%nat)
  | PyList _ => mret (Some 200%nat)
  | PyDict _ => mret (Some 10000%nat)
  | PyTuple _ | PyObject _ => mret None
  | MP_OBJ_NULL => pure_ (ub_ NullDeref)
  | PyPtr _ => pure_ (ub_ BadCast)
  end.

(** The buffer as it is allocated; that of a dictionary is cleared. *)
Definition fresh_buffer (input : mp_obj) (n : nat) : bytes :=
  match input with
  | PyDict _ => zeroed n
  | _ => take n (mpy_junk n) ++ zeroed (n - length (mpy_junk n))
  end.
End values.

(** ** With the whole runtime *)

Section bindings.
Context {V : Type} `{HP : !Holds V py_heap} `{MV : !MicroPython V} `{P : Platform} `{MP : MsgPuck}.

(** A computation on the heap of the machine. *)
Definition on_heap {A} (m : E py_heap A) : E (rt V) A :=
  p ← pure_ get_platform;
  h ← pure_ (state_as py_heap (ps_statics p !! mp_state_ctx));
  match m h with
  | Ok (r, h') =>
      pure_ (upd_platform (set_ps_statics (<[mp_state_ctx := hold h']> (ps_statics p)))) ;;
      match r with inl a => mret a | inr e => raise e end
  | Ub u => pure_ (ub_ u)
  end.

(** A NULL buffer is read. *)
Definition cc_mpy_decode_to_mpy_obj (buffer : option bytes) : E (rt V) (option mp_obj) :=
  buffer ← pure_ (need NullDeref buffer);
  on_heap (decode_obj (MV:=MV) mpy_stack buffer).

(** With [alloc]: the buffer, when there is one, and [*size], which was [size].  A list
    or a dictionary that cannot be encoded frees the address of the pointer, not what
    it points to. *)
Definition cc_mpy_encode_from_mpy_obj (input : mp_obj) (size : Z) : E (rt V) (option (bytes * Z)) :=
  n ← on_heap (encoding_room (MV:=MV) input);
  let? n := n else mret None in
  ok ← pure_ (on_world cc_platform_mem_alloc);
  if negb ok then mret None
  else
    '(ok, r) ← on_heap (encode_obj (MV:=MV) mpy_stack input 0 (fresh_buffer (MV:=MV) input n) size);
    if (ok : bool) then mret (Some r) else pure_ (ub_ BadFree).

(** Without: written at [pos] of a buffer of the caller. *)
Definition cc_mpy_encode_at (input : mp_obj) (pos : nat) (mem : bytes) (size : Z) : E (rt V) encoded :=
  on_heap (encode_obj (MV:=MV) mpy_stack input pos mem size).
End bindings.
