(* ===== verification/MpyActor.v ===== *)
(** libmpy/cc_actor_mpy.c and [cc_actor_store_module] of cc_actor.c: actors whose code
    is a class of a Python module, which is frozen in the firmware or a file of
    [CC_ACTOR_MODULES_DIR].

    The functions are called by the runtime: an exception that they meet has no handler
    ([uncaught]).  The variables that are set to [MP_OBJ_NULL] for the collector of
    garbage are left out. *)
From S2P Require Import Prelude CString CText Common MsgPuck Coder Fifo Machine Runtime Mpy.

Definition CC_ACTOR_MODULES_DIR : bytes := str "mpys/".

(** [cc_actor_mpy_state_t]. *)
Record cc_actor_mpy_state_t := {
  ms_class_instance : mp_obj;
  ms_fire_method : mp_obj * option mp_obj
}.

(** ** Names *)

Definition SLASH_BYTE : byte := Byte.x2f.
Definition DOT_BYTE : byte := Byte.x2e.

(** The path of a module: its type, whose dots are slashes, in the folder of the actors. *)
Definition module_path (type : bytes) (type_len : nat) (extension : bytes) (add_modules_dir : bool) : bytes :=
  map (fun c => if bool_decide (c = DOT_BYTE) then SLASH_BYTE else c)
    ((if add_modules_dir then CC_ACTOR_MODULES_DIR else []) ++ str "actors/" ++ cstr (take type_len type))
  ++ extension.

(** [while (pos-- > 0)] with a [pos] of 8 bits: the text after the last dot before it,
    [class_len] bytes of it. *)
Fixpoint class_name (pos : nat) (type : bytes) (class_len : nat) : option bytes :=
  match pos with
  | O => None
  | S pos =>
      if bool_decide (nth pos type NUL = DOT_BYTE) then Some (take class_len (drop (S pos) type))
      else class_name pos type (Z.to_nat (u8 (Z.of_nat class_len + 1)))
  end.

Section actor.
Context {V : Type} `{HP : !Holds V py_heap} `{HS : !Holds V cc_actor_mpy_state_t} `{HC : !Holds V Z}.
Context `{MV : !MicroPython V} `{P : Platform} `{MP : MsgPuck} `{ST : !Storage V}.

(** [mp_load_method]: what is not there raises. *)
Definition mp_load_method (base : mp_obj) (attr : bytes) : E (rt V) (mp_obj * option mp_obj) :=
  m ← pure_ (mp_load_method_maybe base attr);
  match m with Some m => mret m | None => raise AttributeError end.

(** A method that may not be there, called with [args]. *)
Definition call_if_there (base : mp_obj) (attr : bytes) (args : list mp_obj) : E (rt V) unit :=
  m ← pure_ (mp_load_method_maybe base attr);
  match m with
  | Some (f, Some self) => _ ← mp_call f (Some self) args []; mret tt
  | _ => mret tt
  end.

(** A static counter, and its next value. *)
Definition next_count (i : nat) : R V Z :=
  p ← get_platform;
  n ← match ps_statics p !! i with Some v => state_as Z (Some v) | None => mret 0 end;
  upd_platform (set_ps_statics (<[i := hold (i32 (n + 1))]> (ps_statics p))) ;;
  mret n.

(** ** The functions of an actor *)

(** Attributes as keyword arguments: a name and an object each. *)
Fixpoint keyword_args (attributes : list (cc_list_t bytes)) : E (rt V) (option (list (mp_obj * mp_obj))) :=
  match attributes with
  | [] => mret (Some [])
  | a :: attributes =>
      value ← cc_mpy_decode_to_mpy_obj (Some (li_data a));
      let? value := value else mret None in
      args ← keyword_args attributes;
      mret (cons (PyStr (take (li_id_len a) (li_id a)), value) <$> args)
  end.

Definition cc_actor_mpy_init (actor : loc) (managed_attributes : list (cc_list_t bytes)) : R V cc_result_t :=
  uncaught
    (state ← pure_ (get_inst_state cc_actor_mpy_state_t actor);
     '(f, self) ← mp_load_method (ms_class_instance state) (str "init");
     args ← keyword_args managed_attributes;
     let? args := args else mret CC_FAIL in
     _ ← mp_call f self [] args;
     mret CC_SUCCESS).

(** The attributes from the [index]-th on. *)
Fixpoint store_attributes (instance managed_list : mp_obj) (index : nat) (attributes : list (cc_list_t bytes))
  : E (rt V) cc_result_t :=
  match attributes with
  | [] => mret CC_SUCCESS
  | a :: attributes =>
      let name := take (li_id_len a) (li_id a) in
      value ← cc_mpy_decode_to_mpy_obj (Some (li_data a));
      let? value := value else mret CC_FAIL in
      on_heap (mp_obj_list_store managed_list index (PyStr name)) ;;
      mp_store_attr instance name value ;;
      store_attributes instance managed_list (S index) attributes
  end.

(** The list is an attribute of the instance before it is filled. *)
Definition cc_actor_mpy_set_state (actor : loc) (managed_attributes : list (cc_list_t bytes)) : R V cc_result_t :=
  uncaught
    (state ← pure_ (get_inst_state cc_actor_mpy_state_t actor);
     py_managed_list ← on_heap (mp_obj_new_list (replicate (length managed_attributes) MP_OBJ_NULL));
     mp_store_attr (ms_class_instance state) (str "_managed") py_managed_list ;;
     store_attributes (ms_class_instance state) py_managed_list 0 managed_attributes).

(** The items of an attribute that is taken for a list. *)
Definition attribute_items (o : mp_obj) : E (rt V) (list mp_obj) :=
  match o with PyList l => on_heap (list_items l) | _ => pure_ (ub_ BadCast) end.

(** The attributes whose names are listed; [*size] goes from one to the next. *)
Fixpoint managed_values (instance : mp_obj) (names : list mp_obj) (size : Z)
  (attributes : list (cc_list_t (option bytes))) : E (rt V) (option (list (cc_list_t (option bytes)))) :=
  match names with
  | [] => mret (Some attributes)
  | PyStr name :: names =>
      let name := cstr name in
      '(value, _) ← mp_load_method instance name;
      if is_null value then mret None
      else
        packed ← cc_mpy_encode_from_mpy_obj value size;
        let? (packed_value, size) := packed else mret None in
        r ← pure_ (on_world (cc_list_add_n attributes name (strlen name) (Some packed_value) size));
        let? attributes := r else mret None in
        managed_values instance names size attributes
  | _ => mret None
  end.

Definition cc_actor_mpy_get_attributes (actor : loc) : R V (option (list (cc_list_t (option bytes)))) :=
  uncaught
    (state ← pure_ (get_inst_state cc_actor_mpy_state_t actor);
     '(managed, _) ← mp_load_method (ms_class_instance state) (str "_managed");
     names ← attribute_items managed;
     managed_values (ms_class_instance state) names 0 []).

Fixpoint requirements (names : list mp_obj) (requires : list (cc_list_t unit))
  : E (rt V) (option (list (cc_list_t unit))) :=
  match names with
  | [] => mret (Some requires)
  | PyStr name :: names =>
      let name := cstr name in
      r ← pure_ (on_world (cc_list_add_n requires name (strlen name) tt 0));
      let? requires := r else mret None in
      requirements names requires
  | _ => mret None
  end.

Definition cc_actor_mpy_get_requires (actor : loc) : R V (option (list (cc_list_t unit))) :=
  uncaught
    (state ← pure_ (get_inst_state cc_actor_mpy_state_t actor);
     m ← pure_ (mp_load_method_maybe (ms_class_instance state) (str "requires"));
     match m with
     | None => mret (Some [])
     | Some (requires, _) => names ← attribute_items requires; requirements names []
     end).

(** An object counts as true: [None] does not, whatever the machine says. *)
Definition is_true (res : mp_obj) : E (rt V) bool :=
  match res with PyNone => mret false | _ => mp_obj_is_true res end.

Definition cc_actor_mpy_fire (actor : loc) : R V bool :=
  uncaught
    (state ← pure_ (get_inst_state cc_actor_mpy_state_t actor);
     res ← mp_call (ms_fire_method state).1 (ms_fire_method state).2 [] [];
     did_fire ← is_true res;
     pure_ mp_gc ;;
     mret did_fire).

Definition cc_actor_mpy_free_state (actor : loc) : R V unit :=
  i ← get_instance actor;
  when (bool_decide (is_Some (inst_state i)))
    (_ ← state_as cc_actor_mpy_state_t (inst_state i);
     put_instance actor (set_inst_state None i)) ;;
  mp_gc.

(** A method of the actor that is told of what happens to it. *)
Definition notify (actor : loc) (method : bytes) (args : list mp_obj) : R V unit :=
  uncaught
    (state ← pure_ (get_inst_state cc_actor_mpy_state_t actor);
     call_if_there (ms_class_instance state) method args).
Definition cc_actor_mpy_will_migrate (actor : loc) : R V unit := notify actor (str "will_migrate") [].
Definition cc_actor_mpy_will_end (actor : loc) : R V unit := notify actor (str "will_end") [].
Definition cc_actor_mpy_did_migrate (actor : loc) : R V unit := notify actor (str "did_migrate") [].
Definition cc_actor_mpy_did_replicate (actor : loc) (index : Z) : R V unit :=
  notify actor (str "did_replicate") [PySmallInt index].

Definition python_actor_type : cc_actor_type_t V :=
  {| at_init := cc_actor_mpy_init; at_set_state := cc_actor_mpy_set_state;
     at_free_state := Some cc_actor_mpy_free_state; at_fire_actor := cc_actor_mpy_fire;
     at_get_managed_attributes := Some cc_actor_mpy_get_attributes;
     at_will_migrate := Some cc_actor_mpy_will_migrate; at_will_end := Some cc_actor_mpy_will_end;
     at_did_migrate := Some cc_actor_mpy_did_migrate; at_did_replicate := Some cc_actor_mpy_did_replicate;
     at_get_requires := Some cc_actor_mpy_get_requires |}.

(** ** Loading *)

Definition cc_actor_mpy_get_path_from_type (type : bytes) (type_len : nat) (extension : bytes)
  (add_modules_dir : bool) : R V (option bytes) :=
  ok ← on_world cc_platform_mem_alloc;
  mret (if (ok : bool) then Some (module_path type type_len extension add_modules_dir) else None).

(** The number of the functions above among the types ([type_code]). *)
Context (python_index : nat).

(** The module is imported, and the class called with the actor and calvinsys. *)
Definition load_class (actor : loc) (type class instance_name : bytes) : E (rt V) unit :=
  actor_module ← mp_import_name type;
  pure_ (mp_store_global type actor_module) ;;
  '(actor_class, _) ← mp_load_method actor_module class;
  instance ← mp_call actor_class None [PyPtr (CActor actor); PyPtr CCalvinsys] [];
  pure_ (put_inst_state actor {| ms_class_instance := instance; ms_fire_method := (MP_OBJ_NULL, None) |}) ;;
  pure_ (mp_store_name instance_name instance) ;;
  fire ← mp_load_method instance (str "fire");
  pure_ (put_inst_state actor {| ms_class_instance := instance; ms_fire_method := fire |}).

(** When it fails the state is freed and the actor keeps its address; the functions
    that read it are set at the end. *)
Definition cc_actor_mpy_init_from_type (actor : loc) : R V cc_result_t :=
  a ← on_world (get_actor actor);
  counter ← next_count 101;
  let instance_name := str "actor_obj" ++ decimal counter in
  ok ← on_world cc_platform_mem_alloc;
  if negb ok then mret CC_FAIL
  else
    put_inst_state actor {| ms_class_instance := MP_OBJ_NULL; ms_fire_method := (MP_OBJ_NULL, None) |} ;;
    ok ← on_world cc_platform_mem_alloc;
    if negb ok then mret CC_FAIL
    else
      let type := str "actors." ++ cstr (actor_type a) in
      match class_name (Z.to_nat (u8 (Z.of_nat (length type)))) type 0 with
      | None => mret CC_FAIL
      | Some class =>
          uncaught (load_class actor type class instance_name) ;;
          i ← get_instance actor;
          put_instance actor {| inst_type := python_index; inst_state := inst_state i |} ;;
          mret CC_SUCCESS
      end.

Definition cc_actor_mpy_has_module (type : bytes) : R V bool :=
  path ← cc_actor_mpy_get_path_from_type type (strlen type) (str ".py") false;
  if match path with Some path => mp_frozen_stat path | None => false end then mret true
  else
    path ← cc_actor_mpy_get_path_from_type type (strlen type) (str ".mpy") true;
    match path with
    | Some path => r ← cc_platform_file_stat path; mret (bool_decide (r = CC_STAT_FILE))
    | None => mret false
    end.

Definition cc_actor_store_module (type : bytes) (type_len : nat) (data : bytes) (data_len : nat) : R V unit :=
  path ← cc_actor_mpy_get_path_from_type type type_len (str ".mpy") true;
  match path with
  | Some path => _ ← cc_platform_file_write path (take data_len data); mret tt
  | None => mret tt
  end.

(** What [CC_USE_PYTHON] adds to the runtime. *)
Definition python_actors : python_code_t V :=
  {| py_actor_type := python_actor_type; py_has_module := cc_actor_mpy_has_module;
     py_init_from_type := cc_actor_mpy_init_from_type; py_store_module := cc_actor_store_module |}.
End actor.
