(* ===== verification/Socket.v ===== *)
(** runtime/south/transport/socket/cc_transport_socket.c: the transport over a TCP
    socket, and the discovery of a proxy with SSDP and HTTP.

    The sockets of the operating system are the class [Sockets]; what they answer is
    indexed by the call, as the platform's.  The descriptors that are open are a part
    of the state.  [send] and [recv] of the transport are [write] and [read] on the
    connected descriptor, the calls [plat_send] and [plat_recv]. *)
From S2P Require Import Prelude CString CText Common Json MsgPuck Coder Fifo Machine Transport ProtoSend.
From S2P Require Import Proto Runtime.

Class Sockets := {
  os_socket : nat -> Z;                          (* socket(): -1 on an error *)
  os_connect : nat -> bytes -> Z -> bool;        (* connect() to an address and a port *)
  os_send : nat -> bytes -> Z;                   (* send(), sendto() *)
  os_recv : nat -> option bytes;                 (* recv(), recvfrom(): None on an error *)
  os_select : nat -> option Z -> gset Z -> option (gset Z);  (* the ready ones, within the seconds *)
  os_stack : nat -> bytes;                       (* what memory that is not initialised holds *)
  os_word : nat -> Z
}.

Record cc_transport_socket_client_t := {
  sk_fd : Z;
  sk_ip : bytes;     (* char[40] *)
  sk_port : Z        (* int *)
}.

Definition CC_LOCATION_SIZE : nat := 200.
Definition CC_SSDP_MULTICAST : bytes := str "239.255.255.250".
Definition CC_SSDP_PORT : Z := 1900.
Definition CC_SERVICE_UUID : bytes := str "1693326a-abb9-11e4-8dfb-9cb654a16426".
Definition CC_RECV_BUF_SIZE : nat := 512.

Definition CRLF : bytes := [Byte.x0d; Byte.x0a].
Definition QUOTE : byte := Byte.x22.

Definition ssdp_request : bytes :=
  str "M-SEARCH * HTTP/1.1" ++ CRLF
  ++ str "HOST: " ++ CC_SSDP_MULTICAST ++ str ":" ++ decimal CC_SSDP_PORT ++ CRLF
  ++ str "MAN: " ++ [QUOTE] ++ str "ssdp:discover" ++ [QUOTE] ++ CRLF
  ++ str "MX: 2" ++ CRLF
  ++ str "ST: uuid:" ++ CC_SERVICE_UUID ++ CRLF
  ++ CRLF.

Definition http_request (path : bytes) : bytes := str "GET " ++ cstr path ++ str " HTTP/1.0" ++ CRLF ++ CRLF.

(** [htons]. *)
Definition u16 (z : Z) : Z := z mod 65536.

(** ** Parsing *)

(** The value of the LOCATION of an SSDP response.  [buffer] is the array; what follows
    the end of the response in it may be looked at. *)
Definition ssdp_location (buffer : bytes) : outcome (option bytes) :=
  if negb (streq_n buffer (str "HTTP/1.1 200 OK") 15) then Ok None
  else
    match strstr buffer (str "LOCATION:") with
    | None => Ok None
    | Some i =>
        let location_start := drop (i + 10) buffer in
        location_end ← strstr_array location_start CRLF;
        match location_end with
        | None => Ok None
        | Some len => if (CC_LOCATION_SIZE <? len + 1)%nat then Ok None else Ok (Some (take len location_start))
        end
    end.

(** The interface of a runtime in its answer over HTTP. *)
Definition http_interface (buffer : bytes) : option bytes :=
  if negb (streq_n buffer (str "HTTP/1.0 200 OK") 15) then None
  else
    match strstr buffer (str "calvinip://") with
    | None => None
    | Some i =>
        let uri_start := drop i buffer in
        len ← strchr uri_start QUOTE; Some (take len uri_start)
    end.

(** [while (pos < location_len)]: the first colon from [pos] on. *)
Fixpoint first_colon (s : bytes) (pos : nat) : option nat :=
  match s with
  | [] => None
  | c :: s => if bool_decide (c = Byte.x3a) then Some pos else first_colon s (S pos)
  end.

(** The address, its length, the port and the path of the location of a proxy. *)
Definition parse_location (location : bytes) : option (bytes * nat * Z * bytes) :=
  if negb (streq_n location (str "http://") 7) then None
  else
    pos ← first_colon (drop 7 (take (strnlen location CC_LOCATION_SIZE) location)) 7;
    let ip := drop 7 location in
    let ip_len := (pos - 7)%nat in
    path ← strchr ip Byte.x2f;
    let '(port, n) := strtol (drop (ip_len + 1) ip) in
    if (n =? 0)%nat then None else Some (ip, ip_len, i32 port, drop path ip).

(** [while (pos > 11)], from the end of the uri: the last colon. *)
Fixpoint last_colon (uri : bytes) (pos : nat) : option nat :=
  match pos with
  | O => None
  | S n =>
      if (pos <=? 11)%nat then None
      else if bool_decide (nth pos uri NUL = Byte.x3a) then Some pos else last_colon uri n
  end.

(** The address, its length and the port of a uri. *)
Definition cc_transport_socket_parse_uri (uri : bytes) : option (bytes * nat * Z) :=
  if negb (streq_n uri (str "calvinip://") 11) then None
  else
    pos ← last_colon uri (strlen uri);
    Some (drop 11 uri, (pos - 11)%nat, i32 (strtol (drop (pos + 1) uri)).1).

Section socket.
Context {V : Type} `{P : Platform} `{SK : Sockets} `{HK : !Holds V cc_transport_socket_client_t}.

(** ** Descriptors *)

Definition os_tick : R V nat := on_world tick.

(** An array of [size] bytes that is not initialised. *)
Definition uninit (size : nat) : R V bytes :=
  s ← get_; mret (take size (os_stack (w_calls (rt_world s)) ++ zeroed size)).

Definition open_socket : R V Z :=
  n ← os_tick;
  let fd := os_socket n in
  (if 0 <=? fd then upd_platform (fun p => set_ps_open ({[fd]} ∪ ps_open p) p) else mret tt) ;;
  mret fd.
Definition close_fd (fd : Z) : R V unit :=
  _ ← os_tick; upd_platform (fun p => set_ps_open (ps_open p ∖ {[fd]}) p).

(** At most 512 bytes in the array: what it holds afterwards, terminated; [None] on an
    error.  A datagram or a segment that fills the array is terminated past its end. *)
Definition recv_text (buffer : bytes) : R V (option bytes) :=
  n ← os_tick;
  match os_recv n with
  | None => mret None
  | Some data =>
      let got := take CC_RECV_BUF_SIZE data in
      buffer ← need BufferOverflow (store (got ++ drop (length got) buffer) (length got) NUL);
      mret (Some buffer)
  end.

(** ** Discovery *)

(** The text of the response, when there is one: an SSDP request is sent, and answered
    within five seconds. *)
Definition ssdp_response : R V (option bytes) :=
  garbage ← uninit CC_RECV_BUF_SIZE;
  let buffer := ssdp_request ++ NUL :: drop (S (length ssdp_request)) garbage in
  sock ← open_socket;
  guard! negb (sock =? -1) else mret None in
  n ← os_tick;
  guard! os_send n ssdp_request =? Z.of_nat (length ssdp_request) else mret None in
  n ← os_tick;
  let? ready := os_select n (Some 5) {[sock]} else mret None in
  guard! bool_decide (sock ∈ ready) else mret None in
  r ← recv_text buffer;
  let? buffer := r else mret None in
  close_fd sock ;;
  mret (Some buffer).

(** [location] is the zeroed array of the caller. *)
Definition cc_transport_socket_discover_location (location : bytes) : R V (option bytes) :=
  r ← ssdp_response;
  let? buffer := r else mret None in
  text ← lift_outcome (ssdp_location buffer);
  let? text := text else mret None in
  location ← need BufferOverflow (strncpy_nul location text (length text));
  mret (Some location).

(** The descriptor is closed once the answer has been received, or not. *)
Definition http_response (fd : Z) (path : bytes) : R V (option bytes) :=
  let request := http_request path in
  if (CC_RECV_BUF_SIZE <? length request)%nat then ub_ BufferOverflow
  else
    n ← os_tick;
    guard! 0 <=? os_send n request else mret None in
    r ← recv_text (zeroed CC_RECV_BUF_SIZE);
    close_fd fd ;;
    mret r.

Definition cc_transport_socket_get_ip_uri (uri ip : bytes) (ip_len : nat) (port : Z) (path : bytes)
  : R V (option bytes) :=
  fd ← open_socket;
  guard! 0 <=? fd else mret None in
  garbage ← uninit CC_RECV_BUF_SIZE;
  address ← need BufferOverflow (strncpy_nul garbage ip ip_len);
  n ← os_tick;
  guard! os_connect n (cstr address) (u16 port) else mret None in
  r ← http_response fd path;
  let? buffer := r else mret None in
  let? text := http_interface buffer else mret None in
  uri ← need BufferOverflow (strncpy_nul uri text (length text));
  mret (Some uri).

Definition cc_transport_socket_discover_proxy (uri : bytes) : R V (option bytes) :=
  location ← cc_transport_socket_discover_location (zeroed CC_LOCATION_SIZE);
  let? location := location else mret None in
  let? (ip, ip_len, port, path) := parse_location location else mret None in
  cc_transport_socket_get_ip_uri uri ip ip_len port path.

(** ** The transport *)

Definition get_socket : R V cc_transport_socket_client_t :=
  p ← get_platform; state_as cc_transport_socket_client_t (ps_client_state p).
Definition put_socket (x : cc_transport_socket_client_t) : R V unit :=
  upd_platform (set_ps_client_state (Some (hold x))).

(** The address to connect to: the uri's, or the one that is discovered. *)
Definition socket_target (uri : bytes) : R V (option (bytes * nat * Z)) :=
  if streq_n uri (str "ssdp") 4 then
    ssdpuri ← uninit 100;
    ssdpuri ← cc_transport_socket_discover_proxy ssdpuri;
    let? ssdpuri := ssdpuri else mret None in
    mret (cc_transport_socket_parse_uri ssdpuri)
  else mret (cc_transport_socket_parse_uri uri).

(** [sprintf] of the address into [transport_client->uri]. *)
Definition client_uri (ip : bytes) (port : Z) : option bytes :=
  let text := str "calvinip://" ++ cstr ip ++ str ":" ++ decimal port in
  if (length text <? CC_MAX_URI_LEN)%nat
  then Some (text ++ zeroed (CC_MAX_URI_LEN - length text)) else None.

Definition cc_transport_socket_create (uri : bytes) : R V (option cc_transport_client_t) :=
  target ← socket_target uri;
  let? (ip, ip_len, port) := target else mret None in
  ok ← on_world cc_platform_mem_alloc;
  guard! (ok : bool) else mret None in
  s ← get_;
  let fd := os_word (w_calls (rt_world s)) in
  garbage ← uninit 40;
  ok ← on_world cc_platform_mem_alloc;
  guard! (ok : bool) else mret None in
  sk_ip ← need BufferOverflow (strncpy_nul garbage ip ip_len);
  uri ← need BufferOverflow (client_uri sk_ip port);
  put_socket {| sk_fd := fd; sk_ip := sk_ip; sk_port := port |} ;;
  mret (Some {| tc_transport_type := CC_TRANSPORT_SOCKET_TYPE; tc_uri := uri;
                tc_peer_id := zeroed CC_UUID_BUFFER_SIZE; tc_state := CC_TRANSPORT_INTERFACE_UP;
                tc_rx_buffer := no_rx; tc_prefix_len := CC_TRANSPORT_LEN_PREFIX_SIZE |}).

Definition cc_transport_socket_connect : R V cc_result_t :=
  sk ← get_socket;
  fd ← open_socket;
  put_socket {| sk_fd := fd; sk_ip := sk_ip sk; sk_port := sk_port sk |} ;;
  guard! 0 <=? fd else mret CC_FAIL in
  n ← os_tick;
  guard! os_connect n (cstr (sk_ip sk)) (u16 (sk_port sk)) else mret CC_FAIL in
  on_world (upd_client (set_tc_state CC_TRANSPORT_CONNECTED)) ;;
  mret CC_SUCCESS.

(** The value of the enumeration. *)
Definition transport_type_val (t : cc_transport_type_t) : Z :=
  match t with
  | CC_TRANSPORT_SOCKET_TYPE => 0 | CC_TRANSPORT_BT_TYPE => 1 | CC_TRANSPORT_FCM_TYPE => 2
  | CC_TRANSPORT_SPRITZER_TYPE => 3
  end.

(** The cast is of the client, not of its [client_state]: what is read as the descriptor
    is the first member of the client, its type. *)
Definition cc_transport_socket_disconnect : R V unit :=
  client ← on_world get_client;
  if bool_decide (tc_state client = CC_TRANSPORT_DISCONNECTED) then mret tt
  else close_fd (transport_type_val (tc_transport_type client)).

Definition cc_transport_socket_free : R V unit := upd_platform (set_ps_client_state None).

(** The descriptor of the transport while something can come over it. *)
Definition transport_fd : R V (option Z) :=
  node ← on_world get_node;
  match node_transport_client node with
  | Some client =>
      if bool_decide (tc_state client = CC_TRANSPORT_PENDING) || bool_decide (tc_state client = CC_TRANSPORT_ENABLED)
      then sk ← get_socket; mret (Some (sk_fd sk))
      else mret None
  | None => mret None
  end.

(** [cc_transport_create] over [CC_TRANSPORTS] of cc_config_x86.h: every entry whose name
    starts the uri creates a client, and the last one is kept. *)
Definition CC_TRANSPORTS : list (bytes * (bytes -> R V (option cc_transport_client_t))) :=
  [ (str "calvinip", cc_transport_socket_create); (str "ssdp", cc_transport_socket_create) ].

Fixpoint create_client (transports : list (bytes * (bytes -> R V (option cc_transport_client_t))))
  (uri : bytes) (client : option cc_transport_client_t) : R V (option cc_transport_client_t) :=
  match transports with
  | [] => mret client
  | (name, create) :: transports =>
      client ← (if streq_n uri name (strlen name) then create uri else mret client);
      create_client transports uri client
  end.

Definition cc_transport_create (uri : bytes) : R V (option cc_transport_client_t) :=
  client ← create_client CC_TRANSPORTS uri None;
  mret (set_tc_rx_buffer no_rx <$> client).
End socket.
