(* ===== verification/ActorStore.v ===== *)
(** runtime/north/cc_actor_store.c: the table of the actor types of a runtime. *)
From S2P Require Import Prelude CString Common MsgPuck Coder Fifo Machine Runtime.

Section store.
Context {V : Type} `{P : Platform}.

(** A built-in type: its name, and what its setup function answers. *)
Record cc_actor_builtin_type_t := { bt_name : bytes; bt_setup : option (cc_actor_type_t V) }.

Definition cc_actor_store_add (types : list (cc_list_t (cc_actor_type_t V))) (t : cc_actor_builtin_type_t)
  : W (option (list (cc_list_t (cc_actor_type_t V)))) :=
  ok ← cc_platform_mem_alloc;
  if negb ok then mret None
  else
    match bt_setup t with
    | None => mret None
    | Some type => cc_list_add_n types (bt_name t) (strlen (bt_name t)) type 8
    end.

(** The table so far, and whether every type was added. *)
Fixpoint cc_actor_store_init (types : list (cc_list_t (cc_actor_type_t V))) (l : list cc_actor_builtin_type_t)
  : W (cc_result_t * list (cc_list_t (cc_actor_type_t V))) :=
  match l with
  | [] => mret (CC_SUCCESS, types)
  | t :: l =>
      r ← cc_actor_store_add types t;
      match r with
      | None => mret (CC_FAIL, types)
      | Some types => cc_actor_store_init types l
      end
  end.
End store.
