(* ===== verification/Calvinsys.v ===== *)
(** calvinsys/cc_calvinsys.c: the capabilities of a runtime and the objects the
    actors open on them. *)
From S2P Require Import Prelude CString Common MsgPuck Coder Fifo Machine Transport ProtoSend.
From S2P Require Import Runtime.

(** The descriptor of a capability of the configuration. *)
Record cap_desc := {
  cd_name : bytes; cd_code : nat; cd_init_args : option bytes; cd_python_module : option bytes
}.

Definition set_node_capabilities (v : list (cc_list_t unit)) (n : cc_node_t) : cc_node_t :=
  {| node_state := node_state n; node_stop_method := node_stop_method n; node_id := node_id n;
     node_attributes := node_attributes n; node_pending_msgs := node_pending_msgs n;
     node_proxy_link := node_proxy_link n; node_links := node_links n;
     node_storage_tunnel := node_storage_tunnel n; node_proxy_tunnel := node_proxy_tunnel n;
     node_tunnels := node_tunnels n; node_actors := node_actors n;
     node_transport_client := node_transport_client n; node_capabilities := v;
     node_proxy_uris := node_proxy_uris n; node_seconds_since_epoch := node_seconds_since_epoch n;
     node_time_at_sync := node_time_at_sync n |}.

(** The objects that can wait on a descriptor. *)
Definition CC_CALVINSYS_MAX_FDS : nat := 10.

Section calvinsys.
Context {V : Type} `{C : !Code V} `{P : Platform} `{MP : MsgPuck}.

(** ** Capabilities *)

(** [calvinsys->capabilities], with the names the node announces. *)
Definition put_capabilities (caps : list (cc_list_t loc)) : R V unit :=
  modify (set_cs_capabilities caps) ;;
  on_world (upd_node (set_node_capabilities (map (fun i => list_item_n (li_id i) (li_id_len i) tt 0) caps))).

Definition cc_calvinsys_init : R V cc_result_t :=
  ok ← on_world cc_platform_mem_alloc;
  if negb ok then mret CC_FAIL
  else
    put_capabilities [] ;;
    modify (set_cs_objects []) ;;
    upd_platform (set_ps_fds (replicate CC_CALVINSYS_MAX_FDS (-1))) ;;
    mret CC_SUCCESS.

(** Allocate a capability, add it under its name and fill it. *)
Definition add_capability (d : cap_desc) : R V cc_result_t :=
  ok ← on_world cc_platform_mem_alloc;
  if negb ok then mret CC_FAIL
  else
    l ← on_world fresh_loc;
    s ← get_;
    r ← on_world (cc_list_add_n (cs_capabilities s) (cd_name d) (strlen (cd_name d)) l 0);
    match r with
    | None => mret CC_FAIL
    | Some caps =>
        put_capabilities caps ;;
        put_cap l {| cap_name := cstr (cd_name d); cap_code := cd_code d; cap_init_args := cd_init_args d;
                     cap_python_module := cd_python_module d |} ;;
        mret CC_SUCCESS
    end.

Fixpoint cc_calvinsys_add_capabilities (capabilities : list cap_desc) : R V cc_result_t :=
  match capabilities with
  | [] => mret CC_SUCCESS
  | d :: capabilities =>
      r ← add_capability d;
      if bool_decide (r = CC_SUCCESS) then cc_calvinsys_add_capabilities capabilities else mret CC_FAIL
  end.

Definition cc_calvinsys_create_capability (d : cap_desc) : R V cc_result_t :=
  s ← get_;
  match list_get (cs_capabilities s) (cd_name d) with
  | Some _ => mret CC_FAIL
  | None => add_capability d
  end.

Definition cc_calvinsys_delete_capability (name : bytes) : R V unit :=
  s ← get_;
  match list_get (cs_capabilities s) name with
  | None => mret tt
  | Some item =>
      free_cap (li_data item) ;;
      put_capabilities (list_remove (cs_capabilities s) name)
  end.

(** ** Objects *)

(** The arguments of the platform that the caller did not give, [n] entries on: were
    they all added, and the list. *)
Fixpoint add_init_args (n : nat) (init_args : bytes) (kwargs : list (cc_list_t bytes))
  : R V (bool * list (cc_list_t bytes)) :=
  match n with
  | O => mret (true, kwargs)
  | S n =>
      let? (key, key_len) := cc_coder_decode_str init_args else mret (false, kwargs) in
      let value := cc_coder_decode_map_next init_args in
      match list_get_n kwargs key key_len with
      | Some _ => add_init_args n (cc_coder_decode_map_next value) kwargs
      | None =>
          r ← on_world (cc_list_add_n kwargs key key_len value (Z.of_nat (cc_coder_get_size_of_value value)));
          match r with
          | None => mret (false, kwargs)
          | Some kwargs => add_init_args n (cc_coder_decode_map_next value) kwargs
          end
      end
  end.

(** The identifier of a new object is the identifier of its item; when the
    capability refuses to open, [obj->id] is read after [obj] was freed.  The second
    component is the list of the arguments afterwards: the items that were added are
    at the end of the list of the caller, unless that is NULL. *)
Definition cc_calvinsys_open (actor : loc) (name : bytes) (kwargs : list (cc_list_t bytes))
  : R V (option bytes * list (cc_list_t bytes)) :=
  id ← on_world (gen_uuid None);
  s ← get_;
  match list_get (cs_capabilities s) name with
  | None => mret (None, kwargs)
  | Some item =>
      capability ← get_cap (li_data item);
      match cap_open (capability_code (cap_code capability)) with
      | None => mret (None, kwargs)
      | Some open =>
          ok ← on_world cc_platform_mem_alloc;
          if negb ok then mret (None, kwargs)
          else
            l ← on_world fresh_loc;
            s ← get_;
            r ← on_world (cc_list_add_n (cs_objects s) id (strlen id + 1) l 0);
            match r with
            | None => mret (None, kwargs)
            | Some objects =>
                modify (set_cs_objects objects) ;;
                put_obj l {| obj_methods := None; obj_state := None; obj_actor := actor;
                             obj_capability := li_data item |} ;;
                '(ok, kwargs) ← match cap_init_args capability with
                                | None => mret (true, kwargs)
                                | Some init_args =>
                                    let '(n, r) := cc_coder_decode_map init_args in
                                    add_init_args (Z.to_nat n) r kwargs
                                end;
                if negb ok then free_obj l ;; mret (None, kwargs)
                else
                  r ← open l kwargs;
                  if bool_decide (r = CC_SUCCESS) then mret (Some (cstr id), kwargs)
                  else free_obj l ;; ub_ UseAfterFree
            end
      end
  end.

(** Look an object up and call one of its methods. *)
Definition with_object {A} (id : bytes) (absent : A) (call : loc -> cc_obj_code_t V -> option (R V A)) : R V A :=
  s ← get_;
  match list_get (cs_objects s) id with
  | None => mret absent
  | Some item =>
      m ← methods_of (li_data item);
      match m ≫= call (li_data item) with
      | Some f => f
      | None => mret absent
      end
  end.

Definition cc_calvinsys_can_write (id : bytes) : R V bool :=
  with_object id false (fun l m => f ← oc_can_write m; Some (f l)).
Definition cc_calvinsys_write (id : bytes) (data : option bytes) : R V cc_result_t :=
  with_object id CC_FAIL (fun l m => f ← oc_write m; Some (f l data)).
Definition cc_calvinsys_can_read (id : bytes) : R V bool :=
  with_object id false (fun l m => f ← oc_can_read m; Some (f l)).
Definition cc_calvinsys_read (id : bytes) : R V (cc_result_t * option bytes) :=
  with_object id (CC_FAIL, None) (fun l m => f ← oc_read m; Some (f l)).

Definition cc_calvinsys_close (id : bytes) : R V unit :=
  s ← get_;
  match list_get (cs_objects s) id with
  | None => mret tt
  | Some item =>
      m ← methods_of (li_data item);
      match m ≫= oc_close with Some close => _ ← close (li_data item); mret tt | None => mret tt end ;;
      s ← get_;
      modify (set_cs_objects (list_remove (cs_objects s) id)) ;;
      free_obj (li_data item)
  end.

(** ** State *)

Fixpoint cc_calvinsys_get_number_of_attributes (objects : list (cc_list_t loc)) (actor : loc) : R V nat :=
  match objects with
  | [] => mret 0%nat
  | item :: objects =>
      obj ← get_obj (li_data item);
      n ← cc_calvinsys_get_number_of_attributes objects actor;
      mret (if bool_decide (actor = obj_actor obj) then S n else n)
  end.

(** One object: its capability, its state and its (empty) arguments. *)
Definition encode_object (w : bytes) (item : cc_list_t loc) (obj : cc_calvinsys_obj_t V) : R V bytes :=
  let w := cc_coder_encode_kv_map w (li_id item) 3 in
  capability ← get_cap (obj_capability obj);
  let w := cc_coder_encode_kv_str w (str "name") (cap_name capability) (strlen (cap_name capability)) in
  m ← methods_of (li_data item);
  w ← match m ≫= oc_serialize with
      | Some serialize =>
          w_obj ← serialize (li_id item) (li_data item) w;
          mret (default (cc_coder_encode_kv_map w (str "obj") 0) w_obj)
      | None => mret (cc_coder_encode_kv_map w (str "obj") 0)
      end;
  mret (cc_coder_encode_kv_map w (str "args") 0).

Fixpoint encode_objects (w : bytes) (objects : list (cc_list_t loc)) (actor : loc) : R V bytes :=
  match objects with
  | [] => mret w
  | item :: objects =>
      obj ← get_obj (li_data item);
      w ← (if bool_decide (actor = obj_actor obj) then encode_object w item obj else mret w);
      encode_objects w objects actor
  end.

(** The objects of an actor, as one more of its private attributes. *)
Definition cc_calvinsys_get_attributes (actor : loc) (private_attributes : list (cc_list_t bytes))
  : R V (option (list (cc_list_t bytes))) :=
  s ← get_;
  nbr_of_items ← cc_calvinsys_get_number_of_attributes (cs_objects s) actor;
  ok ← on_world cc_platform_mem_alloc;
  if negb ok then mret None
  else
    w ← (if (nbr_of_items =? 0)%nat then mret (cc_coder_encode_map [] 0)
         else
           w ← encode_objects (cc_coder_encode_map [] (Z.of_nat nbr_of_items)) (cs_objects s) actor;
           on_world (in_buffer (nbr_of_items * 200) w) ;; mret w);
    on_world (cc_list_add_n private_attributes (str "_calvinsys") 10 w (Z.of_nat (length w))).

(** The arguments of an object, [n] entries on. *)
Fixpoint decode_kwargs (n : nat) (args : bytes) (kwargs : list (cc_list_t bytes))
  : R V (option (list (cc_list_t bytes))) :=
  match n with
  | O => mret (Some kwargs)
  | S n =>
      let? (key, key_len) := cc_coder_decode_str args else mret None in
      let value := cc_coder_decode_map_next args in
      let args := cc_coder_decode_map_next value in
      r ← on_world (cc_list_add_n kwargs key key_len value (Z.of_nat (length value - length args)));
      match r with
      | None => mret None
      | Some kwargs => decode_kwargs n args kwargs
      end
  end.

(** One object: from its key to the position after its value. *)
Definition deserialize_object (actor : loc) (buffer : bytes) : R V (option bytes) :=
  let? (key, key_len) := cc_coder_decode_str buffer else mret None in
  let buffer := cc_coder_decode_map_next buffer in
  let? (name, name_len) := cc_coder_decode_string_from_map buffer (str "name") else mret None in
  s ← get_;
  match list_get_n (cs_capabilities s) name name_len with
  | None => mret None
  | Some item =>
      capability ← get_cap (li_data item);
      match cap_deserialize (capability_code (cap_code capability)) with
      | None => mret None
      | Some deserialize =>
          ok ← on_world cc_platform_mem_alloc;
          if negb ok then mret None
          else
            l ← on_world fresh_loc;
            s ← get_;
            r ← on_world (cc_list_add_n (cs_objects s) key key_len l 0);
            match r with
            | None => mret None
            | Some objects =>
                modify (set_cs_objects objects) ;;
                put_obj l {| obj_methods := None; obj_state := None; obj_actor := actor;
                             obj_capability := li_data item |} ;;
                let? args := cc_coder_get_value_from_map buffer (str "obj") else mret None in
                kwargs ← (if bool_decide (cc_coder_type_of args = CC_CODER_NIL) then mret (Some [])
                          else let '(n, r) := cc_coder_decode_map args in decode_kwargs (Z.to_nat n) r []);
                match kwargs with
                | None => mret None
                | Some kwargs =>
                    r ← deserialize l kwargs;
                    mret (if bool_decide (r = CC_SUCCESS) then Some (cc_coder_decode_map_next buffer) else None)
                end
            end
      end
  end.

Fixpoint deserialize_objects (n : nat) (actor : loc) (buffer : bytes) : R V cc_result_t :=
  match n with
  | O => mret CC_SUCCESS
  | S n =>
      r ← deserialize_object actor buffer;
      match r with
      | None => mret CC_FAIL
      | Some buffer => deserialize_objects n actor buffer
      end
  end.

Definition cc_calvinsys_deserialize (actor : loc) (buffer : bytes) : R V cc_result_t :=
  let '(n, r) := cc_coder_decode_map buffer in deserialize_objects (Z.to_nat n) actor r.
End calvinsys.
