(* ===== verification/MpyCalvinsys.v ===== *)
(** libmpy/cc_mpy_calvinsys.c and cc_mpy_calvinsys_capability.c: calvinsys as a module
    that Python code imports, and capabilities whose objects are instances of Python
    classes.

    The functions of the module are called by the machine, with objects for arguments:
    an exception goes on to the Python code that called.  The methods of the objects are
    called by calvinsys, and an exception has no handler. *)
From S2P Require Import Prelude CString CText Common MsgPuck Coder Fifo Machine Runtime Mpy MpyActor Calvinsys.

(** [cc_mpy_calvinsys_state_t]. *)
Record cc_mpy_calvinsys_state_t := { cs_class_instance : mp_obj }.

Section arguments.
Context {S V : Type}.

(** [mp_obj_str_get_str]: the text of a string. *)
Definition str_arg (o : mp_obj) : E S bytes :=
  match o with PyStr s => mret (cstr s) | _ => raise TypeError end.
(** [mp_obj_get_int] and the cast to [int]. *)
Definition int_arg `{MV : !MicroPython V} (o : mp_obj) : E S Z :=
  match o with
  | PySmallInt n => mret (i32 n)
  | PyBool b => mret (Z.b2z b)
  | PyInt n => if mp_int_fits n then mret (i32 n) else raise OverflowError
  | _ => raise TypeError
  end.
(** [MP_OBJ_TO_PTR], unchecked, of an actor and of calvinsys. *)
Definition actor_arg (o : mp_obj) : E S loc :=
  match o with PyPtr (CActor l) => mret l | _ => pure_ (ub_ BadCast) end.
Definition calvinsys_arg (o : mp_obj) : E S unit :=
  match o with PyPtr CCalvinsys => mret tt | _ => pure_ (ub_ BadCast) end.
End arguments.

Section calvinsys.
Context {V : Type} `{HP : !Holds V py_heap} `{HS : !Holds V cc_mpy_calvinsys_state_t} `{HC : !Holds V Z}.
Context `{MV : !MicroPython V} `{C : !Code V} `{P : Platform} `{MP : MsgPuck}.

(** ** The module *)

Definition cc_mp_obj_can_write (arg_calvinsys arg_obj : mp_obj) : E (rt V) mp_obj :=
  calvinsys_arg arg_calvinsys ;;
  obj_ref ← str_arg arg_obj;
  can_write ← pure_ (cc_calvinsys_can_write obj_ref);
  mret (PyBool can_write).

Definition cc_mp_obj_write (arg_calvinsys arg_obj arg_data : mp_obj) : E (rt V) mp_obj :=
  calvinsys_arg arg_calvinsys ;;
  obj_ref ← str_arg arg_obj;
  data ← cc_mpy_encode_from_mpy_obj arg_data 0;
  match data with
  | Some (data, _) =>
      r ← pure_ (cc_calvinsys_write obj_ref (Some data));
      mret (PyBool (bool_decide (r = CC_SUCCESS)))
  | None => mret (PyBool false)
  end.

Definition cc_mp_obj_can_read (arg_calvinsys arg_obj : mp_obj) : E (rt V) mp_obj :=
  calvinsys_arg arg_calvinsys ;;
  obj_ref ← str_arg arg_obj;
  can_read ← pure_ (cc_calvinsys_can_read obj_ref);
  mret (PyBool can_read).

Definition cc_mp_obj_read (arg_calvinsys arg_obj : mp_obj) : E (rt V) mp_obj :=
  calvinsys_arg arg_calvinsys ;;
  obj_ref ← str_arg arg_obj;
  '(r, data) ← pure_ (cc_calvinsys_read obj_ref);
  match r, data with
  | CC_SUCCESS, Some data =>
      value ← cc_mpy_decode_to_mpy_obj (Some data);
      mret (default PyNone value)
  | _, _ => mret PyNone
  end.

(** The keyword arguments from here on: the list of the arguments, and whether all of
    them could be encoded.  A key that is a string object is refused, though the message
    is that a string was expected; the machine interns the names of keyword arguments,
    so that they are none and the test, which is left out, passes.  A place that is
    empty has a NULL key; [value_len] goes from one to the next. *)
Fixpoint encode_kwargs (table : list (mp_obj * mp_obj)) (value_len : Z) (list : list (cc_list_t bytes))
  : E (rt V) (bool * Datatypes.list (cc_list_t bytes)) :=
  match table with
  | [] => mret (true, list)
  | (key, value) :: table =>
      if is_null key then pure_ (ub_ NullDeref)
      else
        name ← str_arg key;
        data ← cc_mpy_encode_from_mpy_obj value value_len;
        let? (data, value_len) := data else mret (false, list) in
        r ← pure_ (on_world (cc_list_add_n list name (strlen name) data value_len));
        let? list := r else mret (false, list) in
        encode_kwargs table value_len list
  end.

(** When the object is open, the arguments are freed; those of the capability that were
    added to them were never allocated. *)
Definition cc_mp_calvinsys_open (actor name : mp_obj) (kw_args : list (mp_obj * mp_obj)) : E (rt V) mp_obj :=
  actor ← actor_arg actor;
  name ← str_arg name;
  '(ok, list) ← encode_kwargs kw_args 0 [];
  if negb ok then mret PyNone
  else
    '(obj_ref, kwargs) ← pure_ (cc_calvinsys_open actor name list);
    let? obj_ref := obj_ref else mret PyNone in
    if negb (bool_decide (list = [])) && (length list <? length kwargs)%nat then pure_ (ub_ BadFree)
    else mret (PyStr obj_ref).

Definition cc_mp_calvinsys_close (arg_calvinsys arg_obj : mp_obj) : E (rt V) mp_obj :=
  calvinsys_arg arg_calvinsys ;;
  obj_ref ← str_arg arg_obj;
  pure_ (cc_calvinsys_close obj_ref) ;;
  mret PyNone.

(** ** The methods of an object *)

(** A method of the object, when it is there and bound. *)
Definition obj_method (obj : loc) (name : bytes) : E (rt V) (option (mp_obj * mp_obj)) :=
  state ← pure_ (get_obj_state cc_mpy_calvinsys_state_t obj);
  m ← pure_ (mp_load_method_maybe (cs_class_instance state) name);
  mret (match m with Some (f, Some self) => Some (f, self) | _ => None end).

(** [can_write] and [can_read]. *)
Definition ask_object (obj : loc) (name : bytes) : R V bool :=
  uncaught
    (m ← obj_method obj name;
     match m with
     | Some (f, self) => res ← mp_call f (Some self) [] []; is_true res
     | None => mret false
     end).
Definition cc_mpy_calvinsys_can_write (obj : loc) : R V bool := ask_object obj (str "can_write").
Definition cc_mpy_calvinsys_can_read (obj : loc) : R V bool := ask_object obj (str "can_read").

Definition cc_mpy_calvinsys_write (obj : loc) (data : option bytes) : R V cc_result_t :=
  uncaught
    (m ← obj_method obj (str "write");
     match m with
     | Some (f, self) =>
         value ← cc_mpy_decode_to_mpy_obj data;
         let? value := value else mret CC_FAIL in
         res ← mp_call f (Some self) [] [(PyStr (str "data"), value)];
         ok ← is_true res;
         mret (if (ok : bool) then CC_SUCCESS else CC_FAIL)
     | None => mret CC_FAIL
     end).

(** The data is what was encoded; that of an object of bytes has a size that is not set,
    which the interface of the objects does not show. *)
Definition read_data (res : mp_obj) (mem : bytes) (size : Z) : bytes :=
  match res with PyBytes s => cc_coder_encode_bin [] s (length s) | _ => take (Z.to_nat size) mem end.

(** Without the method the reading succeeds, with no data. *)
Definition cc_mpy_calvinsys_read (obj : loc) : R V (cc_result_t * option bytes) :=
  uncaught
    (m ← obj_method obj (str "read");
     match m with
     | Some (f, self) =>
         res ← mp_call f (Some self) [] [];
         match res with
         | PyNone => mret (CC_FAIL, None)
         | _ =>
             data ← cc_mpy_encode_from_mpy_obj res 0;
             mret (match data with
                   | Some (mem, size) => (CC_SUCCESS, Some (read_data res mem size))
                   | None => (CC_FAIL, None)
                   end)
         end
     | None => mret (CC_SUCCESS, None)
     end).

Definition cc_mpy_calvinsys_close (obj : loc) : R V cc_result_t :=
  uncaught
    (m ← obj_method obj (str "close");
     match m with Some (f, self) => _ ← mp_call f (Some self) [] []; mret tt | None => mret tt end) ;;
  upd_obj obj (set_obj_state None) ;;
  mret CC_SUCCESS.

(** The dictionary that the object answers is written after the key [obj]; anything else
    leaves the buffer as it was.  The buffer has room for 200 bytes an object. *)
Definition cc_mpy_calvinsys_serialize (id : bytes) (obj : loc) (buffer : bytes) : R V (option bytes) :=
  uncaught
    (m ← obj_method obj (str "serialize");
     match m with
     | Some (f, self) =>
         res ← mp_call f (Some self) [] [];
         match res with
         | PyDict l =>
             table ← on_heap (dict_table l);
             let kw_dict_len := mp_obj_dict_len table in
             let w := cc_coder_encode_kv_map buffer (str "obj") (Z.of_nat kw_dict_len) in
             s ← pure_ get_;
             '(ok, (mem, _), end_) ← on_heap (encode_objs (encode_obj (MV:=MV) mpy_stack)
                 (first_entries kw_dict_len table) (length w)
                 (w ++ zeroed (200 * length (cs_objects s))) 0);
             mret (if (ok : bool) then Some (take end_ mem) else None)
         | MP_OBJ_NULL => pure_ (ub_ NullDeref)
         | _ => mret (Some buffer)
         end
     | None => mret (Some buffer)
     end).

Definition python_object : cc_obj_code_t V :=
  {| oc_can_write := Some cc_mpy_calvinsys_can_write; oc_write := Some cc_mpy_calvinsys_write;
     oc_can_read := Some cc_mpy_calvinsys_can_read; oc_read := Some cc_mpy_calvinsys_read;
     oc_close := Some cc_mpy_calvinsys_close; oc_serialize := Some cc_mpy_calvinsys_serialize |}.

(** ** Opening *)

(** The number of the methods above in [object_code]. *)
Context (python_methods : nat).

Definition load_object_class (obj : loc) (type class instance_name : bytes) : E (rt V) unit :=
  module ← mp_import_name type;
  pure_ (mp_store_global type module) ;;
  '(class, _) ← mp_load_method module class;
  o ← pure_ (get_obj obj);
  capability ← pure_ (get_cap (obj_capability o));
  instance ← mp_call class None
    [PyPtr CCalvinsys; PyPtr (CName (cap_name capability)); PyPtr (CActor (obj_actor o))] [];
  pure_ (put_obj_state obj {| cs_class_instance := instance |}) ;;
  pure_ (mp_store_name instance_name instance).

(** When it fails the state is freed and the object keeps its address; the methods that
    read it are set at the end. *)
Definition cc_mpy_calvinsys_object_load (obj : loc) : R V cc_result_t :=
  o ← get_obj obj;
  capability ← get_cap (obj_capability o);
  module ← need NullDeref (cap_python_module capability);
  counter ← next_count 102;
  let instance_name := str "capability_obj" ++ decimal counter in
  ok ← on_world cc_platform_mem_alloc;
  if negb ok then mret CC_FAIL
  else
    put_obj_state obj {| cs_class_instance := MP_OBJ_NULL |} ;;
    ok ← on_world cc_platform_mem_alloc;
    if negb ok then mret CC_FAIL
    else
      let type := str "calvinsys." ++ cstr module in
      match class_name (Z.to_nat (u8 (Z.of_nat (length type)))) type 0 with
      | None => mret CC_FAIL
      | Some class =>
          uncaught (load_object_class obj type class instance_name) ;;
          upd_obj obj (set_obj_methods (Some python_methods)) ;;
          mret CC_SUCCESS
      end.

Definition cc_mpy_calvinsys_object_open (obj : loc) (kwargs : list (cc_list_t bytes)) : R V cc_result_t :=
  r ← cc_mpy_calvinsys_object_load obj;
  if negb (bool_decide (r = CC_SUCCESS)) then mret r
  else
    uncaught
      (state ← pure_ (get_obj_state cc_mpy_calvinsys_state_t obj);
       '(f, self) ← mp_load_method (cs_class_instance state) (str "init");
       match self with
       | None => mret CC_FAIL
       | Some self =>
           args ← keyword_args kwargs;
           let? args := args else mret CC_FAIL in
           _ ← mp_call f (Some self) [] args;
           mret CC_SUCCESS
       end).

(** An attribute that cannot be decoded ends the loop, without a failure. *)
Fixpoint restore_object_attributes (instance : mp_obj) (kwargs : list (cc_list_t bytes)) : E (rt V) unit :=
  match kwargs with
  | [] => mret tt
  | a :: kwargs =>
      value ← cc_mpy_decode_to_mpy_obj (Some (li_data a));
      let? value := value else mret tt in
      mp_store_attr instance (take (li_id_len a) (li_id a)) value ;;
      restore_object_attributes instance kwargs
  end.

Definition cc_mpy_calvinsys_object_deserialize (obj : loc) (kwargs : list (cc_list_t bytes)) : R V cc_result_t :=
  r ← cc_mpy_calvinsys_object_load obj;
  if negb (bool_decide (r = CC_SUCCESS)) then mret r
  else
    state ← get_obj_state cc_mpy_calvinsys_state_t obj;
    uncaught (restore_object_attributes (cs_class_instance state) kwargs) ;;
    mret CC_SUCCESS.

Definition python_capability : cc_capability_code_t V :=
  {| cap_open := Some cc_mpy_calvinsys_object_open; cap_deserialize := Some cc_mpy_calvinsys_object_deserialize |}.
End calvinsys.
