(* ===== verification/Timer.v ===== *)
(** calvinsys/common: the timers of the actors (cc_calvinsys_timer.c), and below them the
    schedules and the attributes. *)
From S2P Require Import Prelude CString Common Json MsgPuck Coder Fifo Machine Transport ProtoSend Port.
From S2P Require Import Proto Runtime Calvinsys.

Record cc_calvinsys_timer_t := {
  tm_timeout : Z;
  tm_armed : bool;
  tm_next_time : Z;
  tm_repeats : bool;
  tm_triggered : bool
}.

(** The rows of the tables of code that are the timers'. *)
Definition timer_code : nat := 1.

Section timer.
Context {V : Type} `{C : !Code V} `{P : Platform} `{MP : MsgPuck} `{H : !Holds V cc_calvinsys_timer_t}.

Definition cc_calvinsys_timer_set (timer : cc_calvinsys_timer_t) (timeout : Z)
  : R V cc_calvinsys_timer_t :=
  now ← on_world cc_node_get_time;
  mret {| tm_timeout := tm_timeout timer; tm_armed := true; tm_next_time := u32 (now + timeout);
          tm_repeats := tm_repeats timer; tm_triggered := tm_triggered timer |}.

(** ** Methods *)

Definition cc_calvinsys_timer_can_read (obj : loc) : R V bool :=
  timer ← get_obj_state cc_calvinsys_timer_t obj; mret (tm_triggered timer).

Definition cc_calvinsys_timer_read (obj : loc) : R V (cc_result_t * option bytes) :=
  timer ← get_obj_state cc_calvinsys_timer_t obj;
  let timer := {| tm_timeout := tm_timeout timer; tm_armed := tm_armed timer;
                  tm_next_time := tm_next_time timer; tm_repeats := tm_repeats timer;
                  tm_triggered := false |} in
  timer ← (if tm_repeats timer then cc_calvinsys_timer_set timer (tm_timeout timer) else mret timer);
  put_obj_state obj timer ;;
  mret (CC_SUCCESS, None).

Definition cc_calvinsys_timer_can_write (obj : loc) : R V bool :=
  timer ← get_obj_state cc_calvinsys_timer_t obj;
  mret (negb (tm_triggered timer || tm_armed timer)).

Definition cc_calvinsys_timer_write (obj : loc) (data : option bytes) : R V cc_result_t :=
  ok ← cc_calvinsys_timer_can_write obj;
  if negb ok then mret CC_FAIL
  else
    data ← need NullDeref data;
    timeout ← lift_outcome (cc_coder_decode_uint data);
    let? timeout := timeout else mret CC_FAIL in
    timer ← get_obj_state cc_calvinsys_timer_t obj;
    timer ← cc_calvinsys_timer_set
              {| tm_timeout := timeout; tm_armed := tm_armed timer; tm_next_time := tm_next_time timer;
                 tm_repeats := tm_repeats timer; tm_triggered := tm_triggered timer |} timeout;
    put_obj_state obj timer ;;
    mret CC_SUCCESS.

(** The state is freed; the caller frees the object. *)
Definition cc_calvinsys_timer_close (obj : loc) : R V cc_result_t :=
  upd_obj obj (set_obj_state None) ;; mret CC_SUCCESS.

Definition encode_timer (timer : cc_calvinsys_timer_t) (buffer : bytes) : bytes :=
  let buffer := cc_coder_encode_kv_map buffer (str "obj") 4 in
  let buffer := if tm_armed timer then cc_coder_encode_kv_uint buffer (str "nexttrigger") (tm_next_time timer)
                else cc_coder_encode_kv_nil buffer (str "nexttrigger") in
  let buffer := cc_coder_encode_kv_bool buffer (str "repeats") (tm_repeats timer) in
  let buffer := cc_coder_encode_kv_uint buffer (str "timeout") (tm_timeout timer) in
  cc_coder_encode_kv_bool buffer (str "triggered") (tm_triggered timer).

Definition cc_calvinsys_timer_serialize (id : bytes) (obj : loc) (buffer : bytes) : R V (option bytes) :=
  timer ← get_obj_state cc_calvinsys_timer_t obj;
  mret (Some (encode_timer timer buffer)).

Definition timer_methods : cc_obj_code_t V :=
  {| oc_can_write := Some cc_calvinsys_timer_can_write; oc_write := Some cc_calvinsys_timer_write;
     oc_can_read := Some cc_calvinsys_timer_can_read; oc_read := Some cc_calvinsys_timer_read;
     oc_close := Some cc_calvinsys_timer_close; oc_serialize := Some cc_calvinsys_timer_serialize |}.

(** ** Opening and restoring *)

(** The state is not initialised until [period] is decoded: until then there is
    none to read. *)
Definition cc_calvinsys_timer_open (obj : loc) (kwargs : list (cc_list_t bytes)) : R V cc_result_t :=
  ok ← on_world cc_platform_mem_alloc;
  if negb ok then mret CC_FAIL
  else
    upd_obj obj (set_obj_methods (Some timer_code)) ;;
    period ← match list_get kwargs (str "period") with
             | None => mret (Some 0)
             | Some item => lift_outcome (cc_coder_decode_uint (li_data item))
             end;
    let? period := period else mret CC_FAIL in
    o ← get_obj obj;
    capability ← get_cap (obj_capability o);
    let timer := {| tm_timeout := period; tm_armed := false; tm_next_time := 0;
                    tm_repeats := streq_n (cap_name capability) (str "sys.timer.repeating") 19;
                    tm_triggered := false |} in
    timer ← (if 0 <? period then cc_calvinsys_timer_set timer (tm_timeout timer) else mret timer);
    put_obj_state obj timer ;;
    mret CC_SUCCESS.

(** The time to trigger at: 0 when it is not a number. *)
Definition decode_nexttrigger (data : bytes) : outcome Z :=
  match cc_coder_type_of data with
  | CC_CODER_FLOAT | CC_CODER_DOUBLE | CC_CODER_UINT =>
      r ← cc_coder_decode_uint data; Ok (default 0 r)
  | _ => Ok 0
  end.

Definition cc_calvinsys_timer_deserialize (obj : loc) (kwargs : list (cc_list_t bytes)) : R V cc_result_t :=
  let? item := list_get kwargs (str "timeout") else mret CC_FAIL in
  timeout ← lift_outcome (cc_coder_decode_uint (li_data item));
  let? timeout := timeout else mret CC_FAIL in
  let? item := list_get kwargs (str "repeats") else mret CC_FAIL in
  let? repeats := cc_coder_decode_bool (li_data item) else mret CC_FAIL in
  let? item := list_get kwargs (str "triggered") else mret CC_FAIL in
  let? triggered := cc_coder_decode_bool (li_data item) else mret CC_FAIL in
  ok ← on_world cc_platform_mem_alloc;
  if negb ok then mret CC_FAIL
  else
    let timer := {| tm_timeout := timeout; tm_armed := false; tm_next_time := 0; tm_repeats := repeats;
                    tm_triggered := triggered |} in
    timer ← match list_get kwargs (str "nexttrigger") with
            | Some item =>
                nexttrigger ← lift_outcome (decode_nexttrigger (li_data item));
                now ← on_world cc_node_get_time;
                cc_calvinsys_timer_set timer (u32 (nexttrigger - now))
            | None => mret timer
            end;
    upd_obj obj (set_obj_methods (Some timer_code)) ;;
    put_obj_state obj timer ;;
    mret CC_SUCCESS.

Definition timer_capability : cc_capability_code_t V :=
  {| cap_open := Some cc_calvinsys_timer_open; cap_deserialize := Some cc_calvinsys_timer_deserialize |}.

Definition cc_calvinsys_timer_create : R V cc_result_t :=
  r ← cc_calvinsys_create_capability
        {| cd_name := str "sys.timer.once"; cd_code := timer_code; cd_init_args := None; cd_python_module := None |};
  if negb (bool_decide (r = CC_SUCCESS)) then mret CC_FAIL
  else
    r ← cc_calvinsys_create_capability
          {| cd_name := str "sys.timer.repeating"; cd_code := timer_code; cd_init_args := None; cd_python_module := None |};
    mret (if bool_decide (r = CC_SUCCESS) then CC_SUCCESS else CC_FAIL).

(** ** The check of the main loop *)

(** One timer: what it becomes and the timeout it asks for. *)
Definition check_timer (now : Z) (timer : cc_calvinsys_timer_t) (timeout : Z) : cc_calvinsys_timer_t * Z :=
  if tm_armed timer then
    if tm_next_time timer <=? now
    then ({| tm_timeout := tm_timeout timer; tm_armed := false; tm_next_time := tm_next_time timer;
             tm_repeats := tm_repeats timer; tm_triggered := true |}, 0)
    else (timer, u32 (tm_next_time timer - now))
  else (timer, timeout).

Fixpoint timers_check (now : Z) (objects : list (cc_list_t loc)) (timeout : Z) : R V Z :=
  match objects with
  | [] => mret timeout
  | item :: objects =>
      obj ← get_obj (li_data item);
      capability ← get_cap (obj_capability obj);
      timeout ← (if streq_n (cap_name capability) (str "sys.timer") 9 then
                   timer ← get_obj_state cc_calvinsys_timer_t (li_data item);
                   let '(timer, timeout) := check_timer now timer timeout in
                   put_obj_state (li_data item) timer ;;
                   mret timeout
                 else mret timeout);
      timers_check now objects timeout
  end.

(** [timeout] in and out. *)
Definition cc_calvinsys_timers_check (timeout : Z) : R V Z :=
  s ← get_;
  now ← on_world cc_node_get_time;
  timers_check now (cs_objects s) timeout.
End timer.

(** * calvinsys/common: the schedules (cc_calvinsys_schedule.c) and the attributes of
    the node (cc_calvinsys_attribute.c) as objects of the actors. *)

Record cc_calvinsys_schedule_t := { sc_triggered : bool }.

Record cc_calvinsys_attribute_t := {
  ca_attribute_name : option bytes;
  ca_attribute : option bytes;
  ca_attribute_len : Z
}.

(** The rows of the tables of code. *)
Definition schedule_code : nat := 2.
Definition attribute_code : nat := 3.

(** ** Schedules *)

Section schedule.
Context {V : Type} `{C : !Code V} `{P : Platform} `{MP : MsgPuck} `{H : !Holds V cc_calvinsys_schedule_t}.

Definition cc_calvinsys_schedule_can_read (obj : loc) : R V bool :=
  schedule ← get_obj_state cc_calvinsys_schedule_t obj; mret (sc_triggered schedule).

Definition cc_calvinsys_schedule_read (obj : loc) : R V (cc_result_t * option bytes) :=
  _ ← get_obj_state cc_calvinsys_schedule_t obj;
  put_obj_state obj {| sc_triggered := false |} ;;
  mret (CC_SUCCESS, None).

Definition cc_calvinsys_schedule_can_write (obj : loc) : R V bool :=
  schedule ← get_obj_state cc_calvinsys_schedule_t obj; mret (negb (sc_triggered schedule)).

Definition cc_calvinsys_schedule_write (obj : loc) (data : option bytes) : R V cc_result_t :=
  _ ← get_obj_state cc_calvinsys_schedule_t obj;
  put_obj_state obj {| sc_triggered := true |} ;;
  mret CC_SUCCESS.

Definition cc_calvinsys_schedule_close (obj : loc) : R V cc_result_t :=
  upd_obj obj (set_obj_state None) ;; mret CC_SUCCESS.

Definition schedule_methods : cc_obj_code_t V :=
  {| oc_can_write := Some cc_calvinsys_schedule_can_write; oc_write := Some cc_calvinsys_schedule_write;
     oc_can_read := Some cc_calvinsys_schedule_can_read; oc_read := Some cc_calvinsys_schedule_read;
     oc_close := Some cc_calvinsys_schedule_close; oc_serialize := None |}.

Definition cc_calvinsys_schedule_open (obj : loc) (kwargs : list (cc_list_t bytes)) : R V cc_result_t :=
  ok ← on_world cc_platform_mem_alloc;
  if negb ok then mret CC_FAIL
  else
    upd_obj obj (set_obj_methods (Some schedule_code)) ;;
    put_obj_state obj {| sc_triggered := true |} ;;
    mret CC_SUCCESS.

(** A schedule is restored by opening it again. *)
Definition schedule_capability : cc_capability_code_t V :=
  {| cap_open := Some cc_calvinsys_schedule_open; cap_deserialize := Some cc_calvinsys_schedule_open |}.

Definition cc_calvinsys_schedule_create : R V cc_result_t :=
  cc_calvinsys_create_capability
    {| cd_name := str "sys.schedule"; cd_code := schedule_code; cd_init_args := None; cd_python_module := None |}.
End schedule.

(** ** Attributes of the node *)

(** The position of the first '.' of a name of [len] characters. *)
Fixpoint find_dot (len : nat) (name : bytes) : option nat :=
  match len with
  | O => None
  | S len => if bool_decide (hd NUL name = Byte.x2e) then Some 0%nat else S <$> find_dot len (tail name)
  end.

Section attribute.
Context {V : Type} `{C : !Code V} `{P : Platform} `{MP : MsgPuck} `{J : Jsmn}.
Context `{H : !Holds V cc_calvinsys_attribute_t}.

(** The value of "category.item" among the indexed public attributes: where it is
    in the text of the attributes, and its length. *)
Definition cc_calvinsys_attribute_get_attribute_value (attributes attribute_name : bytes)
  (attribute_name_len : nat) : outcome (option (bytes * nat)) :=
  let? pos := find_dot attribute_name_len attribute_name else Ok None in
  let? tokens := jsmn_parse (take (strnlen attributes CC_MAX_ATTRIBUTES_LEN) attributes) 40 else Ok None in
  i ← cc_json_get_dict_value attributes tokens 0 (str "indexed_public") 14;
  let? i := i else Ok None in
  i ← cc_json_get_dict_value attributes tokens i attribute_name (Z.of_nat pos);
  let? i := i else Ok None in
  i ← cc_json_get_dict_value attributes tokens i (drop (S pos) attribute_name)
        (Z.of_nat (attribute_name_len - S pos));
  let? i := i else Ok None in
  match tokens !! i with
  | None => Ub BufferOverflow
  | Some token => Ok (Some (drop (Z.to_nat (tok_start token)) attributes,
                            Z.to_nat (tok_end token - tok_start token)))
  end.

(** [node->attributes], which may be NULL; it is read when the name has a dot. *)
Definition find_attribute (attribute_name : bytes) (attribute_name_len : nat)
  : R V (option (bytes * nat)) :=
  node ← on_world get_node;
  match find_dot attribute_name_len attribute_name with
  | None => mret None
  | Some _ =>
      attributes ← need NullDeref (node_attributes node);
      lift_outcome (cc_calvinsys_attribute_get_attribute_value attributes attribute_name attribute_name_len)
  end.

Definition cc_calvinsys_attribute_can_read (obj : loc) : R V bool :=
  state ← get_obj_state cc_calvinsys_attribute_t obj;
  mret (negb (bool_decide (ca_attribute state = None)) || negb (ca_attribute_len state =? 0)).

Definition cc_calvinsys_attribute_read (obj : loc) : R V (cc_result_t * option bytes) :=
  state ← get_obj_state cc_calvinsys_attribute_t obj;
  match ca_attribute state with
  | None => mret (CC_FAIL, None)
  | Some attribute =>
      if ca_attribute_len state =? 0 then mret (CC_FAIL, None)
      else
        ok ← on_world cc_platform_mem_alloc;
        if negb ok then mret (CC_FAIL, None)
        else mret (CC_SUCCESS, Some (take (Z.to_nat (ca_attribute_len state)) attribute))
  end.

Definition cc_calvinsys_attribute_can_write (obj : loc) : R V bool := mret true.

(** The encoded value and its name, each in a buffer of its own. *)
Definition cc_calvinsys_attribute_write (obj : loc) (data : option bytes) : R V cc_result_t :=
  state ← get_obj_state cc_calvinsys_attribute_t obj;
  let attribute_len := match ca_attribute state with Some _ => 0 | None => ca_attribute_len state end in
  put_obj_state obj {| ca_attribute_name := None; ca_attribute := None; ca_attribute_len := attribute_len |} ;;
  data ← need NullDeref data;
  let? (attribute_name, attribute_name_len) := cc_coder_decode_str data else mret CC_FAIL in
  r ← find_attribute attribute_name attribute_name_len;
  let? (attribute, len) := r else mret CC_FAIL in
  ok ← on_world cc_platform_mem_alloc;
  if negb ok then mret CC_FAIL
  else
    let w := cc_coder_encode_str [] attribute len in
    put_obj_state obj {| ca_attribute_name := None; ca_attribute := Some w;
                         ca_attribute_len := Z.of_nat (length w) |} ;;
    ok ← on_world cc_platform_mem_alloc;
    if negb ok then mret CC_FAIL
    else
      put_obj_state obj
        {| ca_attribute_name := Some (strncpy_bytes attribute_name attribute_name_len ++ [NUL]);
           ca_attribute := Some w; ca_attribute_len := Z.of_nat (length w) |} ;;
      mret CC_SUCCESS.

(** The state and its buffers are freed; the caller frees the object. *)
Definition cc_calvinsys_attribute_close (obj : loc) : R V cc_result_t :=
  upd_obj obj (set_obj_state None) ;; mret CC_SUCCESS.

Definition cc_calvinsys_attribute_serialize (id : bytes) (obj : loc) (buffer : bytes) : R V (option bytes) :=
  state ← get_obj_state cc_calvinsys_attribute_t obj;
  let buffer := cc_coder_encode_kv_map buffer (str "obj") 2 in
  let buffer := cc_coder_encode_kv_str buffer (str "type") (str "indexed") 7 in
  name ← need NullDeref (ca_attribute_name state);
  mret (Some (cc_coder_encode_kv_str buffer (str "attribute") name (strlen name))).

Definition attribute_methods : cc_obj_code_t V :=
  {| oc_can_write := Some cc_calvinsys_attribute_can_write; oc_write := Some cc_calvinsys_attribute_write;
     oc_can_read := Some cc_calvinsys_attribute_can_read; oc_read := Some cc_calvinsys_attribute_read;
     oc_close := Some cc_calvinsys_attribute_close; oc_serialize := Some cc_calvinsys_attribute_serialize |}.

Definition cc_calvinsys_attribute_open (obj : loc) (kwargs : list (cc_list_t bytes)) : R V cc_result_t :=
  ok ← on_world cc_platform_mem_alloc;
  if negb ok then mret CC_FAIL
  else
    upd_obj obj (set_obj_methods (Some attribute_code)) ;;
    put_obj_state obj {| ca_attribute_name := None; ca_attribute := None; ca_attribute_len := 0 |} ;;
    mret CC_SUCCESS.

Definition cc_calvinsys_attribute_deserialize (obj : loc) (kwargs : list (cc_list_t bytes)) : R V cc_result_t :=
  let? item := list_get kwargs (str "type") else mret CC_FAIL in
  let? (type, type_len) := cc_coder_decode_str (li_data item) else mret CC_FAIL in
  guard! streq_n type (str "indexed") 7 else mret CC_FAIL in
  let? item := list_get kwargs (str "attribute") else mret CC_FAIL in
  let? (attribute_name, attribute_name_len) := cc_coder_decode_str (li_data item) else mret CC_FAIL in
  r ← find_attribute attribute_name attribute_name_len;
  let? (attribute, len) := r else mret CC_FAIL in
  ok ← on_world cc_platform_mem_alloc;
  guard! (ok : bool) else mret CC_FAIL in
  ok ← on_world cc_platform_mem_alloc;
  guard! (ok : bool) else mret CC_FAIL in
  let w := cc_coder_encode_str [] attribute len in
  ok ← on_world cc_platform_mem_alloc;
  guard! (ok : bool) else mret CC_FAIL in
  upd_obj obj (set_obj_methods (Some attribute_code)) ;;
  put_obj_state obj
    {| ca_attribute_name := Some (strncpy_bytes attribute_name attribute_name_len ++ [NUL]);
       ca_attribute := Some w; ca_attribute_len := Z.of_nat (length w) |} ;;
  mret CC_SUCCESS.

Definition attribute_capability : cc_capability_code_t V :=
  {| cap_open := Some cc_calvinsys_attribute_open;
     cap_deserialize := Some cc_calvinsys_attribute_deserialize |}.

Definition cc_calvinsys_attribute_create : R V cc_result_t :=
  cc_calvinsys_create_capability
    {| cd_name := str "sys.attribute.indexed"; cd_code := attribute_code; cd_init_args := None; cd_python_module := None |}.
End attribute.
