(* ===== verification/ActorLib.v ===== *)
(** The actors of src/actors that work on tokens and on one object: identity, the
    replicated identity, light, button, log and the count timer.

    The states that the [void *] of an actor points to are records; a buffer that
    is handed to a queue or to an attribute list is the queue's or the list's from
    then on. *)
From stdpp Require Import pretty.
From S2P Require Import Prelude CString Common MsgPuck Coder Fifo Machine Transport ProtoSend.
From S2P Require Import Port Proto Runtime Calvinsys.

(** ** What the actors share *)

Section helpers.
Context {V : Type} `{C : !Code V} `{P : Platform} `{MP : MsgPuck}.

(** [actor->in_ports->data] and [actor->out_ports->data]. *)
Definition first_in_port (actor : loc) : R V loc :=
  a ← on_world (get_actor actor); need NullDeref (head (actor_in_ports a)).
Definition first_out_port (actor : loc) : R V loc :=
  a ← on_world (get_actor actor); need NullDeref (head (actor_out_ports a)).

(** The operations of the queue of a port. *)
Definition port_tokens_available (port : loc) (n : Z) : W bool :=
  f ← get_fifo port; mret (cc_fifo_tokens_available f n).
Definition port_slots_available (port : loc) (n : Z) : W bool :=
  f ← get_fifo port; lift_outcome (cc_fifo_slots_available f n).
Definition port_peek (port : loc) : W cc_token_t :=
  f ← get_fifo port; '(f, t) ← cc_fifo_peek f; put_fifo port f ;; mret t.
Definition port_write (port : loc) (data : option loc) (size : Z) : W cc_result_t :=
  f ← get_fifo port; '(r, f) ← on_mem (cc_fifo_write f data size); put_fifo port f ;; mret r.
Definition port_commit_read (port : loc) (free_token : bool) : W unit :=
  f ← get_fifo port; f ← on_mem (cc_fifo_commit_read f free_token); put_fifo port f.
Definition port_cancel_commit (port : loc) : W unit :=
  f ← get_fifo port; put_fifo port (cc_fifo_cancel_commit f).

(** The bytes a token points to. *)
Definition token_data (t : cc_token_t) : W (option bytes) :=
  match tok_value t with Some l => d ← on_mem (mem_read l); mret (Some d) | None => mret None end.

(** A buffer that an object has allocated and filled, as a token. *)
Definition adopt (data : option bytes) : W (option loc) :=
  match data with
  | Some d => l ← fresh_loc; modify (fun w => set_mem (<[l := d]> (w_mem w)) w) ;; mret (Some l)
  | None => mret None
  end.
Definition data_size (data : option bytes) : Z := Z.of_nat (length (default [] data)).

(** Write what was read; a buffer the queue refuses is freed. *)
Definition write_or_free (port : loc) (data : option loc) (size : Z) : W bool :=
  r ← port_write port data size;
  if bool_decide (r = CC_SUCCESS) then mret true
  else match data with Some l => on_mem (mem_free l) | None => mret tt end ;; mret false.

(** [strncpy(ref, s, len); ref[len] = '\0'] into a [char[CC_UUID_BUFFER_SIZE]]. *)
Definition copy_ref (s : bytes) (len : nat) : R V bytes :=
  need BufferOverflow (strncpy_nul (zeroed CC_UUID_BUFFER_SIZE) s len).

Definition keep_ref (id : option bytes) : R V (option bytes) :=
  match id with
  | None => mret None
  | Some id => ref ← copy_ref id (strlen id); mret (Some ref)
  end.

(** Open an object and keep its identifier. *)
Definition open_ref (actor : loc) (name : bytes) (kwargs : list (cc_list_t bytes)) : R V (option bytes) :=
  '(r, _) ← cc_calvinsys_open actor name kwargs; keep_ref r.

(** Open an object with the attributes of the actor itself.  What the platform adds
    to that list is not from the heap, and is freed with the list when the actor has
    been initialised. *)
Definition open_with_attributes (actor : loc) (name : bytes) (attributes : list (cc_list_t bytes))
  : R V (option bytes) :=
  '(r, kwargs) ← cc_calvinsys_open actor name attributes;
  if negb (bool_decide (attributes = [])) && (length attributes <? length kwargs)%nat then ub_ BadFree
  else mret r.

(** An attribute, encoded in a buffer of its own, added to the managed ones. *)
Definition add_value (attributes : list (cc_list_t (option bytes))) (key value : bytes)
  : R V (option (list (cc_list_t (option bytes)))) :=
  ok ← on_world cc_platform_mem_alloc;
  if negb ok then mret None
  else on_world (cc_list_add_n attributes key (length key) (Some value) (Z.of_nat (length value))).
Definition add_ref (attributes : list (cc_list_t (option bytes))) (key ref : bytes)
  : R V (option (list (cc_list_t (option bytes)))) :=
  add_value attributes key (cc_coder_encode_str [] ref (strlen ref)).

(** A capability an actor needs. *)
Definition add_requires (requires : list (cc_list_t unit)) (name : bytes)
  : R V (option (list (cc_list_t unit))) :=
  on_world (cc_list_add_n requires name (length name) tt 0).

(** [free(actor->instance_state)]. *)
Definition free_state (actor : loc) : R V unit :=
  i ← get_instance actor; put_instance actor (set_inst_state None i).

Definition upd_inst_state {S} `{!Holds V S} (actor : loc) (f : S -> S) : R V unit :=
  x ← get_inst_state S actor; put_inst_state actor (f x).

(** A copy of the encoded value of an attribute. *)
Definition copy_value (item : cc_list_t bytes) : R V (option bytes) :=
  ok ← on_world cc_platform_mem_alloc;
  mret (if (ok : bool) then Some (take (Z.to_nat (li_data_len item)) (li_data item)) else None).
End helpers.

(** ** std.Identity *)

Record cc_actor_identity_state_t := { id_dump : bool }.

Section identity.
Context {V : Type} `{C : !Code V} `{P : Platform} `{MP : MsgPuck} `{H : !Holds V cc_actor_identity_state_t}.

Definition cc_actor_identity_init (actor : loc) (managed_attributes : list (cc_list_t bytes)) : R V cc_result_t :=
  let? dump := match list_get managed_attributes (str "dump") with
               | None => Some false
               | Some item => cc_coder_decode_bool (li_data item)
               end else mret CC_FAIL in
  ok ← on_world cc_platform_mem_alloc;
  if negb ok then mret CC_FAIL
  else put_inst_state actor {| id_dump := dump |} ;; mret CC_SUCCESS.

Definition cc_actor_identity_set_state := cc_actor_identity_init.

(** The buffer of the token goes from one queue to the other. *)
Definition identity_step (inport outport : loc) : W bool :=
  ok ← port_tokens_available inport 1;
  if negb ok then mret false
  else
    ok ← port_slots_available outport 1;
    if negb ok then mret false
    else
      token ← port_peek inport;
      r ← port_write outport (tok_value token) (tok_size token);
      if negb (bool_decide (r = CC_SUCCESS)) then port_cancel_commit inport ;; mret false
      else port_commit_read inport false ;; mret true.

Definition cc_actor_identity_fire (actor : loc) : R V bool :=
  inport ← first_in_port actor;
  outport ← first_out_port actor;
  on_world (identity_step inport outport).

Definition cc_actor_identity_get_attributes (actor : loc) : R V (option (list (cc_list_t (option bytes)))) :=
  i ← get_instance actor;
  match inst_state i with
  | None => mret None
  | Some _ =>
      state ← get_inst_state cc_actor_identity_state_t actor;
      l ← add_value [] (str "dump") (cc_coder_encode_bool [] (id_dump state));
      let? l := l else mret None in
      add_value l (str "last") (cc_coder_encode_nil [])
  end.

Definition cc_actor_identity_setup : cc_actor_type_t V :=
  {| at_init := cc_actor_identity_init; at_set_state := cc_actor_identity_set_state;
     at_free_state := Some free_state; at_fire_actor := cc_actor_identity_fire;
     at_get_managed_attributes := Some cc_actor_identity_get_attributes; at_will_migrate := None;
     at_will_end := None; at_did_migrate := None; at_did_replicate := None; at_get_requires := None |}.
End identity.

(** ** test.ReplicaIdentity *)

Record cc_actor_replica_identity_state_t := { ri_dump : bool; ri_index : Z }.

Section replica.
Context {V : Type} `{C : !Code V} `{P : Platform} `{MP : MsgPuck}.
Context `{H : !Holds V cc_actor_replica_identity_state_t}.

Definition cc_actor_replica_identity_init (actor : loc) (managed_attributes : list (cc_list_t bytes))
  : R V cc_result_t :=
  let dump := default false (item ← list_get managed_attributes (str "dump");
                             cc_coder_decode_bool (li_data item)) in
  index ← match list_get managed_attributes (str "index") with
          | None => mret 0
          | Some item => r ← lift_outcome (cc_coder_decode_uint (li_data item)); mret (default 0 r)
          end;
  ok ← on_world cc_platform_mem_alloc;
  if negb ok then mret CC_FAIL
  else put_inst_state actor {| ri_dump := dump; ri_index := index |} ;; mret CC_SUCCESS.

Definition cc_actor_replica_identity_set_state := cc_actor_replica_identity_init.

Definition cc_actor_replica_identity_did_replicate (actor : loc) (index : Z) : R V unit :=
  upd_inst_state actor (fun s => {| ri_dump := ri_dump s; ri_index := index |}).

(** ["%d:%d"]: the numbers are printed as [int]s; at most 23 characters. *)
Definition replica_text (index token_nbr : Z) : bytes :=
  str (pretty (i32 index)) ++ str ":" ++ str (pretty (i32 token_nbr)).

Definition replica_step (inport outport : loc) (index : W Z) : W bool :=
  ok ← port_tokens_available inport 1;
  guard! (ok : bool) else mret false in
  ok ← port_slots_available outport 1;
  guard! (ok : bool) else mret false in
  token ← port_peek inport;
  data ← token_data token;
  data ← need NullDeref data;
  token_nbr ← lift_outcome (cc_coder_decode_uint data);
  let? token_nbr := token_nbr else port_cancel_commit inport ;; mret false in
  index ← index;
  let token_str := replica_text index token_nbr in
  let buffer := cc_coder_encode_str [] token_str (length token_str) in
  l ← alloc_buffer buffer;
  let? l := l else port_cancel_commit inport ;; mret false in
  ok ← write_or_free outport (Some l) (Z.of_nat (length buffer));
  if (ok : bool) then port_commit_read inport false ;; mret true
  else port_cancel_commit inport ;; mret false.

Definition cc_actor_replica_identity_fire (actor : loc) : R V bool :=
  inport ← first_in_port actor;
  outport ← first_out_port actor;
  s ← get_;
  on_world (replica_step inport outport
    (need NullDeref (i ← rt_instances s !! actor; v ← inst_state i; ri_index <$> held v))).

Definition cc_actor_replica_identity_get_attributes (actor : loc)
  : R V (option (list (cc_list_t (option bytes)))) :=
  i ← get_instance actor;
  match inst_state i with
  | None => mret None
  | Some _ =>
      state ← get_inst_state cc_actor_replica_identity_state_t actor;
      l ← add_value [] (str "dump") (cc_coder_encode_bool [] (ri_dump state));
      let? l := l else mret None in
      add_value l (str "index") (cc_coder_encode_uint [] (ri_index state))
  end.

Definition cc_actor_replica_identity_setup : cc_actor_type_t V :=
  {| at_init := cc_actor_replica_identity_init; at_set_state := cc_actor_replica_identity_set_state;
     at_free_state := Some free_state; at_fire_actor := cc_actor_replica_identity_fire;
     at_get_managed_attributes := Some cc_actor_replica_identity_get_attributes;
     at_will_migrate := None; at_will_end := None; at_did_migrate := None;
     at_did_replicate := Some cc_actor_replica_identity_did_replicate; at_get_requires := None |}.
End replica.

(** ** io.Light *)

Record cc_actor_light_state_t := { li_light : bytes }.

Section light.
Context {V : Type} `{C : !Code V} `{P : Platform} `{MP : MsgPuck} `{H : !Holds V cc_actor_light_state_t}.

Definition cc_actor_light_init (actor : loc) (managed_attributes : list (cc_list_t bytes)) : R V cc_result_t :=
  ok ← on_world cc_platform_mem_alloc;
  guard! (ok : bool) else mret CC_FAIL in
  put_inst_state actor {| li_light := zeroed CC_UUID_BUFFER_SIZE |} ;;
  ref ← open_ref actor (str "io.light") [];
  let? ref := ref else mret CC_FAIL in
  put_inst_state actor {| li_light := ref |} ;; mret CC_SUCCESS.

Definition cc_actor_light_set_state (actor : loc) (managed_attributes : list (cc_list_t bytes)) : R V cc_result_t :=
  let? item := list_get managed_attributes (str "light") else mret CC_FAIL in
  ok ← on_world cc_platform_mem_alloc;
  guard! (ok : bool) else mret CC_FAIL in
  put_inst_state actor {| li_light := zeroed CC_UUID_BUFFER_SIZE |} ;;
  let? (obj_ref, obj_ref_len) := cc_coder_decode_str (li_data item) else mret CC_FAIL in
  ref ← copy_ref obj_ref obj_ref_len;
  put_inst_state actor {| li_light := ref |} ;; mret CC_SUCCESS.

Definition cc_actor_light_fire (actor : loc) : R V bool :=
  inport ← first_in_port actor;
  ok ← on_world (port_tokens_available inport 1);
  guard! (ok : bool) else mret false in
  token ← on_world (port_peek inport);
  state ← get_inst_state cc_actor_light_state_t actor;
  data ← on_world (token_data token);
  r ← cc_calvinsys_write (li_light state) data;
  if bool_decide (r = CC_SUCCESS) then on_world (port_commit_read inport true) ;; mret true
  else on_world (port_cancel_commit inport) ;; mret false.

Definition cc_actor_light_get_attributes (actor : loc) : R V (option (list (cc_list_t (option bytes)))) :=
  state ← get_inst_state cc_actor_light_state_t actor;
  add_ref [] (str "light") (li_light state).

Definition cc_actor_light_get_requires (actor : loc) : R V (option (list (cc_list_t unit))) :=
  add_requires [] (str "io.light").

Definition cc_actor_light_setup : cc_actor_type_t V :=
  {| at_init := cc_actor_light_init; at_set_state := cc_actor_light_set_state;
     at_free_state := Some free_state; at_fire_actor := cc_actor_light_fire;
     at_get_managed_attributes := Some cc_actor_light_get_attributes; at_will_migrate := None;
     at_will_end := None; at_did_migrate := None; at_did_replicate := None;
     at_get_requires := Some cc_actor_light_get_requires |}.
End light.

(** ** io.Button *)

Record cc_actor_button_state_t := { bu_button : bytes; bu_text : option bytes; bu_text_len : Z }.

Section button.
Context {V : Type} `{C : !Code V} `{P : Platform} `{MP : MsgPuck} `{H : !Holds V cc_actor_button_state_t}.

Definition button_text (actor : loc) (item : cc_list_t bytes) : R V cc_result_t :=
  text ← copy_value item;
  let? text := text else mret CC_FAIL in
  upd_inst_state actor (fun s =>
    {| bu_button := bu_button s; bu_text := Some text; bu_text_len := li_data_len item |}) ;;
  mret CC_SUCCESS.

Definition cc_actor_button_init (actor : loc) (managed_attributes : list (cc_list_t bytes)) : R V cc_result_t :=
  ok ← on_world cc_platform_mem_alloc;
  guard! (ok : bool) else mret CC_FAIL in
  put_inst_state actor {| bu_button := zeroed CC_UUID_BUFFER_SIZE; bu_text := None; bu_text_len := 0 |} ;;
  ref ← open_ref actor (str "io.button") [];
  let? ref := ref else mret CC_FAIL in
  put_inst_state actor {| bu_button := ref; bu_text := None; bu_text_len := 0 |} ;;
  match list_get managed_attributes (str "text") with
  | Some item => button_text actor item
  | None => mret CC_SUCCESS
  end.

Definition cc_actor_button_set_state (actor : loc) (managed_attributes : list (cc_list_t bytes))
  : R V cc_result_t :=
  ok ← on_world cc_platform_mem_alloc;
  guard! (ok : bool) else mret CC_FAIL in
  put_inst_state actor {| bu_button := zeroed CC_UUID_BUFFER_SIZE; bu_text := None; bu_text_len := 0 |} ;;
  let? item := list_get managed_attributes (str "button") else mret CC_FAIL in
  let? (obj_ref, obj_ref_len) := cc_coder_decode_str (li_data item) else mret CC_FAIL in
  ref ← copy_ref obj_ref obj_ref_len;
  put_inst_state actor {| bu_button := ref; bu_text := None; bu_text_len := 0 |} ;;
  let? item := list_get managed_attributes (str "text") else mret CC_FAIL in
  button_text actor item.

(** What the object [id] has to read goes to the queue of [outport]. *)
Definition read_to_port (id : bytes) (outport : loc) : R V bool :=
  '(r, data) ← cc_calvinsys_read id;
  guard! bool_decide (r = CC_SUCCESS) else mret false in
  l ← on_world (adopt data);
  on_world (write_or_free outport l (data_size data)).

Definition cc_actor_button_fire (actor : loc) : R V bool :=
  outport ← first_out_port actor;
  state ← get_inst_state cc_actor_button_state_t actor;
  ok ← cc_calvinsys_can_read (bu_button state);
  guard! (ok : bool) else mret false in
  ok ← on_world (port_slots_available outport 1);
  guard! (ok : bool) else mret false in
  read_to_port (bu_button state) outport.

(** The text becomes the attribute's, and the actor has none afterwards. *)
Definition cc_actor_button_get_attributes (actor : loc) : R V (option (list (cc_list_t (option bytes)))) :=
  state ← get_inst_state cc_actor_button_state_t actor;
  l ← add_ref [] (str "button") (bu_button state);
  let? l := l else mret None in
  l ← on_world (cc_list_add_n l (str "text") 4 (bu_text state) (bu_text_len state));
  let? l := l else mret None in
  put_inst_state actor {| bu_button := bu_button state; bu_text := None; bu_text_len := 0 |} ;;
  mret (Some l).

Definition cc_actor_button_get_requires (actor : loc) : R V (option (list (cc_list_t unit))) :=
  add_requires [] (str "io.button").

Definition cc_actor_button_setup : cc_actor_type_t V :=
  {| at_init := cc_actor_button_init; at_set_state := cc_actor_button_set_state;
     at_free_state := Some free_state; at_fire_actor := cc_actor_button_fire;
     at_get_managed_attributes := Some cc_actor_button_get_attributes; at_will_migrate := None;
     at_will_end := None; at_did_migrate := None; at_did_replicate := None;
     at_get_requires := Some cc_actor_button_get_requires |}.
End button.

(** ** io.Log *)

Record cc_actor_log_state_t := { lo_loglevel : option bytes; lo_loglevel_size : Z }.

Section log.
Context {V : Type} `{C : !Code V} `{P : Platform} `{MP : MsgPuck} `{H : !Holds V cc_actor_log_state_t}.

Definition log_level (actor : loc) (item : cc_list_t bytes) : R V cc_result_t :=
  level ← copy_value item;
  let? level := level else mret CC_FAIL in
  put_inst_state actor {| lo_loglevel := Some level; lo_loglevel_size := li_data_len item |} ;;
  mret CC_SUCCESS.

(** Without a level its item, which is NULL, is read all the same. *)
Definition cc_actor_log_init (actor : loc) (managed_attributes : list (cc_list_t bytes)) : R V cc_result_t :=
  ok ← on_world cc_platform_mem_alloc;
  guard! (ok : bool) else mret CC_FAIL in
  put_inst_state actor {| lo_loglevel := None; lo_loglevel_size := 0 |} ;;
  let? item := list_get managed_attributes (str "loglevel") else ub_ NullDeref in
  log_level actor item.

Definition cc_actor_log_set_state (actor : loc) (managed_attributes : list (cc_list_t bytes)) : R V cc_result_t :=
  ok ← on_world cc_platform_mem_alloc;
  guard! (ok : bool) else mret CC_FAIL in
  put_inst_state actor {| lo_loglevel := None; lo_loglevel_size := 0 |} ;;
  let? item := list_get managed_attributes (str "loglevel") else mret CC_FAIL in
  log_level actor item.

(** The token is read to be printed. *)
Definition cc_actor_log_fire (actor : loc) : R V bool :=
  inport ← first_in_port actor;
  ok ← on_world (port_tokens_available inport 1);
  guard! (ok : bool) else mret false in
  token ← on_world (port_peek inport);
  data ← on_world (token_data token);
  data ← need NullDeref data;
  on_world (port_commit_read inport true) ;;
  mret true.

Definition cc_actor_log_get_attributes (actor : loc) : R V (option (list (cc_list_t (option bytes)))) :=
  state ← get_inst_state cc_actor_log_state_t actor;
  l ← on_world (cc_list_add_n [] (str "loglevel") 8 (lo_loglevel state) (lo_loglevel_size state));
  let? l := l else mret None in
  put_inst_state actor {| lo_loglevel := None; lo_loglevel_size := lo_loglevel_size state |} ;;
  mret (Some l).

Definition cc_actor_log_get_requires (actor : loc) : R V (option (list (cc_list_t unit))) := mret (Some []).

Definition cc_actor_log_setup : cc_actor_type_t V :=
  {| at_init := cc_actor_log_init; at_set_state := cc_actor_log_set_state;
     at_free_state := Some free_state; at_fire_actor := cc_actor_log_fire;
     at_get_managed_attributes := Some cc_actor_log_get_attributes; at_will_migrate := None;
     at_will_end := None; at_did_migrate := None; at_did_replicate := None;
     at_get_requires := Some cc_actor_log_get_requires |}.
End log.
