(* ===== verification/CountTimer.v ===== *)
(** actors/std/cc_actor_counttimer.c: an actor that writes the numbers from [start]
    to [steps], one each time its timer has triggered.

    Its functions answer [false], which is [CC_SUCCESS], where an argument is not a
    number, and [CC_FAIL], which is [true], where a step fails. *)
From S2P Require Import Prelude CString Common MsgPuck Coder Fifo Machine Transport ProtoSend.
From S2P Require Import Port Proto Runtime Calvinsys ActorLib.

Record cc_actor_counttimer_state_t := {
  ct_timer : bytes;
  ct_sleep : Z;
  ct_start : Z;
  ct_steps : Z;
  ct_count : Z;
  ct_stopped : bool
}.

Definition UINT32_MAX : Z := 4294967295.

Definition ct_zero : cc_actor_counttimer_state_t :=
  {| ct_timer := zeroed CC_UUID_BUFFER_SIZE; ct_sleep := 0; ct_start := 0; ct_steps := 0; ct_count := 0;
     ct_stopped := false |}.
Definition set_ct_timer v s :=
  {| ct_timer := v; ct_sleep := ct_sleep s; ct_start := ct_start s; ct_steps := ct_steps s;
     ct_count := ct_count s; ct_stopped := ct_stopped s |}.
Definition set_ct_sleep v s :=
  {| ct_timer := ct_timer s; ct_sleep := v; ct_start := ct_start s; ct_steps := ct_steps s;
     ct_count := ct_count s; ct_stopped := ct_stopped s |}.
Definition set_ct_start v s :=
  {| ct_timer := ct_timer s; ct_sleep := ct_sleep s; ct_start := v; ct_steps := ct_steps s;
     ct_count := ct_count s; ct_stopped := ct_stopped s |}.
Definition set_ct_steps v s :=
  {| ct_timer := ct_timer s; ct_sleep := ct_sleep s; ct_start := ct_start s; ct_steps := v;
     ct_count := ct_count s; ct_stopped := ct_stopped s |}.
Definition set_ct_count v s :=
  {| ct_timer := ct_timer s; ct_sleep := ct_sleep s; ct_start := ct_start s; ct_steps := ct_steps s;
     ct_count := v; ct_stopped := ct_stopped s |}.
Definition set_ct_stopped v s :=
  {| ct_timer := ct_timer s; ct_sleep := ct_sleep s; ct_start := ct_start s; ct_steps := ct_steps s;
     ct_count := ct_count s; ct_stopped := v |}.

Section counttimer.
Context {V : Type} `{C : !Code V} `{P : Platform} `{MP : MsgPuck} `{H : !Holds V cc_actor_counttimer_state_t}.

Abbreviation get_state := (get_inst_state cc_actor_counttimer_state_t).
Abbreviation upd_state := (upd_inst_state (S:=cc_actor_counttimer_state_t)).

(** An argument: absent, or a number, or neither. *)
Definition uint_arg (attributes : list (cc_list_t bytes)) (key : bytes) : outcome (option (option Z)) :=
  match list_get attributes key with
  | None => Ok None
  | Some item => r ← cc_coder_decode_uint (li_data item); Ok (Some r)
  end.
Definition or_default (d : Z) (a : option (option Z)) : option Z :=
  match a with None => Some d | Some r => r end.

Definition cc_actor_counttimer_init (actor : loc) (managed_attributes : list (cc_list_t bytes))
  : R V cc_result_t :=
  ok ← on_world cc_platform_mem_alloc;
  guard! (ok : bool) else mret CC_FAIL in
  put_inst_state actor ct_zero ;;
  a ← lift_outcome (uint_arg managed_attributes (str "sleep"));
  let? sleep := or_default 1 a else mret CC_SUCCESS in
  upd_state actor (set_ct_sleep sleep) ;;
  a ← lift_outcome (uint_arg managed_attributes (str "start"));
  let? start := or_default 1 a else mret CC_SUCCESS in
  upd_state actor (set_ct_start start) ;;
  a ← lift_outcome (uint_arg managed_attributes (str "steps"));
  let? steps := or_default UINT32_MAX a else mret CC_SUCCESS in
  upd_state actor (set_ct_steps steps) ;;
  state ← get_state actor;
  ok ← on_world cc_platform_mem_alloc;
  guard! (ok : bool) else mret CC_SUCCESS in
  let data := cc_coder_encode_uint [] (ct_sleep state) in
  ok ← on_world cc_platform_mem_alloc;
  guard! (ok : bool) else mret CC_FAIL in
  ref ← open_ref actor (str "sys.timer.once") [list_item (str "period") data (Z.of_nat (length data))];
  let? ref := ref else mret CC_FAIL in
  upd_state actor (set_ct_timer ref) ;;
  a ← lift_outcome (uint_arg managed_attributes (str "count"));
  let? count := or_default start a else mret CC_SUCCESS in
  upd_state actor (set_ct_count count) ;;
  upd_state actor (set_ct_stopped false) ;;
  mret CC_SUCCESS.

Definition cc_actor_counttimer_set_state (actor : loc) (managed_attributes : list (cc_list_t bytes))
  : R V cc_result_t :=
  ok ← on_world cc_platform_mem_alloc;
  guard! (ok : bool) else mret CC_FAIL in
  put_inst_state actor ct_zero ;;
  let? item := list_get managed_attributes (str "timer") else mret CC_FAIL in
  let? (obj_ref, obj_ref_len) := cc_coder_decode_str (li_data item) else mret CC_FAIL in
  ref ← copy_ref obj_ref obj_ref_len;
  upd_state actor (set_ct_timer ref) ;;
  a ← lift_outcome (uint_arg managed_attributes (str "sleep"));
  let? r := a else mret CC_FAIL in
  let? sleep := r else mret CC_SUCCESS in
  upd_state actor (set_ct_sleep sleep) ;;
  a ← lift_outcome (uint_arg managed_attributes (str "start"));
  let? r := a else mret CC_FAIL in
  let? start := r else mret CC_SUCCESS in
  upd_state actor (set_ct_start start) ;;
  a ← lift_outcome (uint_arg managed_attributes (str "steps"));
  let? r := a else mret CC_FAIL in
  let? steps := r else mret CC_SUCCESS in
  upd_state actor (set_ct_steps steps) ;;
  a ← lift_outcome (uint_arg managed_attributes (str "count"));
  let? r := a else mret CC_FAIL in
  let? count := r else mret CC_SUCCESS in
  upd_state actor (set_ct_count count) ;;
  upd_state actor (set_ct_stopped false) ;;
  mret CC_SUCCESS.

(** The count in a buffer of its own, written to the queue. *)
Definition write_count (outport : loc) (count : Z) : W bool :=
  let data := cc_coder_encode_uint [] count in
  l ← alloc_buffer data;
  let? l := l else mret false in
  write_or_free outport (Some l) (Z.of_nat (length data)).

(** Close the timer and open the repeating one: what the step answers when that
    fails. *)
Definition switch_timer (actor : loc) : R V (option bool) :=
  state ← get_state actor;
  cc_calvinsys_close (ct_timer state) ;;
  state ← get_state actor;
  ok ← on_world cc_platform_mem_alloc;
  guard! (ok : bool) else mret (Some false) in
  let data := cc_coder_encode_uint [] (ct_sleep state) in
  ok ← on_world cc_platform_mem_alloc;
  guard! (ok : bool) else mret (Some true) in
  ref ← open_ref actor (str "sys.timer.repeating")
          [list_item (str "period") data (Z.of_nat (length data))];
  let? ref := ref else mret (Some true) in
  upd_state actor (set_ct_timer ref) ;;
  mret None.

Definition cc_actor_counttimer_step_no_periodic (actor : loc) : R V bool :=
  outport ← first_out_port actor;
  state ← get_state actor;
  guard! negb ((u32 (ct_start state + 3) <=? ct_count state) || (ct_steps state <=? ct_count state))
    else mret false in
  ok ← cc_calvinsys_can_read (ct_timer state);
  guard! (ok : bool) else mret false in
  _ ← cc_calvinsys_read (ct_timer state);
  state ← get_state actor;
  r ← (if ct_count state =? u32 (ct_start state + 2) then switch_timer actor else mret None);
  match r with
  | Some b => mret b
  | None =>
      state ← get_state actor;
      ok ← on_world (write_count outport (ct_count state));
      guard! (ok : bool) else mret false in
      ok ← on_world cc_platform_mem_alloc;
      guard! (ok : bool) else mret false in
      _ ← cc_calvinsys_write (ct_timer state) (Some (cc_coder_encode_uint [] (ct_sleep state)));
      upd_state actor (fun s => set_ct_count (u32 (ct_count s + 1)) s) ;;
      mret true
  end.

Definition cc_actor_counttimer_step_periodic (actor : loc) : R V bool :=
  outport ← first_out_port actor;
  state ← get_state actor;
  guard! negb (ct_steps state <=? ct_count state) else mret false in
  ok ← cc_calvinsys_can_read (ct_timer state);
  guard! (ok : bool) else mret false in
  _ ← cc_calvinsys_read (ct_timer state);
  state ← get_state actor;
  ok ← on_world (write_count outport (ct_count state));
  guard! (ok : bool) else mret false in
  upd_state actor (fun s => set_ct_count (u32 (ct_count s + 1)) s) ;;
  mret true.

Definition cc_actor_counttimer_stop (actor : loc) : R V bool :=
  state ← get_state actor;
  if ct_stopped state then mret false
  else if ct_count state =? ct_steps state then
    cc_calvinsys_close (ct_timer state) ;;
    upd_state actor (set_ct_stopped true) ;;
    mret true
  else mret false.

Definition cc_actor_counttimer_fire (actor : loc) : R V bool :=
  a ← cc_actor_counttimer_step_no_periodic actor;
  b ← cc_actor_counttimer_step_periodic actor;
  c ← cc_actor_counttimer_stop actor;
  mret (a || b || c).

Definition cc_actor_counttimer_get_attributes (actor : loc) : R V (option (list (cc_list_t (option bytes)))) :=
  state ← get_state actor;
  l ← add_ref [] (str "timer") (ct_timer state);
  let? l := l else mret None in
  l ← add_value l (str "sleep") (cc_coder_encode_uint [] (ct_sleep state));
  let? l := l else mret None in
  l ← add_value l (str "start") (cc_coder_encode_uint [] (ct_start state));
  let? l := l else mret None in
  l ← add_value l (str "steps") (cc_coder_encode_uint [] (ct_steps state));
  let? l := l else mret None in
  add_value l (str "count") (cc_coder_encode_uint [] (ct_count state)).

Definition cc_actor_counttimer_get_requires (actor : loc) : R V (option (list (cc_list_t unit))) :=
  l ← add_requires [] (str "sys.timer.once");
  let? l := l else mret None in
  add_requires l (str "sys.timer.repeating").

Definition cc_actor_counttimer_setup : cc_actor_type_t V :=
  {| at_init := cc_actor_counttimer_init; at_set_state := cc_actor_counttimer_set_state;
     at_free_state := Some free_state; at_fire_actor := cc_actor_counttimer_fire;
     at_get_managed_attributes := Some cc_actor_counttimer_get_attributes; at_will_migrate := None;
     at_will_end := None; at_did_migrate := None; at_did_replicate := None;
     at_get_requires := Some cc_actor_counttimer_get_requires |}.
End counttimer.
