(* ===== verification/Sensors.v ===== *)
(** The actors of src/actors on a temperature, a level, a CoAP server, a camera and an
    attribute of the node: sensor, media and context. *)
From S2P Require Import Prelude CString Common MsgPuck Coder Fifo Machine Transport ProtoSend.
From S2P Require Import Port Proto Runtime Calvinsys ActorLib.

(** [true], encoded: what starts a measurement. *)
Definition trigger : bytes := [Byte.xc3].

(** ** sensor.Temperature *)

Record cc_actor_temperature_state_t := {
  te_temperature : bytes;
  te_timer : bytes;
  te_period : option bytes;
  te_period_size : Z
}.

Section temperature.
Context {V : Type} `{C : !Code V} `{P : Platform} `{MP : MsgPuck} `{H : !Holds V cc_actor_temperature_state_t}.

Abbreviation upd_state := (upd_inst_state (S:=cc_actor_temperature_state_t)).
Abbreviation get_state := (get_inst_state cc_actor_temperature_state_t).

Definition te_zero : cc_actor_temperature_state_t :=
  {| te_temperature := zeroed CC_UUID_BUFFER_SIZE; te_timer := zeroed CC_UUID_BUFFER_SIZE;
     te_period := None; te_period_size := 0 |}.
Definition set_te_temperature v s :=
  {| te_temperature := v; te_timer := te_timer s; te_period := te_period s; te_period_size := te_period_size s |}.
Definition set_te_timer v s :=
  {| te_temperature := te_temperature s; te_timer := v; te_period := te_period s;
     te_period_size := te_period_size s |}.
Definition set_te_period v n s :=
  {| te_temperature := te_temperature s; te_timer := te_timer s; te_period := v; te_period_size := n |}.

Definition temperature_period (actor : loc) (managed_attributes : list (cc_list_t bytes)) : R V cc_result_t :=
  let? item := list_get managed_attributes (str "period") else mret CC_FAIL in
  period ← copy_value item;
  let? period := period else mret CC_FAIL in
  upd_state actor (set_te_period (Some period) (li_data_len item)) ;;
  mret CC_SUCCESS.

Definition cc_actor_temperature_init (actor : loc) (managed_attributes : list (cc_list_t bytes)) : R V cc_result_t :=
  ok ← on_world cc_platform_mem_alloc;
  guard! (ok : bool) else mret CC_FAIL in
  put_inst_state actor te_zero ;;
  r ← temperature_period actor managed_attributes;
  guard! bool_decide (r = CC_SUCCESS) else mret CC_FAIL in
  ref ← open_ref actor (str "io.temperature") [];
  let? ref := ref else mret CC_FAIL in
  upd_state actor (set_te_temperature ref) ;;
  state ← get_state actor;
  ok ← on_world cc_platform_mem_alloc;
  guard! (ok : bool) else mret CC_FAIL in
  ref ← open_ref actor (str "sys.timer.once")
          [list_item (str "period") (default [] (te_period state)) (te_period_size state)];
  let? ref := ref else mret CC_FAIL in
  upd_state actor (set_te_timer ref) ;;
  mret CC_SUCCESS.

Definition cc_actor_temperature_set_state (actor : loc) (managed_attributes : list (cc_list_t bytes))
  : R V cc_result_t :=
  ok ← on_world cc_platform_mem_alloc;
  guard! (ok : bool) else mret CC_FAIL in
  put_inst_state actor te_zero ;;
  let? item := list_get managed_attributes (str "temperature") else mret CC_FAIL in
  let? (obj_ref, obj_ref_len) := cc_coder_decode_str (li_data item) else mret CC_FAIL in
  ref ← copy_ref obj_ref obj_ref_len;
  upd_state actor (set_te_temperature ref) ;;
  let? item := list_get managed_attributes (str "timer") else mret CC_FAIL in
  let? (obj_ref, obj_ref_len) := cc_coder_decode_str (li_data item) else mret CC_FAIL in
  ref ← copy_ref obj_ref obj_ref_len;
  upd_state actor (set_te_timer ref) ;;
  temperature_period actor managed_attributes.

Definition cc_actor_temperature_read_measurement (actor : loc) : R V bool :=
  state ← get_state actor;
  outport ← first_out_port actor;
  ok ← cc_calvinsys_can_read (te_temperature state);
  guard! (ok : bool) else mret false in
  ok ← cc_calvinsys_can_write (te_timer state);
  guard! (ok : bool) else mret false in
  ok ← on_world (port_slots_available outport 1);
  guard! (ok : bool) else mret false in
  ok ← read_to_port (te_temperature state) outport;
  guard! (ok : bool) else mret false in
  r ← cc_calvinsys_write (te_timer state) (te_period state);
  mret (bool_decide (r = CC_SUCCESS)).

Definition cc_actor_temperature_start_measurement (actor : loc) : R V bool :=
  state ← get_state actor;
  ok ← cc_calvinsys_can_read (te_timer state);
  guard! (ok : bool) else mret false in
  ok ← cc_calvinsys_can_write (te_temperature state);
  guard! (ok : bool) else mret false in
  '(r, _) ← cc_calvinsys_read (te_timer state);
  guard! bool_decide (r = CC_SUCCESS) else mret false in
  r ← cc_calvinsys_write (te_temperature state) (Some trigger);
  mret (bool_decide (r = CC_SUCCESS)).

Definition cc_actor_temperature_fire (actor : loc) : R V bool :=
  a ← cc_actor_temperature_read_measurement actor;
  b ← cc_actor_temperature_start_measurement actor;
  mret (a || b).

(** The period becomes the attribute's, and the actor has none afterwards. *)
Definition cc_actor_temperature_get_attributes (actor : loc) : R V (option (list (cc_list_t (option bytes)))) :=
  state ← get_state actor;
  l ← add_ref [] (str "timer") (te_timer state);
  let? l := l else mret None in
  l ← add_ref l (str "temperature") (te_temperature state);
  let? l := l else mret None in
  l ← on_world (cc_list_add_n l (str "period") 6 (te_period state) (te_period_size state));
  let? l := l else mret None in
  put_inst_state actor (set_te_period None (te_period_size state) state) ;;
  mret (Some l).

Definition cc_actor_temperature_get_requires (actor : loc) : R V (option (list (cc_list_t unit))) :=
  l ← add_requires [] (str "io.temperature");
  let? l := l else mret None in
  add_requires l (str "sys.timer.once").

Definition cc_actor_temperature_setup : cc_actor_type_t V :=
  {| at_init := cc_actor_temperature_init; at_set_state := cc_actor_temperature_set_state;
     at_free_state := Some free_state; at_fire_actor := cc_actor_temperature_fire;
     at_get_managed_attributes := Some cc_actor_temperature_get_attributes; at_will_migrate := None;
     at_will_end := None; at_did_migrate := None; at_did_replicate := None;
     at_get_requires := Some cc_actor_temperature_get_requires |}.
End temperature.

(** ** sensor.TemperatureTagged: the node and the time with every value *)

Record temperature_tagged_state_t := { tt_temperature : bytes; tt_timer : bytes }.

Section tagged.
Context {V : Type} `{C : !Code V} `{P : Platform} `{MP : MsgPuck} `{H : !Holds V temperature_tagged_state_t}.

Definition cc_actor_temperature_tagged_init (actor : loc) (managed_attributes : list (cc_list_t bytes))
  : R V cc_result_t :=
  ok ← on_world cc_platform_mem_alloc;
  guard! (ok : bool) else mret CC_FAIL in
  temperature ← open_ref actor (str "io.temperature") [];
  let? temperature := temperature else mret CC_FAIL in
  id ← open_with_attributes actor (str "sys.timer.once") managed_attributes;
  timer ← keep_ref id;
  let? timer := timer else mret CC_FAIL in
  put_inst_state actor {| tt_temperature := temperature; tt_timer := timer |} ;;
  mret CC_SUCCESS.

(** The reference to an object of the runtime that is kept under [key]. *)
Definition known_ref (managed_attributes : list (cc_list_t bytes)) (key : bytes) : R V (option bytes) :=
  let? item := list_get managed_attributes key else mret None in
  let? (obj_ref, obj_ref_len) := cc_coder_decode_str (li_data item) else mret None in
  s ← get_;
  match list_get_n (cs_objects s) obj_ref obj_ref_len with
  | None => mret None
  | Some _ => ref ← copy_ref obj_ref obj_ref_len; mret (Some ref)
  end.

Definition cc_actor_temperature_tagged_set_state (actor : loc) (managed_attributes : list (cc_list_t bytes))
  : R V cc_result_t :=
  ok ← on_world cc_platform_mem_alloc;
  guard! (ok : bool) else mret CC_FAIL in
  temperature ← known_ref managed_attributes (str "temperature");
  let? temperature := temperature else mret CC_FAIL in
  timer ← known_ref managed_attributes (str "timer");
  let? timer := timer else mret CC_FAIL in
  put_inst_state actor {| tt_temperature := temperature; tt_timer := timer |} ;;
  mret CC_SUCCESS.

(** The buffer of the token has 200 bytes; [true] is written to the timer. *)
Definition cc_actor_temperature_tagged_fire (actor : loc) : R V bool :=
  outport ← first_out_port actor;
  state ← get_inst_state temperature_tagged_state_t actor;
  ok ← cc_calvinsys_can_read (tt_timer state);
  guard! (ok : bool) else mret false in
  ok ← cc_calvinsys_can_read (tt_temperature state);
  guard! (ok : bool) else mret false in
  ok ← on_world (port_slots_available outport 1);
  guard! (ok : bool) else mret false in
  ok ← on_world cc_platform_mem_alloc;
  guard! (ok : bool) else mret false in
  r ← cc_calvinsys_write (tt_timer state) (Some (cc_coder_encode_bool [] true));
  guard! bool_decide (r = CC_SUCCESS) else mret false in
  '(r, data_temp) ← cc_calvinsys_read (tt_temperature state);
  guard! bool_decide (r = CC_SUCCESS) else mret false in
  ok ← on_world cc_platform_mem_alloc;
  guard! (ok : bool) else mret false in
  now ← on_world cc_node_get_time;
  node ← on_world get_node;
  let w := cc_coder_encode_map [] 3 in
  let w := cc_coder_encode_kv_value w (str "value") data_temp (Z.to_nat (data_size data_temp)) in
  let w := cc_coder_encode_kv_str w (str "node_id") (node_id node) (strlen (node_id node)) in
  let w := cc_coder_encode_kv_uint w (str "time") now in
  on_world (in_buffer 200 w) ;;
  l ← on_world (adopt (Some w));
  r ← on_world (port_write outport l (Z.of_nat (length w)));
  mret (bool_decide (r = CC_SUCCESS)).

Definition cc_actor_temperature_tagged_get_attributes (actor : loc)
  : R V (option (list (cc_list_t (option bytes)))) :=
  i ← get_instance actor;
  match inst_state i with
  | None => mret None
  | Some _ =>
      state ← get_inst_state temperature_tagged_state_t actor;
      l ← add_ref [] (str "timer") (tt_timer state);
      let? l := l else mret None in
      add_ref l (str "temperature") (tt_temperature state)
  end.

Definition cc_actor_temperature_tagged_get_requires (actor : loc) : R V (option (list (cc_list_t unit))) :=
  l ← add_requires [] (str "io.temperature");
  let? l := l else mret None in
  add_requires l (str "sys.timer.once").

Definition cc_actor_temperature_tagged_setup : cc_actor_type_t V :=
  {| at_init := cc_actor_temperature_tagged_init; at_set_state := cc_actor_temperature_tagged_set_state;
     at_free_state := Some free_state; at_fire_actor := cc_actor_temperature_tagged_fire;
     at_get_managed_attributes := Some cc_actor_temperature_tagged_get_attributes; at_will_migrate := None;
     at_will_end := None; at_did_migrate := None; at_did_replicate := None;
     at_get_requires := Some cc_actor_temperature_tagged_get_requires |}.
End tagged.

(** ** sensor.SoilMoisture *)

Record cc_actor_soil_moisture_state_t := { so_soilmoisture : bytes; so_timer : bytes }.

Section soil.
Context {V : Type} `{C : !Code V} `{P : Platform} `{MP : MsgPuck} `{H : !Holds V cc_actor_soil_moisture_state_t}.

(** What the allocated [char[CC_UUID_BUFFER_SIZE]] holds before it is written. *)
Variable uninit : bytes.

(** [strncpy(ref, s, strnlen(s, CC_UUID_BUFFER_SIZE))]: the terminator is not copied.
    Without one among them, all the bytes of the buffer are read from [s]. *)
Definition copy_unterminated (s : bytes) : R V bytes :=
  if (length s <? CC_UUID_BUFFER_SIZE)%nat && bool_decide (NUL ∉ s) then ub_ BufferOverflow
  else need BufferOverflow (strncpy uninit s (strnlen s CC_UUID_BUFFER_SIZE)).

(** The identifier of an item has its terminator. *)
Definition open_unterminated (actor : loc) (name : bytes) (kwargs : list (cc_list_t bytes))
  : R V (option bytes) :=
  id ← open_with_attributes actor name kwargs;
  match id with
  | None => mret None
  | Some id => ref ← copy_unterminated (id ++ [NUL]); mret (Some ref)
  end.

Definition cc_actor_soil_moisture_init (actor : loc) (managed_attributes : list (cc_list_t bytes))
  : R V cc_result_t :=
  ok ← on_world cc_platform_mem_alloc;
  guard! (ok : bool) else mret CC_FAIL in
  soilmoisture ← open_unterminated actor (str "io.soilmoisture") [];
  let? soilmoisture := soilmoisture else mret CC_FAIL in
  timer ← open_unterminated actor (str "sys.timer.once") managed_attributes;
  let? timer := timer else mret CC_FAIL in
  put_inst_state actor {| so_soilmoisture := soilmoisture; so_timer := timer |} ;;
  mret CC_SUCCESS.

Definition cc_actor_soil_moisture_set_state (actor : loc) (managed_attributes : list (cc_list_t bytes))
  : R V cc_result_t :=
  ok ← on_world cc_platform_mem_alloc;
  guard! (ok : bool) else mret CC_FAIL in
  let? item := list_get managed_attributes (str "soilmoisture") else mret CC_FAIL in
  let? (obj_ref, _) := cc_coder_decode_str (li_data item) else mret CC_FAIL in
  soilmoisture ← copy_unterminated obj_ref;
  let? item := list_get managed_attributes (str "timer") else mret CC_FAIL in
  let? (obj_ref, _) := cc_coder_decode_str (li_data item) else mret CC_FAIL in
  timer ← copy_unterminated obj_ref;
  put_inst_state actor {| so_soilmoisture := soilmoisture; so_timer := timer |} ;;
  mret CC_SUCCESS.

Definition cc_actor_soil_moisture_fire (actor : loc) : R V bool :=
  outport ← first_out_port actor;
  state ← get_inst_state cc_actor_soil_moisture_state_t actor;
  ok ← cc_calvinsys_can_read (so_timer state);
  guard! (ok : bool) else mret false in
  ok ← cc_calvinsys_can_read (so_soilmoisture state);
  guard! (ok : bool) else mret false in
  ok ← on_world (port_slots_available outport 1);
  guard! (ok : bool) else mret false in
  ok ← on_world cc_platform_mem_alloc;
  guard! (ok : bool) else mret false in
  r ← cc_calvinsys_write (so_timer state) (Some (cc_coder_encode_bool [] true));
  guard! bool_decide (r = CC_SUCCESS) else mret false in
  read_to_port (so_soilmoisture state) outport.

Definition cc_actor_soil_moisture_get_attributes (actor : loc)
  : R V (option (list (cc_list_t (option bytes)))) :=
  i ← get_instance actor;
  match inst_state i with
  | None => mret None
  | Some _ =>
      state ← get_inst_state cc_actor_soil_moisture_state_t actor;
      l ← add_ref [] (str "timer") (so_timer state);
      let? l := l else mret None in
      add_ref l (str "soilmoisture") (so_soilmoisture state)
  end.

Definition cc_actor_soil_moisture_get_requires (actor : loc) : R V (option (list (cc_list_t unit))) :=
  l ← add_requires [] (str "io.soilmoisture");
  let? l := l else mret None in
  add_requires l (str "sys.timer.once").

Definition cc_actor_soil_moisture_setup : cc_actor_type_t V :=
  {| at_init := cc_actor_soil_moisture_init; at_set_state := cc_actor_soil_moisture_set_state;
     at_free_state := Some free_state; at_fire_actor := cc_actor_soil_moisture_fire;
     at_get_managed_attributes := Some cc_actor_soil_moisture_get_attributes; at_will_migrate := None;
     at_will_end := None; at_did_migrate := None; at_did_replicate := None;
     at_get_requires := Some cc_actor_soil_moisture_get_requires |}.
End soil.

(** ** sensor.TriggeredTemperature: one measurement for every token *)

Record cc_actor_triggered_temperature_state_t := { tr_temperature : bytes }.

Section triggered.
Context {V : Type} `{C : !Code V} `{P : Platform} `{MP : MsgPuck}.
Context `{H : !Holds V cc_actor_triggered_temperature_state_t}.

Definition cc_actor_triggered_temperature_init (actor : loc) (managed_attributes : list (cc_list_t bytes))
  : R V cc_result_t :=
  ok ← on_world cc_platform_mem_alloc;
  guard! (ok : bool) else mret CC_FAIL in
  ref ← open_ref actor (str "io.temperature") [];
  let? ref := ref else mret CC_FAIL in
  put_inst_state actor {| tr_temperature := ref |} ;;
  mret CC_SUCCESS.

Definition cc_actor_triggered_temperature_set_state (actor : loc) (managed_attributes : list (cc_list_t bytes))
  : R V cc_result_t :=
  ok ← on_world cc_platform_mem_alloc;
  guard! (ok : bool) else mret CC_FAIL in
  let? item := list_get managed_attributes (str "temperature") else mret CC_FAIL in
  let? (obj_ref, obj_ref_len) := cc_coder_decode_str (li_data item) else mret CC_FAIL in
  ref ← copy_ref obj_ref obj_ref_len;
  put_inst_state actor {| tr_temperature := ref |} ;;
  mret CC_SUCCESS.

Definition cc_actor_triggered_temperature_read_measurement (actor : loc) : R V bool :=
  state ← get_inst_state cc_actor_triggered_temperature_state_t actor;
  port ← first_out_port actor;
  ok ← on_world (port_slots_available port 1);
  guard! (ok : bool) else mret false in
  ok ← cc_calvinsys_can_read (tr_temperature state);
  guard! (ok : bool) else mret false in
  read_to_port (tr_temperature state) port.

Definition cc_actor_triggered_temperature_trigger_measurement (actor : loc) : R V bool :=
  state ← get_inst_state cc_actor_triggered_temperature_state_t actor;
  port ← first_in_port actor;
  ok ← on_world (port_tokens_available port 1);
  guard! (ok : bool) else mret false in
  ok ← cc_calvinsys_can_write (tr_temperature state);
  guard! (ok : bool) else mret false in
  _ ← on_world (port_peek port);
  on_world (port_commit_read port true) ;;
  r ← cc_calvinsys_write (tr_temperature state) (Some trigger);
  mret (bool_decide (r = CC_SUCCESS)).

Definition cc_actor_triggered_temperature_fire (actor : loc) : R V bool :=
  a ← cc_actor_triggered_temperature_read_measurement actor;
  b ← cc_actor_triggered_temperature_trigger_measurement actor;
  mret (a || b).

Definition cc_actor_triggered_temperature_get_attributes (actor : loc)
  : R V (option (list (cc_list_t (option bytes)))) :=
  state ← get_inst_state cc_actor_triggered_temperature_state_t actor;
  add_ref [] (str "temperature") (tr_temperature state).

Definition cc_actor_triggered_temperature_get_requires (actor : loc) : R V (option (list (cc_list_t unit))) :=
  add_requires [] (str "io.temperature").

Definition cc_actor_triggered_temperature_setup : cc_actor_type_t V :=
  {| at_init := cc_actor_triggered_temperature_init;
     at_set_state := cc_actor_triggered_temperature_set_state;
     at_free_state := Some free_state; at_fire_actor := cc_actor_triggered_temperature_fire;
     at_get_managed_attributes := Some cc_actor_triggered_temperature_get_attributes;
     at_will_migrate := None; at_will_end := None; at_did_migrate := None; at_did_replicate := None;
     at_get_requires := Some cc_actor_triggered_temperature_get_requires |}.
End triggered.

(** ** sensor.Accelerometer and sensor.Gyroscope *)

(** [cc_state_t] of both. *)
Record cc_state_t := { lv_level : bytes; lv_period : option bytes; lv_period_size : Z }.

Section level.
Context {V : Type} `{C : !Code V} `{P : Platform} `{MP : MsgPuck} `{H : !Holds V cc_state_t}.

Abbreviation get_state := (get_inst_state cc_state_t).
Abbreviation upd_state := (upd_inst_state (S:=cc_state_t)).

Definition lv_zero : cc_state_t :=
  {| lv_level := zeroed CC_UUID_BUFFER_SIZE; lv_period := None; lv_period_size := 0 |}.
Definition set_lv_level v s := {| lv_level := v; lv_period := lv_period s; lv_period_size := lv_period_size s |}.
Definition set_lv_period v n s := {| lv_level := lv_level s; lv_period := v; lv_period_size := n |}.

(** The object is opened with all the attributes of the actor. *)
Definition level_init (name : bytes) (actor : loc) (attributes : list (cc_list_t bytes)) : R V cc_result_t :=
  let? item := list_get attributes (str "period") else mret CC_FAIL in
  id ← open_with_attributes actor name attributes;
  let? id := id else mret CC_FAIL in
  ok ← on_world cc_platform_mem_alloc;
  guard! (ok : bool) else mret CC_FAIL in
  period ← copy_value item;
  let? period := period else mret CC_FAIL in
  level ← copy_ref id (strlen id);
  put_inst_state actor {| lv_level := level; lv_period := Some period; lv_period_size := li_data_len item |} ;;
  mret CC_SUCCESS.

Definition cc_actor_accelerometer_init := level_init (str "io.accelerometer").
Definition cc_actor_gyroscope_init := level_init (str "io.gyroscope").

Definition cc_actor_accelerometer_set_state (actor : loc) (attributes : list (cc_list_t bytes)) : R V cc_result_t :=
  ok ← on_world cc_platform_mem_alloc;
  guard! (ok : bool) else mret CC_FAIL in
  put_inst_state actor lv_zero ;;
  let? item := list_get attributes (str "level") else mret CC_FAIL in
  let? (obj_ref, obj_ref_len) := cc_coder_decode_str (li_data item) else mret CC_FAIL in
  level ← copy_ref obj_ref obj_ref_len;
  upd_state actor (set_lv_level level) ;;
  let? item := list_get attributes (str "period") else mret CC_FAIL in
  period ← copy_value item;
  let? period := period else mret CC_FAIL in
  upd_state actor (set_lv_period (Some period) (li_data_len item)) ;;
  mret CC_SUCCESS.
Definition cc_actor_gyroscope_set_state := cc_actor_accelerometer_set_state.

(** The state is read as the identifier it begins with. *)
Definition cc_actor_accelerometer_fire (actor : loc) : R V bool :=
  outport ← first_out_port actor;
  state ← get_state actor;
  ok ← cc_calvinsys_can_read (lv_level state);
  guard! (ok : bool) else mret false in
  ok ← on_world (port_slots_available outport 1);
  guard! (ok : bool) else mret false in
  read_to_port (lv_level state) outport.
Definition cc_actor_gyroscope_fire := cc_actor_accelerometer_fire.

(** The period becomes the attribute's. *)
Definition cc_actor_accelerometer_get_attributes (actor : loc)
  : R V (option (list (cc_list_t (option bytes)))) :=
  state ← get_state actor;
  l ← add_ref [] (str "level") (lv_level state);
  let? l := l else mret None in
  l ← on_world (cc_list_add_n l (str "period") 6 (lv_period state) (lv_period_size state));
  let? l := l else mret None in
  put_inst_state actor (set_lv_period None (lv_period_size state) state) ;;
  mret (Some l).
Definition cc_actor_gyroscope_get_attributes := cc_actor_accelerometer_get_attributes.

Definition cc_actor_accelerometer_get_requires (actor : loc) : R V (option (list (cc_list_t unit))) :=
  add_requires [] (str "io.accelerometer").
Definition cc_actor_gyroscope_get_requires (actor : loc) : R V (option (list (cc_list_t unit))) :=
  add_requires [] (str "io.gyroscope").

Definition cc_actor_accelerometer_setup : cc_actor_type_t V :=
  {| at_init := cc_actor_accelerometer_init; at_set_state := cc_actor_accelerometer_set_state;
     at_free_state := Some free_state; at_fire_actor := cc_actor_accelerometer_fire;
     at_get_managed_attributes := Some cc_actor_accelerometer_get_attributes; at_will_migrate := None;
     at_will_end := None; at_did_migrate := None; at_did_replicate := None;
     at_get_requires := Some cc_actor_accelerometer_get_requires |}.
Definition cc_actor_gyroscope_setup : cc_actor_type_t V :=
  {| at_init := cc_actor_gyroscope_init; at_set_state := cc_actor_gyroscope_set_state;
     at_free_state := Some free_state; at_fire_actor := cc_actor_gyroscope_fire;
     at_get_managed_attributes := Some cc_actor_gyroscope_get_attributes; at_will_migrate := None;
     at_will_end := None; at_did_migrate := None; at_did_replicate := None;
     at_get_requires := Some cc_actor_gyroscope_get_requires |}.
End level.

(** ** The CoAP source *)

Record cc_actor_coap_state_t := { co_source : bytes }.

Section coap.
Context {V : Type} `{C : !Code V} `{P : Platform} `{MP : MsgPuck} `{H : !Holds V cc_actor_coap_state_t}.

(** [actor->requires], which an actor has from its type: the capability the CoAP
    client has created for it. *)
Variable requires : bytes.

(** [strchr(requires, '.') + 1]. *)
Fixpoint after_dot (s : bytes) : option bytes :=
  match s with
  | [] => None
  | c :: s => if bool_decide (c = Byte.x2e) then Some s else after_dot s
  end.
Definition coap_name : option bytes := after_dot (cstr requires).

(** A write that is refused is answered [false], which is [CC_SUCCESS]. *)
Definition cc_actor_coap_init (actor : loc) (managed_attributes : list (cc_list_t bytes)) : R V cc_result_t :=
  ok ← on_world cc_platform_mem_alloc;
  guard! (ok : bool) else mret CC_FAIL in
  put_inst_state actor {| co_source := zeroed CC_UUID_BUFFER_SIZE |} ;;
  ref ← open_ref actor requires [];
  let? ref := ref else mret CC_FAIL in
  put_inst_state actor {| co_source := ref |} ;;
  _ ← cc_calvinsys_write ref (Some trigger);
  mret CC_SUCCESS.

Definition cc_actor_coap_set_state (actor : loc) (managed_attributes : list (cc_list_t bytes)) : R V cc_result_t :=
  let? name := coap_name else mret CC_FAIL in
  ok ← on_world cc_platform_mem_alloc;
  guard! (ok : bool) else mret CC_FAIL in
  let? item := list_get managed_attributes name else mret CC_FAIL in
  let? (obj_ref, obj_ref_len) := cc_coder_decode_str (li_data item) else mret CC_FAIL in
  ref ← copy_ref obj_ref obj_ref_len;
  put_inst_state actor {| co_source := ref |} ;;
  r ← cc_calvinsys_write ref (Some trigger);
  mret (if bool_decide (r = CC_SUCCESS) then CC_SUCCESS else CC_FAIL).

Definition cc_actor_coap_read_measurement (actor : loc) : R V bool :=
  state ← get_inst_state cc_actor_coap_state_t actor;
  port ← first_out_port actor;
  ok ← on_world (port_slots_available port 1);
  guard! (ok : bool) else mret false in
  ok ← cc_calvinsys_can_read (co_source state);
  guard! (ok : bool) else mret false in
  read_to_port (co_source state) port.

Definition cc_actor_coap_fire (actor : loc) : R V bool := cc_actor_coap_read_measurement actor.

Definition cc_actor_coap_get_attributes (actor : loc) : R V (option (list (cc_list_t (option bytes)))) :=
  state ← get_inst_state cc_actor_coap_state_t actor;
  let? name := coap_name else mret None in
  add_ref [] name (co_source state).

Definition cc_actor_coap_get_requires (actor : loc) : R V (option (list (cc_list_t unit))) :=
  add_requires [] (cstr requires).

Definition cc_actor_coap_setup : cc_actor_type_t V :=
  {| at_init := cc_actor_coap_init; at_set_state := cc_actor_coap_set_state;
     at_free_state := Some free_state; at_fire_actor := cc_actor_coap_fire;
     at_get_managed_attributes := Some cc_actor_coap_get_attributes; at_will_migrate := None;
     at_will_end := None; at_did_migrate := None; at_did_replicate := None;
     at_get_requires := Some cc_actor_coap_get_requires |}.
End coap.

(** ** media.Camera *)

(** The state is the identifier of the object, in the list of calvinsys. *)
Record camera_state := { cm_obj_ref : bytes }.

Section camera.
Context {V : Type} `{C : !Code V} `{P : Platform} `{MP : MsgPuck} `{H : !Holds V camera_state}.

Definition cc_actor_camera_init (actor : loc) (attributes : list (cc_list_t bytes)) : R V cc_result_t :=
  '(id, _) ← cc_calvinsys_open actor (str "media.camerahandler") [];
  let? id := id else mret CC_FAIL in
  put_inst_state actor {| cm_obj_ref := id |} ;;
  mret CC_SUCCESS.

Definition cc_actor_camera_set_state := cc_actor_camera_init.

(** A token that the camera refuses stays peeked.  The data read from the camera is
    lost when there is no slot for it. *)
Definition camera_fire (actor : loc) (obj_ref : bytes) : R V bool :=
  inport ← first_in_port actor;
  outport ← first_out_port actor;
  ok ← on_world (port_tokens_available inport 1);
  if (ok : bool) then
    _ ← on_world (port_peek inport);
    r ← cc_calvinsys_write obj_ref (Some (str "trigger"));
    if negb (bool_decide (r = CC_SUCCESS)) then mret false
    else on_world (port_commit_read inport false) ;; mret true
  else
    ok ← cc_calvinsys_can_read obj_ref;
    if (ok : bool) then
      '(_, sys_data) ← cc_calvinsys_read obj_ref;
      ok ← on_world (port_slots_available outport 1);
      if (ok : bool) then
        l ← on_world (adopt sys_data);
        r ← on_world (port_write outport l (data_size sys_data));
        mret (bool_decide (r = CC_SUCCESS))
      else mret false
    else mret false.

Definition cc_actor_camera_fire (actor : loc) : R V bool :=
  i ← get_instance actor;
  match inst_state i with
  | None => mret false
  | Some _ => state ← get_inst_state camera_state actor; camera_fire actor (cm_obj_ref state)
  end.

Definition cc_actor_camera_get_requires (actor : loc) : R V (option (list (cc_list_t unit))) :=
  add_requires [] (str "media.camerahandler").

Definition cc_actor_camera_setup : cc_actor_type_t V :=
  {| at_init := cc_actor_camera_init; at_set_state := cc_actor_camera_set_state; at_free_state := None;
     at_fire_actor := cc_actor_camera_fire; at_get_managed_attributes := None; at_will_migrate := None;
     at_will_end := None; at_did_migrate := None; at_did_replicate := None;
     at_get_requires := Some cc_actor_camera_get_requires |}.
End camera.

(** ** context.RegistryAttribute *)

Record cc_actor_registry_state_t := { re_registry : bytes }.

Section registry.
Context {V : Type} `{C : !Code V} `{P : Platform} `{MP : MsgPuck} `{H : !Holds V cc_actor_registry_state_t}.

Definition cc_actor_registry_attribute_init (actor : loc) (managed_attributes : list (cc_list_t bytes))
  : R V cc_result_t :=
  let? item := list_get managed_attributes (str "attribute") else mret CC_FAIL in
  '(obj_ref, _) ← cc_calvinsys_open actor (str "sys.attribute.indexed") [];
  let? obj_ref := obj_ref else mret CC_FAIL in
  r ← cc_calvinsys_write obj_ref (Some (li_data item));
  guard! bool_decide (r = CC_SUCCESS) else mret CC_FAIL in
  ok ← on_world cc_platform_mem_alloc;
  guard! (ok : bool) else mret CC_FAIL in
  ref ← copy_ref obj_ref (strlen obj_ref);
  put_inst_state actor {| re_registry := ref |} ;;
  mret CC_SUCCESS.

Definition cc_actor_registry_attribute_set_state (actor : loc) (managed_attributes : list (cc_list_t bytes))
  : R V cc_result_t :=
  let? item := list_get managed_attributes (str "registry") else mret CC_FAIL in
  let? (obj_ref, obj_ref_len) := cc_coder_decode_str (li_data item) else mret CC_FAIL in
  ok ← on_world cc_platform_mem_alloc;
  guard! (ok : bool) else mret CC_FAIL in
  ref ← copy_ref obj_ref obj_ref_len;
  put_inst_state actor {| re_registry := ref |} ;;
  mret CC_SUCCESS.

(** Without a state the answer is [CC_FAIL], which is [true]. *)
Definition cc_actor_registry_attribute_fire (actor : loc) : R V bool :=
  inport ← first_in_port actor;
  outport ← first_out_port actor;
  i ← get_instance actor;
  match inst_state i with
  | None => mret true
  | Some _ =>
      state ← get_inst_state cc_actor_registry_state_t actor;
      ok ← cc_calvinsys_can_read (re_registry state);
      guard! (ok : bool) else mret false in
      ok ← on_world (port_tokens_available inport 1);
      guard! (ok : bool) else mret false in
      ok ← on_world (port_slots_available outport 1);
      guard! (ok : bool) else mret false in
      '(r, data) ← cc_calvinsys_read (re_registry state);
      guard! bool_decide (r = CC_SUCCESS) else mret false in
      _ ← on_world (port_peek inport);
      l ← on_world (adopt data);
      r ← on_world (port_write outport l (data_size data));
      if bool_decide (r = CC_SUCCESS) then on_world (port_commit_read inport true) ;; mret true
      else on_world (port_cancel_commit inport) ;; mret false
  end.

Definition cc_actor_registry_attribute_get_attributes (actor : loc)
  : R V (option (list (cc_list_t (option bytes)))) :=
  i ← get_instance actor;
  match inst_state i with
  | None => mret None
  | Some _ =>
      state ← get_inst_state cc_actor_registry_state_t actor;
      add_ref [] (str "registry") (re_registry state)
  end.

Definition cc_actor_registry_attribute_get_requires (actor : loc) : R V (option (list (cc_list_t unit))) :=
  add_requires [] (str "sys.attribute.indexed").

Definition cc_actor_registry_attribute_setup : cc_actor_type_t V :=
  {| at_init := cc_actor_registry_attribute_init; at_set_state := cc_actor_registry_attribute_set_state;
     at_free_state := Some free_state; at_fire_actor := cc_actor_registry_attribute_fire;
     at_get_managed_attributes := Some cc_actor_registry_attribute_get_attributes;
     at_will_migrate := None; at_will_end := None; at_did_migrate := None; at_did_replicate := None;
     at_get_requires := Some cc_actor_registry_attribute_get_requires |}.
End registry.
