(* ===== verification/Library.v ===== *)
(** The runtime with the actors and the capabilities of the library: the states
    they keep, and the tables of their code. *)
From S2P Require Import Prelude CString Common Json MsgPuck Coder Fifo Machine Transport ProtoSend.
From S2P Require Import Port Proto Runtime ActorStore Calvinsys Timer ActorLib CountTimer Sensors.

(** ** States *)

(** [D] is what the devices of the platform keep. *)
Inductive lib_state (D : Type) :=
  | S_device (x : D)
  | S_timer (x : cc_calvinsys_timer_t) | S_schedule (x : cc_calvinsys_schedule_t)
  | S_attribute (x : cc_calvinsys_attribute_t)
  | S_identity (x : cc_actor_identity_state_t) | S_replica (x : cc_actor_replica_identity_state_t)
  | S_light (x : cc_actor_light_state_t) | S_button (x : cc_actor_button_state_t)
  | S_log (x : cc_actor_log_state_t) | S_counttimer (x : cc_actor_counttimer_state_t)
  | S_temperature (x : cc_actor_temperature_state_t) | S_tagged (x : temperature_tagged_state_t)
  | S_soil (x : cc_actor_soil_moisture_state_t)
  | S_triggered (x : cc_actor_triggered_temperature_state_t) | S_camera (x : camera_state)
  | S_registry (x : cc_actor_registry_state_t)
  | S_level (x : cc_state_t) | S_coap (x : cc_actor_coap_state_t).
Arguments S_device {D} x.
Arguments S_timer {D} x.
Arguments S_schedule {D} x.
Arguments S_attribute {D} x.
Arguments S_identity {D} x.
Arguments S_replica {D} x.
Arguments S_light {D} x.
Arguments S_button {D} x.
Arguments S_log {D} x.
Arguments S_counttimer {D} x.
Arguments S_temperature {D} x.
Arguments S_tagged {D} x.
Arguments S_soil {D} x.
Arguments S_triggered {D} x.
Arguments S_camera {D} x.
Arguments S_registry {D} x.
Arguments S_level {D} x.
Arguments S_coap {D} x.

#[export, refine] Instance holds_device {D} : Holds (lib_state D) D :=
  {| hold := S_device; held v := match v with S_device x => Some x | _ => None end |}.
Proof. done. Defined.
#[export, refine] Instance holds_timer {D} : Holds (lib_state D) cc_calvinsys_timer_t :=
  {| hold := S_timer; held v := match v with S_timer x => Some x | _ => None end |}.
Proof. done. Defined.
#[export, refine] Instance holds_schedule {D} : Holds (lib_state D) cc_calvinsys_schedule_t :=
  {| hold := S_schedule; held v := match v with S_schedule x => Some x | _ => None end |}.
Proof. done. Defined.
#[export, refine] Instance holds_attribute {D} : Holds (lib_state D) cc_calvinsys_attribute_t :=
  {| hold := S_attribute; held v := match v with S_attribute x => Some x | _ => None end |}.
Proof. done. Defined.
#[export, refine] Instance holds_identity {D} : Holds (lib_state D) cc_actor_identity_state_t :=
  {| hold := S_identity; held v := match v with S_identity x => Some x | _ => None end |}.
Proof. done. Defined.
#[export, refine] Instance holds_replica {D} : Holds (lib_state D) cc_actor_replica_identity_state_t :=
  {| hold := S_replica; held v := match v with S_replica x => Some x | _ => None end |}.
Proof. done. Defined.
#[export, refine] Instance holds_light {D} : Holds (lib_state D) cc_actor_light_state_t :=
  {| hold := S_light; held v := match v with S_light x => Some x | _ => None end |}.
Proof. done. Defined.
#[export, refine] Instance holds_button {D} : Holds (lib_state D) cc_actor_button_state_t :=
  {| hold := S_button; held v := match v with S_button x => Some x | _ => None end |}.
Proof. done. Defined.
#[export, refine] Instance holds_log {D} : Holds (lib_state D) cc_actor_log_state_t :=
  {| hold := S_log; held v := match v with S_log x => Some x | _ => None end |}.
Proof. done. Defined.
#[export, refine] Instance holds_counttimer {D} : Holds (lib_state D) cc_actor_counttimer_state_t :=
  {| hold := S_counttimer; held v := match v with S_counttimer x => Some x | _ => None end |}.
Proof. done. Defined.
#[export, refine] Instance holds_temperature {D} : Holds (lib_state D) cc_actor_temperature_state_t :=
  {| hold := S_temperature; held v := match v with S_temperature x => Some x | _ => None end |}.
Proof. done. Defined.
#[export, refine] Instance holds_tagged {D} : Holds (lib_state D) temperature_tagged_state_t :=
  {| hold := S_tagged; held v := match v with S_tagged x => Some x | _ => None end |}.
Proof. done. Defined.
#[export, refine] Instance holds_soil {D} : Holds (lib_state D) cc_actor_soil_moisture_state_t :=
  {| hold := S_soil; held v := match v with S_soil x => Some x | _ => None end |}.
Proof. done. Defined.
#[export, refine] Instance holds_triggered {D} : Holds (lib_state D) cc_actor_triggered_temperature_state_t :=
  {| hold := S_triggered; held v := match v with S_triggered x => Some x | _ => None end |}.
Proof. done. Defined.
#[export, refine] Instance holds_camera {D} : Holds (lib_state D) camera_state :=
  {| hold := S_camera; held v := match v with S_camera x => Some x | _ => None end |}.
Proof. done. Defined.
#[export, refine] Instance holds_registry {D} : Holds (lib_state D) cc_actor_registry_state_t :=
  {| hold := S_registry; held v := match v with S_registry x => Some x | _ => None end |}.
Proof. done. Defined.

#[export, refine] Instance holds_level {D} : Holds (lib_state D) cc_state_t :=
  {| hold := S_level; held v := match v with S_level x => Some x | _ => None end |}.
Proof. done. Defined.
#[export, refine] Instance holds_coap {D} : Holds (lib_state D) cc_actor_coap_state_t :=
  {| hold := S_coap; held v := match v with S_coap x => Some x | _ => None end |}.
Proof. done. Defined.

(** ** Code *)

(** The devices of the platform (io.light, io.temperature, ...), their capabilities
    and the methods of their objects, numbered from 0. *)
Class Devices (D : Type) := {
  device_capability : nat -> cc_capability_code_t (lib_state D);
  device_object : nat -> cc_obj_code_t (lib_state D)
}.

Section library.
Context {D : Type} `{DV : !Devices D} `{P : Platform} `{MP : MsgPuck} `{J : Jsmn}.

Definition lib_capability (i : nat) : cc_capability_code_t (lib_state D) :=
  if (i =? timer_code)%nat then timer_capability
  else if (i =? schedule_code)%nat then schedule_capability
  else if (i =? attribute_code)%nat then attribute_capability
  else device_capability (i - 4).
Definition lib_object (i : nat) : cc_obj_code_t (lib_state D) :=
  if (i =? timer_code)%nat then timer_methods
  else if (i =? schedule_code)%nat then schedule_methods
  else if (i =? attribute_code)%nat then attribute_methods
  else device_object (i - 4).

(** The code the actors call: no actor of the library creates actors. *)
Definition objects_code : Code (lib_state D) :=
  {| actor_types := []; capability_code := lib_capability; object_code := lib_object;
     python_code := None |}.

(** [CC_C_ACTORS] of cc_config_x86_test.h: the types of cc_config_x86.h and two for
    the tests. *)
Definition lib_types (uninit : bytes) : list cc_actor_builtin_type_t :=
  let C := objects_code in
  [ {| bt_name := str "std.Identity"; bt_setup := Some cc_actor_identity_setup |};
    {| bt_name := str "io.Button"; bt_setup := Some cc_actor_button_setup |};
    {| bt_name := str "io.Light"; bt_setup := Some cc_actor_light_setup |};
    {| bt_name := str "sensor.SoilMoisture"; bt_setup := Some (cc_actor_soil_moisture_setup uninit) |};
    {| bt_name := str "sensor.Temperature"; bt_setup := Some cc_actor_temperature_setup |};
    {| bt_name := str "sensor.TriggeredTemperature"; bt_setup := Some cc_actor_triggered_temperature_setup |};
    {| bt_name := str "sensor.TemperatureTagged"; bt_setup := Some cc_actor_temperature_tagged_setup |};
    {| bt_name := str "context.RegistryAttribute"; bt_setup := Some cc_actor_registry_attribute_setup |};
    {| bt_name := str "std.CountTimer"; bt_setup := Some cc_actor_counttimer_setup |};
    {| bt_name := str "io.Log"; bt_setup := Some cc_actor_log_setup |};
    {| bt_name := str "test.FakeShadow"; bt_setup := Some cc_actor_identity_setup |};
    {| bt_name := str "test.ReplicaIdentity"; bt_setup := Some cc_actor_replica_identity_setup |} ].

(** The code of a runtime whose table of types [cc_actor_store_init] has filled. *)
Definition library_code (types : list (cc_list_t (cc_actor_type_t (lib_state D)))) : Code (lib_state D) :=
  {| actor_types := types; capability_code := lib_capability; object_code := lib_object;
     python_code := None |}.
End library.
