(* ===== verification/X86Devices.v ===== *)
(** runtime/south/platform/x86/calvinsys: the pins and the temperature sensor of the
    x86 platform, which stand for the devices of a board, and the capabilities that
    cc_config_x86.h makes of them. *)
From Stdlib Require Import SpecFloat.
From S2P Require Import Prelude CString CText Common Json MsgPuck Coder Fifo Machine Transport ProtoSend.
From S2P Require Import Port Proto Runtime Socket Calvinsys ActorLib CountTimer Sensors Library.

(** ** State *)

Inductive cc_gpio_direction := CC_GPIO_IN | CC_GPIO_OUT.

Record cc_gpio_state_t := {
  gpio_pin : Z;
  gpio_direction : cc_gpio_direction;
  gpio_value : Z;
  gpio_readings : Z
}.

Record cc_temperature_state_t := { te_can_read : bool; te_value : spec_float }.

(** The states of the devices, the static variable [add] of [cc_temperature_read] and
    the state of the transport. *)
Inductive x86_state :=
  | X_gpio (x : cc_gpio_state_t) | X_temperature (x : cc_temperature_state_t) | X_add (add : bool)
  | X_socket (x : cc_transport_socket_client_t).

#[export, refine] Instance holds_gpio : Holds (lib_state x86_state) cc_gpio_state_t :=
  {| hold x := S_device (X_gpio x); held v := match v with S_device (X_gpio x) => Some x | _ => None end |}.
Proof. done. Defined.
#[export, refine] Instance holds_x86_temperature : Holds (lib_state x86_state) cc_temperature_state_t :=
  {| hold x := S_device (X_temperature x);
     held v := match v with S_device (X_temperature x) => Some x | _ => None end |}.
Proof. done. Defined.
#[export, refine] Instance holds_add : Holds (lib_state x86_state) bool :=
  {| hold x := S_device (X_add x); held v := match v with S_device (X_add x) => Some x | _ => None end |}.
Proof. done. Defined.

#[export, refine] Instance holds_socket : Holds (lib_state x86_state) cc_transport_socket_client_t :=
  {| hold x := S_device (X_socket x); held v := match v with S_device (X_socket x) => Some x | _ => None end |}.
Proof. done. Defined.

(** The rows of the table of code. *)
Definition gpio_code : nat := 4.
Definition temperature_code : nat := 5.
Definition no_code : nat := 6.

Section devices.
Context {V : Type} `{P : Platform} `{MP : MsgPuck}.
Context `{HG : !Holds V cc_gpio_state_t} `{HT : !Holds V cc_temperature_state_t} `{HA : !Holds V bool}.

(** ** cc_test_gpio.c *)

Definition cc_gpio_can_write (obj : loc) : R V bool := mret true.

Definition cc_gpio_write (obj : loc) (data : option bytes) : R V cc_result_t :=
  data ← need NullDeref data;
  value ← lift_outcome (cc_coder_decode_uint data);
  mret (match value with Some _ => CC_SUCCESS | None => CC_FAIL end).

Definition cc_gpio_can_read (obj : loc) : R V bool :=
  state ← get_obj_state cc_gpio_state_t obj; mret (gpio_readings state <? 5).

(** Both branches of the source set the value to 0. *)
Definition cc_gpio_read (obj : loc) : R V (cc_result_t * option bytes) :=
  state ← get_obj_state cc_gpio_state_t obj;
  let value := if gpio_value state =? 1 then 0 else 0 in
  let state := {| gpio_pin := gpio_pin state; gpio_direction := gpio_direction state; gpio_value := value;
                  gpio_readings := gpio_readings state |} in
  put_obj_state obj state ;;
  ok ← on_world cc_platform_mem_alloc;
  guard! (ok : bool) else mret (CC_FAIL, None) in
  put_obj_state obj {| gpio_pin := gpio_pin state; gpio_direction := gpio_direction state;
                       gpio_value := value; gpio_readings := u32 (gpio_readings state + 1) |} ;;
  mret (CC_SUCCESS, Some (cc_coder_encode_uint [] value)).

Definition cc_gpio_close (obj : loc) : R V cc_result_t :=
  upd_obj obj (set_obj_state None) ;; mret CC_SUCCESS.

Definition cc_test_gpio_open (obj : loc) (kwargs : list (cc_list_t bytes)) : R V cc_result_t :=
  o ← get_obj obj;
  capability ← get_cap (obj_capability o);
  init_args ← need NullDeref (cap_init_args capability);
  let? (direction, len) := cc_coder_decode_string_from_map init_args (str "direction") else mret CC_FAIL in
  let? pin := cc_coder_decode_uint_from_map init_args (str "pin") else mret CC_FAIL in
  ok ← on_world cc_platform_mem_alloc;
  guard! (ok : bool) else mret CC_FAIL in
  let direction := if streq_n direction (str "out") len then CC_GPIO_OUT else CC_GPIO_IN in
  upd_obj obj (set_obj_methods (Some gpio_code)) ;;
  put_obj_state obj {| gpio_pin := pin; gpio_direction := direction; gpio_value := 0; gpio_readings := 0 |} ;;
  mret CC_SUCCESS.

Definition gpio_methods : cc_obj_code_t V :=
  {| oc_can_write := Some cc_gpio_can_write; oc_write := Some cc_gpio_write;
     oc_can_read := Some cc_gpio_can_read; oc_read := Some cc_gpio_read;
     oc_close := Some cc_gpio_close; oc_serialize := None |}.

(** ** cc_test_temperature.c *)

Definition cc_temperature_can_read (obj : loc) : R V bool :=
  state ← get_obj_state cc_temperature_state_t obj; mret (te_can_read state).

(** The static variable is true when the program starts. *)
Definition get_add : R V bool :=
  p ← get_platform;
  match ps_statics p !! 0%nat with
  | None => mret true
  | Some v => need BadCast (held v)
  end.
Definition set_add (add : bool) : R V unit :=
  upd_platform (fun p => set_ps_statics (<[0%nat := hold add]> (ps_statics p)) p).

(** The value after a reading, and the direction it is going. *)
Definition next_temperature (add : bool) (value : spec_float) : bool * spec_float :=
  let value := if add then f32_add value (f32 1) else f32_sub value (f32 1) in
  let add := if f32_le (f32 20) value then false else add in
  let add := if f32_le value (f32 10) then true else add in
  (add, value).

Definition cc_temperature_read (obj : loc) : R V (cc_result_t * option bytes) :=
  state ← get_obj_state cc_temperature_state_t obj;
  guard! te_can_read state else mret (CC_FAIL, None) in
  ok ← on_world cc_platform_mem_alloc;
  guard! (ok : bool) else mret (CC_FAIL, None) in
  let data := cc_coder_encode_double [] (double_bits (te_value state)) in
  add ← get_add;
  let (add, value) := next_temperature add (te_value state) in
  set_add add ;;
  put_obj_state obj {| te_can_read := false; te_value := value |} ;;
  mret (CC_SUCCESS, Some data).

Definition cc_temperature_can_write (obj : loc) : R V bool := mret true.

Definition cc_temperature_write (obj : loc) (data : option bytes) : R V cc_result_t :=
  state ← get_obj_state cc_temperature_state_t obj;
  data ← need NullDeref data;
  let? can_read := cc_coder_decode_bool data else mret CC_FAIL in
  put_obj_state obj {| te_can_read := can_read; te_value := te_value state |} ;;
  mret CC_SUCCESS.

Definition cc_temperature_close (obj : loc) : R V cc_result_t :=
  upd_obj obj (set_obj_state None) ;; mret CC_SUCCESS.

Definition cc_test_temperature_open (obj : loc) (kwargs : list (cc_list_t bytes)) : R V cc_result_t :=
  ok ← on_world cc_platform_mem_alloc;
  guard! (ok : bool) else mret CC_FAIL in
  upd_obj obj (set_obj_methods (Some temperature_code)) ;;
  put_obj_state obj {| te_can_read := false; te_value := f32_15_5 |} ;;
  mret CC_SUCCESS.

Definition temperature_methods : cc_obj_code_t V :=
  {| oc_can_write := Some cc_temperature_can_write; oc_write := Some cc_temperature_write;
     oc_can_read := Some cc_temperature_can_read; oc_read := Some cc_temperature_read;
     oc_close := Some cc_temperature_close; oc_serialize := None |}.

Definition gpio_capability : cc_capability_code_t V :=
  {| cap_open := Some cc_test_gpio_open; cap_deserialize := Some cc_test_gpio_open |}.
Definition temperature_capability : cc_capability_code_t V :=
  {| cap_open := Some cc_test_temperature_open; cap_deserialize := Some cc_test_temperature_open |}.
End devices.

(** ** The configuration *)

Definition no_methods {V} : cc_obj_code_t V :=
  {| oc_can_write := None; oc_write := None; oc_can_read := None; oc_read := None; oc_close := None;
     oc_serialize := None |}.
Definition no_capability {V} : cc_capability_code_t V := {| cap_open := None; cap_deserialize := None |}.

(** The devices of the library are numbered from [gpio_code]. *)
#[export] Instance x86_devices `{P : Platform} `{MP : MsgPuck} : Devices x86_state := {
  device_capability i :=
    match i with 0%nat => gpio_capability | 1%nat => temperature_capability | _ => no_capability end;
  device_object i := match i with 0%nat => gpio_methods | 1%nat => temperature_methods | _ => no_methods end
}.

(** The arguments of a pin, as the literals of the configuration have them. *)
Definition light_args : bytes :=
  [Byte.x82; Byte.xa9] ++ str "direction" ++ [Byte.xa3] ++ str "out" ++ [Byte.xa3] ++ str "pin" ++ [Byte.x00].
Definition button_args : bytes :=
  [Byte.x82; Byte.xa9] ++ str "direction" ++ [Byte.xa2] ++ str "in" ++ [Byte.xa3] ++ str "pin" ++ [Byte.x01].

(** [CC_CAPABILITIES] of cc_config_x86_test.h. *)
Definition x86_capabilities : list cap_desc :=
  [ {| cd_name := str "io.temperature"; cd_code := temperature_code; cd_init_args := None; cd_python_module := None |};
    {| cd_name := str "io.light"; cd_code := gpio_code; cd_init_args := Some light_args; cd_python_module := None |};
    {| cd_name := str "io.button"; cd_code := gpio_code; cd_init_args := Some button_args; cd_python_module := None |};
    {| cd_name := str "mock.shadow"; cd_code := no_code; cd_init_args := None; cd_python_module := None |} ].
