(* ===== verification/Coap.v ===== *)
(** runtime/south/platform/x86/calvinsys/cc_libcoap_client.c: a capability that observes
    a resource with CoAP, and the actors and capabilities that the arguments of the
    platform add to a runtime, in the configuration of cc_config_x86_coap.h.

    libcoap, a library the repository does not contain, is the class [LibCoap]; the
    resolver and [fcntl] are the class [Resolver].  The model reads of a PDU only what
    the source reads. *)
From S2P Require Import Prelude CString CText Common Json MsgPuck Coder Fifo Machine Transport ProtoSend.
From S2P Require Import Port Proto Runtime Socket Calvinsys ActorLib CountTimer Sensors Library.

Record coap_uri_t := { uri_host : bytes; uri_port : Z; uri_path : bytes }.

Class LibCoap := {
  COAP_MESSAGE_CON : Z; COAP_MESSAGE_ACK : Z; COAP_REQUEST_GET : Z; COAP_DEFAULT_MTU : Z;
  COAP_OPTION_OBSERVE : Z; COAP_OPTION_URI_PORT : Z; COAP_OPTION_URI_PATH : Z;
  COAP_OPTION_CONTENT_FORMAT : Z; COAP_OPTION_ACCEPT : Z;
  COAP_OBSERVE_ESTABLISH : Z; COAP_OBSERVE_CANCEL : Z; COAP_MEDIATYPE_TEXT_PLAIN : Z;
  COAP_DEFAULT_PORT : Z;
  coap_pdu_t : Type;
  coap_pdu_init : Z -> Z -> Z -> Z -> option coap_pdu_t;      (* type, code, tid, size *)
  coap_pdu_encode_header : coap_pdu_t -> option coap_pdu_t;
  coap_add_option : coap_pdu_t -> Z -> bytes -> coap_pdu_t;
  coap_encode_var_safe : Z -> bytes;
  coap_split_path : bytes -> list bytes;                      (* the values of the options *)
  coap_pdu_wire : coap_pdu_t -> bytes;                        (* from the header on *)
  coap_pdu_parse : bytes -> coap_pdu_t -> option coap_pdu_t;
  coap_pdu_code : coap_pdu_t -> Z;
  coap_pdu_type : coap_pdu_t -> Z;
  coap_pdu_tid : coap_pdu_t -> Z;
  COAP_RESPONSE_CLASS : Z -> Z;
  coap_get_data : coap_pdu_t -> option bytes;
  coap_split_uri : bytes -> option coap_uri_t
}.

Class Resolver := {
  os_getaddrinfo : nat -> bytes -> bytes -> option (list bytes);   (* IPv4 datagram addresses *)
  os_fcntl : nat -> bool
}.

Record cc_coap_state_t := {
  coap_fd : Z;
  coap_uri : coap_uri_t;
  coap_message_id : Z    (* uint16_t *)
}.

Definition coap_code : nat := 4.

Section coap.
Context {V : Type} `{P : Platform} `{MP : MsgPuck} `{J : Jsmn} `{SK : Sockets} `{LC : LibCoap} `{RS : Resolver}.
Context `{HC : !Holds V cc_coap_state_t} `{HA : !Holds V cc_actor_coap_state_t}.

(** ** Messages *)

Definition send_wire (fd : Z) (pdu : coap_pdu_t) : R V cc_result_t :=
  n ← os_tick; mret (if os_send n (coap_pdu_wire pdu) <=? 0 then CC_FAIL else CC_SUCCESS).

(** The options of a request that starts or ends an observation. *)
Definition observe_request (uri : coap_uri_t) (start : bool) (request : coap_pdu_t) : coap_pdu_t :=
  let r := coap_add_option request COAP_OPTION_OBSERVE
             (coap_encode_var_safe (if start then COAP_OBSERVE_ESTABLISH else COAP_OBSERVE_CANCEL)) in
  let r := if uri_port uri =? COAP_DEFAULT_PORT then r
           else coap_add_option r COAP_OPTION_URI_PORT (coap_encode_var_safe (uri_port uri)) in
  let r := if (length (uri_path uri) =? 0)%nat then r
           else foldl (fun r segment => coap_add_option r COAP_OPTION_URI_PATH segment) r
                      (coap_split_path (uri_path uri)) in
  let r := coap_add_option r COAP_OPTION_CONTENT_FORMAT (coap_encode_var_safe COAP_MEDIATYPE_TEXT_PLAIN) in
  coap_add_option r COAP_OPTION_ACCEPT [].

Definition cc_coap_send_pdu (obj : loc) (start : bool) : R V cc_result_t :=
  state ← get_obj_state cc_coap_state_t obj;
  put_obj_state obj {| coap_fd := coap_fd state; coap_uri := coap_uri state;
                       coap_message_id := u16 (coap_message_id state + 1) |} ;;
  let? request := coap_pdu_init COAP_MESSAGE_CON COAP_REQUEST_GET (coap_message_id state) COAP_DEFAULT_MTU
    else mret CC_FAIL in
  let? request := coap_pdu_encode_header request else mret CC_FAIL in
  send_wire (coap_fd state) (observe_request (coap_uri state) start request).

Definition cc_coap_send_ack (fd : Z) (request : coap_pdu_t) : R V cc_result_t :=
  let? response := coap_pdu_init COAP_MESSAGE_ACK 0 (coap_pdu_tid request) 0 else mret CC_FAIL in
  let? response := coap_pdu_encode_header response else mret CC_FAIL in
  send_wire fd response.

(** ** Methods *)

Definition cc_coap_can_read (obj : loc) : R V bool :=
  state ← get_obj_state cc_coap_state_t obj;
  o ← get_obj obj;
  _ ← get_cap (obj_capability o);
  p ← get_platform;
  mret (bool_decide (coap_fd state ∈ ps_ready p)).

(** The payload, encoded as a string. *)
Definition coap_payload (result : cc_result_t) (pdu : coap_pdu_t) : R V (cc_result_t * option bytes) :=
  match coap_get_data pdu with
  | Some payload =>
      ok ← on_world cc_platform_mem_alloc;
      mret (if (ok : bool) then (result, Some (cc_coder_encode_str [] payload (length payload)))
            else (CC_FAIL, None))
  | None => mret (CC_FAIL, None)
  end.

Definition cc_coap_read (obj : loc) : R V (cc_result_t * option bytes) :=
  state ← get_obj_state cc_coap_state_t obj;
  n ← os_tick;
  let? data := os_recv n else mret (CC_FAIL, None) in
  let buffer := take 512 data in
  upd_platform (fun p => set_ps_ready (ps_ready p ∖ {[coap_fd state]}) p) ;;
  let? pdu := coap_pdu_init 0 0 0 (Z.of_nat (length buffer) - 4) else mret (CC_FAIL, None) in
  let? pdu := coap_pdu_parse buffer pdu else mret (CC_FAIL, None) in
  let result := if COAP_RESPONSE_CLASS (coap_pdu_code pdu) =? 2 then CC_SUCCESS else CC_FAIL in
  (if coap_pdu_type pdu =? COAP_MESSAGE_CON
   then _ ← cc_coap_send_ack (coap_fd state) pdu; mret tt else mret tt) ;;
  coap_payload result pdu.

Definition cc_coap_can_write (obj : loc) : R V bool := mret true.

Definition cc_coap_write (obj : loc) (data : option bytes) : R V cc_result_t := cc_coap_send_pdu obj true.

(** [for (i = 0; ...) if (fds[i] == fd) { fds[i] = v; break; }]. *)
Fixpoint replace_fd (fds : list Z) (fd v : Z) : option (list Z) :=
  match fds with
  | [] => None
  | x :: fds => if x =? fd then Some (v :: fds) else cons x <$> replace_fd fds fd v
  end.

Definition cc_coap_close (obj : loc) : R V cc_result_t :=
  state ← get_obj_state cc_coap_state_t obj;
  o ← get_obj obj;
  _ ← get_cap (obj_capability o);
  upd_platform (fun p => set_ps_fds (default (ps_fds p) (replace_fd (ps_fds p) (coap_fd state) (-1))) p) ;;
  _ ← cc_coap_send_pdu obj false;
  close_fd (coap_fd state) ;;
  upd_obj obj (set_obj_state None) ;;
  mret CC_SUCCESS.

(** ** Opening *)

(** The first address that a datagram socket connects to. *)
Fixpoint connect_any_address (addresses : list bytes) (port : Z) : R V (option Z) :=
  match addresses with
  | [] => mret None
  | address :: addresses =>
      fd ← open_socket;
      if fd =? -1 then connect_any_address addresses port
      else
        n ← os_tick;
        if os_connect n address port then mret (Some fd)
        else close_fd fd ;; connect_any_address addresses port
  end.

(** The connected descriptor, which does not block. *)
Definition cc_coap_setup (ip port : bytes) (port_nbr : Z) : R V (option Z) :=
  n ← os_tick;
  let? addresses := os_getaddrinfo n ip port else mret None in
  r ← connect_any_address addresses port_nbr;
  let? fd := r else mret None in
  n ← os_tick;
  if negb (os_fcntl n) then close_fd fd ;; mret None
  else
    n ← os_tick;
    if negb (os_fcntl n) then close_fd fd ;; mret None else mret (Some fd).

(** The host is copied to an array of 40 bytes. *)
Definition cc_coap_init (init_args : bytes) : R V (option cc_coap_state_t) :=
  let? (uri, len) := cc_coder_decode_string_from_map init_args (str "uri") else mret None in
  let? u := coap_split_uri (take len uri) else mret None in
  let host := uri_host u in
  if (40 <=? length host)%nat then ub_ BufferOverflow
  else
    r ← cc_coap_setup (cstr host) (decimal (uri_port u)) (uri_port u);
    let? fd := r else mret None in
    mret (Some {| coap_fd := fd; coap_uri := u; coap_message_id := 0 |}).

Definition cc_calvinsys_coap_open (obj : loc) (kwargs : list (cc_list_t bytes)) : R V cc_result_t :=
  o ← get_obj obj;
  capability ← get_cap (obj_capability o);
  p ← get_platform;
  let? _ := replace_fd (ps_fds p) (-1) (-1) else mret CC_FAIL in
  ok ← on_world cc_platform_mem_alloc;
  guard! (ok : bool) else mret CC_FAIL in
  init_args ← need NullDeref (cap_init_args capability);
  r ← cc_coap_init init_args;
  let? state := r else mret CC_FAIL in
  upd_obj obj (set_obj_methods (Some coap_code)) ;;
  put_obj_state obj state ;;
  upd_platform (fun p => set_ps_fds (default (ps_fds p) (replace_fd (ps_fds p) (-1) (coap_fd state))) p) ;;
  mret CC_SUCCESS.

Definition coap_methods : cc_obj_code_t V :=
  {| oc_can_write := Some cc_coap_can_write; oc_write := Some cc_coap_write;
     oc_can_read := Some cc_coap_can_read; oc_read := Some cc_coap_read;
     oc_close := Some cc_coap_close; oc_serialize := None |}.
Definition coap_capability : cc_capability_code_t V :=
  {| cap_open := Some cc_calvinsys_coap_open; cap_deserialize := Some cc_calvinsys_coap_open |}.

(** ** The arguments of the platform *)

(** The text of a token. *)
Definition token_text (args : bytes) (t : jsmntok_t) : bytes :=
  strncpy_bytes (drop (Z.to_nat (tok_start t)) args) (Z.to_nat (tok_end t - tok_start t)).
(** [name], an array of 100 bytes. *)
Definition token_name (args : bytes) (t : jsmntok_t) : R V bytes :=
  let text := token_text args t in
  if (length text <? 100)%nat then mret text else ub_ BufferOverflow.

(** The actors from token [j] on; where a type cannot be added an array of the stack is
    freed. *)
Fixpoint add_coap_actors (setup : bytes -> option (cc_actor_type_t V)) (n j : nat) (args : bytes)
  (tokens : list jsmntok_t) (types : list (cc_list_t (cc_actor_type_t V)))
  : R V (cc_result_t * list (cc_list_t (cc_actor_type_t V))) :=
  match n with
  | O => mret (CC_SUCCESS, types)
  | S n =>
      ok ← on_world cc_platform_mem_alloc;
      guard! (ok : bool) else mret (CC_FAIL, types) in
      t ← need BufferOverflow (tokens !! (j + 1)%nat);
      name ← token_name args t;
      t ← need BufferOverflow (tokens !! (j + 2)%nat);
      let requires := token_text args t in
      let? type := setup requires else mret (CC_FAIL, types) in
      ok ← on_world cc_platform_mem_alloc;
      guard! (ok : bool) else mret (CC_FAIL, types) in
      r ← on_world (cc_list_add_n types (cstr name) (strlen name) type 8);
      match r with
      | None => ub_ BadFree
      | Some types => add_coap_actors setup n (j + 2) args tokens types
      end
  end.

Fixpoint add_coap_capabilities (n j : nat) (args : bytes) (tokens : list jsmntok_t) : R V cc_result_t :=
  match n with
  | O => mret CC_SUCCESS
  | S n =>
      t ← need BufferOverflow (tokens !! (j + 1)%nat);
      name ← token_name args t;
      t ← need BufferOverflow (tokens !! (j + 2)%nat);
      ok ← on_world cc_platform_mem_alloc;
      guard! (ok : bool) else mret CC_FAIL in
      let uri := drop (Z.to_nat (tok_start t)) args in
      let len := Z.to_nat (tok_end t - tok_start t) in
      let init_args := cc_coder_encode_kv_str (cc_coder_encode_map [] 1) (str "uri") uri len in
      r ← cc_calvinsys_create_capability
            {| cd_name := cstr name; cd_code := coap_code; cd_init_args := Some init_args; cd_python_module := None |};
      if bool_decide (r = CC_SUCCESS) then add_coap_capabilities n (j + 2) args tokens else mret CC_FAIL
  end.

(** The types of actors afterwards. *)
Definition cc_libcoap_create (args : bytes) (types : list (cc_list_t (cc_actor_type_t V)))
  (setup : bytes -> option (cc_actor_type_t V)) : R V (cc_result_t * list (cc_list_t (cc_actor_type_t V))) :=
  let? tokens := jsmn_parse args 128 else mret (CC_FAIL, types) in
  match tokens with
  | [] => mret (CC_FAIL, types)
  | t :: _ =>
      if negb (bool_decide (tok_type t = JSMN_OBJECT)) then mret (CC_FAIL, types)
      else
        obj_coap ← lift_outcome (cc_json_get_dict_value args tokens 0 (str "coap") 4);
        let? obj_coap := obj_coap else mret (CC_FAIL, types) in
        obj_actors ← lift_outcome (cc_json_get_dict_value args tokens obj_coap (str "actors") 6);
        let? obj_actors := obj_actors else mret (CC_FAIL, types) in
        t ← need BufferOverflow (tokens !! obj_actors);
        '(r, types) ← add_coap_actors setup (tok_children t) obj_actors args tokens types;
        guard! bool_decide (r = CC_SUCCESS) else mret (CC_FAIL, types) in
        obj_capabilities ← lift_outcome (cc_json_get_dict_value args tokens obj_coap (str "capabilities") 12);
        let? obj_capabilities := obj_capabilities else mret (CC_FAIL, types) in
        t ← need BufferOverflow (tokens !! obj_capabilities);
        r ← add_coap_capabilities (tok_children t) obj_capabilities args tokens;
        mret (r, types)
  end.
End coap.

(** ** The configuration: the CoAP client is its only device *)

Inductive coap_device := C_coap (x : cc_coap_state_t) | C_socket (x : cc_transport_socket_client_t).

#[export, refine] Instance holds_coap_client : Holds (lib_state coap_device) cc_coap_state_t :=
  {| hold x := S_device (C_coap x); held v := match v with S_device (C_coap x) => Some x | _ => None end |}.
Proof. done. Defined.
#[export, refine] Instance holds_coap_socket : Holds (lib_state coap_device) cc_transport_socket_client_t :=
  {| hold x := S_device (C_socket x); held v := match v with S_device (C_socket x) => Some x | _ => None end |}.
Proof. done. Defined.

#[export] Instance coap_devices `{P : Platform} `{MP : MsgPuck} `{SK : Sockets} `{LC : LibCoap} `{RS : Resolver}
  : Devices coap_device := {
  device_capability _ := coap_capability;
  device_object _ := coap_methods
}.
