(* ===== verification/MpyPort.v ===== *)
(** libmpy/cc_mpy_port.c, cc_mpy_socket.c and cc_mpy_file.c: what the machine needs of
    the platform (the files of its modules), and the modules that Python code imports
    for the ports of its actor, for sockets and for files.

    The functions of the modules are called by the machine and may raise.  The calls of
    the operating system are the class [Posix]; what they answer is indexed by the call. *)
From S2P Require Import Prelude CString CText Common MsgPuck Coder Fifo Machine Transport ProtoSend.
From S2P Require Import Link FifoInit Port Proto Runtime Mpy MpyActor Socket Calvinsys MpyCalvinsys Timer ActorLib CountTimer Sensors Library Coap.

Record addrinfo := {
  ai_family : Z; ai_socktype : Z; ai_protocol : Z; ai_canonname : option bytes; ai_addr : bytes
}.

Class Posix := {
  os_open : nat -> bytes -> Z -> Z;                     (* open(): -1 on an error *)
  os_read : nat -> Z -> nat -> option bytes;            (* read(): None on an error *)
  os_write : nat -> Z -> bytes -> Z;                    (* write() *)
  os_lseek : nat -> Z -> Z -> Z -> Z;                   (* lseek() *)
  os_fsync : nat -> Z -> bool;                          (* fsync() *)
  os_new_socket : nat -> Z -> Z -> Z -> Z;              (* socket() *)
  os_send_flags : nat -> Z -> bytes -> Z -> Z;          (* send() *)
  os_recv_flags : nat -> Z -> nat -> Z -> option bytes; (* recv() *)
  os_resolve : nat -> bytes -> bytes -> Z * Z * Z -> list addrinfo + Z;  (* getaddrinfo() *)
  os_errno : nat -> Z
}.

Definition EINTR : Z := 4.
Definition EAGAIN : Z := 11.
Definition EINVAL : Z := 22.
Definition ETIMEDOUT : Z := 110.
Definition AF_INET : Z := 2.
Definition SOCK_STREAM : Z := 1.
Definition AI_NUMERICSERV : Z := 1024.
Definition O_RDONLY : Z := 0.
Definition O_WRONLY : Z := 1.
Definition O_RDWR : Z := 2.
Definition O_CREAT : Z := 64.
Definition O_TRUNC : Z := 512.
Definition O_APPEND : Z := 1024.

(** [mp_obj_fdfile_t] and [mp_obj_socket_t]. *)
Inductive fd_kind := mp_type_fileio | mp_type_textio | mp_type_socket.
#[export] Instance fd_kind_eq_decision : EqDecision fd_kind.
Proof. solve_decision. Defined.
Record mp_obj_fd_t := { fo_type : fd_kind; fo_fd : Z; fo_blocking : bool }.

(** The requests of [ioctl]. *)
Inductive stream_request :=
  | MP_STREAM_SEEK (offset whence : Z) | MP_STREAM_FLUSH | MP_STREAM_CLOSE | MP_STREAM_GET_FILENO | MP_STREAM_OTHER.

(** The mode of [open()]: the flags, and the type of the file. *)
Fixpoint file_mode (mode : bytes) (rw x : Z) (type : fd_kind) : Z * fd_kind :=
  match mode with
  | [] => (Z.lor x rw, type)
  | c :: mode =>
      if bool_decide (c = Byte.x72) then file_mode mode O_RDONLY x type
      else if bool_decide (c = Byte.x77) then file_mode mode O_WRONLY (Z.lor O_CREAT O_TRUNC) type
      else if bool_decide (c = Byte.x61) then file_mode mode O_WRONLY (Z.lor O_CREAT O_APPEND) type
      else if bool_decide (c = Byte.x2b) then file_mode mode O_RDWR x type
      else if bool_decide (c = Byte.x62) then file_mode mode rw x mp_type_fileio
      else if bool_decide (c = Byte.x74) then file_mode mode rw x mp_type_textio
      else file_mode mode rw x type
  end.

(** [mp_reader_cc_t]: a file and the position in it. *)
Record mp_reader_cc_t := { rd_buffer : bytes; rd_cur : nat }.

(** [None] is [MP_READER_EOF]. *)
Definition mp_reader_cc_readbyte (r : mp_reader_cc_t) : option byte * mp_reader_cc_t :=
  match rd_buffer r !! rd_cur r with
  | Some b => (Some b, {| rd_buffer := rd_buffer r; rd_cur := S (rd_cur r) |})
  | None => (None, r)
  end.

Section port.
Context {V : Type} `{HP : !Holds V py_heap} `{HF : !Holds V (gmap loc mp_obj_fd_t)} `{HC : !Holds V Z}.
Context `{MV : !MicroPython V} `{C : !Code V} `{P : Platform} `{MP : MsgPuck} `{ST : !Storage V} `{PX : Posix}.

(** ** Modules *)

Definition mp_import_stat (path : bytes) : R V cc_stat_t :=
  ok ← on_world cc_platform_mem_alloc;
  if negb ok then mret CC_STAT_NO_EXIST else cc_platform_file_stat (CC_ACTOR_MODULES_DIR ++ cstr path).

(** Without the file the reader of the caller stays as it was, not filled. *)
Definition mp_reader_new_file (filename : bytes) : R V (option mp_reader_cc_t) :=
  ok ← on_world cc_platform_mem_alloc;
  if negb ok then mret None
  else
    content ← cc_platform_file_read (CC_ACTOR_MODULES_DIR ++ cstr filename);
    mret ((fun c => {| rd_buffer := c; rd_cur := 0 |}) <$> content).

Definition cc_mpy_port_init : R V bool := mp_start ;; mret true.
Definition cc_mpy_port_deinit : R V unit := mp_stop.

(** ** The ports of an actor *)

(** The port of a name, and what to do with it; [absent] when there is none. *)
Definition with_port {A} (mp_actor mp_port_name : mp_obj) (direction : cc_port_direction_t) (absent : A)
  (use : loc -> E (rt V) A) : E (rt V) A :=
  actor ← actor_arg mp_actor;
  port_name ← str_arg mp_port_name;
  port ← pure_ (on_world (cc_port_get_from_name actor port_name (strlen port_name) direction));
  match port with Some port => use port | None => mret absent end.

Definition mpy_port_ccmp_tokens_available (mp_actor mp_port_name mp_nbr_of_tokens : mp_obj) : E (rt V) mp_obj :=
  actor ← actor_arg mp_actor;
  port_name ← str_arg mp_port_name;
  nbr_of_tokens ← int_arg (MV:=MV) mp_nbr_of_tokens;
  port ← pure_ (on_world (cc_port_get_from_name actor port_name (strlen port_name) CC_PORT_DIRECTION_IN));
  result ← match port with
           | Some port => pure_ (on_world (port_tokens_available port (u32 nbr_of_tokens)))
           | None => mret false
           end;
  mret (PyBool result).

Definition mpy_port_ccmp_slots_available (mp_actor mp_port_name mp_nbr_of_slots : mp_obj) : E (rt V) mp_obj :=
  actor ← actor_arg mp_actor;
  port_name ← str_arg mp_port_name;
  nbr_of_slots ← int_arg (MV:=MV) mp_nbr_of_slots;
  port ← pure_ (on_world (cc_port_get_from_name actor port_name (strlen port_name) CC_PORT_DIRECTION_OUT));
  result ← match port with
           | Some port => pure_ (on_world (port_slots_available port (u32 nbr_of_slots)))
           | None => mret false
           end;
  mret (PyBool result).

Definition mpy_port_ccmp_peek_token (mp_actor mp_port_name : mp_obj) : E (rt V) mp_obj :=
  with_port mp_actor mp_port_name CC_PORT_DIRECTION_IN PyNone
    (fun port =>
       token ← pure_ (on_world (port_peek port));
       data ← pure_ (on_world (token_data token));
       value ← cc_mpy_decode_to_mpy_obj data;
       mret (default PyNone value)).

Definition mpy_port_ccmp_peek_commit (mp_actor mp_port_name : mp_obj) : E (rt V) mp_obj :=
  value ← with_port mp_actor mp_port_name CC_PORT_DIRECTION_IN false
    (fun port => pure_ (on_world (port_commit_read port true)) ;; mret true);
  mret (PyBool value).

Definition mpy_port_ccmp_write_token (mp_actor mp_port_name mp_value : mp_obj) : E (rt V) mp_obj :=
  with_port mp_actor mp_port_name CC_PORT_DIRECTION_OUT PyNone
    (fun port =>
       value ← cc_mpy_encode_from_mpy_obj mp_value 0;
       match value with
       | Some (value, size) =>
           data ← pure_ (on_world (adopt (Some value)));
           _ ← pure_ (on_world (write_or_free port data size));
           mret PyNone
       | None => mret PyNone
       end).

Definition mpy_port_ccmp_peek_cancel (mp_actor mp_port_name : mp_obj) : E (rt V) mp_obj :=
  with_port mp_actor mp_port_name CC_PORT_DIRECTION_IN PyNone
    (fun port => pure_ (on_world (port_cancel_commit port)) ;; mret PyNone).

(** ** Objects with a descriptor *)

Definition fd_heap : nat := 103.
Definition get_fds : R V (gmap loc mp_obj_fd_t) :=
  p ← get_platform;
  match ps_statics p !! fd_heap with Some v => state_as (gmap loc mp_obj_fd_t) (Some v) | None => mret ∅ end.
Definition put_fds (m : gmap loc mp_obj_fd_t) : R V unit :=
  upd_platform (fun p => set_ps_statics (<[fd_heap := hold m]> (ps_statics p)) p).

Definition new_fd_obj (o : mp_obj_fd_t) : R V mp_obj :=
  l ← on_world fresh_loc;
  m ← get_fds;
  put_fds (<[l := o]> m) ;;
  mret (PyObject l).

(** [MP_OBJ_TO_PTR] of an object of these types. *)
Definition fd_obj (self : mp_obj) : E (rt V) (loc * mp_obj_fd_t) :=
  match self with
  | PyObject l => m ← pure_ get_fds; o ← pure_ (need BadCast (m !! l)); mret (l, o)
  | _ => pure_ (ub_ BadCast)
  end.

Definition errno : R V Z := n ← os_tick; mret (os_errno n).

(** [inl] of what the call answers, [inr] of the [errcode] of an [MP_STREAM_ERROR]. *)
Definition stream_error {A} : E (rt V) (A + Z) := e ← pure_ errno; mret (inr e).

(** The bytes of an object with a buffer: [mp_get_buffer_raise]. *)
Definition buffer_arg (o : mp_obj) : E (rt V) bytes :=
  match o with PyBytes s | PyStr s => mret s | _ => raise TypeError end.
(** [MP_OBJ_SMALL_INT_VALUE] of the [i]-th argument, when it is there. *)
Definition flags_arg (args : list mp_obj) (i : nat) : E (rt V) Z :=
  match args !! i with
  | None => mret 0
  | Some (PySmallInt n) => mret (i32 n)
  | Some _ => pure_ (ub_ BadCast)
  end.

(** *** Sockets *)

(** The static [calvinsys] of the module, which is NULL at first. *)
Definition cc_mpy_socket_set_calvinsys : R V unit :=
  upd_platform (fun p => set_ps_statics (<[104%nat := hold 1]> (ps_statics p)) p).
Definition socket_calvinsys : R V unit :=
  p ← get_platform; _ ← need NullDeref (ps_statics p !! 104%nat); mret tt.

Definition cc_mpy_socket_new (fd : Z) : R V mp_obj :=
  new_fd_obj {| fo_type := mp_type_socket; fo_fd := fd; fo_blocking := false |}.

(** The arguments are small integers, or the socket is not made. *)
Definition small_args (args : list mp_obj) : option (list Z) :=
  mapM (fun o => match o with PySmallInt n => Some (i32 n) | _ => None end) args.

Definition cc_mpy_socket_make_new (args : list mp_obj) : E (rt V) mp_obj :=
  pure_ socket_calvinsys ;;
  p ← pure_ get_platform;
  let? _ := replace_fd (ps_fds p) (-1) (-1) else mret PyNone in
  let? args := small_args (take 3 args) else mret PyNone in
  n ← pure_ os_tick;
  let fd := os_new_socket n (nth 0 args AF_INET) (nth 1 args SOCK_STREAM) (nth 2 args 0) in
  if fd <? 0 then mret PyNone
  else
    pure_ (upd_platform (fun p => set_ps_fds (default (ps_fds p) (replace_fd (ps_fds p) (-1) fd)) p)) ;;
    pure_ (upd_platform (fun p => set_ps_open ({[fd]} ∪ ps_open p) p)) ;;
    pure_ (cc_mpy_socket_new fd).

(** Whether [connect()] succeeds is not told. *)
Definition cc_mpy_socket_connect (self_in addr_in : mp_obj) : E (rt V) mp_obj :=
  self ← fd_obj self_in;
  address ← buffer_arg addr_in;
  _ ← pure_ os_tick;
  mret PyNone.

Definition cc_mpy_socket_send (args : list mp_obj) : E (rt V) mp_obj :=
  '(_, self) ← fd_obj (nth 0 args MP_OBJ_NULL);
  flags ← flags_arg args 2;
  data ← buffer_arg (nth 1 args MP_OBJ_NULL);
  n ← pure_ os_tick;
  let out_sz := os_send_flags n (fo_fd self) data flags in
  mret (if out_sz =? -1 then PyNone else PySmallInt out_sz).

Definition cc_mpy_socket_recv (args : list mp_obj) : E (rt V) mp_obj :=
  '(_, self) ← fd_obj (nth 0 args MP_OBJ_NULL);
  sz ← flags_arg args 1;
  flags ← flags_arg args 2;
  n ← pure_ os_tick;
  mret match os_recv_flags n (fo_fd self) (Z.to_nat sz) flags with
       | Some data => PyBytes (take (Z.to_nat sz) data)
       | None => PyNone
       end.

(** The flags of the descriptor are not looked at by the model. *)
Definition socket_setblocking (self_in flag_in : mp_obj) : E (rt V) mp_obj :=
  '(l, self) ← fd_obj self_in;
  val ← mp_obj_is_true flag_in;
  m ← pure_ get_fds;
  pure_ (put_fds (<[l := {| fo_type := fo_type self; fo_fd := fo_fd self; fo_blocking := val |}]> m)) ;;
  mret PyNone.

Definition socket_ioctl (o_in : mp_obj) (request : stream_request) : E (rt V) (Z + Z) :=
  '(_, self) ← fd_obj o_in;
  match request with
  | MP_STREAM_CLOSE => pure_ (close_fd (fo_fd self)) ;; mret (inl 0)
  | MP_STREAM_GET_FILENO => mret (inl (fo_fd self))
  | _ => mret (inr EINVAL)
  end.

Definition cc_mpy_socket_close (self_arg : mp_obj) : E (rt V) mp_obj :=
  '(_, self) ← fd_obj self_arg;
  _ ← socket_ioctl self_arg MP_STREAM_CLOSE;
  pure_ socket_calvinsys ;;
  pure_ (upd_platform (fun p => set_ps_fds (default (ps_fds p) (replace_fd (ps_fds p) (fo_fd self) (-1))) p)) ;;
  mret PyNone.

(** A blocking socket has timed out where the system says to try again. *)
Definition socket_error {A} (o : mp_obj_fd_t) : E (rt V) (A + Z) :=
  err ← pure_ errno;
  mret (inr (if (err =? EAGAIN) && fo_blocking o then ETIMEDOUT else err)).

Definition socket_read (o_in : mp_obj) (size : nat) : E (rt V) (bytes + Z) :=
  '(_, o) ← fd_obj o_in;
  n ← pure_ os_tick;
  match os_read n (fo_fd o) size with
  | Some data => mret (inl (take size data))
  | None => socket_error o
  end.

Definition socket_write (o_in : mp_obj) (buf : bytes) : E (rt V) (Z + Z) :=
  '(_, o) ← fd_obj o_in;
  n ← pure_ os_tick;
  let r := os_write n (fo_fd o) buf in
  if r =? -1 then socket_error o else mret (inl r).

(** Each address is a tuple of five items; the bytearray of the last is taken for bytes. *)
Definition addr_tuple (a : addrinfo) : mp_obj :=
  PyTuple [PySmallInt (ai_family a); PySmallInt (ai_socktype a); PySmallInt (ai_protocol a);
           match ai_canonname a with Some name => PyStr name | None => PyNone end; PyBytes (ai_addr a)].

(** A port is a small integer, cut to 16 bits, or a text. *)
Definition mod_socket_getaddrinfo (args : list mp_obj) : E (rt V) mp_obj :=
  host ← str_arg (nth 0 args MP_OBJ_NULL);
  '(serv, flags) ← match nth 1 args MP_OBJ_NULL with
                   | PySmallInt port => mret (decimal (u16 port), AI_NUMERICSERV)
                   | o => s ← str_arg o; mret (s, 0)
                   end;
  family ← flags_arg args 2;
  socktype ← flags_arg args 3;
  n ← pure_ os_tick;
  match os_resolve n host serv (flags, family, socktype) with
  | inl addrs => on_heap (mp_obj_new_list (map addr_tuple addrs))
  | inr res => raise (OSError res)
  end.

(** *** Files *)

Definition check_fd_is_open (o : mp_obj_fd_t) : E (rt V) unit :=
  if fo_fd o <? 0 then raise ValueError else mret tt.

Definition fdfile_read (o_in : mp_obj) (size : nat) : E (rt V) (bytes + Z) :=
  '(_, o) ← fd_obj o_in;
  check_fd_is_open o ;;
  n ← pure_ os_tick;
  match os_read n (fo_fd o) size with
  | Some data => mret (inl (take size data))
  | None => stream_error
  end.

(** The write is done again while it is interrupted, [fuel] times at most; no exception
    is pending in a machine that is running a function in C. *)
Fixpoint write_again (fuel : nat) (fd : Z) (buf : bytes) : E (rt V) (Z + Z) :=
  match fuel with
  | O => pure_ (ub_ Diverges)
  | S fuel =>
      n ← pure_ os_tick;
      let r := os_write n fd buf in
      if r =? -1 then
        e ← pure_ errno;
        if e =? EINTR then write_again fuel fd buf else mret (inr e)
      else mret (inl r)
  end.
Definition fdfile_write (fuel : nat) (o_in : mp_obj) (buf : bytes) : E (rt V) (Z + Z) :=
  '(_, o) ← fd_obj o_in;
  check_fd_is_open o ;;
  write_again fuel (fo_fd o) buf.

Definition fdfile_ioctl (o_in : mp_obj) (request : stream_request) : E (rt V) (Z + Z) :=
  '(l, o) ← fd_obj o_in;
  check_fd_is_open o ;;
  match request with
  | MP_STREAM_SEEK offset whence =>
      n ← pure_ os_tick;
      let off := os_lseek n (fo_fd o) offset whence in
      if off =? -1 then stream_error else mret (inl 0)
  | MP_STREAM_FLUSH =>
      n ← pure_ os_tick;
      if os_fsync n (fo_fd o) then mret (inl 0) else stream_error
  | MP_STREAM_CLOSE =>
      pure_ (close_fd (fo_fd o)) ;;
      m ← pure_ get_fds;
      pure_ (put_fds (<[l := {| fo_type := fo_type o; fo_fd := -1; fo_blocking := fo_blocking o |}]> m)) ;;
      mret (inl 0)
  | MP_STREAM_GET_FILENO => mret (inl (fo_fd o))
  | MP_STREAM_OTHER => mret (inr EINVAL)
  end.

(** [mp_stream_close]: an error is raised. *)
Definition fdfile___exit__ (args : list mp_obj) : E (rt V) mp_obj :=
  r ← fdfile_ioctl (nth 0 args MP_OBJ_NULL) MP_STREAM_CLOSE;
  match r with inl _ => mret PyNone | inr e => raise (OSError e) end.

Definition fdfile_fileno (self_in : mp_obj) : E (rt V) mp_obj :=
  '(_, self) ← fd_obj self_in;
  check_fd_is_open self ;;
  mret (PySmallInt (fo_fd self)).

Definition fdfile_open (type : fd_kind) (file mode : mp_obj) : E (rt V) mp_obj :=
  mode_s ← str_arg mode;
  let '(flags, type) := file_mode mode_s 0 0 type in
  match file with
  | PySmallInt fd => pure_ (new_fd_obj {| fo_type := type; fo_fd := i32 fd; fo_blocking := false |})
  | _ =>
      fname ← str_arg file;
      n ← pure_ os_tick;
      let fd := os_open n fname flags in
      if fd =? -1 then e ← pure_ errno; raise (OSError e)
      else
        pure_ (upd_platform (fun p => set_ps_open ({[fd]} ∪ ps_open p) p)) ;;
        pure_ (new_fd_obj {| fo_type := type; fo_fd := fd; fo_blocking := false |})
  end.

(** Without a mode a file is read, as text. *)
Definition mp_builtin_open (file : mp_obj) (mode : option mp_obj) : E (rt V) mp_obj :=
  fdfile_open mp_type_textio file (default (PyStr (str "r")) mode).
End port.
