(* ===== verification/Actor.v ===== *)
(** runtime/north/cc_actor.c: creation, destruction, connection, migration and
    serialisation of the actors, with [cc_proto_send_actor_new] of cc_proto.c,
    which serialises the actor it sends.  With MicroPython ([python_code]) an actor
    whose type is not in the table is loaded from a module in Python, which the proxy
    may have to send first: until then it is pending and has no code.

    An attribute list owns its strings and its encoded values.  The managed
    attributes are freed once the actor is initialised, without the pointer being
    cleared; nothing reads it afterwards, and the model empties the list.  Those of
    a pending actor stay until it is loaded. *)
From S2P Require Import Prelude CString Common MsgPuck Coder Fifo Machine Transport ProtoSend.
From S2P Require Import Link FifoInit Port Runtime Calvinsys.

#[export] Instance cc_state_was_eq_decision : EqDecision cc_state_was_t.
Proof. solve_decision. Defined.

Definition actor_state_val (s : cc_actor_state_t) : Z :=
  match s with
  | CC_ACTOR_PENDING => 0 | CC_ACTOR_PENDING_IMPL => 1 | CC_ACTOR_ENABLED => 2 | CC_ACTOR_DO_DELETE => 3
  end.

(** The ports of an actor, by direction. *)
Definition actor_ports (d : cc_port_direction_t) (a : cc_actor_t) : list loc :=
  match d with CC_PORT_DIRECTION_IN => actor_in_ports a | CC_PORT_DIRECTION_OUT => actor_out_ports a end.
Definition set_actor_ports (d : cc_port_direction_t) (l : list loc) (a : cc_actor_t) : cc_actor_t :=
  match d with
  | CC_PORT_DIRECTION_IN => set_actor_in_ports l a
  | CC_PORT_DIRECTION_OUT => set_actor_out_ports l a
  end.

(** An attribute taken out of the private ones: the value found under the name is
    freed, the item removed is the first whose name is a prefix of it.  When they
    are not the same the list keeps a freed value. *)
Definition drop_attribute (name : bytes) (l : list (cc_list_t bytes)) : outcome (list (cc_list_t bytes)) :=
  match list_get l name with
  | None => Ok l
  | Some item =>
      match List.find (fun i => streq_n (li_id i) name (strlen (li_id i))) l with
      | Some i => if bool_decide (li_id i = li_id item) then Ok (list_remove l name) else Ub UseAfterFree
      | None => Ok l
      end
  end.

(** The index of the type an actor of that name gets. *)
Fixpoint type_index {A} (types : list (cc_list_t A)) (type : bytes) (type_len : nat) : option nat :=
  match types with
  | [] => None
  | t :: types =>
      if bool_decide (strnlen (li_id t) CC_UUID_BUFFER_SIZE = type_len) && streq_n (li_id t) type type_len
      then Some 0%nat else S <$> type_index types type type_len
  end.

(** ** Connection of the ports *)

Section connect.
Context `{P : Platform} `{MP : MsgPuck}.

(** Connect the ports that are not: was there any? *)
Fixpoint connect_ports (ports : list loc) : W bool :=
  match ports with
  | [] => mret false
  | l :: ports =>
      p ← get_port l;
      b ← (if negb (bool_decide (port_state p = CC_PORT_ENABLED)) then cc_port_connect l ;; mret true
           else mret false);
      r ← connect_ports ports;
      mret (b || r)
  end.

Definition cc_actor_connect_ports (actor : loc) : W unit :=
  a ← get_actor actor;
  b ← connect_ports (actor_in_ports a);
  a ← get_actor actor;
  c ← connect_ports (actor_out_ports a);
  cc_actor_set_state actor (if (b || c : bool) then CC_ACTOR_PENDING else CC_ACTOR_ENABLED).

Fixpoint disconnect_ports (ports : list loc) (unref_tunnel : bool) : W unit :=
  match ports with
  | [] => mret tt
  | l :: ports => cc_port_disconnect l unref_tunnel ;; disconnect_ports ports unref_tunnel
  end.

Definition cc_actor_disconnect (actor : loc) (unref_tunnel : bool) : W unit :=
  a ← get_actor actor;
  disconnect_ports (actor_in_ports a) unref_tunnel ;;
  a ← get_actor actor;
  disconnect_ports (actor_out_ports a) unref_tunnel ;;
  cc_actor_set_state actor CC_ACTOR_PENDING.

(** ** Attributes and ports of a description *)

(** A string value copied into a field of the actor. *)
Definition set_string (actor : loc) (data : bytes) (set : option bytes -> cc_actor_t -> cc_actor_t) : W bool :=
  let? (tmp, tmp_len) := cc_coder_decode_str data else mret false in
  ok ← cc_platform_mem_alloc;
  if negb ok then mret false
  else upd_actor actor (set (Some (strncpy_bytes tmp tmp_len ++ [NUL]))) ;; mret true.

(** The loop of [cc_actor_get_attributes], [n] entries on: a key that is no string
    ends it with the attributes kept, any other failure frees them. *)
Fixpoint get_attributes (n : nat) (actor : loc) (managed : bytes) (private_only : bool)
  (attributes : list (cc_list_t bytes)) : W (cc_result_t * list (cc_list_t bytes)) :=
  match n with
  | O => mret (CC_SUCCESS, attributes)
  | S n =>
      let? (key, key_len) := cc_coder_decode_str managed else mret (CC_FAIL, attributes) in
      let value := cc_coder_decode_map_next managed in
      let managed := cc_coder_decode_map_next value in
      if private_only && negb (bool_decide (hd NUL key = Byte.x5f))
      then get_attributes n actor managed private_only attributes
      else if streq_n key (str "_shadow_args") 12
      then get_attributes n actor managed private_only attributes
      else
        let value_len := cc_coder_get_size_of_value value in
        let data := take value_len value in
        ok ← cc_platform_mem_alloc;
        if negb ok then mret (CC_FAIL, [])
        else
          ok ← (if streq_n key (str "_id") 3 then set_string actor data set_actor_id else mret true);
          if negb ok then mret (CC_FAIL, [])
          else
            ok ← (if streq_n key (str "_name") 5 then set_string actor data set_actor_name else mret true);
            if negb ok then mret (CC_FAIL, [])
            else
              r ← cc_list_add_n attributes key key_len data (Z.of_nat value_len);
              match r with
              | None => mret (CC_FAIL, [])
              | Some attributes => get_attributes n actor managed private_only attributes
              end
  end.

Definition cc_actor_get_attributes (actor : loc) (obj_managed : bytes) (attributes : list (cc_list_t bytes))
  (private_only : bool) : W (cc_result_t * list (cc_list_t bytes)) :=
  let '(map_size, managed) := cc_coder_decode_map obj_managed in
  get_attributes (Z.to_nat map_size) actor managed private_only attributes.

(** The two lists it is called for. *)
Definition get_private_attributes (actor : loc) (obj : bytes) : W bool :=
  a ← get_actor actor;
  '(r, l) ← cc_actor_get_attributes actor obj (actor_private_attributes a) true;
  upd_actor actor (set_actor_private_attributes l) ;;
  mret (bool_decide (r = CC_SUCCESS)).
Definition get_managed_attributes (actor : loc) (obj : bytes) : W bool :=
  a ← get_actor actor;
  '(r, l) ← cc_actor_get_attributes actor obj (actor_managed_attributes a) false;
  upd_actor actor (set_actor_managed_attributes l) ;;
  mret (bool_decide (r = CC_SUCCESS)).

(** [n] entries of the map of the ports. *)
Fixpoint create_ports (n : nat) (actor : loc) (ports prev_connections : bytes)
  (direction : cc_port_direction_t) (obj_connection_list : option bytes) : W cc_result_t :=
  match n with
  | O => mret CC_SUCCESS
  | S n =>
      let ports := cc_coder_decode_map_next ports in
      port ← cc_port_create actor ports prev_connections direction obj_connection_list;
      match port with
      | None => mret CC_FAIL
      | Some port =>
          a ← get_actor actor;
          r ← cc_list_add (actor_ports direction a) port;
          match r with
          | None => mret CC_FAIL
          | Some l =>
              upd_actor actor (set_actor_ports direction l) ;;
              let '(nbr_keys, ports) := cc_coder_decode_map ports in
              create_ports n actor (Nat.iter (2 * Z.to_nat nbr_keys) cc_coder_decode_map_next ports)
                prev_connections direction obj_connection_list
          end
      end
  end.

Definition cc_actor_create_ports (actor : loc) (obj_ports obj_prev_connections : bytes)
  (direction : cc_port_direction_t) (obj_connection_list : option bytes) : W cc_result_t :=
  let '(nbr_ports, ports) := cc_coder_decode_map obj_ports in
  create_ports (Z.to_nat nbr_ports) actor ports obj_prev_connections direction obj_connection_list.

(** Both directions, from the private part of the description. *)
Definition create_all_ports (actor : loc) (obj_private obj_prev_connections : bytes)
  (obj_connection_list : option bytes) : W bool :=
  let? obj_ports := cc_coder_get_value_from_map obj_private (str "inports") else mret false in
  r ← cc_actor_create_ports actor obj_ports obj_prev_connections CC_PORT_DIRECTION_IN obj_connection_list;
  if negb (bool_decide (r = CC_SUCCESS)) then mret false
  else
    let? obj_ports := cc_coder_get_value_from_map obj_private (str "outports") else mret false in
    r ← cc_actor_create_ports actor obj_ports obj_prev_connections CC_PORT_DIRECTION_OUT obj_connection_list;
    mret (bool_decide (r = CC_SUCCESS)).

(** ** The actor on the wire *)

Definition encode_attributes (w : bytes) (l : list (cc_list_t (option bytes))) : bytes :=
  foldl (fun w a => cc_coder_encode_kv_value w (li_id a) (li_data a) (Z.to_nat (li_data_len a))) w l.

(** An item whose data is there. *)
Definition with_data (a : cc_list_t bytes) : cc_list_t (option bytes) :=
  {| li_id := li_id a; li_id_len := li_id_len a; li_data := Some (li_data a); li_data_len := li_data_len a;
     li_free_id := li_free_id a |}.

Fixpoint encode_prev_connections (w : bytes) (ports : list loc) : W bytes :=
  match ports with
  | [] => mret w
  | l :: ports => w ← cc_port_serialize_prev_connections w l; encode_prev_connections w ports
  end.

Fixpoint encode_ports (w : bytes) (ports : list loc) (include_state : bool) : W bytes :=
  match ports with
  | [] => mret w
  | l :: ports => w ← cc_port_serialize_port w l include_state; encode_ports w ports include_state
  end.

(** What is written once both lists of attributes are there. *)
Definition encode_actor (a : cc_actor_t) (managed : list (cc_list_t (option bytes))) (buffer : bytes)
  (include_state : bool) : W bytes :=
  let nbr_inports := cc_list_count (actor_in_ports a) in
  let nbr_outports := cc_list_count (actor_out_ports a) in
  let w := cc_coder_encode_kv_map buffer (str "state") (if include_state then 4 else 3) in
  let w := if include_state
           then cc_coder_encode_kv_uint w (str "constrained_state") (actor_state_val (actor_state a)) else w in
  let w := cc_coder_encode_kv_str w (str "actor_type") (actor_type a) (strlen (actor_type a)) in
  let w := cc_coder_encode_kv_map w (str "prev_connections") 2 in
  let w := cc_coder_encode_kv_map w (str "inports") nbr_inports in
  w ← encode_prev_connections w (actor_in_ports a);
  let w := cc_coder_encode_kv_map w (str "outports") nbr_outports in
  w ← encode_prev_connections w (actor_out_ports a);
  let w := cc_coder_encode_kv_map w (str "actor_state") 4 in
  let w := cc_coder_encode_kv_map w (str "security") 1 in
  let w := cc_coder_encode_kv_nil w (str "_subject_attributes") in
  let w := cc_coder_encode_kv_map w (str "custom") 0 in
  let w := cc_coder_encode_kv_map w (str "managed") (cc_list_count managed) in
  let w := encode_attributes w managed in
  let w := cc_coder_encode_kv_map w (str "private") (u32 (cc_list_count (actor_private_attributes a) + 2)) in
  let w := encode_attributes w (map with_data (actor_private_attributes a)) in
  let w := cc_coder_encode_kv_map w (str "inports") nbr_inports in
  w ← encode_ports w (actor_in_ports a) include_state;
  let w := cc_coder_encode_kv_map w (str "outports") nbr_outports in
  encode_ports w (actor_out_ports a) include_state.
End connect.

Section actor.
Context {V : Type} `{C : !Code V} `{P : Platform} `{MP : MsgPuck}.

Definition cc_actor_serialize (actor : loc) (buffer : bytes) (include_state : bool) : R V (option bytes) :=
  a ← on_world (get_actor actor);
  match actor_private_attributes a with
  | [] => mret None
  | _ =>
      t ← type_of actor;
      managed ← match at_get_managed_attributes t with
                | Some get => get actor
                | None => mret (Some [])
                end;
      let? managed := managed else mret None in
      a ← on_world (get_actor actor);
      private ← cc_calvinsys_get_attributes actor (actor_private_attributes a);
      let? private := private else mret None in
      on_world (upd_actor actor (set_actor_private_attributes private)) ;;
      a ← on_world (get_actor actor);
      w ← on_world (encode_actor a managed buffer include_state);
      mret (Some w)
  end.

(** A serialisation that failed gives a NULL writer, whose distance to the buffer
    is computed all the same. *)
Definition cc_proto_send_actor_new (actor : loc) (to_rt_uuid : bytes) (to_rt_uuid_len : nat)
  (handler : cc_msg_handler_t) : R V cc_result_t :=
  msg_uuid ← on_world gen_msg_uuid;
  node ← on_world get_node;
  client ← on_world (deref (node_transport_client node));
  let w := cc_coder_encode_map (message_start client) 5 in
  let w := cc_coder_encode_kv_str w (str "to_rt_uuid") to_rt_uuid to_rt_uuid_len in
  let w := kv_uuid w (str "from_rt_uuid") (node_id node) in
  let w := cc_coder_encode_kv_str w (str "cmd") (str "ACTOR_NEW") 9 in
  let w := kv_uuid w (str "msg_uuid") msg_uuid in
  w ← cc_actor_serialize actor w false;
  match w with
  | Some w => on_world (send_request 3000 w msg_uuid handler (MD_actor_id actor))
  | None =>
      r ← on_world (cc_node_add_pending_msg msg_uuid handler (MD_actor_id actor));
      if bool_decide (r = CC_SUCCESS) then ub_ NullDeref else mret CC_FAIL
  end.

Definition cc_actor_migrate (actor : loc) (to_rt_uuid : bytes) (to_rt_uuid_len : nat) : R V cc_result_t :=
  t ← type_of actor;
  call_hook (at_will_migrate t) actor ;;
  a ← on_world (get_actor actor);
  on_world (disconnect_ports (actor_in_ports a) true) ;;
  a ← on_world (get_actor actor);
  on_world (disconnect_ports (actor_out_ports a) true) ;;
  cc_proto_send_actor_new actor to_rt_uuid to_rt_uuid_len H_actor_migrate_reply.

(** ** Destruction *)

(** The objects of an actor are closed, over the items of the list as it was; an
    item that a method has removed in between is not to be read. *)
Fixpoint close_objects (items : list (cc_list_t loc)) (actor : loc) : R V unit :=
  match items with
  | [] => mret tt
  | item :: items =>
      s ← get_;
      if bool_decide (li_data item ∈ map li_data (cs_objects s)) then
        obj ← get_obj (li_data item);
        when (bool_decide (obj_actor obj = actor)) (cc_calvinsys_close (li_id item)) ;;
        close_objects items actor
      else ub_ UseAfterFree
  end.

Fixpoint free_ports (ports : list loc) (remove_from_registry : bool) : W unit :=
  match ports with
  | [] => mret tt
  | l :: ports => cc_port_free l remove_from_registry ;; free_ports ports remove_from_registry
  end.

(** [cc_list_remove(&node->actors, id)]. *)
Definition remove_actor (id : bytes) : W unit :=
  w ← get_;
  actors ← walk_remove (actor_live w) (actor_key w) (node_actors (w_node w)) id;
  upd_node (set_node_actors actors).

Definition cc_actor_free (actor : loc) (remove_from_registry : bool) : R V unit :=
  t ← type_of actor;
  call_hook (at_will_end t) actor ;;
  i ← get_instance actor;
  when (bool_decide (is_Some (inst_state i))) (call_hook (at_free_state t) actor) ;;
  s ← get_;
  close_objects (cs_objects s) actor ;;
  a ← on_world (get_actor actor);
  on_world (free_ports (actor_in_ports a) remove_from_registry) ;;
  a ← on_world (get_actor actor);
  on_world (free_ports (actor_out_ports a) remove_from_registry) ;;
  match actor_id a with
  | None => mret tt
  | Some id =>
      when remove_from_registry
        (_ ← on_world (cc_proto_send_remove_actor actor H_actor_remove_reply); mret tt) ;;
      on_world (remove_actor id)
  end ;;
  free_actor actor.

(** ** Creation *)

(** The block of [CC_USE_PYTHON]: an actor whose type is no type of the table is
    loaded from its module or, without one, waits for the proxy to send it. *)
Definition load_python (actor : loc) : R V bool :=
  match python_code with
  | None => mret false
  | Some py =>
      a ← on_world (get_actor actor);
      has_module ← py_has_module py (actor_type a);
      if (has_module : bool) then
        r ← py_init_from_type py actor;
        mret (bool_decide (r = CC_SUCCESS))
      else
        on_world (upd_actor actor (set_actor_state CC_ACTOR_PENDING_IMPL)) ;;
        r ← on_world (cc_proto_send_get_actor_module (actor_type a) H_get_compiled_actor_reply);
        mret (bool_decide (r = CC_SUCCESS))
  end.

Definition cc_actor_create_from_type (type : bytes) (type_len : nat) : R V (option loc) :=
  ok ← on_world cc_platform_mem_alloc;
  if negb ok then mret None
  else
    ok ← on_world cc_platform_mem_alloc;
    if negb ok then mret None
    else
      let i := type_index actor_types type type_len in
      l ← on_world fresh_loc;
      on_world (put_actor l
        {| actor_type := strncpy_bytes type type_len ++ [NUL]; actor_id := None; actor_name := None;
           actor_state_was := CC_STATE_WAS_ACTOR; actor_state := CC_ACTOR_PENDING;
           actor_in_ports := []; actor_out_ports := []; actor_private_attributes := [];
           actor_managed_attributes := [] |}) ;;
      put_instance l {| inst_type := default (length actor_types) i; inst_state := None |} ;;
      if bool_decide (is_Some i) then mret (Some l)
      else
        loaded ← load_python l;
        if (loaded : bool) then mret (Some l) else free_actor l ;; mret None.

(** Is the actor the master of its replication? *)
Definition is_replication_master (obj_private : bytes) (id : msg_str) : bool :=
  match cc_coder_get_value_from_map obj_private (str "_replication_data") with
  | None => false
  | Some obj =>
      match cc_coder_decode_string_from_map obj (str "master") with
      | None => false
      | Some (master, master_len) => bool_decide (master_len = id.2) && streq_n id.1 master id.2
      end
  end.

(** The index a replica is told, when its type wants to know. *)
Definition replicated (t : cc_actor_type_t V) (actor : loc) : R V unit :=
  a ← on_world (get_actor actor);
  match at_did_replicate t with
  | Some did_replicate =>
      if bool_decide (actor_state_was a = CC_STATE_WAS_REPLICA) then
        let index := item ← list_get (actor_private_attributes a) (str "_replication_id");
                     cc_coder_decode_uint_from_map (li_data item) (str "index") in
        did_replicate actor (default 0 index)
      else mret tt
  | None => mret tt
  end.

(** The state of the actor: its initial one from the shadow arguments, or the one
    it had. *)
Definition init_state (actor : loc) (obj_actor_state obj_managed : bytes) : R V bool :=
  t ← type_of actor;
  if cc_coder_has_key obj_managed (str "_shadow_args") then
    on_world (upd_actor actor (set_actor_state_was
      (if cc_coder_has_key obj_actor_state (str "replication") then CC_STATE_WAS_REPLICA
       else CC_STATE_WAS_SHADOW))) ;;
    let? obj_shadow_args := cc_coder_get_value_from_map obj_managed (str "_shadow_args") else mret false in
    ok ← on_world (get_managed_attributes actor obj_shadow_args);
    if negb ok then mret false
    else
      a ← on_world (get_actor actor);
      if bool_decide (actor_state a = CC_ACTOR_PENDING_IMPL) then mret true
      else
        r ← at_init t actor (actor_managed_attributes a);
        replicated t actor ;;
        mret (bool_decide (r = CC_SUCCESS))
  else
    on_world (upd_actor actor (set_actor_state_was CC_STATE_WAS_ACTOR)) ;;
    a ← on_world (get_actor actor);
    if bool_decide (actor_state a = CC_ACTOR_PENDING_IMPL) then mret true
    else
      r ← at_set_state t actor (actor_managed_attributes a);
      if bool_decide (r = CC_SUCCESS) then call_hook (at_did_migrate t) actor ;; mret true
      else mret false.

(** The objects the actor had, if any. *)
Definition restore_objects (actor : loc) (obj_private : bytes) : R V bool :=
  if cc_coder_has_key obj_private (str "_calvinsys") then
    let? obj_calvinsys := cc_coder_get_value_from_map obj_private (str "_calvinsys") else mret false in
    r ← cc_calvinsys_deserialize actor obj_calvinsys;
    mret (bool_decide (r = CC_SUCCESS))
  else mret true.

(** The objects of the actor, its attributes, its ports, its state and the
    announcement to the storage; [false] at the first step that fails. *)
Definition fill_actor (actor : loc) (obj_state : bytes) : R V bool :=
  let? obj_actor_state := cc_coder_get_value_from_map obj_state (str "actor_state") else mret false in
  let? obj_private := cc_coder_get_value_from_map obj_actor_state (str "private") else mret false in
  ok ← restore_objects actor obj_private;
  guard! (ok : bool) else mret false in
  let? id := cc_coder_decode_string_from_map obj_private (str "_id") else mret false in
  ok ← on_world (get_private_attributes actor obj_private);
  guard! (ok : bool) else mret false in
  let? obj_prev_connections := cc_coder_get_value_from_map obj_state (str "prev_connections") else mret false in
  let? obj_connection_list :=
    (if bool_decide (cc_coder_type_of obj_prev_connections = CC_CODER_NIL)
     then Some <$> cc_coder_get_value_from_map obj_state (str "connection_list") else Some None)
    else mret false in
  guard! negb (is_replication_master obj_private id) else mret false in
  ok ← on_world (create_all_ports actor obj_private obj_prev_connections obj_connection_list);
  guard! (ok : bool) else mret false in
  let? obj_managed := cc_coder_get_value_from_map obj_actor_state (str "managed") else mret false in
  ok ← on_world (get_managed_attributes actor obj_managed);
  guard! (ok : bool) else mret false in
  a ← on_world (get_actor actor);
  guard! bool_decide (is_Some (actor_id a)) else mret false in
  guard! bool_decide (is_Some (actor_name a)) else mret false in
  ok ← init_state actor obj_actor_state obj_managed;
  guard! (ok : bool) else mret false in
  node ← on_world get_node;
  match node_transport_client node with
  | None => mret true
  | Some _ =>
      r ← on_world (cc_proto_send_set_actor actor H_actor_set_reply);
      mret (bool_decide (r = CC_SUCCESS))
  end.

(** The attributes that a serialisation writes anew are forgotten. *)
Definition drop_written_attributes (ok : bool) (actor : loc) : W unit :=
  a ← get_actor actor;
  when (negb ok || negb (bool_decide (actor_state a = CC_ACTOR_PENDING_IMPL)))
    (upd_actor actor (set_actor_managed_attributes [])) ;;
  a ← get_actor actor;
  l ← lift_outcome (l ← drop_attribute (str "_calvinsys") (actor_private_attributes a);
                    l ← drop_attribute (str "inports") l;
                    drop_attribute (str "outports") l);
  upd_actor actor (set_actor_private_attributes l).

(** Without a description of the type no actor is allocated, and the cleanup reads
    through the NULL pointer. *)
Definition cc_actor_create (root : bytes) : R V (option loc) :=
  let? obj_state := cc_coder_get_value_from_map root (str "state") else ub_ NullDeref in
  let? (actor_type, actor_type_len) := cc_coder_decode_string_from_map obj_state (str "actor_type")
    else ub_ NullDeref in
  actor ← cc_actor_create_from_type actor_type actor_type_len;
  match actor with
  | None => mret None
  | Some actor =>
      ok ← fill_actor actor obj_state;
      on_world (drop_written_attributes ok actor) ;;
      ok ← (if (ok : bool) then
              node ← on_world get_node;
              r ← on_world (cc_list_add (node_actors node) actor);
              match r with
              | None => mret false
              | Some l => on_world (upd_node (set_node_actors l)) ;; mret true
              end
            else mret false);
      if (ok : bool) then
        a ← on_world (get_actor actor);
        when (negb (bool_decide (actor_state a = CC_ACTOR_PENDING_IMPL)))
          (on_world (cc_actor_connect_ports actor)) ;;
        mret (Some actor)
      else cc_actor_free actor false ;; mret None
  end.

(** ** Actors whose code arrives *)

(** A pending actor of the type of the reply gets its state from the attributes that
    were kept for it.  [index] is that of the last replica: the next one has it too when
    it has none of its own. *)
Definition start_pending (py : python_code_t V) (actor : loc) (index : Z) : R V (bool * Z) :=
  r ← py_init_from_type py actor;
  if negb (bool_decide (r = CC_SUCCESS)) then mret (false, index)
  else
    t ← type_of actor;
    a ← on_world (get_actor actor);
    match actor_state_was a with
    | CC_STATE_WAS_ACTOR =>
        r ← at_set_state t actor (actor_managed_attributes a);
        if bool_decide (r = CC_SUCCESS) then call_hook (at_did_migrate t) actor ;; mret (true, index)
        else mret (false, index)
    | CC_STATE_WAS_SHADOW | CC_STATE_WAS_REPLICA =>
        r ← at_init t actor (actor_managed_attributes a);
        a ← on_world (get_actor actor);
        match at_did_replicate t, actor_state_was a with
        | Some did_replicate, CC_STATE_WAS_REPLICA =>
            let index := match list_get (actor_private_attributes a) (str "_replication_id") with
                         | Some item => default 0 (cc_coder_decode_uint_from_map (li_data item) (str "index"))
                         | None => index
                         end in
            did_replicate actor index ;; mret (bool_decide (r = CC_SUCCESS), index)
        | _, _ => mret (bool_decide (r = CC_SUCCESS), index)
        end
    end.

(** What becomes of it: it is connected, or goes back to the proxy, or ends. *)
Definition finish_pending (ok : bool) (actor : loc) : R V unit :=
  on_world (upd_actor actor (set_actor_managed_attributes [])) ;;
  if ok then on_world (cc_actor_connect_ports actor)
  else
    node ← on_world get_node;
    proxy ← on_world (deref (node_proxy_link node));
    link ← on_world (get_link proxy);
    r ← cc_actor_migrate actor (link_peer_id link) (strlen (link_peer_id link));
    when (negb (bool_decide (r = CC_SUCCESS))) (cc_actor_free actor true).

(** The walk reads the next item from the one it is at, which is freed with its
    actor. *)
Fixpoint update_pending (py : python_code_t V) (actors : list loc) (type : bytes) (type_len : nat)
  (status index : Z) : R V unit :=
  match actors with
  | [] => mret tt
  | l :: actors =>
      a ← on_world (get_actor l);
      index ← (if bool_decide (actor_state a = CC_ACTOR_PENDING_IMPL) && streq_n (actor_type a) type type_len then
                 '(ok, index) ← (if status =? 200 then start_pending py l index else mret (false, index));
                 finish_pending ok l ;; mret index
               else mret index);
      node ← on_world get_node;
      if bool_decide (l ∈ node_actors node) then update_pending py actors type type_len status index
      else ub_ UseAfterFree
  end.

Definition cc_actor_update_pending (py : python_code_t V) (type : bytes) (type_len : nat) (status : Z) : R V unit :=
  node ← on_world get_node;
  update_pending py (node_actors node) type type_len status 0.

(** ** Reply handlers *)

(** Without MicroPython no request for a module is sent. *)
Definition cc_actor_get_compiled_actor_reply_handler (data : bytes) : R V cc_result_t :=
  let? py := python_code else ub_ NullDeref in
  let? value := cc_coder_get_value_from_map data (str "value") else mret CC_FAIL in
  let? value := cc_coder_get_value_from_map value (str "value") else mret CC_FAIL in
  let? status := cc_coder_decode_uint_from_map value (str "status") else mret CC_FAIL in
  let? obj_data := cc_coder_get_value_from_map value (str "data") else mret CC_FAIL in
  let? (type, type_len) := cc_coder_decode_string_from_map obj_data (str "actor_type") else mret CC_FAIL in
  (if status =? 200 then
     match cc_coder_decode_string_from_map obj_data (str "module") with
     | Some (module, module_len) => py_store_module py type type_len module module_len
     | None => mret tt
     end
   else mret tt) ;;
  cc_actor_update_pending py type type_len status ;;
  mret CC_SUCCESS.

Definition actor_remove_reply_handler (data : bytes) : W cc_result_t := mret CC_SUCCESS.

Definition actor_set_reply_handler (data : bytes) : W cc_result_t :=
  let? value := cc_coder_get_value_from_map data (str "value") else mret CC_FAIL in
  let? (key, key_len) := cc_coder_decode_string_from_map value (str "key") else mret CC_FAIL in
  if negb (streq_n key (str "actor-") 6) then mret CC_FAIL
  else
    actor ← cc_actor_get (drop 6 key) (minus_u32 key_len 6);
    match actor with
    | None => mret CC_SUCCESS
    | Some _ =>
        let? response := cc_coder_get_value_from_map value (str "response") else mret CC_FAIL in
        let? status := cc_coder_decode_uint_from_map response (str "status") else mret CC_FAIL in
        mret CC_SUCCESS
    end.

(** The identifier is read through the pointer kept for the reply. *)
Definition cc_actor_migrate_reply_handler (data : bytes) (actor : loc) : R V cc_result_t :=
  a ← on_world (get_actor actor);
  id ← on_world (deref (actor_id a));
  let id_len := uuid_len id in
  let? value := cc_coder_get_value_from_map data (str "value") else mret CC_FAIL in
  let? status := cc_coder_decode_uint_from_map value (str "status") else mret CC_FAIL in
  actor ← on_world (cc_actor_get id id_len);
  match actor with
  | None => mret CC_FAIL
  | Some actor =>
      if status =? 200 then cc_actor_free actor false ;; mret CC_SUCCESS else mret CC_FAIL
  end.

Definition cc_actor_req_match_reply_handler (data : bytes) : R V cc_result_t :=
  let? value := cc_coder_get_value_from_map data (str "value") else mret CC_FAIL in
  let? value := cc_coder_get_value_from_map value (str "value") else mret CC_FAIL in
  let? obj_data := cc_coder_get_value_from_map value (str "data") else mret CC_FAIL in
  let? status := cc_coder_decode_uint_from_map value (str "status") else mret CC_FAIL in
  if negb (status =? 200) then mret CC_SUCCESS
  else
    let? (id, id_len) := cc_coder_decode_string_from_map obj_data (str "actor_id") else mret CC_FAIL in
    actor ← on_world (cc_actor_get id id_len);
    match actor with
    | None => mret CC_FAIL
    | Some actor =>
        let? possible_placements := cc_coder_get_value_from_map obj_data (str "possible_placements")
          else mret CC_FAIL in
        if negb (bool_decide (cc_coder_type_of possible_placements = CC_CODER_ARRAY)) then mret CC_FAIL
        else if 0 <? cc_coder_get_size_of_array possible_placements then
          let? (peer_id, peer_id_len) := cc_coder_decode_string_from_array possible_placements 0
            else mret CC_FAIL in
          cc_actor_migrate actor peer_id peer_id_len
        else mret CC_SUCCESS
    end.
End actor.
