(* ===== verification/AppManager.v ===== *)
(** runtime/north/cc_app_manager.c: an application deployed from a script.

    Most failures are not survived: the code goes on with the pointers that the
    step that failed has not set. *)
From S2P Require Import Prelude CString Common MsgPuck Coder Fifo Machine Transport ProtoSend.
From S2P Require Import Link FifoInit Port Runtime Calvinsys Actor.

(** [strchr(s, '.') - s]: the search does not stop at the end of the name in the
    message; without a dot the difference is taken from NULL. *)
Fixpoint dot_position (s : bytes) : outcome nat :=
  match s with
  | [] => Ub BufferOverflow
  | c :: s =>
      if bool_decide (c = Byte.x2e) then Ok 0%nat
      else if bool_decide (c = NUL) then Ub NullDeref
      else n ← dot_position s; Ok (S n)
  end.

Section world_part.
Context `{P : Platform} `{MP : MsgPuck}.

(** ** Connections *)

(** The connections of an out-port from the [i]-th of [n] on; a name is
    "actor.port". *)
Fixpoint setup_port_connections (n i : nat) (port : loc) (obj_connections : bytes) : W cc_result_t :=
  match n with
  | O => mret CC_SUCCESS
  | S n =>
      let? (connection_name, connection_name_len) := cc_coder_decode_string_from_array obj_connections i
        else mret CC_FAIL in
      dest_actor_name_len ← lift_outcome (dot_position connection_name);
      dest_actor ← cc_actor_get_from_name connection_name dest_actor_name_len;
      match dest_actor with
      | None => mret CC_FAIL
      | Some dest_actor =>
          dest_port ← cc_port_get_from_name dest_actor (drop (S dest_actor_name_len) connection_name)
                        (minus_u32 connection_name_len (S dest_actor_name_len)) CC_PORT_DIRECTION_IN;
          match dest_port with
          | None => mret CC_FAIL
          | Some dest_port =>
              d ← get_port dest_port;
              p ← get_port port;
              id ← need BufferOverflow (strncpy (port_peer_port_id p) (port_id d) CC_UUID_BUFFER_SIZE);
              upd_port port (set_port_peer_port_id id) ;;
              r ← cc_port_connect_local port;
              if bool_decide (r = CC_SUCCESS) then setup_port_connections n (S i) port obj_connections
              else mret r
          end
      end
  end.

Definition cc_app_manager_setup_port_connections (port : loc) (obj_connections : bytes) : W cc_result_t :=
  setup_port_connections (Z.to_nat (cc_coder_get_size_of_array obj_connections)) 0 port obj_connections.

(** ** Ports *)

(** One port: its name and its direction, when its description is complete. *)
Definition port_property (obj_portproperties : bytes) (i : nat) : option (msg_str * msg_str) :=
  obj_port ← cc_coder_get_value_from_array obj_portproperties i;
  name ← cc_coder_decode_string_from_map obj_port (str "port");
  direction ← cc_coder_decode_string_from_map obj_port (str "direction");
  obj_properties ← cc_coder_get_value_from_map obj_port (str "properties");
  _ ← cc_coder_decode_uint_from_map obj_properties (str "nbr_peers");
  Some (name, direction).

(** A port whose queue cannot be allocated is in the list of its actor when it is
    freed. *)
Fixpoint app_create_ports (n i : nat) (actor : loc) (obj_portproperties : bytes) : W cc_result_t :=
  match n with
  | O => mret CC_SUCCESS
  | S n =>
      let? (name, direction) := port_property obj_portproperties i else mret CC_FAIL in
      ok ← cc_platform_mem_alloc;
      guard! (ok : bool) else mret CC_FAIL in
      id ← gen_uuid_buffer (Some (str "PORT_"));
      name_ ← need BufferOverflow (strncpy_nul (zeroed CC_MAX_PORT_NAME_LENGTH) name.1 name.2);
      let d := if (direction.2 =? 3)%nat && streq_n direction.1 (str "out") 3
               then CC_PORT_DIRECTION_OUT else CC_PORT_DIRECTION_IN in
      port ← fresh_loc;
      fifo ← cc_fifo_init_empty;
      put_port port
        {| port_id := id; port_name := name_; port_peer_port_id := zeroed CC_UUID_BUFFER_SIZE;
           port_peer_id := zeroed CC_UUID_BUFFER_SIZE; port_direction := d; port_peer_port := None;
           port_tunnel := None; port_state := CC_PORT_DISCONNECTED; port_fifo := fifo;
           port_retries := 0; port_actor := actor |} ;;
      a ← get_actor actor;
      r ← cc_list_add (actor_ports d a) port;
      match r with
      | Some l => upd_actor actor (set_actor_ports d l)
      | None => mret tt
      end ;;
      if bool_decide (is_Some fifo) && bool_decide (is_Some r)
      then app_create_ports n (S i) actor obj_portproperties
      else cc_port_free port false ;; mret CC_FAIL
  end.

Definition cc_app_manager_create_ports (actor : loc) (obj_portproperties : bytes) : W cc_result_t :=
  app_create_ports (Z.to_nat (cc_coder_get_size_of_array obj_portproperties)) 0 actor obj_portproperties.

(** ** Arguments *)

Definition cc_app_manager_add_actor_args (actor : loc) (obj_arg : bytes) : W cc_result_t :=
  let? (name, name_len) := cc_coder_decode_str obj_arg else mret CC_FAIL in
  let obj_arg := cc_coder_decode_map_next obj_arg in
  let size := cc_coder_get_size_of_value obj_arg in
  ok ← cc_platform_mem_alloc;
  guard! (ok : bool) else mret CC_FAIL in
  a ← get_actor actor;
  r ← cc_list_add_n (actor_managed_attributes a) name name_len (take size obj_arg) (Z.of_nat size);
  match r with
  | None => mret CC_FAIL
  | Some l => upd_actor actor (set_actor_managed_attributes l) ;; mret CC_SUCCESS
  end.

(** [n] arguments on. *)
Fixpoint add_actor_args (n : nat) (actor : loc) (args : bytes) : W cc_result_t :=
  match n with
  | O => mret CC_SUCCESS
  | S n =>
      r ← cc_app_manager_add_actor_args actor args;
      if bool_decide (r = CC_SUCCESS)
      then add_actor_args n actor (cc_coder_decode_map_next (cc_coder_decode_map_next args))
      else mret r
  end.
End world_part.

Section app.
Context {V : Type} `{C : !Code V} `{P : Platform} `{MP : MsgPuck}.

(** ** Actors *)

(** Without a type, or when the first two allocations of the actor fail, the
    identifier is cleared through a NULL pointer; so it is when its name cannot be
    allocated.  An actor that is in the list of the node when an argument fails is
    freed without leaving it. *)
Definition cc_app_manager_create_actor (obj_actor : bytes) : R V (option loc) :=
  let? (actor_name, actor_name_len) := cc_coder_decode_str obj_actor else ub_ NullDeref in
  let obj_actor := cc_coder_decode_map_next obj_actor in
  let? (actor_type, actor_type_len) := cc_coder_decode_string_from_map obj_actor (str "actor_type")
    else ub_ NullDeref in
  let? args := cc_coder_get_value_from_map obj_actor (str "args") else ub_ NullDeref in
  actor ← cc_actor_create_from_type actor_type actor_type_len;
  let? actor := actor else ub_ NullDeref in
  ok ← on_world cc_platform_mem_alloc;
  guard! (ok : bool) else ub_ NullDeref in
  on_world (upd_actor actor (set_actor_name (Some (strncpy_bytes actor_name actor_name_len ++ [NUL])))) ;;
  ok ← on_world cc_platform_mem_alloc;
  guard! (ok : bool) else free_actor actor ;; mret None in
  id ← on_world (gen_uuid_buffer (Some (str "ACTOR_")));
  on_world (upd_actor actor (set_actor_id (Some id))) ;;
  node ← on_world get_node;
  l ← on_world (cc_list_add (node_actors node) actor);
  match l with
  | None => free_actor actor ;; mret None
  | Some l =>
      on_world (upd_node (set_node_actors l)) ;;
      let '(args_count, args) := cc_coder_decode_map args in
      r ← on_world (add_actor_args (Z.to_nat args_count) actor args);
      if bool_decide (r = CC_SUCCESS) then mret (Some actor) else free_actor actor ;; mret None
  end.

(** The ports of an actor and its initial state.  Its attributes are freed whatever
    the result; without properties there are no ports and the actor is not
    initialised. *)
Definition deploy_actor (actor : loc) (obj_port_properties : bytes) : R V cc_result_t :=
  a ← on_world (get_actor actor);
  name ← on_world (deref (actor_name a));
  r ← match cc_coder_get_value_from_map obj_port_properties name with
      | None => mret CC_FAIL
      | Some obj_port_property =>
          r ← on_world (cc_app_manager_create_ports actor obj_port_property);
          if bool_decide (r = CC_SUCCESS) then
            t ← type_of actor;
            a ← on_world (get_actor actor);
            at_init t actor (actor_managed_attributes a)
          else mret r
      end;
  on_world (upd_actor actor (set_actor_managed_attributes [])) ;;
  mret r.

Fixpoint deploy_actors (n : nat) (obj_actors obj_port_properties : bytes) : R V cc_result_t :=
  match n with
  | O => mret CC_SUCCESS
  | S n =>
      actor ← cc_app_manager_create_actor obj_actors;
      match actor with
      | None => mret CC_FAIL
      | Some actor =>
          r ← deploy_actor actor obj_port_properties;
          if bool_decide (r = CC_SUCCESS)
          then deploy_actors n (cc_coder_decode_map_next (cc_coder_decode_map_next obj_actors)) obj_port_properties
          else mret r
      end
  end.

(** ["%s.%s"] into [char port_fullname[100]]. *)
Definition port_fullname (actor port : bytes) : W bytes :=
  let name := cstr actor ++ str "." ++ cstr port ++ [NUL] in
  in_buffer 100 name ;; mret name.

(** The out-ports of an actor; the result is the one of the last port that has
    connections. *)
Fixpoint connect_out_ports (actor : loc) (ports : list loc) (obj_connections : bytes) (result : cc_result_t)
  : W cc_result_t :=
  match ports with
  | [] => mret result
  | port :: ports =>
      a ← get_actor actor;
      name ← deref (actor_name a);
      p ← get_port port;
      fullname ← port_fullname name (port_name p);
      result ← match cc_coder_get_value_from_map obj_connections fullname with
               | Some obj_port_connections => cc_app_manager_setup_port_connections port obj_port_connections
               | None => mret result
               end;
      connect_out_ports actor ports obj_connections result
  end.

Fixpoint connect_actors (actors : list loc) (obj_connections : bytes) (result : cc_result_t) : W cc_result_t :=
  match actors with
  | [] => mret result
  | actor :: actors =>
      a ← get_actor actor;
      result ← connect_out_ports actor (actor_out_ports a) obj_connections result;
      connect_actors actors obj_connections result
  end.

(** [script] is a path.  A script that has no name, is not valid or has no actors leaves
    [obj_actors] NULL, and its size is decoded all the same. *)
Definition cc_app_manager_load_script `{ST : !Storage V} (script : bytes) : R V cc_result_t :=
  file ← cc_platform_file_read script;
  let? buffer := file else mret CC_FAIL in
  if (length buffer =? 0)%nat then mret CC_SUCCESS
  else
    let? _ := cc_coder_decode_string_from_map buffer (str "name") else ub_ NullDeref in
    let? valid := cc_coder_decode_bool_from_map buffer (str "valid") else ub_ NullDeref in
    guard! (valid : bool) else ub_ NullDeref in
    let? obj_actors := cc_coder_get_value_from_map buffer (str "actors") else ub_ NullDeref in
    let? obj_port_properties := cc_coder_get_value_from_map buffer (str "port_properties")
      else mret CC_FAIL in
    let? obj_connections := cc_coder_get_value_from_map buffer (str "connections") else mret CC_FAIL in
    let '(actor_count, obj_actors) := cc_coder_decode_map obj_actors in
    r ← deploy_actors (Z.to_nat actor_count) obj_actors obj_port_properties;
    if bool_decide (r = CC_SUCCESS) then
      node ← on_world get_node;
      on_world (connect_actors (node_actors node) obj_connections CC_SUCCESS)
    else mret r.
End app.
