(* ===== verification/Node.v ===== *)
(** runtime/north/scheduler/np_scheduler/cc_scheduler.c: one pass over the actors.
    runtime/north/cc_node.c: the stored state of a node, its reset, and the requests to
    stop and to migrate. *)
From S2P Require Import Prelude CString Common MsgPuck Coder Fifo Machine Transport ProtoSend Link.
From S2P Require Import FifoInit Port Proto Runtime Calvinsys Actor.

Section scheduler.
Context {V : Type} `{C : !Code V} `{P : Platform} `{MP : MsgPuck}.

Fixpoint transmit_ports (ports : list loc) : W unit :=
  match ports with
  | [] => mret tt
  | l :: ports => cc_port_transmit l ;; transmit_ports ports
  end.

(** An enabled actor fires, then its ports transmit. *)
Definition run_actor (actor : loc) : R V bool :=
  a ← on_world (get_actor actor);
  fired ← (if bool_decide (actor_state a = CC_ACTOR_ENABLED)
           then t ← type_of actor; at_fire_actor t actor
           else mret false);
  a ← on_world (get_actor actor);
  on_world (transmit_ports (actor_in_ports a)) ;;
  a ← on_world (get_actor actor);
  on_world (transmit_ports (actor_out_ports a)) ;;
  mret fired.

(** The item after an actor in the list of the node. *)
Fixpoint next_actor (actors : list loc) (actor : loc) : option (option loc) :=
  match actors with
  | [] => None
  | l :: actors => if bool_decide (l = actor) then Some (head actors) else next_actor actors actor
  end.

(** The pass from an item on.  The item after it is read before an actor is freed,
    and after an actor has run, from the list as it is then; an item that has been
    removed is not to be read. *)
Fixpoint fire_from (fuel : nat) (item : option loc) (fired : bool) : R V bool :=
  match item with
  | None => mret fired
  | Some actor =>
      match fuel with
      | O => ub_ Diverges
      | S fuel =>
          a ← on_world (get_actor actor);
          if bool_decide (actor_state a = CC_ACTOR_DO_DELETE) then
            node ← on_world get_node;
            next ← need UseAfterFree (next_actor (node_actors node) actor);
            cc_actor_free actor true ;;
            fire_from fuel next fired
          else
            b ← run_actor actor;
            node ← on_world get_node;
            next ← need UseAfterFree (next_actor (node_actors node) actor);
            fire_from fuel next (fired || b)
      end
  end.

(** As many steps as there are actors: no actor of the library creates another. *)
Definition fire_actors : R V bool :=
  node ← on_world get_node;
  fire_from (length (node_actors node)) (head (node_actors node)) false.
End scheduler.

(** * runtime/north/cc_node.c: the stored state of a node, its reset and its stop,
    and the handlers of the replies to its own requests.

    The file of the state is read and written by the platform, the class [Storage]. *)

Definition node_state_val (s : cc_node_state_t) : Z :=
  match s with
  | CC_NODE_DO_START => 0 | CC_NODE_DO_SLEEP => 1 | CC_NODE_PENDING => 2 | CC_NODE_STARTED => 3
  | CC_NODE_STOP => 4 | CC_NODE_STATE_RAW n => n
  end.
Definition node_state_of (n : Z) : cc_node_state_t :=
  if n =? 0 then CC_NODE_DO_START else if n =? 1 then CC_NODE_DO_SLEEP
  else if n =? 2 then CC_NODE_PENDING else if n =? 3 then CC_NODE_STARTED
  else if n =? 4 then CC_NODE_STOP else CC_NODE_STATE_RAW n.

(** Assignments to [attributes] and [proxy_uris]. *)
Definition set_node_config (attributes : option bytes) (uris : list (cc_list_t unit)) (n : cc_node_t) : cc_node_t :=
  {| node_state := node_state n; node_stop_method := node_stop_method n; node_id := node_id n;
     node_attributes := attributes; node_pending_msgs := node_pending_msgs n;
     node_proxy_link := node_proxy_link n; node_links := node_links n;
     node_storage_tunnel := node_storage_tunnel n; node_proxy_tunnel := node_proxy_tunnel n;
     node_tunnels := node_tunnels n; node_actors := node_actors n;
     node_transport_client := node_transport_client n; node_capabilities := node_capabilities n;
     node_proxy_uris := uris; node_seconds_since_epoch := node_seconds_since_epoch n;
     node_time_at_sync := node_time_at_sync n |}.
Definition set_node_attributes (v : option bytes) (n : cc_node_t) : cc_node_t :=
  set_node_config v (node_proxy_uris n) n.
Definition set_node_proxy_uris (v : list (cc_list_t unit)) (n : cc_node_t) : cc_node_t :=
  set_node_config (node_attributes n) v n.

Section world_part.
Context `{P : Platform} `{MP : MsgPuck}.

(** ** Reply handlers *)

(** The time of the proxy, in seconds: a floating-point number cast to an integer. *)
Definition cc_node_setup_reply_handler (data : bytes) : W cc_result_t :=
  let? value := cc_coder_get_value_from_map data (str "value") else mret CC_FAIL in
  let? value := cc_coder_get_value_from_map value (str "value") else mret CC_FAIL in
  let? status := cc_coder_decode_uint_from_map value (str "status") else mret CC_FAIL in
  let? obj_data := cc_coder_get_value_from_map value (str "data") else mret CC_FAIL in
  let? obj_time := cc_coder_get_value_from_map obj_data (str "time") else mret CC_FAIL in
  if negb (status =? 200) then mret CC_FAIL
  else
    let? seconds :=
      match cc_coder_type_of obj_time with
      | CC_CODER_FLOAT => float_to_u32 <$> cc_coder_decode_float obj_time
      | CC_CODER_DOUBLE => double_to_u32 <$> cc_coder_decode_double obj_time
      | _ => None
      end else mret CC_FAIL in
    seconds ← lift_outcome seconds;
    upd_node (set_node_seconds_since_epoch seconds) ;;
    now ← cc_platform_get_time;
    upd_node (set_node_time_at_sync now) ;;
    upd_node_state CC_NODE_STARTED ;;
    mret CC_SUCCESS.

Definition cc_node_enter_sleep_reply_handler (data : bytes) : W cc_result_t :=
  let? value := cc_coder_get_value_from_map data (str "value") else mret CC_FAIL in
  let? value := cc_coder_get_value_from_map value (str "value") else mret CC_FAIL in
  match cc_coder_decode_uint_from_map value (str "status") with
  | Some status => upd_node_state (if status =? 200 then CC_NODE_DO_SLEEP else CC_NODE_STARTED)
  | None => mret tt
  end ;;
  mret CC_SUCCESS.

Definition replica_remove_reply_handler (data : bytes) : W cc_result_t := mret CC_SUCCESS.

(** ** Stored state *)

(** The identifier, the attributes and the uris; what the node was given when it
    was started is kept. *)
Definition restore_attributes (buffer : bytes) : W bool :=
  node ← get_node;
  if negb (bool_decide (node_attributes node = None)) || negb (cc_coder_has_key buffer (str "attributes"))
  then mret true
  else
    let? tmp := cc_coder_get_value_from_map buffer (str "attributes") else mret false in
    if negb (bool_decide (cc_coder_type_of tmp = CC_CODER_STR)) then mret true
    else
      let? (value, value_len) := cc_coder_decode_string_from_map buffer (str "attributes") else mret false in
      ok ← cc_platform_mem_alloc;
      if negb ok then mret false
      else upd_node (set_node_attributes (Some (strncpy_bytes value value_len ++ [NUL]))) ;; mret true.

Fixpoint restore_uris (n i : nat) (array : bytes) : W bool :=
  match n with
  | O => mret true
  | S n =>
      match cc_coder_decode_string_from_array array i with
      | None => restore_uris n (S i) array
      | Some (value, value_len) =>
          node ← get_node;
          r ← cc_list_add_n (node_proxy_uris node) value value_len tt 0;
          match r with
          | None => mret false
          | Some l => upd_node (set_node_proxy_uris l) ;; restore_uris n (S i) array
          end
      end
  end.

Fixpoint restore_links (n i : nat) (array : bytes) : W bool :=
  match n with
  | O => mret true
  | S n =>
      match cc_coder_get_value_from_array array i with
      | None => restore_links n (S i) array
      | Some value =>
          link ← cc_link_deserialize value;
          match link with
          | None => mret false
          | Some l =>
              x ← get_link l;
              when (link_is_proxy x) (upd_node (set_node_proxy_link (Some l))) ;;
              restore_links n (S i) array
          end
      end
  end.

Fixpoint restore_tunnels (n i : nat) (array : bytes) : W bool :=
  match n with
  | O => mret true
  | S n =>
      match cc_coder_get_value_from_array array i with
      | None => restore_tunnels n (S i) array
      | Some value =>
          tunnel ← cc_tunnel_deserialize value;
          match tunnel with
          | None => mret false
          | Some l =>
              x ← get_tunnel l;
              match tunnel_type x with
              | CC_TUNNEL_TYPE_STORAGE => upd_node (set_node_storage_tunnel (Some l))
              | CC_TUNNEL_TYPE_PROXY => upd_node (set_node_proxy_tunnel (Some l))
              | _ => mret tt
              end ;;
              restore_tunnels n (S i) array
          end
      end
  end.

(** The array under a key, when it is there. *)
Definition for_array {S} (buffer key : bytes) (body : nat -> nat -> bytes -> M S bool) : M S bool :=
  if cc_coder_has_key buffer key then
    match cc_coder_get_value_from_map buffer key with
    | Some array => body (Z.to_nat (cc_coder_get_size_of_array array)) 0%nat array
    | None => mret true
    end
  else mret true.

(** A state to sleep in is not resumed. *)
Definition restore_node_state (buffer : bytes) : W unit :=
  if cc_coder_has_key buffer (str "state") then
    match cc_coder_decode_uint_from_map buffer (str "state") with
    | Some s => upd_node_state (if s =? 1 then CC_NODE_STARTED else node_state_of s)
    | None => mret tt
    end
  else mret tt.

(** Everything but the actors. *)
Definition restore_world (buffer : bytes) : W bool :=
  let? (value, value_len) := cc_coder_decode_string_from_map buffer (str "id") else mret false in
  node ← get_node;
  id ← need BufferOverflow (strncpy_nul (node_id node) value value_len);
  upd_node (set_node_id id) ;;
  ok ← restore_attributes buffer;
  if negb ok then mret false
  else
    node ← get_node;
    ok ← (if bool_decide (node_proxy_uris node = []) then for_array buffer (str "proxy_uris") restore_uris
          else mret true);
    if negb ok then mret false
    else
      restore_node_state buffer ;;
      ok ← for_array buffer (str "links") restore_links;
      if negb ok then mret false else for_array buffer (str "tunnels") restore_tunnels.

Fixpoint encode_links (w : bytes) (links : list loc) : W bytes :=
  match links with [] => mret w | l :: links => w ← cc_link_serialize l w; encode_links w links end.
Fixpoint encode_tunnels (w : bytes) (tunnels : list loc) : W bytes :=
  match tunnels with [] => mret w | l :: tunnels => w ← cc_tunnel_serialize l w; encode_tunnels w tunnels end.

Definition encode_config (w : bytes) (node : cc_node_t) : bytes :=
  let w := cc_coder_encode_kv_str w (str "id") (node_id node) (strlen (node_id node)) in
  let w := match node_attributes node with
           | Some a => cc_coder_encode_kv_str w (str "attributes") a (strnlen a CC_MAX_ATTRIBUTES_LEN)
           | None => cc_coder_encode_kv_nil w (str "attributes")
           end in
  let w := cc_coder_encode_kv_array w (str "proxy_uris") (cc_list_count (node_proxy_uris node)) in
  foldl (fun w u => cc_coder_encode_str w (li_id u) (strnlen (li_id u) CC_MAX_URI_LEN)) w (node_proxy_uris node).
End world_part.

Definition CC_STATE_FILE : bytes := str "calvin.msgpack".

Section node.
Context {V : Type} `{C : !Code V} `{P : Platform} `{MP : MsgPuck} `{ST : !Storage V}.

Fixpoint restore_actors (n i : nat) (array : bytes) : R V bool :=
  match n with
  | O => mret true
  | S n =>
      match cc_coder_get_value_from_array array i with
      | None => restore_actors n (S i) array
      | Some value =>
          actor ← cc_actor_create value;
          match actor with None => mret false | Some _ => restore_actors n (S i) array end
      end
  end.

Definition cc_node_get_state : R V cc_result_t :=
  file ← cc_platform_file_read CC_STATE_FILE;
  let? buffer := file else mret CC_FAIL in
  ok ← on_world (restore_world buffer);
  if negb ok then mret CC_FAIL
  else
    ok ← for_array buffer (str "actors") restore_actors;
    mret (if (ok : bool) then CC_SUCCESS else CC_FAIL).

(** An actor that cannot be serialised gives a NULL writer to the next one, or to
    the computation of the length. *)
Fixpoint encode_actors (w : bytes) (actors : list loc) : R V bytes :=
  match actors with
  | [] => mret w
  | l :: actors =>
      r ← cc_actor_serialize l (cc_coder_encode_map w 1) true;
      match r with Some w => encode_actors w actors | None => ub_ NullDeref end
  end.

(** The text of the state. *)
Definition encode_state (include_state : bool) : R V bytes :=
  node ← on_world get_node;
  let w := encode_config (cc_coder_encode_map [] (if include_state then 7 else 3)) node in
  if include_state then
    let w := cc_coder_encode_kv_uint w (str "state") (node_state_val (node_state node)) in
    let w := cc_coder_encode_kv_array w (str "links") (cc_list_count (node_links node)) in
    w ← on_world (encode_links w (node_links node));
    let w := cc_coder_encode_kv_array w (str "tunnels") (cc_list_count (node_tunnels node)) in
    w ← on_world (encode_tunnels w (node_tunnels node));
    let w := cc_coder_encode_kv_array w (str "actors") (cc_list_count (node_actors node)) in
    encode_actors w (node_actors node)
  else mret w.

(** A state that cannot be written is only logged. *)
Definition cc_node_set_state (include_state : bool) : R V unit :=
  node ← on_world get_node;
  ok ← on_world cc_platform_mem_alloc;
  if negb ok then mret tt
  else
    w ← encode_state include_state;
    on_world (in_buffer (500 + if include_state then length (node_actors node) * 2000 else 0) w) ;;
    _ ← cc_platform_file_write CC_STATE_FILE w;
    mret tt.

(** ** Reset and stop *)

(** [while (node->actors != NULL)]: the head is taken off, then freed. *)
Fixpoint reset_actors (fuel : nat) : R V unit :=
  node ← on_world get_node;
  match node_actors node with
  | [] => mret tt
  | l :: actors =>
      match fuel with
      | O => ub_ Diverges
      | S fuel =>
          on_world (upd_node (set_node_actors actors)) ;; cc_actor_free l true ;; reset_actors fuel
      end
  end.
Fixpoint reset_tunnels (fuel : nat) : W unit :=
  node ← get_node;
  match node_tunnels node with
  | [] => mret tt
  | l :: tunnels =>
      match fuel with
      | O => ub_ Diverges
      | S fuel =>
          upd_node (set_node_tunnels tunnels) ;; cc_tunnel_free (Some l) false ;; reset_tunnels fuel
      end
  end.
Fixpoint reset_links (fuel : nat) : W unit :=
  node ← get_node;
  match node_links node with
  | [] => mret tt
  | l :: links =>
      match fuel with
      | O => ub_ Diverges
      | S fuel => upd_node (set_node_links links) ;; cc_link_free l ;; reset_links fuel
      end
  end.

(** The tunnels and links of a proxy that is left. *)
Definition forget_proxy : W unit :=
  node ← get_node;
  reset_tunnels (length (node_tunnels node)) ;;
  upd_node (set_node_storage_tunnel None) ;;
  upd_node (set_node_proxy_tunnel None) ;;
  node ← get_node;
  reset_links (length (node_links node)) ;;
  upd_node (set_node_proxy_link None).

Definition cc_node_reset : R V unit :=
  node ← on_world get_node;
  reset_actors (length (node_actors node)) ;;
  on_world forget_proxy ;;
  on_world (upd_node (set_node_pending_msgs [])) ;;
  cc_node_set_state false.

(** The stored state, when there is one; a new identifier otherwise. *)
Definition cc_node_setup : R V cc_result_t :=
  st ← cc_platform_file_stat CC_STATE_FILE;
  restored ← (if bool_decide (st = CC_STAT_FILE) then
                r ← cc_node_get_state;
                if bool_decide (r = CC_SUCCESS) then mret true else cc_node_reset ;; mret false
              else mret false);
  guard! negb restored else mret CC_SUCCESS in
  node ← on_world get_node;
  u ← on_world (gen_uuid None);
  on_world (upd_node (set_node_id (u ++ drop (length u) (node_id node)))) ;;
  mret CC_SUCCESS.

(** Is the replica to end with the node? *)
Definition terminates_with_node (a : cc_actor_t) : bool :=
  default false (m ← replication_map a;
                 obj ← cc_coder_get_value_from_map m (str "_terminate_with_node");
                 cc_coder_decode_bool obj).

Definition stop_actor (actor : loc) : R V unit :=
  node ← on_world get_node;
  a ← on_world (get_actor actor);
  match node_stop_method node with
  | CC_NODE_STOP_MIGRATE =>
      if terminates_with_node a then
        on_world (cc_actor_disconnect actor true) ;;
        _ ← on_world (cc_proto_send_remove_replica actor true H_replica_remove_reply);
        cc_actor_free actor true
      else
        proxy ← on_world (deref (node_proxy_link node));
        proxy ← on_world (get_link proxy);
        _ ← cc_actor_migrate actor (link_peer_id proxy) (strlen (link_peer_id proxy));
        cc_actor_free actor false
  | CC_NODE_STOP_CLEAN => cc_actor_free actor true
  end.

(** The actors from an item on; the next item is read first. *)
Fixpoint stop_actors (fuel : nat) (item : option loc) : R V unit :=
  match item with
  | None => mret tt
  | Some actor =>
      match fuel with
      | O => ub_ Diverges
      | S fuel =>
          node ← on_world get_node;
          next ← need UseAfterFree (next_actor (node_actors node) actor);
          stop_actor actor ;;
          stop_actors fuel next
      end
  end.

Definition cc_node_stop : R V unit :=
  node ← on_world get_node;
  stop_actors (length (node_actors node)) (head (node_actors node)) ;;
  node ← on_world get_node;
  match node_proxy_tunnel node with
  | Some t => on_world (cc_tunnel_remove_ref (Some t) ;; upd_node (set_node_proxy_tunnel None))
  | None => mret tt
  end ;;
  node ← on_world get_node;
  match node_storage_tunnel node with
  | Some t => on_world (cc_tunnel_remove_ref (Some t) ;; upd_node (set_node_storage_tunnel None))
  | None => mret tt
  end.
End node.
