(* ===== verification/NodeRun.v ===== *)
(** runtime/north/cc_node.c: the start of a node, its connection to a proxy, its main
    loop and its end, in the configuration of cc_config_x86.h (storage and sleep).

    [cc_platform_evt_wait] blocks until something happens: the platform then has
    received data, handed to [cc_transport_handle_data], changed the state of the
    transport, or triggered the capabilities.  It and the operations of the
    transports are the class [Events]. *)
From S2P Require Import Prelude CString Common Json MsgPuck Coder Fifo Machine Transport ProtoSend.
From S2P Require Import Link FifoInit Port Proto Runtime ActorStore Calvinsys Timer.
From S2P Require Import Actor AppManager Node.

Inductive cc_platform_evt_wait_status_t :=
  | CC_PLATFORM_EVT_WAIT_DATA_READ | CC_PLATFORM_EVT_WAIT_FAIL | CC_PLATFORM_EVT_WAIT_TIMEOUT.
#[export] Instance evt_wait_status_eq_decision : EqDecision cc_platform_evt_wait_status_t.
Proof. solve_decision. Defined.

Class Events (V : Type) := {
  cc_platform_evt_wait : Z -> R V cc_platform_evt_wait_status_t;
  cc_platform_late_init : option bytes -> R V cc_result_t;
  transport_create : bytes -> R V (option cc_transport_client_t);
  transport_connect : R V cc_result_t;
  transport_disconnect : R V unit;
  cc_platform_stop : R V cc_result_t
}.

Definition CONNECT_TIMEOUT : Z := 10.
Definition CC_INACTIVITY_TIMEOUT : Z := 5.
Definition CC_SLEEP_TIME : Z := 30.

Section run.
Context {V : Type} `{C : !Code V} `{EV : !Events V} `{ST : !Storage V} `{P : Platform} `{MP : MsgPuck} `{J : Jsmn}.
Context `{H : !Holds V cc_calvinsys_timer_t}.

(** ** Connection to a proxy *)

Definition the_client : R V cc_transport_client_t :=
  node ← on_world get_node; on_world (deref (node_transport_client node)).
Definition stopping : R V bool :=
  node ← on_world get_node; mret (bool_decide (node_state node = CC_NODE_STOP)).

(** [while (cond) if (evt_wait(...) == FAIL) return CC_FAIL;]: [false] when the wait
    failed.  Nothing bounds the loop but the events. *)
Fixpoint wait_while (fuel : nat) (cond : R V bool) : R V bool :=
  b ← cond;
  if negb b then mret true
  else
    match fuel with
    | O => ub_ Diverges
    | S fuel =>
        r ← cc_platform_evt_wait CONNECT_TIMEOUT;
        if bool_decide (r = CC_PLATFORM_EVT_WAIT_FAIL) then mret false else wait_while fuel cond
    end.

(** The node is not stopping and the transport is in the state. *)
Definition while_transport (s : cc_transport_state_t) : R V bool :=
  stop ← stopping;
  if (stop : bool) then mret false else client ← the_client; mret (bool_decide (tc_state client = s)).

(** The transport is created, connected and joined. *)
Definition join_proxy (fuel : nat) (uri : bytes) : R V bool :=
  node ← on_world get_node;
  created ← match node_transport_client node with
            | Some _ => mret true
            | None =>
                c ← transport_create uri;
                match c with
                | None => mret false
                | Some c => on_world (upd_node (set_node_transport_client (Some c))) ;; mret true
                end
            end;
  guard! (created : bool) else mret false in
  ok ← wait_while fuel (while_transport CC_TRANSPORT_INTERFACE_DOWN);
  guard! (ok : bool) else mret false in
  r ← transport_connect;
  guard! bool_decide (r = CC_SUCCESS) else mret false in
  ok ← wait_while fuel (while_transport CC_TRANSPORT_PENDING);
  guard! (ok : bool) else mret false in
  client ← the_client;
  r ← on_world (cc_transport_join client);
  guard! bool_decide (r = CC_SUCCESS) else mret false in
  ok ← wait_while fuel (while_transport CC_TRANSPORT_PENDING);
  guard! (ok : bool) else mret false in
  while_transport CC_TRANSPORT_ENABLED.

Fixpoint disconnect_actors (actors : list loc) : W unit :=
  match actors with
  | [] => mret tt
  | l :: actors => cc_actor_disconnect l false ;; disconnect_actors actors
  end.

(** A link to another proxy is forgotten, with everything over it: is the proxy
    new? *)
Definition leave_old_proxy (peer_id : bytes) (peer_id_len : nat) : W bool :=
  node ← get_node;
  match node_proxy_link node with
  | None => mret true
  | Some l =>
      link ← get_link l;
      if streq_n (link_peer_id link) peer_id peer_id_len then mret false
      else forget_proxy ;; node ← get_node; disconnect_actors (node_actors node) ;; mret true
  end.

Definition make_proxy_link (peer_id : bytes) (peer_id_len : nat) : W bool :=
  node ← get_node;
  match node_proxy_link node with
  | Some _ => mret true
  | None =>
      l ← cc_link_create peer_id peer_id_len true;
      upd_node (set_node_proxy_link l) ;; mret (bool_decide (is_Some l))
  end.

(** A tunnel of the node, created with a reference of its own. *)
Definition make_tunnel (type : cc_tunnel_type_t) (get : cc_node_t -> option loc)
  (set : option loc -> cc_node_t -> cc_node_t) (peer_id : bytes) (peer_id_len : nat) : W bool :=
  node ← get_node;
  match get node with
  | Some _ => mret true
  | None =>
      t ← cc_tunnel_create type CC_TUNNEL_DISCONNECTED peer_id peer_id_len None;
      upd_node (set t) ;;
      match t with None => mret false | Some _ => cc_tunnel_add_ref t ;; mret true end
  end.

Definition tunnel_state_of (get : cc_node_t -> option loc) : W cc_tunnel_state_t :=
  node ← get_node; l ← deref (get node); t ← get_tunnel l; mret (tunnel_state t).

(** [storage_tunnel->state == PENDING || proxy_tunnel->state == PENDING]. *)
Definition tunnels_pending : W bool :=
  s ← tunnel_state_of node_storage_tunnel;
  if bool_decide (s = CC_TUNNEL_PENDING) then mret true
  else p ← tunnel_state_of node_proxy_tunnel; mret (bool_decide (p = CC_TUNNEL_PENDING)).

Fixpoint reconnect_actors (actors : list loc) : W unit :=
  match actors with
  | [] => mret tt
  | l :: actors => cc_actor_connect_ports l ;; reconnect_actors actors
  end.

Definition cc_node_connect_to_proxy (fuel : nat) (uri : bytes) : R V cc_result_t :=
  ok ← join_proxy fuel uri;
  guard! (ok : bool) else mret CC_FAIL in
  client ← the_client;
  let peer_id := tc_peer_id client in
  let peer_id_len := uuid_len peer_id in
  new_proxy ← on_world (leave_old_proxy peer_id peer_id_len);
  ok ← on_world (make_proxy_link peer_id peer_id_len);
  guard! (ok : bool) else mret CC_FAIL in
  ok ← on_world (make_tunnel CC_TUNNEL_TYPE_STORAGE node_storage_tunnel set_node_storage_tunnel peer_id peer_id_len);
  guard! (ok : bool) else mret CC_FAIL in
  ok ← on_world (make_tunnel CC_TUNNEL_TYPE_PROXY node_proxy_tunnel set_node_proxy_tunnel peer_id peer_id_len);
  guard! (ok : bool) else mret CC_FAIL in
  ok ← wait_while fuel
         (b ← on_world tunnels_pending;
          if (b : bool) then while_transport CC_TRANSPORT_ENABLED else mret false);
  guard! (ok : bool) else mret CC_FAIL in
  s ← on_world (tunnel_state_of node_storage_tunnel);
  guard! bool_decide (s = CC_TUNNEL_ENABLED) else mret CC_FAIL in
  s ← on_world (tunnel_state_of node_proxy_tunnel);
  guard! bool_decide (s = CC_TUNNEL_ENABLED) else mret CC_FAIL in
  r ← on_world (if (new_proxy : bool) then cc_proto_send_node_setup H_node_setup_reply
                else cc_proto_send_wake_signal H_node_setup_reply);
  guard! bool_decide (r = CC_SUCCESS) else mret CC_FAIL in
  ok ← wait_while fuel
         (node ← on_world get_node;
          if bool_decide (node_state node = CC_NODE_STARTED) then mret false
          else while_transport CC_TRANSPORT_ENABLED);
  guard! (ok : bool) else mret CC_FAIL in
  node ← on_world get_node;
  guard! bool_decide (node_state node = CC_NODE_STARTED) else mret CC_FAIL in
  on_world (reconnect_actors (node_actors node)) ;;
  mret CC_SUCCESS.

(** ** Start *)

(** The uris of the array, the tokens from the [i]-th on. *)
Fixpoint add_uris (n i : nat) (proxy_uris : bytes) (tokens : list jsmntok_t) : W bool :=
  match n with
  | O => mret true
  | S n =>
      t ← need BufferOverflow (tokens !! i);
      node ← get_node;
      r ← cc_list_add_n (node_proxy_uris node) (drop (Z.to_nat (tok_start t)) proxy_uris)
            (Z.to_nat (tok_end t - tok_start t)) tt 0;
      match r with
      | None => mret false
      | Some l => upd_node (set_node_proxy_uris l) ;; add_uris n (S i) proxy_uris tokens
      end
  end.

Definition parse_uris (proxy_uris : option bytes) : W bool :=
  match proxy_uris with
  | None => mret true
  | Some uris =>
      let? tokens := jsmn_parse uris 10 else mret false in
      match tokens with
      | [] => mret false
      | t :: _ =>
          if bool_decide (tok_type t = JSMN_ARRAY) then add_uris (tok_children t) 1 uris tokens
          else mret false
      end
  end.

(** What [cc_node_init] sets before it calls anything. *)
Definition init_node (n : cc_node_t) : cc_node_t :=
  {| node_state := CC_NODE_DO_START; node_stop_method := CC_NODE_STOP_CLEAN; node_id := node_id n;
     node_attributes := node_attributes n; node_pending_msgs := node_pending_msgs n;
     node_proxy_link := None; node_links := []; node_storage_tunnel := None; node_proxy_tunnel := None;
     node_tunnels := []; node_actors := []; node_transport_client := None;
     node_capabilities := node_capabilities n; node_proxy_uris := node_proxy_uris n;
     node_seconds_since_epoch := 0; node_time_at_sync := 0 |}.

Definition init_attributes (attributes : option bytes) : W bool :=
  match attributes with
  | None => mret true
  | Some a =>
      if (strlen a <=? CC_MAX_ATTRIBUTES_LEN)%nat then
        ok ← cc_platform_mem_alloc;
        if (ok : bool) then upd_node (set_node_attributes (Some (cstr a ++ [NUL]))) ;; mret true
        else mret false
      else mret false
  end.

(** The capabilities of the runtime, then those of the configuration. *)
Definition init_calvinsys (capabilities : list cap_desc) : R V bool :=
  r ← cc_calvinsys_init;
  guard! bool_decide (r = CC_SUCCESS) else mret false in
  r ← cc_calvinsys_timer_create;
  guard! bool_decide (r = CC_SUCCESS) else mret false in
  r ← cc_calvinsys_attribute_create;
  guard! bool_decide (r = CC_SUCCESS) else mret false in
  r ← cc_calvinsys_schedule_create;
  guard! bool_decide (r = CC_SUCCESS) else mret false in
  r ← cc_calvinsys_add_capabilities capabilities;
  mret (bool_decide (r = CC_SUCCESS)).

(** [types]: the types of the configuration; the table they fill is the one of
    [Code]. *)
Definition cc_node_init (attributes proxy_uris : option bytes) (capabilities : list cap_desc)
  (types : list (cc_actor_builtin_type_t (V:=V))) : R V cc_result_t :=
  ok ← on_world (parse_uris proxy_uris);
  guard! (ok : bool) else mret CC_FAIL in
  on_world (upd_node init_node) ;;
  upd_platform (set_ps_ready ∅) ;;
  ok ← on_world (init_attributes attributes);
  guard! (ok : bool) else mret CC_FAIL in
  ok ← init_calvinsys capabilities;
  guard! (ok : bool) else mret CC_FAIL in
  '(r, _) ← on_world (cc_actor_store_init [] types);
  guard! bool_decide (r = CC_SUCCESS) else mret CC_FAIL in
  r ← cc_node_setup;
  mret (if bool_decide (r = CC_SUCCESS) then CC_SUCCESS else CC_FAIL).

(** ** End *)

(** [free] on every item of a list, over the items as they were; an item that
    another one has taken with it is not to be read. *)
Fixpoint for_each_live (live : R V (list loc)) (free : loc -> R V unit) (items : list loc) : R V unit :=
  match items with
  | [] => mret tt
  | l :: items =>
      now ← live;
      if bool_decide (l ∈ now) then free l ;; for_each_live live free items else ub_ UseAfterFree
  end.

Fixpoint delete_capabilities (items : list (cc_list_t loc)) : R V unit :=
  match items with
  | [] => mret tt
  | item :: items =>
      s ← get_;
      if bool_decide (li_data item ∈ map li_data (cs_capabilities s))
      then cc_calvinsys_delete_capability (li_id item) ;; delete_capabilities items
      else ub_ UseAfterFree
  end.

(** The structure of the node goes last: nothing is to run after it. *)
Definition cc_node_free (cleanup : bool) : R V unit :=
  on_world (upd_node (set_node_proxy_uris [])) ;;
  node ← on_world get_node;
  for_each_live (node ← on_world get_node; mret (node_actors node))
    (fun l => cc_actor_free l cleanup) (node_actors node) ;;
  node ← on_world get_node;
  for_each_live (node ← on_world get_node; mret (node_tunnels node))
    (fun l => on_world (cc_tunnel_free (Some l) false)) (node_tunnels node) ;;
  node ← on_world get_node;
  for_each_live (node ← on_world get_node; mret (node_links node))
    (fun l => on_world (cc_link_free l)) (node_links node) ;;
  s ← get_;
  delete_capabilities (cs_capabilities s) ;;
  on_world (upd_node (set_node_attributes None)) ;;
  on_world (upd_node (set_node_pending_msgs [])) ;;
  node ← on_world get_node;
  match node_transport_client node with
  | Some _ => transport_disconnect ;; on_world (upd_node (set_node_transport_client None))
  | None => mret tt
  end.

(** ** The main loop *)

(** Has the node gone to sleep?  Then it is free, and a wake-up starts from what was
    stored. *)
Definition cc_node_enter_sleep (seconds_to_sleep : Z) : R V bool :=
  node ← on_world get_node;
  denied ← match node_transport_client node with
           | Some client =>
               if bool_decide (tc_state client = CC_TRANSPORT_ENABLED) then
                 r ← on_world (cc_proto_send_sleep_request seconds_to_sleep H_node_enter_sleep_reply);
                 if negb (bool_decide (r = CC_SUCCESS)) then mret true
                 else
                   on_world (upd_node_state CC_NODE_PENDING) ;;
                   _ ← cc_platform_evt_wait CONNECT_TIMEOUT;
                   node ← on_world get_node;
                   mret (negb (bool_decide (node_state node = CC_NODE_DO_SLEEP)))
               else mret false
           | None => mret false
           end;
  if (denied : bool) then on_world (upd_node_state CC_NODE_STARTED) ;; mret false
  else
    cc_node_set_state true ;;
    _ ← cc_platform_stop;
    cc_node_free false ;;
    mret true.

(** The uris, one after the other, until one connects. *)
Fixpoint connect_any (fuel : nat) (uris : list (cc_list_t unit)) : R V unit :=
  match uris with
  | [] => mret tt
  | uri :: uris =>
      stop ← stopping;
      if (stop : bool) then mret tt
      else
        on_world (upd_node_state CC_NODE_DO_START) ;;
        r ← cc_node_connect_to_proxy fuel (li_id uri);
        if bool_decide (r = CC_SUCCESS) then mret tt else connect_any fuel uris
  end.

Definition connected : R V bool :=
  node ← on_world get_node;
  mret (match node_transport_client node with
        | Some client => bool_decide (tc_state client = CC_TRANSPORT_ENABLED)
        | None => false
        end).

(** One turn of the loop of [cc_node_run]: has the node gone to sleep? *)
Definition node_cycle (fuel : nat) (next_timer_timeout : Z) : R V (Z * bool) :=
  node ← on_world get_node;
  up ← connected;
  (if negb (bool_decide (node_proxy_uris node = [])) && negb up
   then connect_any fuel (node_proxy_uris node) else mret tt) ;;
  next_timer_timeout ← cc_calvinsys_timers_check next_timer_timeout;
  fired ← fire_actors;
  if (fired : bool) then _ ← cc_platform_evt_wait 1; mret (next_timer_timeout, false)
  else
    wait_timeout ← cc_calvinsys_timers_check CC_INACTIVITY_TIMEOUT;
    let wait_timeout := if CC_INACTIVITY_TIMEOUT <? wait_timeout then CC_INACTIVITY_TIMEOUT else wait_timeout in
    waitstatus ← cc_platform_evt_wait wait_timeout;
    match waitstatus with
    | CC_PLATFORM_EVT_WAIT_TIMEOUT =>
        sleep_timeout ← cc_calvinsys_timers_check CC_SLEEP_TIME;
        if CC_INACTIVITY_TIMEOUT <? sleep_timeout
        then asleep ← cc_node_enter_sleep sleep_timeout; mret (next_timer_timeout, asleep)
        else mret (next_timer_timeout, false)
    | CC_PLATFORM_EVT_WAIT_DATA_READ => mret (next_timer_timeout, false)
    | CC_PLATFORM_EVT_WAIT_FAIL =>
        node ← on_world get_node;
        match node_transport_client node with
        | Some _ => on_world (upd_client (set_tc_state CC_TRANSPORT_DISCONNECTED))
        | None => mret tt
        end ;;
        mret (next_timer_timeout, false)
    end.

(** How a run of the node ends. *)
Inductive node_end := Stopped | Asleep | NotStarted.

Fixpoint node_loop (fuel : nat) (next_timer_timeout : Z) : R V node_end :=
  stop ← stopping;
  if (stop : bool) then
    cc_node_stop ;;
    cc_node_set_state false ;;
    _ ← cc_platform_stop;
    cc_node_free false ;;
    mret Stopped
  else
    match fuel with
    | O => ub_ Diverges
    | S fuel =>
        '(t, asleep) ← node_cycle fuel next_timer_timeout;
        if (asleep : bool) then mret Asleep else node_loop fuel t
    end.

(** [script]: the path of a script, when one is given. *)
Definition cc_node_run (fuel : nat) (script : option bytes) : R V node_end :=
  node ← on_world get_node;
  (if bool_decide (node_proxy_uris node = []) then on_world (upd_node_state CC_NODE_STARTED) else mret tt) ;;
  ok ← match script with
       | None => mret true
       | Some script => r ← cc_app_manager_load_script script; mret (bool_decide (r = CC_SUCCESS))
       end;
  if (ok : bool) then node_loop fuel 0 else mret NotStarted.
End run.
