(* ===== verification/Dispatch.v ===== *)
(** runtime/north/cc_proto.c: the commands about actors and the dispatch of a
    message to the parser of its command; [cc_node_handle_message]. *)
From S2P Require Import Prelude CString Common Json MsgPuck Coder Fifo Machine Transport ProtoSend.
From S2P Require Import Link FifoInit Port Proto Runtime Calvinsys Actor Node.

(** The commands of the table, in its order; the ninth entry is empty. *)
Inductive command := Reply | TunnelData | ActorNew | AppDestroy | PortDisconnect | PortConnect
  | TunnelNew | ActorMigrate.
Definition command_handlers : list (bytes * option command) :=
  [ (str "REPLY", Some Reply); (str "TUNNEL_DATA", Some TunnelData); (str "ACTOR_NEW", Some ActorNew);
    (str "APP_DESTROY", Some AppDestroy); (str "PORT_DISCONNECT", Some PortDisconnect);
    (str "PORT_CONNECT", Some PortConnect); (str "TUNNEL_NEW", Some TunnelNew);
    (str "ACTOR_MIGRATE", Some ActorMigrate); ([], None) ].

(** The first entry that agrees with the command over the length of the command. *)
Definition find_handler (cmd : bytes) (cmd_len : nat) : option (option command) :=
  snd <$> List.find (fun h => streq_n cmd h.1 cmd_len) command_handlers.

Section dispatch.
Context {V : Type} `{C : !Code V} `{P : Platform} `{MP : MsgPuck} `{J : Jsmn}.

(** ** The join reply *)

(** A token of the array that [jsmn] did not write is not to be read. *)
Definition proto_handle_join_reply (buffer : bytes) : W cc_result_t :=
  let? tokens := jsmn_parse buffer 10 else mret CC_FAIL in
  i ← lift_outcome (cc_json_get_dict_value buffer tokens 0 (str "serializer") 10);
  let? i := i else mret CC_FAIL in
  serializer ← cc_coder_get_name;
  let? serializer := serializer else mret CC_FAIL in
  name ← on_mem (mem_read serializer);
  token ← need BufferOverflow (tokens !! i);
  if negb (bool_decide (Z.of_nat (strlen name) = tok_end token - tok_start token))
     || negb (streq_n name (drop (Z.to_nat (tok_start token)) buffer) (strlen name))
  then on_mem (mem_free serializer) ;; mret CC_FAIL
  else
    on_mem (mem_free serializer) ;;
    i ← lift_outcome (cc_json_get_dict_value buffer tokens 0 (str "id") 2);
    let? i := i else mret CC_FAIL in
    token ← need BufferOverflow (tokens !! i);
    id ← need BufferOverflow (strncpy (zeroed CC_UUID_BUFFER_SIZE) (drop (Z.to_nat (tok_start token)) buffer)
                                (Z.to_nat (tok_end token - tok_start token)));
    upd_client (set_tc_peer_id id) ;;
    upd_client (set_tc_state CC_TRANSPORT_ENABLED) ;;
    mret CC_SUCCESS.

(** ** Commands about actors *)

(** The head of a command: who asks, and the [msg_uuid] in an array of its own. *)
Definition command_head (root : bytes) : W (option (msg_str * bytes)) :=
  let? from := cc_coder_decode_string_from_map root (str "from_rt_uuid") else mret None in
  let? s := cc_coder_decode_string_from_map root (str "msg_uuid") else mret None in
  msg_uuid ← copy_msg_uuid s;
  mret (Some (from, msg_uuid)).

Definition reply_status (from : msg_str) (msg_uuid : bytes) (status : Z) : R V cc_result_t :=
  on_world (proto_send_reply msg_uuid from.1 from.2 status).

(** The reply that tells whether a command succeeded. *)
Definition reply_result (from : msg_str) (msg_uuid : bytes) (ok : bool) : R V cc_result_t :=
  reply_status from msg_uuid (if ok then 200 else 500).

Definition cc_proto_parse_actor_new (root : bytes) : R V cc_result_t :=
  h ← on_world (command_head root);
  let? (from, msg_uuid) := h else mret CC_FAIL in
  actor ← cc_actor_create root;
  reply_result from msg_uuid (bool_decide (is_Some actor)).

(** The requirements of the message from the [i]-th of [n] on. *)
Fixpoint copy_requirements (n i : nat) (deploy_reqs w : bytes) : option bytes :=
  match n with
  | O => Some w
  | S n =>
      req ← cc_coder_get_value_from_array deploy_reqs i;
      copy_requirements n (S i) deploy_reqs (w ++ take (cc_coder_get_size_of_value req) req)
  end.

Definition cc_proto_send_req_match_with_actor_reqs (actor : loc) (deploy_reqs : bytes)
  (requires : list (cc_list_t unit)) : W cc_result_t :=
  let nbr_of_reqs := cc_coder_get_size_of_array deploy_reqs in
  let w := cc_coder_encode_array [] (u32 (nbr_of_reqs + 1)) in
  let? w := copy_requirements (Z.to_nat nbr_of_reqs) 0 deploy_reqs w else mret CC_FAIL in
  let w := cc_coder_encode_map w 3 in
  let w := cc_coder_encode_kv_str w (str "op") (str "actor_reqs_match") 16 in
  let w := cc_coder_encode_kv_str w (str "type") (str "+") 1 in
  let w := cc_coder_encode_kv_map w (str "kwargs") 1 in
  let w := cc_coder_encode_kv_array w (str "requires") (cc_list_count requires) in
  let w := foldl (fun w r => cc_coder_encode_str w (li_id r) (strlen (li_id r))) w requires in
  in_buffer 1000 w ;;
  cc_proto_send_req_match actor w (length w) H_actor_req_match_reply.

Definition cc_proto_parse_actor_migrate (root : bytes) : R V cc_result_t :=
  h ← on_world (command_head root);
  let? (from, msg_uuid) := h else mret CC_FAIL in
  let? (id, id_len) := cc_coder_decode_string_from_map root (str "actor_id")
    else _ ← reply_status from msg_uuid 400; mret CC_FAIL in
  actor ← on_world (cc_actor_get id id_len);
  let? actor := actor else _ ← reply_status from msg_uuid 404; mret CC_FAIL in
  if cc_coder_has_key root (str "peer_node_id") then
    let? (peer, peer_len) := cc_coder_decode_string_from_map root (str "peer_node_id")
      else _ ← reply_status from msg_uuid 500; mret CC_FAIL in
    r ← cc_actor_migrate actor peer peer_len;
    reply_result from msg_uuid (bool_decide (r = CC_SUCCESS))
  else
    let? requirements := cc_coder_get_value_from_map root (str "requirements")
      else _ ← reply_status from msg_uuid 400; mret CC_FAIL in
    t ← type_of actor;
    requires ← match at_get_requires t with Some f => f actor | None => mret (Some []) end;
    let? requires := requires else _ ← reply_status from msg_uuid 500; mret CC_FAIL in
    r ← on_world match requires with
                 | [] => cc_proto_send_req_match actor requirements (cc_coder_get_size_of_value requirements)
                           H_actor_req_match_reply
                 | _ => cc_proto_send_req_match_with_actor_reqs actor requirements requires
                 end;
    reply_result from msg_uuid (bool_decide (r = CC_SUCCESS)).

(** The actors of the message from the [i]-th of [n] on; one that is not there is
    skipped, an entry that is no string ends the loop. *)
Fixpoint destroy_actors (n i : nat) (obj_actor_uuids : bytes) : R V bool :=
  match n with
  | O => mret true
  | S n =>
      let? (id, id_len) := cc_coder_decode_string_from_array obj_actor_uuids i else mret false in
      actor ← on_world (cc_actor_get id id_len);
      match actor with Some actor => cc_actor_free actor true | None => mret tt end ;;
      destroy_actors n (S i) obj_actor_uuids
  end.

Definition cc_proto_parse_app_destroy (root : bytes) : R V cc_result_t :=
  h ← on_world (command_head root);
  let? (from, msg_uuid) := h else mret CC_FAIL in
  let? obj_actor_uuids := cc_coder_get_value_from_map root (str "actor_uuids") else mret CC_FAIL in
  ok ← destroy_actors (Z.to_nat (cc_coder_get_size_of_array obj_actor_uuids)) 0 obj_actor_uuids;
  reply_result from msg_uuid ok.

(** ** Dispatch *)

(** The function a pending message points to. *)
Definition reply_handler (h : cc_msg_handler_t) (data : bytes) (md : msg_data_t) : R V cc_result_t :=
  match h with
  | H_port_remove_reply => on_world (cc_port_remove_reply_handler data)
  | H_port_disconnect_reply => on_world (cc_port_disconnect_reply_handler data)
  | H_port_store_reply => on_world (cc_port_store_reply_handler data)
  | H_port_get_peer_port_reply => on_world (cc_port_get_peer_port_reply_handler data)
  | H_port_connect_reply => on_world (cc_port_connect_reply_handler data)
  | H_tunnel_destroy => on_world (tunnel_destroy_handler data)
  | H_tunnel_request => on_world (tunnel_request_handler data)
  | H_actor_req_match_reply => cc_actor_req_match_reply_handler data
  | H_actor_remove_reply => on_world (actor_remove_reply_handler data)
  | H_actor_migrate_reply =>
      match md with
      | MD_actor_id l => cc_actor_migrate_reply_handler data l
      | _ => ub_ NullDeref
      end
  | H_actor_set_reply => on_world (actor_set_reply_handler data)
  | H_node_setup_reply => on_world (cc_node_setup_reply_handler data)
  | H_node_enter_sleep_reply => on_world (cc_node_enter_sleep_reply_handler data)
  | H_replica_remove_reply => on_world (replica_remove_reply_handler data)
  | H_platform_setup_reply => mret CC_SUCCESS
  | H_get_compiled_actor_reply => cc_actor_get_compiled_actor_reply_handler data
  end.

Definition run_command (c : command) (data : bytes) : R V cc_result_t :=
  match c with
  | Reply => cc_proto_parse_reply reply_handler data
  | TunnelData => cc_proto_parse_tunnel_data reply_handler data
  | ActorNew => cc_proto_parse_actor_new data
  | AppDestroy => cc_proto_parse_app_destroy data
  | PortDisconnect => on_world (cc_proto_parse_port_disconnect data)
  | PortConnect => on_world (cc_proto_parse_port_connect data)
  | TunnelNew => on_world (cc_proto_parse_tunnel_new data)
  | ActorMigrate => cc_proto_parse_actor_migrate data
  end.

(** The answer to a command that is not known. *)
Definition unhandled_command (data : bytes) : R V cc_result_t :=
  let? s := cc_coder_decode_string_from_map data (str "msg_uuid") else mret CC_FAIL in
  msg_uuid ← on_world (copy_msg_uuid s);
  let? from := cc_coder_decode_string_from_map data (str "from_rt_uuid") else mret CC_FAIL in
  reply_status from msg_uuid 500.

Definition cc_proto_parse_message (data : bytes) : R V cc_result_t :=
  node ← on_world get_node;
  client ← on_world (deref (node_transport_client node));
  if negb (bool_decide (tc_state client = CC_TRANSPORT_ENABLED)) then on_world (proto_handle_join_reply data)
  else
    let? (cmd, cmd_len) := cc_coder_decode_string_from_map data (str "cmd") else mret CC_FAIL in
    match find_handler cmd cmd_len with
    | Some (Some c) => run_command c data
    | Some None => ub_ NullDeref
    | None => unhandled_command data
    end.

(** Without checkpoints, a message changes nothing but what its handler does. *)
Definition cc_node_handle_message (buffer : bytes) : R V cc_result_t :=
  r ← cc_proto_parse_message buffer;
  mret (if bool_decide (r = CC_SUCCESS) then CC_SUCCESS else CC_FAIL).
End dispatch.
