(* ===== verification/X86Platform.v ===== *)
(** runtime/south/platform/x86/cc_platform_x86.c: files, and the wait for an event.

    A path is a string; two texts are two paths.  What the disk refuses is the class
    [Disk], indexed by the call. *)
From S2P Require Import Prelude CString CText Common Json MsgPuck Coder Fifo Machine Transport ProtoSend.
From S2P Require Import Link FifoInit Port Proto Runtime ActorStore Calvinsys Timer.
From S2P Require Import Actor AppManager Node NodeRun Dispatch Socket.

Class Disk := {
  disk_ok : nat -> bool;           (* fopen(), mkdir(), unlink(): nothing else is against it *)
  disk_count : nat -> nat -> nat   (* fread(), fwrite(): how many of the bytes *)
}.


(** The directory that a path names an entry of: its text up to the last slash.  A name
    without a slash is in the working directory, which is there. *)
Fixpoint last_slash (path : bytes) : option nat :=
  match path with
  | [] => None
  | c :: path =>
      match last_slash path with
      | Some i => Some (S i)
      | None => if bool_decide (c = SLASH) then Some 0%nat else None
      end
  end.
Definition parent_exists (dirs : gset bytes) (path : bytes) : bool :=
  match last_slash path with
  | None | Some O => true
  | Some i => bool_decide (take i path ∈ dirs)
  end.

Section platform.
Context {V : Type} `{C : !Code V} `{P : Platform} `{MP : MsgPuck} `{J : Jsmn}.
Context `{SK : Sockets} `{DK : Disk} `{HK : !Holds V cc_transport_socket_client_t}.

(** ** Memory *)

(** A zeroed block of [nitems * size] bytes. *)
Definition cc_platform_mem_calloc (nitems size : nat) : R V (option bytes) :=
  ok ← on_world cc_platform_mem_alloc;
  mret (if (ok : bool) then Some (zeroed (nitems * size)) else None).

(** ** Files *)

Definition x86_file_stat (path : bytes) : R V cc_stat_t :=
  p ← get_platform;
  mret (if bool_decide (path ∈ ps_dirs p) then CC_STAT_DIR
        else if bool_decide (is_Some (ps_files p !! path)) then CC_STAT_FILE
        else CC_STAT_NO_EXIST).

(** A file that cannot be allocated for is left open. *)
Definition x86_file_read (path : bytes) : R V (option bytes) :=
  n ← os_tick;
  p ← get_platform;
  let? content := ps_files p !! path else mret None in
  guard! disk_ok n else mret None in
  ok ← on_world cc_platform_mem_alloc;
  guard! (ok : bool) else mret None in
  n ← os_tick;
  mret (if (length content <=? disk_count n (length content))%nat then Some content else None).

Definition make_dir (path : bytes) : R V bool :=
  n ← os_tick;
  p ← get_platform;
  if disk_ok n && parent_exists (ps_dirs p) path && negb (bool_decide (is_Some (ps_files p !! path)))
     && negb (bool_decide (path ∈ ps_dirs p))
  then upd_platform (set_ps_dirs ({[path]} ∪ ps_dirs p)) ;; mret true
  else mret false.

(** [while (i < len)]: the directories of the path, from the slash after position [i]
    on; [n] is what is left of it. *)
Fixpoint create_dirs (path : bytes) (n i : nat) : R V cc_result_t :=
  match n with
  | O => mret CC_SUCCESS
  | S n =>
      if bool_decide (nth i path NUL = SLASH) then
        ok ← on_world cc_platform_mem_alloc;
        guard! (ok : bool) else mret CC_FAIL in
        let tmp := take i path in
        st ← x86_file_stat tmp;
        ok ← (if bool_decide (st = CC_STAT_NO_EXIST) then make_dir tmp else mret true);
        guard! (ok : bool) else mret CC_FAIL in
        create_dirs path n (S i)
      else create_dirs path n (S i)
  end.
Definition cc_platform_create_dirs (path : bytes) : R V cc_result_t := create_dirs path (strlen path - 1) 1.

(** A file that is opened for writing is empty first. *)
Definition x86_file_write (path buffer : bytes) : R V cc_result_t :=
  r ← cc_platform_create_dirs path;
  guard! bool_decide (r = CC_SUCCESS) else mret CC_FAIL in
  n ← os_tick;
  p ← get_platform;
  guard! disk_ok n && parent_exists (ps_dirs p) path && negb (bool_decide (path ∈ ps_dirs p)) else mret CC_FAIL in
  n ← os_tick;
  let written := take (disk_count n (length buffer)) buffer in
  upd_platform (fun p => set_ps_files (<[path := written]> (ps_files p)) p) ;;
  mret (if (length written =? length buffer)%nat then CC_SUCCESS else CC_FAIL).

Definition x86_file_del (path : bytes) : R V cc_result_t :=
  n ← os_tick;
  p ← get_platform;
  if disk_ok n && bool_decide (is_Some (ps_files p !! path))
  then upd_platform (set_ps_files (delete path (ps_files p))) ;; mret CC_SUCCESS
  else mret CC_FAIL.

#[export] Instance x86_storage : Storage V := {
  cc_platform_file_stat := x86_file_stat;
  cc_platform_file_read := x86_file_read;
  cc_platform_file_write := x86_file_write;
  cc_platform_file_del := x86_file_del
}.

(** ** Events *)

(** What has come over the transport is handled; where there is no transport its
    descriptor is 0. *)
Definition handle_ready (fd : Z) (ready : gset Z) : R V cc_platform_evt_wait_status_t :=
  if bool_decide (fd ∈ ready) then
    r ← cc_transport_handle_data cc_node_handle_message;
    mret (if bool_decide (r = CC_SUCCESS) then CC_PLATFORM_EVT_WAIT_DATA_READ else CC_PLATFORM_EVT_WAIT_FAIL)
  else mret CC_PLATFORM_EVT_WAIT_DATA_READ.

(** Without a descriptor the process sleeps; without a timeout as well it never wakes. *)
Definition x86_evt_wait (timeout_seconds : Z) : R V cc_platform_evt_wait_status_t :=
  let timeout := if 0 <? timeout_seconds then Some timeout_seconds else None in
  fd ← transport_fd;
  p ← get_platform;
  let fds : gset Z := list_to_set (option_list fd ++ filter (fun fd => fd <> -1) (ps_fds p)) in
  upd_platform (set_ps_ready fds) ;;
  n ← os_tick;
  if bool_decide (fds = ∅) then
    match timeout with Some _ => mret CC_PLATFORM_EVT_WAIT_TIMEOUT | None => ub_ Diverges end
  else
    match os_select n timeout fds with
    | None => mret CC_PLATFORM_EVT_WAIT_FAIL
    | Some ready =>
        upd_platform (set_ps_ready ready) ;;
        if bool_decide (ready = ∅) then mret CC_PLATFORM_EVT_WAIT_TIMEOUT
        else handle_ready (default 0 fd) ready
    end.

(** Without a CoAP client the arguments of the platform are not used. *)
Definition x86_late_init (args : option bytes) : R V cc_result_t := mret CC_SUCCESS.

(** The events of the node, on this platform. *)
#[export] Instance x86_events : Events V := {
  cc_platform_evt_wait := x86_evt_wait;
  transport_create := cc_transport_create;
  transport_connect := cc_transport_socket_connect;
  cc_platform_late_init := x86_late_init;
  cc_platform_stop := mret CC_SUCCESS;
  transport_disconnect := cc_transport_socket_disconnect ;; cc_transport_socket_free
}.
End platform.
