(* ===== verification/Api.v ===== *)
(** cc_api.c and main.c: what a program calls to run a node, and the program. *)
From S2P Require Import Prelude CString CText Common Json MsgPuck Coder Fifo Machine Transport ProtoSend.
From S2P Require Import Link FifoInit Port Proto Runtime ActorStore Calvinsys Timer.
From S2P Require Import Actor AppManager Node NodeRun Dispatch.

(** A node that [memset] has zeroed. *)
Definition zero_node : cc_node_t :=
  {| node_state := CC_NODE_DO_START; node_stop_method := CC_NODE_STOP_CLEAN;
     node_id := zeroed CC_UUID_BUFFER_SIZE; node_attributes := None; node_pending_msgs := [];
     node_proxy_link := None; node_links := []; node_storage_tunnel := None; node_proxy_tunnel := None;
     node_tunnels := []; node_actors := []; node_transport_client := None; node_capabilities := [];
     node_proxy_uris := []; node_seconds_since_epoch := 0; node_time_at_sync := 0 |}.

(** What the options of the command line are. *)
Record options := {
  opt_attr : option bytes;
  opt_uris : option bytes;
  opt_platform_args : option bytes;
  opt_script : option bytes
}.
Definition no_options : options :=
  {| opt_attr := None; opt_uris := None; opt_platform_args := None; opt_script := None |}.

(** [switch (c)] on an option that [getopt_long] has found, with its argument. *)
Definition take_option (o : options) (found : byte * option bytes) : options :=
  let '(c, optarg) := found in
  if bool_decide (c = Byte.x61) then
    {| opt_attr := optarg; opt_uris := opt_uris o; opt_platform_args := opt_platform_args o; opt_script := opt_script o |}
  else if bool_decide (c = Byte.x75) then
    {| opt_attr := opt_attr o; opt_uris := optarg; opt_platform_args := opt_platform_args o; opt_script := opt_script o |}
  else if bool_decide (c = Byte.x70) then
    {| opt_attr := opt_attr o; opt_uris := opt_uris o; opt_platform_args := optarg; opt_script := opt_script o |}
  else if bool_decide (c = Byte.x73) then
    {| opt_attr := opt_attr o; opt_uris := opt_uris o; opt_platform_args := opt_platform_args o; opt_script := optarg |}
  else o.

Section api.
Context {V : Type} `{C : !Code V} `{P : Platform} `{MP : MsgPuck} `{J : Jsmn}.
Context `{ST : !Storage V} `{EV : !Events V} `{HT : !Holds V cc_calvinsys_timer_t}.

(** The capabilities and the types of actors of the configuration. *)
Variable capabilities : list cap_desc.
Variable types : list (cc_actor_builtin_type_t (V:=V)).

Definition cc_api_runtime_init (attributes uris platform_args : option bytes) : R V cc_result_t :=
  ok ← on_world cc_platform_mem_alloc;
  guard! (ok : bool) else mret CC_FAIL in
  on_world (upd_node (fun _ => zero_node)) ;;
  r ← cc_node_init attributes uris capabilities types;
  guard! bool_decide (r = CC_SUCCESS) else mret CC_FAIL in
  r ← cc_platform_late_init platform_args;
  mret (if bool_decide (r = CC_SUCCESS) then CC_SUCCESS else CC_FAIL).

(** The answer of the run is not looked at. *)
Definition cc_api_runtime_start (fuel : nat) (script : option bytes) : R V cc_result_t :=
  _ ← cc_node_run fuel script; mret CC_SUCCESS.

Definition cc_api_runtime_stop : W cc_result_t := upd_node_state CC_NODE_STOP ;; mret CC_SUCCESS.

Definition cc_api_runtime_serialize_and_stop : R V cc_result_t :=
  node ← on_world get_node;
  (if bool_decide (node_state node = CC_NODE_STARTED) then cc_node_set_state true else mret tt) ;;
  on_world cc_api_runtime_stop.

(** The path is put together in an array of [strlen(CC_STATE_FILE) + strlen(filedir) + 1]
    bytes.  An empty [filedir] is read before its start. *)
Definition state_path (filedir : bytes) : outcome bytes :=
  let dir := cstr filedir in
  let size := (length CC_STATE_FILE + length dir + 1)%nat in
  match last dir with
  | None => Ub BufferOverflow
  | Some c =>
      let path := dir ++ (if bool_decide (c = SLASH) then [] else [SLASH]) ++ CC_STATE_FILE in
      if (length path <? size)%nat then Ok path else Ub BufferOverflow
  end.
Definition cc_api_clear_serialization_file (filedir : bytes) : R V cc_result_t :=
  path ← lift_outcome (state_path filedir);
  cc_platform_file_del path.

Definition cc_api_reconnect : W cc_result_t :=
  node ← get_node;
  client ← deref (node_transport_client node);
  (if bool_decide (tc_state client = CC_TRANSPORT_ENABLED)
   then upd_client (set_tc_state CC_TRANSPORT_INTERFACE_DOWN) else mret tt) ;;
  mret CC_SUCCESS.

(** [main]: [found] are the options in the order [getopt_long] finds them.  Did the
    program end with [EXIT_SUCCESS]? *)
Definition main (fuel : nat) (found : list (byte * option bytes)) : R V bool :=
  let o := foldl take_option no_options found in
  r ← cc_api_runtime_init (opt_attr o) (opt_uris o) (opt_platform_args o);
  guard! bool_decide (r = CC_SUCCESS) else mret false in
  r ← cc_api_runtime_start fuel (opt_script o);
  mret (bool_decide (r = CC_SUCCESS)).
End api.
