(* ===== verification/Android.v ===== *)
(** runtime/south/platform/android/cc_platform_android.c and
    runtime/south/transport/fcm: the platform of an Android application.

    The application and the runtime exchange messages over two pipes: a length prefix,
    a command of two letters, data.  The runtime reads the downstream pipe when the
    looper finds something in it; the application reads the upstream one.  A read of an
    empty pipe waits for the other side, which no step of this side ends: [Diverges].
    What pipes, the looper and the sensors answer is the class [Android].  What Java calls
    comes last. *)
From S2P Require Import Prelude CString Common Json MsgPuck Coder Fifo Machine Transport ProtoSend Port.
From S2P Require Import Proto Runtime CText Socket ActorStore Calvinsys Timer Actor AppManager Node.
From S2P Require Import NodeRun Dispatch X86Platform Api.

Inductive looper_watch := W_downstream | W_socket | W_sensor (obj : loc).
#[export] Instance looper_watch_eq_decision : EqDecision looper_watch.
Proof. solve_decision. Defined.

(** What ALooper_pollOnce answers, and whose descriptors it has found ready. *)
Inductive looper_poll_t := ALOOPER_POLL_CALLBACK (ready : list looper_watch) | ALOOPER_POLL_TIMEOUT | ALOOPER_POLL_OTHER.

Class Android := {
  pipe_ok : nat -> bool;                        (* pipe() *)
  pipe_write : nat -> nat -> Z;                 (* write(): how many of the bytes, -1 on an error *)
  looper_add : nat -> bool;                     (* ALooper_addFd() *)
  looper_poll : nat -> Z -> looper_poll_t;      (* within the milliseconds, -1 for ever *)
  sensor_list : nat -> list Z;                  (* the types of the sensors of the device *)
  create_queue : nat -> bool;
  default_sensor : nat -> Z -> bool;            (* is there one of the type? *)
  sensor_event : nat -> option (Z * Z * Z)      (* three floats, None on an error *)
}.

(** [cc_platform_android_t]: what is in the pipes, and the descriptors the looper
    watches.  The functions of the structure are those below. *)
Record cc_platform_android_t := {
  an_upstream : bytes;
  an_downstream : bytes;
  an_looper : list looper_watch
}.

(** What [node->platform] points to; [PlatformFreed] when that has been freed. *)
Inductive node_platform := PlatformAt (p : cc_platform_android_t) | PlatformFreed.

(** The data that an application has sent for an object. *)
Record platform_android_external_state_t := { ex_data : option bytes }.

(** [transport_fcm_client_t]: a pointer to the node. *)
Inductive transport_fcm_client_t := FcmClient.

Definition PLATFORM_ANDROID_CONNECT_REPLY : bytes := str "FR".
Definition PLATFORM_ANDROID_RUNTIME_STOP : bytes := str "RS".
Definition PLATFORM_ANDROID_RUNTIME_CALVIN_MSG : bytes := str "CM".
Definition PLATFORM_ANDROID_RUNTIME_STARTED : bytes := str "RR".
Definition PLATFORM_ANDROID_FCM_CONNECT : bytes := str "FC".
Definition PLATFORM_ANDROID_RUNTIME_SERIALIZE_AND_STOP : bytes := str "RA".
Definition PLATFORM_ANDROID_RUNTIME_TRIGGER_RECONNECT : bytes := str "RC".
Definition PLATFORM_ANDROID_REGISTER_EXTERNAL_CALVINSYS : bytes := str "CS".
Definition PLATFORM_ANDROID_DESTROY_EXTERNAL_CALVINSYS : bytes := str "CD".
Definition PLATFORM_ANDROID_OPEN_EXTERNAL_CALVINSYS : bytes := str "CI".
Definition PLATFORM_ANDROID_EXTERNAL_CALVINSYS_PAYLOAD : bytes := str "CP".
Definition PLATFORM_ANDROID_COMMAND_SIZE : nat := 2.

Definition CC_INDEFINITELY_TIMEOUT : Z := 0.

(** The rows of the table of code. *)
Definition accelerometer_code : nat := 4.
Definition gyroscope_code : nat := 5.
Definition external_code : nat := 6.

(** The types of sensors of the Android NDK. *)
Definition ASENSOR_TYPE_ACCELEROMETER : Z := 1.
Definition ASENSOR_TYPE_GYROSCOPE : Z := 4.

(** The first six bytes of the buffer are those of the head. *)
Definition framed (cmd data : bytes) : bytes :=
  take 4 (cc_transport_set_length_prefix data (Z.of_nat (length data) - Z.of_nat CC_TRANSPORT_LEN_PREFIX_SIZE))
  ++ cmd ++ drop (4 + PLATFORM_ANDROID_COMMAND_SIZE) data.
(** A buffer with room for the head. *)
Definition headed (data : bytes) : bytes := zeroed 6 ++ data.

(** [memcpy] into an array, from a position on. *)
Definition copy_to (buffer : bytes) (i : nat) (data : bytes) : option bytes :=
  if (i + length data <=? length buffer)%nat then Some (take i buffer ++ data ++ drop (i + length data) buffer) else None.

Section android.
Context {V : Type} `{C : !Code V} `{P : Platform} `{MP : MsgPuck} `{J : Jsmn}.
Context `{SK : Sockets} `{DK : Disk} `{AN : Android}.
Context `{HP : !Holds V node_platform} `{HE : !Holds V platform_android_external_state_t}.
Context `{HF : !Holds V transport_fcm_client_t} `{HK : !Holds V cc_transport_socket_client_t}.

(** ** The pipes *)

Definition get_android : R V cc_platform_android_t :=
  p ← get_platform;
  v ← state_as node_platform (ps_statics p !! 0%nat);
  match v with PlatformAt x => mret x | PlatformFreed => ub_ UseAfterFree end.
Definition put_node_platform (x : node_platform) : R V unit :=
  upd_platform (fun p => set_ps_statics (<[0%nat := hold x]> (ps_statics p)) p).

Definition put_upstream (b : bytes) : R V unit :=
  a ← get_android;
  put_node_platform (PlatformAt {| an_upstream := b; an_downstream := an_downstream a; an_looper := an_looper a |}).
Definition put_downstream (b : bytes) : R V unit :=
  a ← get_android;
  put_node_platform (PlatformAt {| an_upstream := an_upstream a; an_downstream := b; an_looper := an_looper a |}).
Definition put_looper (l : list looper_watch) : R V unit :=
  a ← get_android;
  put_node_platform (PlatformAt {| an_upstream := an_upstream a; an_downstream := an_downstream a; an_looper := l |}).

(** [write] to the upstream pipe. *)
Definition write_upstream (data : bytes) : R V Z :=
  a ← get_android;
  n ← os_tick;
  let res := pipe_write n (length data) in
  put_upstream (an_upstream a ++ take (Z.to_nat res) data) ;;
  mret res.

Definition send_upstream_platform_message (cmd data : bytes) : R V Z := write_upstream (framed cmd data).

Definition send_downstream_platform_message (data : bytes) : R V cc_result_t :=
  a ← get_android;
  n ← os_tick;
  let res := pipe_write n (length data) in
  put_downstream (an_downstream a ++ take (Z.to_nat res) data) ;;
  mret (if 0 <? res then CC_SUCCESS else CC_FAIL).

(** [read] of at most [size] bytes, not none. *)
Definition read_pipe (pipe : bytes) (size : nat) : R V (bytes * bytes) :=
  if bool_decide (pipe = []) then ub_ Diverges else mret (take size pipe, drop size pipe).

(** The message in front of the upstream pipe, with its prefix. *)
Definition read_upstream (size : nat) : R V (option bytes) :=
  a ← get_android;
  '(prefix, rest) ← read_pipe (an_upstream a) CC_TRANSPORT_LEN_PREFIX_SIZE;
  put_upstream rest ;;
  guard! negb (length prefix <? CC_TRANSPORT_LEN_PREFIX_SIZE)%nat else mret None in
  let datasize := cc_transport_get_message_len prefix in
  guard! datasize <=? Z.of_nat (size - CC_TRANSPORT_LEN_PREFIX_SIZE) else mret None in
  guard! negb (datasize =? 0) else mret (Some prefix) in
  '(data, rest) ← read_pipe rest (Z.to_nat datasize);
  put_upstream rest ;;
  mret (if Z.of_nat (length data) =? datasize then Some (prefix ++ data) else None).

(** ** The commands of the application *)

Definition command_transport_connected (data : bytes) (size : Z) : R V cc_result_t :=
  on_world (upd_client (set_tc_state CC_TRANSPORT_CONNECTED)) ;; mret CC_SUCCESS.

Definition command_rt_stop (data : bytes) (size : Z) : R V cc_result_t := on_world cc_api_runtime_stop.

(** The data is a message with its own length prefix, which must be in the array. *)
Definition command_calvin_msg (data : bytes) (size : Z) : R V cc_result_t :=
  guard! negb (length data <? 4)%nat else ub_ BufferOverflow in
  let len := cc_transport_get_message_len data in
  let message := drop 4 data in
  guard! len <=? Z.of_nat (length message) else ub_ BufferOverflow in
  cc_node_handle_message (take (Z.to_nat len) message).

Context `{ST : !Storage V}.

Definition platform_serialize_and_stop (data : bytes) (size : Z) : R V cc_result_t := cc_api_runtime_serialize_and_stop.
Definition platform_trigger_reconnect (data : bytes) (size : Z) : R V cc_result_t := on_world cc_api_reconnect.

(** The name ends where the data has a NUL, or with it. *)
Definition platform_register_external_calvinsys (data : bytes) (size : Z) : R V cc_result_t :=
  ok ← on_world cc_platform_mem_alloc;
  guard! (ok : bool) else mret CC_FAIL in
  guard! bool_decide (NUL ∈ data) || (size <=? Z.of_nat (length data)) else ub_ BufferOverflow in
  let name := take (Z.to_nat size) (cstr data) in
  r ← cc_calvinsys_create_capability {| cd_name := name; cd_code := external_code; cd_init_args := None; cd_python_module := None |};
  guard! bool_decide (r = CC_SUCCESS) else mret CC_FAIL in
  on_world (cc_proto_send_node_setup H_platform_setup_reply).

(** What [cc_list_get_n] answers is the item of the list, not the object it holds. *)
Definition platform_handle_external_calvinsys_data (data : bytes) (size : Z) : R V cc_result_t :=
  let? name := cc_coder_decode_string_from_map data (str "calvinsys") else mret CC_FAIL in
  let? (id, id_len) := cc_coder_decode_string_from_map data (str "id") else mret CC_FAIL in
  let? (payload, payload_len) := cc_coder_decode_bin_from_map data (str "payload") else mret CC_FAIL in
  s ← get_;
  match list_get_n (cs_objects s) id id_len with
  | None => mret CC_FAIL
  | Some obj => ub_ BadCast
  end.

Definition platform_command_handlers : list (bytes * (bytes -> Z -> R V cc_result_t)) :=
  [ (PLATFORM_ANDROID_CONNECT_REPLY, command_transport_connected);
    (PLATFORM_ANDROID_RUNTIME_STOP, command_rt_stop);
    (PLATFORM_ANDROID_RUNTIME_CALVIN_MSG, command_calvin_msg);
    (PLATFORM_ANDROID_RUNTIME_SERIALIZE_AND_STOP, platform_serialize_and_stop);
    (PLATFORM_ANDROID_RUNTIME_TRIGGER_RECONNECT, platform_trigger_reconnect);
    (PLATFORM_ANDROID_REGISTER_EXTERNAL_CALVINSYS, platform_register_external_calvinsys);
    (PLATFORM_ANDROID_EXTERNAL_CALVINSYS_PAYLOAD, platform_handle_external_calvinsys_data) ].

(** [strncmp] of a command with what is in the array at its place: only as much of it is
    looked at as is alike. *)
Fixpoint command_matches (command data : bytes) : outcome bool :=
  match command, data with
  | [], _ => Ok true
  | _ :: _, [] => Ub BufferOverflow
  | c :: command, d :: data => if bool_decide (c = d) then command_matches command data else Ok false
  end.

Fixpoint find_command (handlers : list (bytes * (bytes -> Z -> R V cc_result_t))) (data : bytes)
  : outcome (option (bytes -> Z -> R V cc_result_t)) :=
  match handlers with
  | [] => Ok None
  | (command, handler) :: handlers =>
      m ← command_matches command data;
      if (m : bool) then Ok (Some handler) else find_command handlers data
  end.

(** The message is put together in an array of the size that its prefix tells, of which
    the prefix itself takes four bytes. *)
Definition handle_platform_call : R V cc_result_t :=
  size_buffer ← uninit 4;
  a ← get_android;
  '(got, rest) ← read_pipe (an_downstream a) 4;
  put_downstream rest ;;
  let size_buffer := got ++ drop (length got) size_buffer in
  let total_msg_size := Z.to_nat (cc_transport_get_message_len size_buffer) in
  data_buffer ← uninit total_msg_size;
  data_buffer ← need BufferOverflow (copy_to data_buffer 0 size_buffer);
  '(got, rest) ← read_pipe rest total_msg_size;
  put_downstream rest ;;
  data_buffer ← need BufferOverflow (copy_to data_buffer 4 got);
  handler ← lift_outcome (find_command platform_command_handlers (drop 4 data_buffer));
  let? handler := handler else mret CC_FAIL in
  _ ← (handler : bytes -> Z -> R V cc_result_t) (drop 6 data_buffer) (Z.of_nat total_msg_size - 2);
  mret CC_SUCCESS.

(** The looper keeps calling, whatever they answer. *)
Definition platform_android_handle_data : R V cc_result_t := handle_platform_call.
Definition platform_android_handle_socket_data : R V cc_result_t := cc_transport_handle_data cc_node_handle_message.
Definition platform_android_fcm_fd_handler : R V bool := _ ← platform_android_handle_data; mret true.
Definition platform_android_socket_fd_handler : R V bool := _ ← platform_android_handle_socket_data; mret true.

(** ** Files *)

(** The text of the functions of the x86 platform. *)
Definition android_file_stat : bytes -> R V cc_stat_t := x86_file_stat.
Definition android_file_read : bytes -> R V (option bytes) := x86_file_read.
Definition android_create_dirs : bytes -> R V cc_result_t := cc_platform_create_dirs.
Definition android_file_write : bytes -> bytes -> R V cc_result_t := x86_file_write.
Definition android_file_del : bytes -> R V cc_result_t := x86_file_del.

#[local] Instance android_storage : Storage V := {
  cc_platform_file_stat := android_file_stat;
  cc_platform_file_read := android_file_read;
  cc_platform_file_write := android_file_write;
  cc_platform_file_del := android_file_del
}.

(** ** Objects of the application *)

(** The identifier of an object is the identifier of its item. *)
Definition obj_id (obj : loc) : R V bytes :=
  s ← get_;
  need UseAfterFree (li_id <$> List.find (fun i => bool_decide (li_data i = obj)) (cs_objects s)).

Definition external_msg (cmd data : bytes) (size : nat) : R V Z :=
  on_world (in_buffer size (headed data)) ;;
  send_upstream_platform_message cmd (headed data).

Definition platform_external_can_write (obj : loc) : R V bool :=
  o ← get_obj obj;
  _ ← get_cap (obj_capability o);
  node ← on_world get_node;
  mret (bool_decide (is_Some (node_transport_client node))).

Definition platform_external_write (obj : loc) (data : option bytes) : R V cc_result_t :=
  data ← need NullDeref data;
  id ← obj_id obj;
  let w := cc_coder_encode_map [] 2 in
  let w := cc_coder_encode_kv_str w (str "id") id (strlen id) in
  let w := cc_coder_encode_kv_bin w (str "payload") data (length data) in
  res ← external_msg PLATFORM_ANDROID_EXTERNAL_CALVINSYS_PAYLOAD w (100 + length data);
  mret (if 0 <? res then CC_SUCCESS else CC_FAIL).

Definition platform_external_can_read (obj : loc) : R V bool :=
  state ← get_obj_state platform_android_external_state_t obj;
  mret (match ex_data state with Some (_ :: _) => true | _ => false end).

Definition platform_external_read (obj : loc) : R V (cc_result_t * option bytes) :=
  state ← get_obj_state platform_android_external_state_t obj;
  match ex_data state with
  | Some (b :: data) =>
      put_obj_state obj {| ex_data := None |} ;;
      mret (CC_SUCCESS, Some (b :: data))
  | _ => mret (CC_FAIL, None)
  end.

Definition platform_external_close (obj : loc) : R V cc_result_t :=
  _ ← get_obj_state platform_android_external_state_t obj;
  id ← obj_id obj;
  let w := cc_coder_encode_map [] 1 in
  let w := cc_coder_encode_kv_str w (str "id") id (strlen id) in
  res ← external_msg PLATFORM_ANDROID_DESTROY_EXTERNAL_CALVINSYS w 100;
  guard! 0 <? res else mret CC_FAIL in
  upd_obj obj (set_obj_state None) ;;
  mret CC_SUCCESS.

Definition platform_external_open (obj : loc) (kwargs : list (cc_list_t bytes)) : R V cc_result_t :=
  ok ← on_world cc_platform_mem_alloc;
  guard! (ok : bool) else mret CC_FAIL in
  upd_obj obj (set_obj_methods (Some external_code)) ;;
  put_obj_state obj {| ex_data := None |} ;;
  id ← obj_id obj;
  o ← get_obj obj;
  capability ← get_cap (obj_capability o);
  let w := cc_coder_encode_map [] 2 in
  let w := cc_coder_encode_kv_str w (str "id") id (strlen id) in
  let w := cc_coder_encode_kv_str w (str "name") (cap_name capability) (strlen (cap_name capability)) in
  res ← external_msg PLATFORM_ANDROID_OPEN_EXTERNAL_CALVINSYS w 500;
  mret (if res =? Z.of_nat (length (headed w)) then CC_SUCCESS else CC_FAIL).

Definition external_methods : cc_obj_code_t V :=
  {| oc_can_write := Some platform_external_can_write; oc_write := Some platform_external_write;
     oc_can_read := Some platform_external_can_read; oc_read := Some platform_external_read;
     oc_close := Some platform_external_close; oc_serialize := None |}.

(** ** The node tells the application *)

(** The head of a message without data. *)
Definition six_bytes (cmd : bytes) : bytes := [NUL; NUL; NUL; Byte.x02] ++ cmd.

Definition cc_platform_node_started : R V cc_result_t :=
  res ← write_upstream (six_bytes PLATFORM_ANDROID_RUNTIME_STARTED);
  mret (if res <? 0 then CC_FAIL else CC_SUCCESS).

Definition android_stop : R V cc_result_t :=
  res ← write_upstream (six_bytes PLATFORM_ANDROID_RUNTIME_STOP);
  mret (if res <? 0 then CC_FAIL else CC_SUCCESS).

(** ** The start of the platform *)

(** One more capability for a sensor that is known. *)
Definition add_sensor (type : Z) : R V cc_result_t :=
  if type =? ASENSOR_TYPE_ACCELEROMETER then
    cc_calvinsys_create_capability {| cd_name := str "io.accelerometer"; cd_code := accelerometer_code; cd_init_args := None; cd_python_module := None |}
  else if type =? ASENSOR_TYPE_GYROSCOPE then
    cc_calvinsys_create_capability {| cd_name := str "io.gyroscope"; cd_code := gyroscope_code; cd_init_args := None; cd_python_module := None |}
  else mret CC_SUCCESS.
Fixpoint add_sensors (types : list Z) : R V cc_result_t :=
  match types with
  | [] => mret CC_SUCCESS
  | type :: types =>
      r ← add_sensor type;
      guard! bool_decide (r = CC_SUCCESS) else mret CC_FAIL in
      add_sensors types
  end.

(** When there are no pipes the node keeps its pointer to the platform that is freed. *)
Definition android_late_init (args : option bytes) : R V cc_result_t :=
  ok ← on_world cc_platform_mem_alloc;
  guard! (ok : bool) else mret CC_FAIL in
  put_node_platform (PlatformAt {| an_upstream := []; an_downstream := []; an_looper := [] |}) ;;
  n ← os_tick;
  ok ← (if pipe_ok n then n ← os_tick; mret (pipe_ok n) else mret false);
  guard! (ok : bool) else (put_node_platform PlatformFreed ;; mret CC_FAIL) in
  n ← os_tick;
  add_sensors (sensor_list n).

(** ** Firebase messages *)

Definition transport_fcm_connect : R V cc_result_t :=
  buffer ← uninit (CC_TRANSPORT_LEN_PREFIX_SIZE + PLATFORM_ANDROID_COMMAND_SIZE);
  res ← send_upstream_platform_message PLATFORM_ANDROID_FCM_CONNECT buffer;
  if 0 <? res then
    on_world (upd_client (set_tc_state CC_TRANSPORT_PENDING)) ;; mret CC_SUCCESS
  else
    on_world (upd_client (set_tc_state CC_TRANSPORT_INTERFACE_DOWN)) ;; mret CC_FAIL.

Definition get_fcm : R V transport_fcm_client_t :=
  p ← get_platform; state_as transport_fcm_client_t (ps_client_state p).

Definition transport_fcm_send (data : bytes) : R V Z :=
  _ ← get_fcm; send_upstream_platform_message PLATFORM_ANDROID_RUNTIME_CALVIN_MSG data.

Definition transport_fcm_recv (size : nat) : R V bytes :=
  _ ← get_fcm;
  a ← get_android;
  '(got, rest) ← read_pipe (an_downstream a) size;
  put_downstream rest ;;
  mret got.

Definition transport_fcm_disconnect : R V unit := mret tt.
Definition transport_fcm_free : R V unit := upd_platform (set_ps_client_state None).

(** The uri is copied with its terminator. *)
Definition cc_transport_fcm_create (uri : bytes) : R V (option cc_transport_client_t) :=
  ok ← on_world cc_platform_mem_alloc;
  guard! (ok : bool) else mret None in
  ok ← on_world cc_platform_mem_alloc;
  guard! (ok : bool) else mret None in
  upd_platform (set_ps_client_state (Some (hold FcmClient))) ;;
  uri ← need BufferOverflow (copy_to (zeroed CC_MAX_URI_LEN) 0 (cstr uri ++ [NUL]));
  mret (Some {| tc_transport_type := CC_TRANSPORT_FCM_TYPE; tc_uri := uri;
                tc_peer_id := zeroed CC_UUID_BUFFER_SIZE; tc_state := CC_TRANSPORT_INTERFACE_UP;
                tc_rx_buffer := no_rx;
                tc_prefix_len := CC_TRANSPORT_LEN_PREFIX_SIZE + PLATFORM_ANDROID_COMMAND_SIZE |}).

(** [CC_TRANSPORTS] of cc_config_android.h. *)
Definition android_transports : list (bytes * (bytes -> R V (option cc_transport_client_t))) :=
  [ (str "calvinip", cc_transport_socket_create); (str "ssdp", cc_transport_socket_create);
    (str "fcm", cc_transport_fcm_create) ].

Definition android_transport_create (uri : bytes) : R V (option cc_transport_client_t) :=
  client ← create_client android_transports uri None;
  mret (set_tc_rx_buffer no_rx <$> client).

(** The functions of the client, by its type. *)
Definition is_fcm : R V bool :=
  client ← on_world get_client;
  mret (match tc_transport_type client with CC_TRANSPORT_FCM_TYPE => true | _ => false end).
Definition android_transport_connect : R V cc_result_t :=
  fcm ← is_fcm; if (fcm : bool) then transport_fcm_connect else cc_transport_socket_connect.
Definition android_transport_disconnect : R V unit :=
  fcm ← is_fcm;
  if (fcm : bool) then transport_fcm_disconnect ;; transport_fcm_free
  else cc_transport_socket_disconnect ;; cc_transport_socket_free.

(** ** Events *)

Variable sensor_callback : loc -> R V bool.

(** A descriptor is watched once; when it cannot be, the process sleeps and goes on. *)
Definition watch (w : looper_watch) : R V unit :=
  a ← get_android;
  n ← os_tick;
  if looper_add n then
    put_looper (if bool_decide (w ∈ an_looper a) then an_looper a else w :: an_looper a)
  else _ ← os_tick; mret tt.

(** The callback of a descriptor that is watched; one that answers 0 is not watched any
    more. *)
Definition run_callback (w : looper_watch) : R V unit :=
  a ← get_android;
  guard! bool_decide (w ∈ an_looper a) else mret tt in
  continue ← match w with
             | W_downstream => platform_android_fcm_fd_handler
             | W_socket => platform_android_socket_fd_handler
             | W_sensor obj => sensor_callback obj
             end;
  if (continue : bool) then mret tt
  else a ← get_android; put_looper (filter (fun x => x <> w) (an_looper a)).
Fixpoint run_callbacks (ready : list looper_watch) : R V unit :=
  match ready with [] => mret tt | w :: ready => run_callback w ;; run_callbacks ready end.

(** The seconds are given as milliseconds. *)
Definition android_evt_wait (timeout_seconds : Z) : R V cc_platform_evt_wait_status_t :=
  watch W_downstream ;;
  node ← on_world get_node;
  let wait :=
    n ← os_tick;
    match looper_poll n (if timeout_seconds =? CC_INDEFINITELY_TIMEOUT then -1 else timeout_seconds) with
    | ALOOPER_POLL_CALLBACK ready => run_callbacks ready ;; mret CC_PLATFORM_EVT_WAIT_DATA_READ
    | ALOOPER_POLL_TIMEOUT => mret CC_PLATFORM_EVT_WAIT_DATA_READ
    | ALOOPER_POLL_OTHER => mret CC_PLATFORM_EVT_WAIT_TIMEOUT
    end in
  match node_transport_client node with
  | Some client =>
      if bool_decide (tc_state client = CC_TRANSPORT_PENDING) || bool_decide (tc_state client = CC_TRANSPORT_ENABLED) then
        (match tc_transport_type client with
         | CC_TRANSPORT_SOCKET_TYPE => _ ← get_socket; watch W_socket
         | _ => mret tt
         end) ;;
        wait
      else _ ← os_tick; mret CC_PLATFORM_EVT_WAIT_TIMEOUT
  | None => _ ← os_tick; mret CC_PLATFORM_EVT_WAIT_TIMEOUT
  end.

#[local] Instance android_events : Events V := {
  cc_platform_evt_wait := android_evt_wait;
  cc_platform_late_init := android_late_init;
  transport_create := android_transport_create;
  transport_connect := android_transport_connect;
  cc_platform_stop := android_stop;
  transport_disconnect := android_transport_disconnect
}.
End android.

(** * runtime/south/platform/android/cc_jni_api.c: what the Java application calls.

    The calls come from the threads of the application; one that writes to a pipe, or
    reads from it, is a step between the steps of the runtime. *)

Definition CC_TRANSPORT_RX_BUFFER_SIZE : nat := 512.

(** A message for the runtime. *)
Definition downstream_message (cmd data : bytes) : bytes :=
  length_prefix (Z.of_nat PLATFORM_ANDROID_COMMAND_SIZE + Z.of_nat (length data)) ++ cmd ++ data.

Section jni.
Context {V : Type} `{C : !Code V} `{P : Platform} `{MP : MsgPuck} `{J : Jsmn}.
Context `{SK : Sockets} `{AN : Android} `{ST : !Storage V} `{EV : !Events V}.
Context `{HP : !Holds V node_platform} `{HT : !Holds V cc_calvinsys_timer_t}.
Variable capabilities : list cap_desc.
Variable types : list (cc_actor_builtin_type_t (V:=V)).

(** The application gets the node whatever its initialisation answered. *)
Definition runtimeInit (proxy_uris attributes storage_dir : option bytes) : R V unit :=
  _ ← cc_api_runtime_init capabilities types attributes proxy_uris storage_dir; mret tt.

(** The array that is answered is three bytes longer than the message. *)
Definition readUpstreamData : R V (option bytes) :=
  r ← read_upstream CC_TRANSPORT_RX_BUFFER_SIZE;
  let? message := r else mret None in
  let buffer := message ++ zeroed (CC_TRANSPORT_RX_BUFFER_SIZE - length message) in
  let size := Z.to_nat (cc_transport_get_message_len buffer) in
  guard! (size + 7 <=? length buffer)%nat else ub_ BufferOverflow in
  mret (Some (take (size + 7) buffer)).

(** [cc_api_runtime_start] is called without the script it takes: there is none. *)
Definition runtimeStart (fuel : nat) : R V unit := _ ← cc_api_runtime_start fuel None; mret tt.
Definition runtimeStop : R V unit := _ ← on_world cc_api_runtime_stop; mret tt.

Definition send_command (cmd data : bytes) : R V unit :=
  _ ← send_downstream_platform_message (downstream_message cmd data); mret tt.

Definition runtimeCalvinPayload (data : bytes) : R V unit := send_command PLATFORM_ANDROID_RUNTIME_CALVIN_MSG data.
Definition fcmTransportConnected : R V unit := send_command PLATFORM_ANDROID_CONNECT_REPLY [].
Definition runtimeSerializeAndStop : R V unit := send_command PLATFORM_ANDROID_RUNTIME_SERIALIZE_AND_STOP [].
Definition triggerConnectivityChange : R V unit := send_command PLATFORM_ANDROID_RUNTIME_TRIGGER_RECONNECT [].
Definition registerExternalCalvinsys (name : bytes) : R V unit :=
  send_command PLATFORM_ANDROID_REGISTER_EXTERNAL_CALVINSYS (cstr name).
Definition writeCalvinsysPayload (data : bytes) : R V unit :=
  send_command PLATFORM_ANDROID_EXTERNAL_CALVINSYS_PAYLOAD data.

Definition clearSerialization : R V unit := _ ← cc_platform_file_del CC_STATE_FILE; mret tt.

(** [None] where the function ends without an answer. *)
Definition getNodeState : R V (option Z) :=
  node ← on_world get_node;
  mret (match node_state node with
        | CC_NODE_DO_START => Some 0
        | CC_NODE_PENDING => Some 1
        | CC_NODE_STARTED => Some 2
        | CC_NODE_STOP => Some 3
        | _ => None
        end).
End jni.
