(* ===== verification/AndroidDevices.v ===== *)
(** runtime/south/platform/android/calvinsys: the accelerometer and the gyroscope of an
    Android device, and the configuration of cc_config_android.h.

    A sensor that is open puts its events in a queue, whose descriptor the looper
    watches; its callback keeps the last event for the next read. *)
From S2P Require Import Prelude CString CText Common Json MsgPuck Coder Fifo Machine Transport ProtoSend.
From S2P Require Import Port Proto Runtime Socket Calvinsys ActorStore ActorLib CountTimer Sensors Library.
From S2P Require Import Actor AppManager Node NodeRun Dispatch X86Platform Api Android.

(** [cc_android_sensor_data_t]; the sensor is never NULL in an object that is open. *)
Record cc_android_sensor_data_t := {
  sd_type : Z;               (* the type of the sensor, 1 or 4 *)
  sd_queue : bool;           (* is there a queue? *)
  sd_data : option bytes;
  sd_period : Z              (* int32_t *)
}.

Inductive android_state :=
  | A_sensor (x : cc_android_sensor_data_t) | A_external (x : platform_android_external_state_t)
  | A_platform (x : node_platform) | A_fcm (x : transport_fcm_client_t) | A_socket (x : cc_transport_socket_client_t).

#[export, refine] Instance holds_android_sensor : Holds (lib_state android_state) cc_android_sensor_data_t :=
  {| hold x := S_device (A_sensor x); held v := match v with S_device (A_sensor x) => Some x | _ => None end |}.
Proof. done. Defined.
#[export, refine] Instance holds_android_external : Holds (lib_state android_state) platform_android_external_state_t :=
  {| hold x := S_device (A_external x); held v := match v with S_device (A_external x) => Some x | _ => None end |}.
Proof. done. Defined.
#[export, refine] Instance holds_android_platform : Holds (lib_state android_state) node_platform :=
  {| hold x := S_device (A_platform x); held v := match v with S_device (A_platform x) => Some x | _ => None end |}.
Proof. done. Defined.
#[export, refine] Instance holds_android_fcm : Holds (lib_state android_state) transport_fcm_client_t :=
  {| hold x := S_device (A_fcm x); held v := match v with S_device (A_fcm x) => Some x | _ => None end |}.
Proof. done. Defined.
#[export, refine] Instance holds_android_socket : Holds (lib_state android_state) cc_transport_socket_client_t :=
  {| hold x := S_device (A_socket x); held v := match v with S_device (A_socket x) => Some x | _ => None end |}.
Proof. done. Defined.

Section sensors.
Context {V : Type} `{P : Platform} `{MP : MsgPuck} `{AN : Android}.
Context `{HP : !Holds V node_platform} `{HS : !Holds V cc_android_sensor_data_t}.

Definition set_sensor_data (obj : loc) (data : option bytes) : R V unit :=
  s ← get_obj_state cc_android_sensor_data_t obj;
  put_obj_state obj {| sd_type := sd_type s; sd_queue := sd_queue s; sd_data := data; sd_period := sd_period s |}.

(** ** cc_accelerometer.c *)

Definition cc_accelerometer_can_read (obj : loc) : R V bool :=
  s ← get_obj_state cc_android_sensor_data_t obj;
  mret (match sd_data s with Some (_ :: _) => true | _ => false end).

Definition cc_accelerometer_read (obj : loc) : R V (cc_result_t * option bytes) :=
  s ← get_obj_state cc_android_sensor_data_t obj;
  match sd_data s with
  | Some (b :: data) => set_sensor_data obj None ;; mret (CC_SUCCESS, Some (b :: data))
  | _ => mret (CC_FAIL, None)
  end.

(** The queue stays, and the looper watches it. *)
Definition cc_accelerometer_close (obj : loc) : R V cc_result_t :=
  _ ← get_obj_state cc_android_sensor_data_t obj;
  upd_obj obj (set_obj_state None) ;;
  mret CC_SUCCESS.

(** An event as it is kept: a map of the three floats. *)
Definition encode_event (event : Z * Z * Z) : bytes :=
  let '(x, y, z) := event in
  let w := cc_coder_encode_map [] 3 in
  let w := cc_coder_encode_kv_float w (str "x") x in
  let w := cc_coder_encode_kv_float w (str "y") y in
  cc_coder_encode_kv_float w (str "z") z.

(** Does the looper go on watching?  The data of an earlier event is freed. *)
Definition cc_accelerometer_looper_callback (obj : loc) : R V bool :=
  s ← get_obj_state cc_android_sensor_data_t obj;
  guard! sd_queue s else mret false in
  n ← os_tick;
  let? event := sensor_event n else mret true in
  set_sensor_data obj None ;;
  let '(x, y, z) := event in
  let size := 50 + cc_coder_sizeof_float x + cc_coder_sizeof_float y + cc_coder_sizeof_float z in
  ok ← on_world cc_platform_mem_alloc;
  guard! (ok : bool) else mret false in
  on_world (in_buffer (Z.to_nat size) (encode_event event)) ;;
  set_sensor_data obj (Some (encode_event event)) ;;
  mret true.

Definition cc_accelerometer_serialize (id : bytes) (obj : loc) (buffer : bytes) : R V (option bytes) :=
  s ← get_obj_state cc_android_sensor_data_t obj;
  let buffer := cc_coder_encode_kv_map buffer (str "obj") 1 in
  mret (Some (cc_coder_encode_kv_uint buffer (str "period") (u32 (sd_period s)))).

(** The queue is made, and watched, before it is known whether there is a sensor. *)
Definition sensor_open (type : Z) (code : nat) (obj : loc) (kwargs : list (cc_list_t bytes)) : R V cc_result_t :=
  let? item := list_get kwargs (str "period") else mret CC_FAIL in
  period ← lift_outcome (cc_coder_decode_uint (li_data item));
  let? period := period else mret CC_FAIL in
  ok ← on_world cc_platform_mem_alloc;
  guard! (ok : bool) else mret CC_FAIL in
  a ← get_android;
  n ← os_tick;
  let queue := create_queue n in
  (if queue then put_looper (W_sensor obj :: an_looper a) else mret tt) ;;
  n ← os_tick;
  guard! default_sensor n type else mret CC_FAIL in
  upd_obj obj (set_obj_methods (Some code)) ;;
  put_obj_state obj {| sd_type := type; sd_queue := queue; sd_data := None; sd_period := i32 period |} ;;
  mret CC_SUCCESS.

Definition cc_accelerometer_open : loc -> list (cc_list_t bytes) -> R V cc_result_t :=
  sensor_open ASENSOR_TYPE_ACCELEROMETER accelerometer_code.

Definition accelerometer_methods : cc_obj_code_t V :=
  {| oc_can_write := None; oc_write := None; oc_can_read := Some cc_accelerometer_can_read;
     oc_read := Some cc_accelerometer_read; oc_close := Some cc_accelerometer_close;
     oc_serialize := Some cc_accelerometer_serialize |}.

(** ** cc_gyroscope.c *)

(** The text of the functions of the accelerometer under other names; the three floats
    of the event are those of its vector. *)
Definition gyroscope_can_read : loc -> R V bool := cc_accelerometer_can_read.
Definition gyroscope_read : loc -> R V (cc_result_t * option bytes) := cc_accelerometer_read.
Definition gyroscope_close : loc -> R V cc_result_t := cc_accelerometer_close.
Definition gyroscope_looper_callback : loc -> R V bool := cc_accelerometer_looper_callback.
Definition cc_gyroscope_serialize : bytes -> loc -> bytes -> R V (option bytes) := cc_accelerometer_serialize.
Definition cc_gyroscope_open : loc -> list (cc_list_t bytes) -> R V cc_result_t :=
  sensor_open ASENSOR_TYPE_GYROSCOPE gyroscope_code.

Definition gyroscope_methods : cc_obj_code_t V :=
  {| oc_can_write := None; oc_write := None; oc_can_read := Some gyroscope_can_read;
     oc_read := Some gyroscope_read; oc_close := Some gyroscope_close;
     oc_serialize := Some cc_gyroscope_serialize |}.

(** The callback of the queue of an object. *)
Definition sensor_callback (obj : loc) : R V bool :=
  s ← get_obj_state cc_android_sensor_data_t obj;
  if sd_type s =? ASENSOR_TYPE_GYROSCOPE then gyroscope_looper_callback obj else cc_accelerometer_looper_callback obj.
End sensors.

(** ** The configuration *)

(** [open] is also what restores a sensor. *)
#[export] Instance android_devices `{P : Platform} `{MP : MsgPuck} `{AN : Android} : Devices android_state := {
  device_capability i :=
    match i with
    | 0%nat => {| cap_open := Some cc_accelerometer_open; cap_deserialize := Some cc_accelerometer_open |}
    | 1%nat => {| cap_open := Some cc_gyroscope_open; cap_deserialize := Some cc_gyroscope_open |}
    | _ => {| cap_open := Some platform_external_open; cap_deserialize := None |}
    end;
  device_object i :=
    match i with 0%nat => accelerometer_methods | 1%nat => gyroscope_methods | _ => external_methods end
}.

Section configuration.
Context `{P : Platform} `{MP : MsgPuck} `{AN : Android} `{J : Jsmn} `{SK : Sockets} `{DK : Disk}.

(** No capabilities are configured: the sensors of the device are added when the
    platform starts, those of applications when they are registered. *)
Definition android_capabilities : list cap_desc := [].

(** [CC_C_ACTORS] of cc_config_android.h. *)
Definition android_types : list (cc_actor_builtin_type_t (V:=lib_state android_state)) :=
  let C := objects_code in
  [ {| bt_name := str "sensor.Accelerometer"; bt_setup := Some cc_actor_accelerometer_setup |};
    {| bt_name := str "sensor.Gyroscope"; bt_setup := Some cc_actor_gyroscope_setup |} ].
End configuration.
