(* ===== verification/Esp8266.v ===== *)
(** runtime/south/platform/esp-open-rtos: the ESP8266 platform.  Files on the flash,
    the wait for an event, the configuration that a board asks for when it has none
    (over HTTP, as an access point), the start of the board, and the devices of its
    configuration.

    A flash file system is flat: the files of [platform_state]; what it refuses is the
    class [Disk].  The sockets of lwIP are the class [Sockets]; [bind], [accept] and the
    calls of the SDK that answer something are the class [Esp].  Calls of the SDK that
    answer nothing (the radio mode, DHCP, delays) are not modelled. *)
From Stdlib Require Import SpecFloat.
From S2P Require Import Prelude CString Common Json MsgPuck Coder Fifo Machine Transport ProtoSend Port.
From S2P Require Import Proto Runtime CText Socket ActorStore Calvinsys Timer ActorLib.
From S2P Require Import CountTimer Sensors Library Actor AppManager Node NodeRun Dispatch.
From S2P Require Import X86Platform Api.

Inductive station_status := STATION_GOT_IP | STATION_WRONG_PASSWORD | STATION_OTHER.
#[export] Instance station_status_eq_decision : EqDecision station_status.
Proof. solve_decision. Defined.

Class Esp := {
  esp_bind : nat -> bool;
  esp_accept : nat -> Z;
  spiffs_mount : nat -> bool;
  spiffs_format : nat -> bool;
  sdk_status : nat -> station_status;
  sdk_ssid_size : nat;                          (* of the fields of sdk_station_config *)
  sdk_password_size : nat;
  sdk_adc : nat -> Z;                           (* sdk_system_adc_read(), 16 bits *)
  ds18b20_scan : nat -> Z -> Z;                 (* by the pin: how many *)
  ds18b20_read : nat -> Z -> spec_float;
  esp_garbage : nat -> spec_float               (* what memory that is not initialised holds *)
}.

Definition CC_ESP_BUFFER_SIZE : nat := 1024.
Definition CC_WIFI_CONFIG_FILE : bytes := str "wifi.msgpack".

Section platform.
Context {V : Type} `{C : !Code V} `{P : Platform} `{MP : MsgPuck} `{J : Jsmn}.
Context `{SK : Sockets} `{DK : Disk} `{ES : Esp} `{HK : !Holds V cc_transport_socket_client_t}.

(** ** Files *)

Definition esp_file_stat (path : bytes) : R V cc_stat_t :=
  n ← os_tick;
  p ← get_platform;
  mret (if disk_ok n && bool_decide (is_Some (ps_files p !! path)) then CC_STAT_FILE else CC_STAT_NO_EXIST).

(** A file that is opened for writing is empty first. *)
Definition esp_file_write (path buffer : bytes) : R V cc_result_t :=
  n ← os_tick;
  guard! disk_ok n else mret CC_FAIL in
  n ← os_tick;
  let written := take (disk_count n (length buffer)) buffer in
  upd_platform (fun p => set_ps_files (<[path := written]> (ps_files p)) p) ;;
  mret (if (length written =? length buffer)%nat then CC_SUCCESS else CC_FAIL).

(** A file that cannot be allocated for is left open. *)
Definition esp_file_read (path : bytes) : R V (option bytes) :=
  n ← os_tick;
  p ← get_platform;
  let? content := ps_files p !! path else mret None in
  guard! disk_ok n else mret None in
  ok ← on_world cc_platform_mem_alloc;
  guard! (ok : bool) else mret None in
  n ← os_tick;
  mret (if (length content <=? disk_count n (length content))%nat then Some content else None).

(** It is not implemented. *)
Definition esp_file_del (path : bytes) : R V cc_result_t := mret CC_SUCCESS.

#[local] Instance esp_storage : Storage V := {
  cc_platform_file_stat := esp_file_stat;
  cc_platform_file_read := esp_file_read;
  cc_platform_file_write := esp_file_write;
  cc_platform_file_del := esp_file_del
}.

(** ** Events *)

(** What [select] answers is not looked at: where it fails, the set is as it was. *)
Definition esp_evt_wait (timeout_seconds : Z) : R V cc_platform_evt_wait_status_t :=
  fd ← transport_fd;
  match fd with
  | None => (if 0 <? timeout_seconds then _ ← os_tick; mret tt else mret tt) ;; mret CC_PLATFORM_EVT_WAIT_TIMEOUT
  | Some fd =>
      n ← os_tick;
      let ready := default {[fd]} (os_select n (if 0 <? timeout_seconds then Some timeout_seconds else None) {[fd]}) in
      guard! bool_decide (fd ∈ ready) else mret CC_PLATFORM_EVT_WAIT_TIMEOUT in
      r ← cc_transport_handle_data cc_node_handle_message;
      guard! negb (bool_decide (r = CC_SUCCESS)) else mret CC_PLATFORM_EVT_WAIT_DATA_READ in
      on_world (upd_client (set_tc_state CC_TRANSPORT_DISCONNECTED)) ;;
      mret CC_PLATFORM_EVT_WAIT_FAIL
  end.

Definition esp_late_init (args : option bytes) : R V cc_result_t := mret CC_SUCCESS.

#[local] Instance esp_events : Events V := {
  cc_platform_evt_wait := esp_evt_wait;
  cc_platform_late_init := esp_late_init;
  transport_create := cc_transport_create;
  transport_connect := cc_transport_socket_connect;
  cc_platform_stop := mret CC_SUCCESS;
  transport_disconnect := cc_transport_socket_disconnect ;; cc_transport_socket_free
}.

(** ** The configuration over HTTP *)

(** The text of a token: where it starts, and its length. *)
Definition tok_text (text : bytes) (t : jsmntok_t) : bytes * nat :=
  (drop (Z.to_nat (tok_start t)) text, Z.to_nat (tok_end t - tok_start t)).

(** The uris, the tokens from the [i]-th on. *)
Fixpoint encode_uri_tokens (n i : nat) (text : bytes) (tokens : list jsmntok_t) (w : bytes) : outcome bytes :=
  match n with
  | O => Ok w
  | S n =>
      match tokens !! i with
      | None => Ub BufferOverflow
      | Some t =>
          let '(s, len) := tok_text text t in
          encode_uri_tokens n (S i) text tokens (cc_coder_encode_str w s len)
      end
  end.

(** The identifier of the board is made here. *)
Definition cc_platform_esp_write_calvin_config (attributes : bytes) (attributes_len : nat)
  (proxy_uris : bytes) (proxy_uris_len : nat) : R V cc_result_t :=
  id ← on_world (gen_uuid None);
  let w := cc_coder_encode_map [] 3 in
  let w := cc_coder_encode_kv_str w (str "id") id (strnlen id CC_UUID_BUFFER_SIZE) in
  let w := cc_coder_encode_kv_str w (str "attributes") attributes attributes_len in
  on_world (in_buffer CC_ESP_BUFFER_SIZE w) ;;
  let? uris := jsmn_parse (take proxy_uris_len proxy_uris) 10 else mret CC_FAIL in
  match uris with
  | [] => mret CC_FAIL
  | t :: _ =>
      guard! bool_decide (tok_type t = JSMN_ARRAY) else mret CC_FAIL in
      let w := cc_coder_encode_kv_array w (str "proxy_uris") (Z.of_nat (tok_children t)) in
      w ← lift_outcome (encode_uri_tokens (tok_children t) 1 proxy_uris uris w);
      on_world (in_buffer CC_ESP_BUFFER_SIZE w) ;;
      cc_platform_file_write CC_STATE_FILE w
  end.

Definition wifi_config (ssid : bytes) (ssid_len : nat) (password : bytes) (password_len : nat) : bytes :=
  let w := cc_coder_encode_map [] 2 in
  let w := cc_coder_encode_kv_str w (str "ssid") ssid ssid_len in
  cc_coder_encode_kv_str w (str "password") password password_len.

Definition cc_platform_esp_write_wifi_config (ssid : bytes) (ssid_len : nat) (password : bytes)
  (password_len : nat) : R V cc_result_t :=
  let w := wifi_config ssid ssid_len password password_len in
  on_world (in_buffer CC_ESP_BUFFER_SIZE w) ;;
  cc_platform_file_write CC_WIFI_CONFIG_FILE w.

(** The text and the tokens of the JSON of a request; [None] when it is no JSON.  A
    request without a brace is a NULL string. *)
Definition request_json (data : bytes) : outcome (option (bytes * list jsmntok_t)) :=
  let data := take CC_ESP_BUFFER_SIZE data in
  let buffer := data ++ drop (length data) (zeroed CC_ESP_BUFFER_SIZE) in
  start ← strstr_array buffer (str "{");
  match start with
  | None => Ub NullDeref
  | Some i =>
      let json := drop i buffer in
      if bool_decide (NUL ∈ json) then Ok ((fun tokens => (json, tokens)) <$> jsmn_parse (take (strlen json) json) 40)
      else Ub BufferOverflow
  end.

Definition json_field (json : bytes) (tokens : list jsmntok_t) (key : bytes) : outcome (option (bytes * nat)) :=
  v ← cc_json_get_dict_value json tokens 0 key (Z.of_nat (length key));
  match v with
  | None => Ok None
  | Some i => match tokens !! i with Some t => Ok (Some (tok_text json t)) | None => Ub BufferOverflow end
  end.

(** Is the board configured by what a client sends?  A client that is not understood is
    closed without an answer. *)
Definition configure_from (data : bytes) : R V (option bool) :=
  r ← lift_outcome (request_json data);
  let? (json, tokens) := r else mret None in
  attributes ← lift_outcome (json_field json tokens (str "attributes"));
  let? (attributes, attributes_len) := attributes else mret None in
  uris ← lift_outcome (json_field json tokens (str "uris"));
  let? (uris, uris_len) := uris else mret None in
  ssid ← lift_outcome (json_field json tokens (str "ssid"));
  let? (ssid, ssid_len) := ssid else mret None in
  password ← lift_outcome (json_field json tokens (str "password"));
  let? (password, password_len) := password else mret None in
  r ← cc_platform_esp_write_calvin_config attributes attributes_len uris uris_len;
  guard! bool_decide (r = CC_SUCCESS) else mret (Some false) in
  r ← cc_platform_esp_write_wifi_config ssid ssid_len password password_len;
  mret (Some (bool_decide (r = CC_SUCCESS))).

(** The answer is written, when there is one, and the client is closed. *)
Definition serve_client (fd : Z) : R V bool :=
  n ← os_tick;
  match os_recv n with
  | None => close_fd fd ;; mret false
  | Some data =>
      r ← configure_from data;
      (match r with Some _ => _ ← os_tick; mret tt | None => mret tt end) ;;
      close_fd fd ;;
      mret (default false r)
  end.

(** [while (1)]: at most [n] clients. *)
Fixpoint serve_config (n : nat) : R V cc_result_t :=
  match n with
  | O => ub_ Diverges
  | S n =>
      k ← os_tick;
      let newsockfd := esp_accept k in
      if newsockfd <? 0 then serve_config n
      else
        upd_platform (fun p => set_ps_open ({[newsockfd]} ∪ ps_open p) p) ;;
        ok ← serve_client newsockfd;
        if (ok : bool) then mret CC_SUCCESS else serve_config n
  end.

Definition cc_platform_esp_get_config (clients : nat) : R V cc_result_t :=
  sockfd ← open_socket;
  guard! 0 <=? sockfd else mret CC_FAIL in
  n ← os_tick;
  guard! esp_bind n else mret CC_FAIL in
  serve_config clients.

(** ** The start of the board *)

(** [while (retries--)]. *)
Fixpoint wait_for_ip (retries : nat) : R V cc_result_t :=
  match retries with
  | O => mret CC_FAIL
  | S retries =>
      n ← os_tick;
      match sdk_status n with
      | STATION_GOT_IP => mret CC_SUCCESS
      | STATION_WRONG_PASSWORD => mret CC_FAIL
      | STATION_OTHER => wait_for_ip retries
      end
  end.

(** What was read of a file, as a buffer of the heap; the read has asked for it. *)
Definition heap_buffer (content : bytes) : W loc :=
  l ← fresh_loc;
  modify (fun w => set_mem (<[l := content]> (w_mem w)) w) ;;
  mret l.

(** [strncpy(dst, src, len); dst[len] = '\0';] into a field of the configuration of the
    SDK, for [src] at an offset of a buffer: nothing is read when [len] is 0. *)
Definition copy_name (size : nat) (buffer : loc) (offset len : nat) : W unit :=
  src ← (if (len =? 0)%nat then mret [] else b ← on_mem (mem_read buffer); mret (drop offset b));
  _ ← need BufferOverflow (strncpy_nul (zeroed size) src len);
  mret tt.

(** The strings that are decoded point into the buffer. *)
Definition cc_platform_esp_start_station_mode : R V cc_result_t :=
  file ← cc_platform_file_read CC_WIFI_CONFIG_FILE;
  let? content := file else mret CC_FAIL in
  buffer ← on_world (heap_buffer content);
  let? (ssid, ssid_len) := cc_coder_decode_string_from_map content (str "ssid")
    else on_world (on_mem (mem_free buffer)) ;; mret CC_FAIL in
  let? (password, password_len) := cc_coder_decode_string_from_map content (str "password")
    else on_world (on_mem (mem_free buffer)) ;; mret CC_FAIL in
  on_world (on_mem (mem_free buffer)) ;;
  on_world (copy_name sdk_ssid_size buffer (length content - length ssid)%nat ssid_len) ;;
  on_world (copy_name sdk_password_size buffer (length content - length password)%nat password_len) ;;
  wait_for_ip 10.

(** A flash that cannot be mounted is formatted. *)
Definition mount_flash : R V cc_result_t :=
  n ← os_tick;
  guard! negb (spiffs_mount n) else mret CC_SUCCESS in
  n ← os_tick;
  guard! spiffs_format n else mret CC_FAIL in
  upd_platform (set_ps_files ∅) ;;
  n ← os_tick;
  mret (if spiffs_mount n then CC_SUCCESS else CC_FAIL).

Definition remove_file (path : bytes) : R V unit :=
  n ← os_tick;
  if disk_ok n then upd_platform (fun p => set_ps_files (delete path (ps_files p)) p) else mret tt.

Context `{HT : !Holds V cc_calvinsys_timer_t}.
Variable capabilities : list cap_desc.
Variable types : list (cc_actor_builtin_type_t (V:=V)).

(** The board restarts when the task ends.  [cc_api_runtime_start] is called without the
    script it takes: there is none. *)
Definition calvin_task (clients fuel : nat) : R V unit :=
  r ← mount_flash;
  r ← (if bool_decide (r = CC_SUCCESS) then
         st ← cc_platform_file_stat CC_WIFI_CONFIG_FILE;
         if bool_decide (st = CC_STAT_FILE) then mret CC_SUCCESS else cc_platform_esp_get_config clients
       else mret r);
  if negb (bool_decide (r = CC_SUCCESS)) then
    remove_file CC_WIFI_CONFIG_FILE ;; remove_file CC_STATE_FILE
  else
    r ← cc_platform_esp_start_station_mode;
    guard! bool_decide (r = CC_SUCCESS) else mret tt in
    r ← cc_api_runtime_init capabilities types None None None;
    guard! bool_decide (r = CC_SUCCESS) else mret tt in
    _ ← cc_api_runtime_start fuel None;
    mret tt.
End platform.

(** * runtime/south/platform/esp-open-rtos/calvinsys: the pins, the DS18B20 thermometer and
    the YL-69 hygrometer of the board, and the capabilities that cc_config_esp8266.h
    makes of them.

    The pins that are enabled as outputs, with their levels, are a static variable of the
    platform. *)

Inductive cc_calvinsys_gpio_direction := CC_PIN_IN | CC_PIN_OUT.
#[export] Instance gpio_direction_eq_decision : EqDecision cc_calvinsys_gpio_direction.
Proof. solve_decision. Defined.

Record cc_calvinsys_gpio_state_t := {
  pin_number : Z;                                 (* uint8_t *)
  pin_direction : cc_calvinsys_gpio_direction
}.
Record cc_calvinsys_temperature_state_t := {
  ds_pin : Z;
  ds_can_read : bool;
  ds_temp : spec_float
}.

(** The levels of the pins that are enabled. *)
Record esp_pins := { pin_levels : gmap Z Z }.

Inductive esp_state :=
  | E_gpio (x : cc_calvinsys_gpio_state_t) | E_temperature (x : cc_calvinsys_temperature_state_t)
  | E_pins (x : esp_pins) | E_socket (x : cc_transport_socket_client_t).

#[export, refine] Instance holds_esp_gpio : Holds (lib_state esp_state) cc_calvinsys_gpio_state_t :=
  {| hold x := S_device (E_gpio x); held v := match v with S_device (E_gpio x) => Some x | _ => None end |}.
Proof. done. Defined.
#[export, refine] Instance holds_esp_temperature : Holds (lib_state esp_state) cc_calvinsys_temperature_state_t :=
  {| hold x := S_device (E_temperature x);
     held v := match v with S_device (E_temperature x) => Some x | _ => None end |}.
Proof. done. Defined.
#[export, refine] Instance holds_esp_pins : Holds (lib_state esp_state) esp_pins :=
  {| hold x := S_device (E_pins x); held v := match v with S_device (E_pins x) => Some x | _ => None end |}.
Proof. done. Defined.
#[export, refine] Instance holds_esp_socket : Holds (lib_state esp_state) cc_transport_socket_client_t :=
  {| hold x := S_device (E_socket x); held v := match v with S_device (E_socket x) => Some x | _ => None end |}.
Proof. done. Defined.

Definition esp_gpio_code : nat := 4.
Definition ds18b20_code : nat := 5.
Definition yl69_code : nat := 6.

Section devices.
Context {V : Type} `{P : Platform} `{MP : MsgPuck} `{ES : Esp}.
Context `{HG : !Holds V cc_calvinsys_gpio_state_t} `{HT : !Holds V cc_calvinsys_temperature_state_t}.
Context `{HP : !Holds V esp_pins}.

(** ** cc_calvinsys_gpio.c *)

Definition get_pins : R V (gmap Z Z) :=
  p ← get_platform;
  match ps_statics p !! 0%nat with
  | None => mret ∅
  | Some v => pins ← need BadCast (held v); mret (pin_levels pins)
  end.
Definition upd_pins (f : gmap Z Z -> gmap Z Z) : R V unit :=
  pins ← get_pins;
  upd_platform (fun p => set_ps_statics (<[0%nat := hold {| pin_levels := f pins |}]> (ps_statics p)) p).

(** The level of a pin is that of a truth value. *)
Definition gpio_write (pin value : Z) : R V unit := upd_pins (<[pin := if value =? 0 then 0 else 1]>).

Definition cc_calvinsys_gpio_can_write (obj : loc) : R V bool :=
  state ← get_obj_state cc_calvinsys_gpio_state_t obj;
  mret (bool_decide (pin_direction state = CC_PIN_OUT)).

Definition cc_calvinsys_gpio_write (obj : loc) (data : option bytes) : R V cc_result_t :=
  data ← need NullDeref data;
  value ← lift_outcome (cc_coder_decode_uint data);
  let? value := value else mret CC_FAIL in
  state ← get_obj_state cc_calvinsys_gpio_state_t obj;
  gpio_write (pin_number state) value ;;
  mret CC_SUCCESS.

Definition cc_calvinsys_gpio_close (obj : loc) : R V cc_result_t :=
  state ← get_obj_state cc_calvinsys_gpio_state_t obj;
  upd_pins (delete (pin_number state)) ;;
  upd_obj obj (set_obj_state None) ;;
  mret CC_SUCCESS.

(** The pin is enabled by its number, and kept in a [uint8_t]. *)
Definition cc_calvinsys_gpio_open (obj : loc) (kwargs : list (cc_list_t bytes)) : R V cc_result_t :=
  o ← get_obj obj;
  capability ← get_cap (obj_capability o);
  init_args ← need NullDeref (cap_init_args capability);
  let? (direction, len) := cc_coder_decode_string_from_map init_args (str "direction") else mret CC_FAIL in
  let? pin := cc_coder_decode_uint_from_map init_args (str "pin") else mret CC_FAIL in
  ok ← on_world cc_platform_mem_alloc;
  guard! (ok : bool) else mret CC_FAIL in
  guard! streq_n direction (str "out") len else mret CC_FAIL in
  gpio_write pin 0 ;;
  upd_obj obj (set_obj_methods (Some esp_gpio_code)) ;;
  put_obj_state obj {| pin_number := u8 pin; pin_direction := CC_PIN_OUT |} ;;
  mret CC_SUCCESS.

Definition esp_gpio_methods : cc_obj_code_t V :=
  {| oc_can_write := Some cc_calvinsys_gpio_can_write; oc_write := Some cc_calvinsys_gpio_write;
     oc_can_read := None; oc_read := None; oc_close := Some cc_calvinsys_gpio_close; oc_serialize := None |}.

(** ** cc_calvinsys_ds18b20.c *)

Definition put_ds (obj : loc) (can_read : bool) (temp : spec_float) : R V unit :=
  state ← get_obj_state cc_calvinsys_temperature_state_t obj;
  put_obj_state obj {| ds_pin := ds_pin state; ds_can_read := can_read; ds_temp := temp |}.

Definition cc_calvinsys_ds18b20_can_write (obj : loc) : R V bool := mret true.

(** A measurement that is asked for is made at once. *)
Definition cc_calvinsys_ds18b20_write (obj : loc) (data : option bytes) : R V cc_result_t :=
  state ← get_obj_state cc_calvinsys_temperature_state_t obj;
  data ← need NullDeref data;
  match cc_coder_decode_bool data with
  | None => put_ds obj false (ds_temp state) ;; mret CC_FAIL
  | Some false => put_ds obj false (ds_temp state) ;; mret CC_SUCCESS
  | Some true =>
      put_ds obj true (ds_temp state) ;;
      n ← os_tick;
      guard! negb (ds18b20_scan n (ds_pin state) <? 1) else mret CC_FAIL in
      n ← os_tick;
      put_ds obj true (ds18b20_read n (ds_pin state)) ;;
      mret CC_SUCCESS
  end.

Definition cc_calvinsys_ds18b20_can_read (obj : loc) : R V bool :=
  state ← get_obj_state cc_calvinsys_temperature_state_t obj; mret (ds_can_read state).

Definition cc_calvinsys_ds18b20_read (obj : loc) : R V (cc_result_t * option bytes) :=
  state ← get_obj_state cc_calvinsys_temperature_state_t obj;
  ok ← on_world cc_platform_mem_alloc;
  guard! (ok : bool) else mret (CC_FAIL, None) in
  put_ds obj false (ds_temp state) ;;
  mret (CC_SUCCESS, Some (cc_coder_encode_float [] (float_bits (ds_temp state)))).

Definition cc_calvinsys_ds18b20_close (obj : loc) : R V cc_result_t :=
  upd_obj obj (set_obj_state None) ;; mret CC_SUCCESS.

(** The temperature is what the memory of the new state holds. *)
Definition cc_calvinsys_ds18b20_open (obj : loc) (kwargs : list (cc_list_t bytes)) : R V cc_result_t :=
  o ← get_obj obj;
  capability ← get_cap (obj_capability o);
  ok ← on_world cc_platform_mem_alloc;
  guard! (ok : bool) else mret CC_FAIL in
  init_args ← need NullDeref (cap_init_args capability);
  let? pin := cc_coder_decode_uint_from_map init_args (str "pin") else mret CC_FAIL in
  upd_obj obj (set_obj_methods (Some ds18b20_code)) ;;
  n ← os_tick;
  put_obj_state obj {| ds_pin := pin; ds_can_read := false; ds_temp := esp_garbage n |} ;;
  mret CC_SUCCESS.

Definition ds18b20_methods : cc_obj_code_t V :=
  {| oc_can_write := Some cc_calvinsys_ds18b20_can_write; oc_write := Some cc_calvinsys_ds18b20_write;
     oc_can_read := Some cc_calvinsys_ds18b20_can_read; oc_read := Some cc_calvinsys_ds18b20_read;
     oc_close := Some cc_calvinsys_ds18b20_close; oc_serialize := None |}.

(** ** cc_calvinsys_yl69.c *)

Definition cc_calvinsys_yl69_can_read (obj : loc) : R V bool := mret true.

(** The humidity in percent. *)
Definition humidity (adc_value : Z) : spec_float :=
  f32_mul (f32_div (f32 (1024 - adc_value)) (f32 1024)) (f32 100).

Definition cc_calvinsys_yl69_read (obj : loc) : R V (cc_result_t * option bytes) :=
  n ← os_tick;
  let h := humidity (sdk_adc n) in
  ok ← on_world cc_platform_mem_alloc;
  guard! (ok : bool) else mret (CC_FAIL, None) in
  mret (CC_SUCCESS, Some (cc_coder_encode_float [] (float_bits h))).

Definition cc_calvinsys_yl69_open (obj : loc) (kwargs : list (cc_list_t bytes)) : R V cc_result_t :=
  upd_obj obj (set_obj_methods (Some yl69_code)) ;; mret CC_SUCCESS.

Definition yl69_methods : cc_obj_code_t V :=
  {| oc_can_write := None; oc_write := None; oc_can_read := Some cc_calvinsys_yl69_can_read;
     oc_read := Some cc_calvinsys_yl69_read; oc_close := None; oc_serialize := None |}.
End devices.

(** ** The configuration *)

(** The capabilities of the board cannot be restored. *)
Definition opens {V} (open : loc -> list (cc_list_t bytes) -> R V cc_result_t) : cc_capability_code_t V :=
  {| cap_open := Some open; cap_deserialize := None |}.

#[export] Instance esp_devices `{P : Platform} `{MP : MsgPuck} `{ES : Esp} : Devices esp_state := {
  device_capability i :=
    match i with
    | 0%nat => opens cc_calvinsys_gpio_open
    | 1%nat => opens cc_calvinsys_ds18b20_open
    | _ => opens cc_calvinsys_yl69_open
    end;
  device_object i := match i with 0%nat => esp_gpio_methods | 1%nat => ds18b20_methods | _ => yl69_methods end
}.

Definition esp_temperature_args : bytes := [Byte.x81; Byte.xa3] ++ str "pin" ++ [Byte.x05].
Definition esp_light_args : bytes :=
  [Byte.x82; Byte.xa9] ++ str "direction" ++ [Byte.xa3] ++ str "out" ++ [Byte.xa3] ++ str "pin" ++ [Byte.x00].

(** [CC_CAPABILITIES] and [CC_C_ACTORS] of cc_config_esp8266.h. *)
Definition esp_capabilities : list cap_desc :=
  [ {| cd_name := str "io.temperature"; cd_code := ds18b20_code; cd_init_args := Some esp_temperature_args; cd_python_module := None |};
    {| cd_name := str "io.light"; cd_code := esp_gpio_code; cd_init_args := Some esp_light_args; cd_python_module := None |};
    {| cd_name := str "io.soil_moisture"; cd_code := yl69_code; cd_init_args := None; cd_python_module := None |} ].

Section actors.
Context `{P : Platform} `{MP : MsgPuck} `{ES : Esp} `{J : Jsmn}.

Definition esp_types (uninit : bytes) : list (cc_actor_builtin_type_t (V:=lib_state esp_state)) :=
  let C := objects_code in
  [ {| bt_name := str "std.Identity"; bt_setup := Some cc_actor_identity_setup |};
    {| bt_name := str "io.Button"; bt_setup := Some cc_actor_button_setup |};
    {| bt_name := str "io.Light"; bt_setup := Some cc_actor_light_setup |};
    {| bt_name := str "sensor.SoilMoisture"; bt_setup := Some (cc_actor_soil_moisture_setup uninit) |};
    {| bt_name := str "sensor.Temperature"; bt_setup := Some cc_actor_temperature_setup |};
    {| bt_name := str "sensor.TriggeredTemperature"; bt_setup := Some cc_actor_triggered_temperature_setup |};
    {| bt_name := str "sensor.TemperatureTagged"; bt_setup := Some cc_actor_temperature_tagged_setup |};
    {| bt_name := str "context.RegistryAttribute"; bt_setup := Some cc_actor_registry_attribute_setup |} ].
End actors.
