(* ===== verification/Nrf52.v ===== *)
(** runtime/south/transport/lwip and runtime/south/platform/nrf52: the transport over the
    TCP stack of a board that is connected by Bluetooth, and the platform of the board.

    The stack calls back while the board waits for an event; what has happened by the
    n-th wait is the class [Lwip], and so are the answers of the stack.  There is one
    transport client, a static variable.  While the node has a client it is that
    variable, and the callbacks change it; while it has none, what they change is set
    again when the next client is created.

    The platform has been left behind by the runtime, which calls [cc_platform_early_init]
    and [cc_platform_late_init]: there are none here, and nothing calls
    [cc_platform_create] and [cc_platform_add_capabilities]. *)
From Stdlib Require Import SpecFloat.
From S2P Require Import Prelude CString CText Common Json MsgPuck Coder Fifo Machine Transport ProtoSend.
From S2P Require Import Port Proto Runtime Socket Calvinsys Timer Actor AppManager Node NodeRun Dispatch Android.

(** What calls back. *)
Inductive lwip_event :=
  | E_connected (ok : bool)              (* cc_transport_lwip_connection_callback *)
  | E_sent                               (* cc_transport_lwip_write_complete *)
  | E_data (payload : bytes) (ok : bool) (* cc_transport_lwip_data_handler *)
  | E_medium_up (mac : bytes) | E_medium_down
  | E_interface_up | E_interface_down
  | E_connect_timer.                     (* five seconds after the interface is up *)

Class Lwip := {
  sd_app_evt_wait : nat -> option (list lwip_event);   (* None on an error *)
  tcp_sndbuf : nat -> Z;
  tcp_write : nat -> bytes -> bool;
  tcp_connect_ip6 : nat -> bytes -> bool;
  ip6addr_aton : bytes -> bool;
  sd_temp_get : nat -> Z
}.

(** The calls of the SDK whose failure is checked: the timers, the medium, the memory
    and the driver of the network; and the seed of the random numbers. *)
Inductive nrf_timer := m_lwip_timer | m_calvin_connect_timer.
Inductive nrf_call :=
  | ipv6_medium_init
  | ipv6_medium_eui48_set (eui48 : bytes)
  | ipv6_medium_eui64_get
  | nrf_mem_init
  | lwip_init
  | nrf_driver_init
  | app_timer_create (timer : nrf_timer) (repeated : bool)
  | app_timer_start (timer : nrf_timer) (ms : Z)
  | ipv6_medium_connectable_mode_enter
  | srand (seed : Z).
Class NrfSdk := {
  sdk_ok : nat -> nrf_call -> bool;
  ipv6_medium_eui48_get : nat -> bytes;
  sd_rand_application_vector_get : nat -> option Z   (* None: not enough values *)
}.
Definition LWIP_SYS_TIMER_INTERVAL : Z := 100.
Definition APP_CALVIN_CONNECT_DELAY : Z := 5000.
Definition EUI_48_SIZE : nat := 6.

(** [cc_transport_lwip_client_t]: the received data is the part of the array in use. *)
Record cc_transport_lwip_client_t := {
  lw_mac : bytes;    (* char[40] *)
  lw_rx : bytes      (* char[CC_TRANSPORT_RX_BUFFER_SIZE] *)
}.

(** ** The address of the peer *)

Definition hex_digit (c : byte) : option Z :=
  let v := byte_val c in
  if (48 <=? v) && (v <=? 57) then Some (v - 48)
  else if (97 <=? v) && (v <=? 102) then Some (v - 87)
  else if (65 <=? v) && (v <=? 70) then Some (v - 55)
  else None.
Fixpoint hex_digits (s : bytes) (acc : Z) : Z :=
  match s with
  | c :: s => match hex_digit c with Some d => hex_digits s (16 * acc + d) | None => acc end
  | [] => acc
  end.

(** [strtol] in base 16: a number may start with 0x. *)
Definition strtol_16 (s : bytes) : Z :=
  let s := drop (spaces s) s in
  let '(neg, s) :=
    match s with
    | Byte.x2d :: s => (true, s)
    | Byte.x2b :: s => (false, s)
    | _ => (false, s)
    end in
  let s :=
    match s with
    | Byte.x30 :: (Byte.x78 | Byte.x58) :: c :: _ => match hex_digit c with Some _ => drop 2 s | None => s end
    | _ => s
    end in
  let v := hex_digits s 0 in
  Z.max (- 2 ^ 63) (Z.min (if neg : bool then - v else v) (2 ^ 63 - 1)).

(** Two digits of an octet, as [%02lx] prints it. *)
Definition hex_char (d : Z) : byte := byte_of_Z (if d <? 10 then 48 + d else 87 + d).
Definition hex_02 (v : Z) : bytes := [hex_char (v / 16); hex_char (v mod 16)].

Definition cc_transport_lwip_convert_mac_to_link_local (mac : bytes) : bytes :=
  let col i := strtol_16 (drop i mac) mod 256 in
  str "fe80::" ++ hex_02 (Z.lxor (col 0%nat) 2) ++ hex_02 (col 3%nat) ++ str ":" ++ hex_02 (col 6%nat)
  ++ str "ff:fe" ++ hex_02 (col 9%nat) ++ str ":" ++ hex_02 (col 12%nat) ++ hex_02 (col 15%nat).

Section lwip.
Context {V : Type} `{C : !Code V} `{P : Platform} `{MP : MsgPuck} `{J : Jsmn} `{LW : Lwip}.
Context `{HL : !Holds V cc_transport_lwip_client_t} `{NS : NrfSdk} `{HB : !Holds V (list nrf_call)}.

(** The calls of the SDK that were made, in their order. *)
Definition nrf_calls : nat := 110.
Definition get_nrf_calls : R V (list nrf_call) :=
  p ← get_platform;
  match ps_statics p !! nrf_calls with Some v => state_as (list nrf_call) (Some v) | None => mret [] end.
Definition nrf_sdk (c : nrf_call) : R V bool :=
  n ← os_tick;
  l ← get_nrf_calls;
  upd_platform (fun p => set_ps_statics (<[nrf_calls := hold (l ++ [c])]> (ps_statics p)) p) ;;
  mret (sdk_ok n c).

(** [APP_ERROR_CHECK]: [cc_platform_nrf_app_error_handler] ends in [for (;;)]. *)
Definition cc_platform_nrf_app_error_handler : R V unit := ub_ Diverges.
Definition APP_ERROR_CHECK (ok : bool) : R V unit := if ok then mret tt else cc_platform_nrf_app_error_handler.
Definition checked (c : nrf_call) : R V unit := ok ← nrf_sdk c; APP_ERROR_CHECK ok.

(** The client has no state before it is created; afterwards that is freed. *)
Definition get_lwip : R V cc_transport_lwip_client_t :=
  p ← get_platform; state_as cc_transport_lwip_client_t (ps_client_state p).
Definition put_lwip (x : cc_transport_lwip_client_t) : R V unit :=
  upd_platform (set_ps_client_state (Some (hold x))).

(** A callback sets the state of the client. *)
Definition set_client_state (s : cc_transport_state_t) : R V unit :=
  node ← on_world get_node;
  match node_transport_client node with
  | Some _ => on_world (upd_client (set_tc_state s))
  | None => mret tt
  end.

(** ** Callbacks *)

Definition cc_transport_lwip_write_complete : R V unit := set_client_state CC_TRANSPORT_ENABLED.

(** What does not fit the buffer is dropped. *)
Definition cc_transport_lwip_data_handler (payload : bytes) (ok : bool) : R V unit :=
  guard! ok else mret tt in
  st ← get_lwip;
  if (CC_TRANSPORT_RX_BUFFER_SIZE - length (lw_rx st) <? length payload)%nat then mret tt
  else put_lwip {| lw_mac := lw_mac st; lw_rx := lw_rx st ++ payload |}.

Definition cc_transport_lwip_connection_callback (ok : bool) : R V unit :=
  set_client_state (if ok then CC_TRANSPORT_CONNECTED else CC_TRANSPORT_INTERFACE_DOWN).

Definition cc_platform_nrf_connectable_mode_enter : R V unit := checked ipv6_medium_connectable_mode_enter.

(** The address is copied without its terminator over the earlier one. *)
Definition cc_platform_nrf_on_ipv6_medium_evt (mac : option bytes) : R V unit :=
  match mac with
  | Some mac =>
      st ← get_lwip;
      mac ← need BufferOverflow (copy_to (lw_mac st) 0 (cstr mac));
      put_lwip {| lw_mac := mac; lw_rx := lw_rx st |}
  | None => cc_platform_nrf_connectable_mode_enter ;; set_client_state CC_TRANSPORT_INTERFACE_DOWN
  end.

Definition cc_platform_nrf_start_calvin_connect_timer : R V unit :=
  checked (app_timer_start m_calvin_connect_timer APP_CALVIN_CONNECT_DELAY).
Definition nrf_driver_interface_up : R V unit := cc_platform_nrf_start_calvin_connect_timer.
Definition nrf_driver_interface_down : R V unit := set_client_state CC_TRANSPORT_INTERFACE_DOWN.
Definition cc_platform_nrf_calvin_connect_callback : R V unit := set_client_state CC_TRANSPORT_INTERFACE_UP.

(** The timer of lwIP calls the stack, whose events these are. *)
Definition run_event (e : lwip_event) : R V unit :=
  match e with
  | E_connected ok => cc_transport_lwip_connection_callback ok
  | E_sent => cc_transport_lwip_write_complete
  | E_data payload ok => cc_transport_lwip_data_handler payload ok
  | E_medium_up mac => cc_platform_nrf_on_ipv6_medium_evt (Some mac)
  | E_medium_down => cc_platform_nrf_on_ipv6_medium_evt None
  | E_interface_up => nrf_driver_interface_up
  | E_interface_down => nrf_driver_interface_down
  | E_connect_timer => cc_platform_nrf_calvin_connect_callback
  end.
Fixpoint run_events (l : list lwip_event) : R V unit :=
  match l with [] => mret tt | e :: l => run_event e ;; run_events l end.

(** The board waits: did the wait succeed? *)
Definition wait_event : R V bool :=
  n ← os_tick;
  match sd_app_evt_wait n with
  | None => mret false
  | Some l => run_events l ;; mret true
  end.

(** ** The transport *)

Variable waits : nat.   (* how often a loop may wait *)

(** [cc_platform_evt_wait(NULL, NULL)] until a condition holds. *)
Fixpoint wait_until (fuel : nat) (cond : R V bool) : R V unit :=
  b ← cond;
  guard! negb b else mret tt in
  match fuel with
  | O => ub_ Diverges
  | S fuel => _ ← wait_event; wait_until fuel cond
  end.

Definition client_in (s : cc_transport_state_t) : R V bool :=
  c ← on_world get_client; mret (bool_decide (tc_state c = s)).
Definition cc_transport_lwip_wait_for_state (s : cc_transport_state_t) : R V unit := wait_until waits (client_in s).

(** [while (written < size)]: the rest of the buffer. *)
Fixpoint send_rest (fuel : nat) (buffer : bytes) (written : Z) : R V Z :=
  match buffer with
  | [] => mret written
  | _ :: _ =>
      match fuel with
      | O => ub_ Diverges
      | S fuel =>
          n ← os_tick;
          let to_write := Z.min (tcp_sndbuf n) (Z.of_nat (length buffer)) in
          on_world (upd_client (set_tc_state CC_TRANSPORT_PENDING)) ;;
          n ← os_tick;
          if tcp_write n (take (Z.to_nat to_write) buffer) then
            cc_transport_lwip_wait_for_state CC_TRANSPORT_ENABLED ;;
            send_rest fuel (drop (Z.to_nat to_write) buffer) (written + to_write)
          else
            on_world (upd_client (set_tc_state CC_TRANSPORT_ENABLED)) ;; mret (-1)
      end
  end.
Definition cc_transport_lwip_send (buffer : bytes) : R V Z := _ ← get_lwip; send_rest waits buffer 0.

Definition cc_transport_lwip_has_data : R V bool :=
  st ← get_lwip; mret (negb (bool_decide (lw_rx st = []))).
Definition cc_transport_lwip_wait_for_data : R V unit := wait_until waits cc_transport_lwip_has_data.

(** All that was received, or [None] when that is more than is asked for. *)
Definition cc_transport_lwip_recv (size : nat) : R V (option bytes) :=
  cc_transport_lwip_wait_for_data ;;
  st ← get_lwip;
  if (size <? length (lw_rx st))%nat then mret None
  else put_lwip {| lw_mac := lw_mac st; lw_rx := [] |} ;; mret (Some (lw_rx st)).

Definition cc_transport_lwip_connect : R V cc_result_t :=
  st ← get_lwip;
  let ip := cc_transport_lwip_convert_mac_to_link_local (lw_mac st) in
  guard! ip6addr_aton ip else mret CC_FAIL in
  n ← os_tick;
  guard! tcp_connect_ip6 n ip else mret CC_FAIL in
  on_world (upd_client (set_tc_state CC_TRANSPORT_PENDING)) ;;
  cc_transport_lwip_wait_for_state CC_TRANSPORT_CONNECTED ;;
  mret CC_SUCCESS.

Definition cc_transport_lwip_disconnect : R V unit :=
  _ ← get_lwip; _ ← os_tick; on_world (upd_client (set_tc_state CC_TRANSPORT_DISCONNECTED)).
Definition cc_transport_lwip_free : R V unit := upd_platform (set_ps_client_state None).

(** The uri is not looked at; the static client starts with its fields zeroed. *)
Definition cc_transport_lwip_create (uri : bytes) : R V (option cc_transport_client_t) :=
  ok ← on_world cc_platform_mem_alloc;
  guard! (ok : bool) else mret None in
  put_lwip {| lw_mac := zeroed 40; lw_rx := [] |} ;;
  mret (Some {| tc_transport_type := CC_TRANSPORT_SOCKET_TYPE; tc_uri := zeroed CC_MAX_URI_LEN;
                tc_peer_id := zeroed CC_UUID_BUFFER_SIZE; tc_state := CC_TRANSPORT_INTERFACE_DOWN;
                tc_rx_buffer := no_rx; tc_prefix_len := CC_TRANSPORT_LEN_PREFIX_SIZE |}).

(** ** The platform *)

(** [cc_platform_evt_wait] waits for any event; the timeout is not used. *)
Definition nrf_evt_wait (timeout_seconds : Z) : R V cc_platform_evt_wait_status_t :=
  ok ← wait_event;
  guard! (ok : bool) else mret CC_PLATFORM_EVT_WAIT_FAIL in
  node ← on_world get_node;
  match node_transport_client node with
  | Some client =>
      guard! bool_decide (tc_state client = CC_TRANSPORT_ENABLED) else mret CC_PLATFORM_EVT_WAIT_TIMEOUT in
      data ← cc_transport_lwip_has_data;
      guard! (data : bool) else mret CC_PLATFORM_EVT_WAIT_TIMEOUT in
      r ← cc_transport_handle_data cc_node_handle_message;
      guard! negb (bool_decide (r = CC_SUCCESS)) else mret CC_PLATFORM_EVT_WAIT_DATA_READ in
      on_world (upd_client (set_tc_state CC_TRANSPORT_DISCONNECTED)) ;;
      mret CC_PLATFORM_EVT_WAIT_FAIL
  | None => mret CC_PLATFORM_EVT_WAIT_TIMEOUT
  end.

Definition cc_platform_temp_can_read (obj : loc) : R V bool := mret true.
(** The quarters of a degree that the sensor answers are divided as integers. *)
Definition cc_platform_temp_read (obj : loc) : R V (cc_result_t * option bytes) :=
  n ← os_tick;
  let temp := Z.quot (sd_temp_get n) 4 in
  ok ← on_world cc_platform_mem_alloc;
  guard! (ok : bool) else mret (CC_FAIL, None) in
  mret (CC_SUCCESS, Some (cc_coder_encode_double [] (double_bits (binary_normalize 53 1024 temp 0 false)))).

(** The number of the two functions above in [object_code]. *)
Definition cc_platform_temp_open (methods : nat) (obj : loc) (kwargs : list (cc_list_t bytes)) : R V cc_result_t :=
  upd_obj obj (set_obj_methods (Some methods)) ;; mret CC_SUCCESS.

(** What the list answers, a pointer, is taken for a result: 0 is success. *)
Definition nrf_create : R V bool :=
  node ← on_world get_node;
  r ← on_world (cc_list_add_n (node_proxy_uris node) (str "lwip") 4 tt 0);
  match r with
  | Some uris => on_world (upd_node (set_node_proxy_uris uris)) ;; mret false
  | None => mret true
  end.

Definition cc_platform_nrf_ip_stack_init : R V unit :=
  checked ipv6_medium_init ;;
  n ← os_tick;
  checked (ipv6_medium_eui48_set (<[(EUI_48_SIZE - 1)%nat := NUL]> (ipv6_medium_eui48_get n))) ;;
  checked ipv6_medium_eui64_get ;;
  checked nrf_mem_init ;;
  _ ← nrf_sdk lwip_init;
  mret tt.

Definition cc_platform_nrf_timers_init : R V unit :=
  checked (app_timer_create m_lwip_timer true) ;;
  checked (app_timer_start m_lwip_timer LWIP_SYS_TIMER_INTERVAL) ;;
  checked (app_timer_create m_calvin_connect_timer false).

(** The seed is asked for until there are enough values. *)
Fixpoint random_seed (fuel : nat) : R V Z :=
  match fuel with
  | O => ub_ Diverges
  | S fuel =>
      n ← os_tick;
      match sd_rand_application_vector_get n with Some seed => mret seed | None => random_seed fuel end
  end.

Definition nrf_init (fuel : nat) : R V unit :=
  cc_platform_nrf_ip_stack_init ;;
  checked nrf_driver_init ;;
  cc_platform_nrf_timers_init ;;
  cc_platform_nrf_connectable_mode_enter ;;
  seed ← random_seed fuel;
  _ ← nrf_sdk (srand seed);
  mret tt.
End lwip.
