(* ===== verification/Spritzer.v ===== *)
(** runtime/south/platform/spritzer and runtime/south/transport/spritzer: the platform of
    a board with an LTE modem, its transport and its temperature sensor.

    The sockets of the modem are the class [Sockets]; its commands are the class [Lte].
    The response to a command comes over a callback that sets a static variable; what
    the variable holds at a check is the answer of [lt_status]. *)
From Stdlib Require Import SpecFloat.
From S2P Require Import Prelude CString CText Common Json MsgPuck Coder Fifo Machine Transport ProtoSend.
From S2P Require Import Port Proto Runtime Socket ActorStore Calvinsys Timer ActorLib Sensors Library Actor AppManager Node.
From S2P Require Import NodeRun Dispatch X86Platform Api.

Class Lte := {
  lt_start : nat -> bool;       (* LT_Start() *)
  lt_send : nat -> Z;           (* the result of LT_SendSystem() *)
  lt_status : nat -> Z          (* com_status, 1 while there is no response *)
}.

Record cc_transport_spritzer_t := {
  sp_fd : Z;
  sp_ip : bytes;     (* char[20] *)
  sp_port : Z
}.
(** [cc_calvinsys_temperature_state_t] of cc_calvinsys_temp_sensor.c. *)
Record temp_sensor_state_t := { ts_can_read : bool; ts_value : spec_float }.

Inductive spritzer_state := P_temperature (x : temp_sensor_state_t) | P_transport (x : cc_transport_spritzer_t).
#[export, refine] Instance holds_spritzer_temperature : Holds (lib_state spritzer_state) temp_sensor_state_t :=
  {| hold x := S_device (P_temperature x); held v := match v with S_device (P_temperature x) => Some x | _ => None end |}.
Proof. done. Defined.
#[export, refine] Instance holds_spritzer_transport : Holds (lib_state spritzer_state) cc_transport_spritzer_t :=
  {| hold x := S_device (P_transport x); held v := match v with S_device (P_transport x) => Some x | _ => None end |}.
Proof. done. Defined.

Section spritzer.
Context {V : Type} `{C : !Code V} `{P : Platform} `{MP : MsgPuck} `{J : Jsmn}.
Context `{SK : Sockets} `{DK : Disk} `{LT : Lte}.
Context `{HT : !Holds V cc_transport_spritzer_t} `{HS : !Holds V temp_sensor_state_t}.

(** ** cc_transport_spritzer.c *)

Definition get_transport : R V cc_transport_spritzer_t :=
  p ← get_platform; state_as cc_transport_spritzer_t (ps_client_state p).
Definition put_transport (x : cc_transport_spritzer_t) : R V unit :=
  upd_platform (set_ps_client_state (Some (hold x))).

(** The text of [cc_transport_socket_parse_uri]. *)
Definition cc_transport_spritzer_parse_uri : bytes -> option (bytes * nat * Z) := cc_transport_socket_parse_uri.

(** The client, not its state, is cast: what is closed is the number of its type. *)
Definition cc_transport_spritzer_disconnect : R V unit :=
  client ← on_world get_client;
  (if bool_decide (tc_state client = CC_TRANSPORT_DISCONNECTED) then mret tt
   else
     close_fd (transport_type_val (tc_transport_type client)) ;;
     on_world (upd_client (set_tc_state CC_TRANSPORT_DISCONNECTED))) ;;
  on_world (upd_client (set_tc_rx_buffer no_rx)).

Definition cc_transport_spritzer_free : R V unit := upd_platform (set_ps_client_state None).

Definition cc_transport_spritzer_connect : R V cc_result_t :=
  t ← get_transport;
  fd ← open_socket;
  put_transport {| sp_fd := fd; sp_ip := sp_ip t; sp_port := sp_port t |} ;;
  guard! 0 <=? fd else mret CC_FAIL in
  n ← os_tick;
  guard! os_connect n (cstr (sp_ip t)) (u16 (sp_port t)) else mret CC_FAIL in
  on_world (upd_client (set_tc_state CC_TRANSPORT_CONNECTED)) ;;
  mret CC_SUCCESS.

(** The uri of the client has no terminator when it fills its array. *)
Definition cc_transport_spritzer_create (uri : bytes) : R V (option cc_transport_client_t) :=
  ok ← on_world cc_platform_mem_alloc;
  guard! (ok : bool) else mret None in
  ok ← on_world cc_platform_mem_alloc;
  guard! (ok : bool) else mret None in
  s ← get_;
  let fd := os_word (w_calls (rt_world s)) in
  garbage ← uninit 20;
  let? (ip, ip_len, port) := cc_transport_spritzer_parse_uri uri else mret None in
  client_uri ← need BufferOverflow (strncpy (zeroed CC_MAX_URI_LEN) uri CC_MAX_URI_LEN);
  ip ← need BufferOverflow (strncpy_nul garbage ip ip_len);
  put_transport {| sp_fd := fd; sp_ip := ip; sp_port := port |} ;;
  mret (Some {| tc_transport_type := CC_TRANSPORT_SPRITZER_TYPE; tc_uri := client_uri;
                tc_peer_id := zeroed CC_UUID_BUFFER_SIZE; tc_state := CC_TRANSPORT_INTERFACE_UP;
                tc_rx_buffer := no_rx; tc_prefix_len := CC_TRANSPORT_LEN_PREFIX_SIZE |}).

(** ** cc_platform_spritzer.c: the modem *)

(** [for (count=0; count<500; count++)]. *)
Fixpoint wait_recv (n : nat) : R V Z :=
  match n with
  | O => mret 0
  | S n =>
      k ← os_tick;
      if negb (lt_status k =? 1) then mret (lt_status k) else _ ← os_tick; wait_recv n
  end.
Definition cc_platform_spritzer_wait_recv : R V Z := wait_recv 500.

Definition cc_platform_spritzer_send_recv_sys : R V Z :=
  n ← os_tick;
  if lt_send n <? 0 then mret (lt_send n) else cc_platform_spritzer_wait_recv.

(** [while (1)]: at most [n] starts of the modem. *)
Fixpoint cc_platform_spritzer_lte_init (n : nat) : R V unit :=
  match n with
  | O => ub_ Diverges
  | S n => k ← os_tick; if lt_start k then mret tt else cc_platform_spritzer_lte_init n
  end.

(** Whether the modem connects is not looked at. *)
Definition spritzer_early_init (starts : nat) : R V unit :=
  cc_platform_spritzer_lte_init starts ;;
  _ ← cc_platform_spritzer_send_recv_sys;
  mret tt.

(** ** Events *)

(** The state of the client is cast to that of a socket, whose descriptor is also its
    first member.  What the wait answers is not looked at: where it fails, the set is as
    it was.  Without a client and a timeout the wait does not end. *)
Definition spritzer_evt_wait (timeout_seconds : Z) : R V cc_platform_evt_wait_status_t :=
  let timeout := if 0 <? timeout_seconds then Some timeout_seconds else None in
  node ← on_world get_node;
  fd ← match node_transport_client node with
       | Some client =>
           if bool_decide (tc_state client = CC_TRANSPORT_PENDING) || bool_decide (tc_state client = CC_TRANSPORT_ENABLED)
           then t ← get_transport; mret (Some (sp_fd t)) else mret None
       | None => mret None
       end;
  n ← os_tick;
  match fd with
  | None => match timeout with Some _ => mret CC_PLATFORM_EVT_WAIT_TIMEOUT | None => ub_ Diverges end
  | Some fd =>
      let ready := default {[fd]} (os_select n timeout {[fd]}) in
      guard! bool_decide (fd ∈ ready) else mret CC_PLATFORM_EVT_WAIT_TIMEOUT in
      r ← cc_transport_handle_data cc_node_handle_message;
      guard! negb (bool_decide (r = CC_SUCCESS)) else mret CC_PLATFORM_EVT_WAIT_DATA_READ in
      on_world (upd_client (set_tc_state CC_TRANSPORT_DISCONNECTED)) ;;
      mret CC_PLATFORM_EVT_WAIT_FAIL
  end.

(** [CC_TRANSPORTS] of cc_config_spritzer.h. *)
Definition spritzer_transports : list (bytes * (bytes -> R V (option cc_transport_client_t))) :=
  [ (str "calvinip", cc_transport_spritzer_create) ].

Definition spritzer_late_init (args : option bytes) : R V cc_result_t := mret CC_SUCCESS.

#[local] Instance spritzer_events : Events V := {
  cc_platform_evt_wait := spritzer_evt_wait;
  cc_platform_late_init := spritzer_late_init;
  transport_create := fun uri => client ← create_client spritzer_transports uri None; mret (set_tc_rx_buffer no_rx <$> client);
  transport_connect := cc_transport_spritzer_connect;
  cc_platform_stop := mret CC_SUCCESS;
  transport_disconnect := cc_transport_spritzer_disconnect ;; cc_transport_spritzer_free
}.

(** ** Files *)

(** The text of the functions of the x86 platform, but for the access rights of a new
    directory. *)
Definition spritzer_file_stat : bytes -> R V cc_stat_t := x86_file_stat.
Definition spritzer_file_read : bytes -> R V (option bytes) := x86_file_read.
Definition spritzer_create_dirs : bytes -> R V cc_result_t := cc_platform_create_dirs.
Definition spritzer_file_write : bytes -> bytes -> R V cc_result_t := x86_file_write.
Definition spritzer_file_del : bytes -> R V cc_result_t := x86_file_del.

#[local] Instance spritzer_storage : Storage V := {
  cc_platform_file_stat := spritzer_file_stat;
  cc_platform_file_read := spritzer_file_read;
  cc_platform_file_write := spritzer_file_write;
  cc_platform_file_del := spritzer_file_del
}.

(** ** The task of the board *)

Definition spritzer_attributes : bytes :=
  str "{" ++ [QUOTE] ++ str "indexed_public" ++ [QUOTE] ++ str ": {" ++ [QUOTE] ++ str "node_name" ++ [QUOTE]
  ++ str ": {" ++ [QUOTE] ++ str "name" ++ [QUOTE] ++ str ":" ++ [QUOTE] ++ str "spritzer" ++ [QUOTE] ++ str "}}}".
Definition spritzer_uris : bytes := str "[" ++ [QUOTE] ++ str "calvinip://90.232.247.172:5000" ++ [QUOTE] ++ str "]".

Context `{HC : !Holds V cc_calvinsys_timer_t}.
Variable capabilities : list cap_desc.
Variable types : list (cc_actor_builtin_type_t (V:=V)).

(** Did the task end with [EXIT_SUCCESS]?  [cc_api_runtime_start] is called without the
    script it takes: there is none. *)
Definition spritzer_task (fuel : nat) : R V bool :=
  r ← cc_api_runtime_init capabilities types (Some spritzer_attributes) (Some spritzer_uris) (Some (str "./"));
  guard! bool_decide (r = CC_SUCCESS) else mret false in
  r ← cc_api_runtime_start fuel None;
  mret (bool_decide (r = CC_SUCCESS)).

(** ** cc_calvinsys_temp_sensor.c *)

Definition temp_sensor_code : nat := 4.

Definition cc_calvinsys_temp_sensor_can_write (obj : loc) : R V bool := mret true.

(** What cannot be decoded leaves the state as it is. *)
Definition cc_calvinsys_temp_sensor_write (obj : loc) (data : option bytes) : R V cc_result_t :=
  state ← get_obj_state temp_sensor_state_t obj;
  data ← need NullDeref data;
  let? can_read := cc_coder_decode_bool data else mret CC_FAIL in
  put_obj_state obj {| ts_can_read := can_read; ts_value := ts_value state |} ;;
  mret CC_SUCCESS.

Definition cc_calvinsys_temp_sensor_can_read (obj : loc) : R V bool :=
  state ← get_obj_state temp_sensor_state_t obj; mret (ts_can_read state).

Definition cc_calvinsys_temp_sensor_read (obj : loc) : R V (cc_result_t * option bytes) :=
  state ← get_obj_state temp_sensor_state_t obj;
  guard! ts_can_read state else mret (CC_FAIL, None) in
  ok ← on_world cc_platform_mem_alloc;
  guard! (ok : bool) else mret (CC_FAIL, None) in
  put_obj_state obj {| ts_can_read := false; ts_value := f32_add (ts_value state) (f32 1) |} ;;
  mret (CC_SUCCESS, Some (cc_coder_encode_double [] (double_bits (ts_value state)))).

Definition cc_calvinsys_temp_sensor_close (obj : loc) : R V cc_result_t :=
  upd_obj obj (set_obj_state None) ;; mret CC_SUCCESS.

Definition cc_calvinsys_temp_sensor_open (obj : loc) (kwargs : list (cc_list_t bytes)) : R V cc_result_t :=
  ok ← on_world cc_platform_mem_alloc;
  guard! (ok : bool) else mret CC_FAIL in
  upd_obj obj (set_obj_methods (Some temp_sensor_code)) ;;
  put_obj_state obj {| ts_can_read := false; ts_value := f32_5_5 |} ;;
  mret CC_SUCCESS.

Definition temp_sensor_methods : cc_obj_code_t V :=
  {| oc_can_write := Some cc_calvinsys_temp_sensor_can_write; oc_write := Some cc_calvinsys_temp_sensor_write;
     oc_can_read := Some cc_calvinsys_temp_sensor_can_read; oc_read := Some cc_calvinsys_temp_sensor_read;
     oc_close := Some cc_calvinsys_temp_sensor_close; oc_serialize := None |}.
End spritzer.

(** [CC_CAPABILITIES] of cc_config_spritzer.h; the board has no actors written in C. *)
Definition spritzer_capabilities : list cap_desc :=
  [ {| cd_name := str "io.temperature"; cd_code := temp_sensor_code; cd_init_args := None; cd_python_module := None |} ].

#[export] Instance spritzer_devices `{P : Platform} `{MP : MsgPuck} : Devices spritzer_state := {
  device_capability _ := {| cap_open := Some cc_calvinsys_temp_sensor_open; cap_deserialize := None |};
  device_object _ := temp_sensor_methods
}.
