(* ===== verification/CoderSpec.v ===== *)
(** What the coder promises, under the contract of msgpuck: scalars decode to
    what was encoded, and the lookups of a map are the lookup of its first entry
    with that key whenever the keys of the map are comparable only when equal. *)
From S2P Require Import Prelude CString MsgPuck MsgPackRef Coder.

(** ** Maps with string keys *)

Abbreviation smap kvs := (VMap (map (fun kv : bytes * mpval => (VStr kv.1, kv.2)) kvs)).
Abbreviation skvs kvs := (map (fun kv : bytes * mpval => (VStr kv.1, kv.2)) kvs).

(** Two keys of which neither starts with the other. *)
Definition apart (a b : bytes) : Prop := ~ a `prefix_of` b /\ ~ b `prefix_of` a.
#[export] Instance apart_dec a b : Decision (apart a b).
Proof. unfold apart. apply _. Defined.

(** [key] is apart from every other key of the map. *)
Definition clear_for (key : bytes) (kvs : list (bytes * mpval)) : Prop :=
  Forall (fun kv => nul_free kv.1 /\ (kv.1 = key \/ apart key kv.1)) kvs.
#[export] Instance clear_for_dec key kvs : Decision (clear_for key kvs).
Proof. unfold clear_for. apply _. Defined.

Section spec.
Context `{MP : MsgPuck}.

(** The abstract lookup: the first value under the key, with the bytes of the
    message that follow it. *)
Fixpoint assoc_at (key : bytes) (kvs : list (bytes * mpval)) (rest : bytes)
  : option (mpval * bytes) :=
  match kvs with
  | [] => None
  | (k, v) :: kvs =>
      if decide (k = key) then Some (v, mp_enc_kvs (skvs kvs) ++ rest)
      else assoc_at key kvs rest
  end.

(** The value under a key. *)
Definition assoc (key : bytes) (kvs : list (bytes * mpval)) : option mpval :=
  snd <$> List.find (fun kv => bool_decide (kv.1 = key)) kvs.

Lemma assoc_at_assoc key kvs rest : fst <$> assoc_at key kvs rest = assoc key kvs.
Proof.
  unfold assoc. induction kvs as [|[k v] kvs IH]; simpl; [done|].
  by case_decide; rewrite ?bool_decide_true, ?bool_decide_false by done.
Qed.

Context `{L : !MsgPuckLaws MP}.

Lemma is_type_enc v rest t :
  mp_wf v -> is_type (mp_enc v ++ rest) t = bool_decide (mpval_type v = t).
Proof. intros H. unfold is_type. by rewrite mp_typeof_enc. Qed.

Lemma decode_str_enc s rest :
  Z.of_nat (length s) < 2 ^ 32 ->
  cc_coder_decode_str (mp_enc (VStr s) ++ rest) = Some (s ++ rest, length s).
Proof.
  intros H. unfold cc_coder_decode_str. rewrite is_type_enc, bool_decide_true by done.
  cbn [mp_enc]. rewrite mp_decode_str_enc by done. rewrite u32_id by (unfold is_u32; lia).
  by rewrite Nat2Z.id.
Qed.

Lemma decode_bin_enc s rest :
  Z.of_nat (length s) < 2 ^ 32 ->
  cc_coder_decode_bin (mp_enc (VBin s) ++ rest) = Some (s ++ rest, length s).
Proof.
  intros H. unfold cc_coder_decode_bin. rewrite is_type_enc, bool_decide_true by done.
  cbn [mp_enc]. rewrite mp_decode_bin_enc by done. rewrite u32_id by (unfold is_u32; lia).
  by rewrite Nat2Z.id.
Qed.

Lemma decode_str_other v rest :
  mp_wf v -> mpval_type v <> MP_STR -> cc_coder_decode_str (mp_enc v ++ rest) = None.
Proof.
  intros H N. unfold cc_coder_decode_str. by rewrite is_type_enc, bool_decide_false.
Qed.

Lemma next_enc v rest : mp_wf v -> mp_next (mp_enc v ++ rest) = rest.
Proof. apply mp_next_enc. Qed.

(** Enter a map. *)
Lemma in_map_enc {A} kvs rest (scan : nat -> bytes -> A) other :
  mp_wf (VMap kvs) ->
  in_map (mp_enc (VMap kvs) ++ rest) scan other = scan (length kvs) (mp_enc_kvs kvs ++ rest).
Proof.
  intros H. unfold in_map. rewrite is_type_enc, bool_decide_true by done.
  apply mp_wf_map in H as [H _]. cbn [mp_enc]. fold (mp_enc_kvs kvs).
  rewrite <- app_assoc, mp_decode_map_enc by lia. by rewrite Nat2Z.id.
Qed.

(** The comparison of a key of the map with the wanted one. *)
Lemma key_test_eq key rest : nul_free key -> streq_n (key ++ rest) key (length key) = true.
Proof. intros H. rewrite streq_n_sym. unfold streq_n. apply Z.eqb_eq, strncmp_prefix; auto using prefix_app_r. Qed.

Lemma key_test_apart k key rest :
  nul_free k -> apart key k -> streq_n (k ++ rest) key (length k) = false.
Proof.
  intros Hk [_ N]. apply not_true_is_false. unfold streq_n. rewrite Z.eqb_eq.
  intros E. apply N. apply (strncmp_prefix k key (length k)); [done..|].
  apply strncmp_zero_iff in E. apply strncmp_zero_iff. rewrite <- E.
  rewrite cstr_app, cstr_nul_free_all by done. rewrite <- app_assoc.
  by rewrite !take_app_length.
Qed.

Lemma value_test_eq key rest : nul_free key -> streq_n key (key ++ rest) (length key) = true.
Proof. intros H. rewrite streq_n_sym. by apply key_test_eq. Qed.

(** Keys that are apart differ before either ends, whatever follows. *)
Lemma apart_app a b rest : apart a b -> ~ a `prefix_of` b ++ rest.
Proof.
  intros [N1 N2] [u E]. destruct (decide (length a <= length b)%nat).
  - apply N1. apply (f_equal (take (length a))) in E.
    rewrite take_app_length, take_app_le in E by lia. exists (drop (length a) b).
    rewrite <- (take_drop (length a) b) at 1. congruence.
  - apply N2. apply (f_equal (take (length b))) in E.
    rewrite take_app_length, take_app_le in E by lia. exists (drop (length b) a).
    rewrite <- (take_drop (length b) a) at 1. congruence.
Qed.

Lemma value_test_apart k key rest :
  nul_free key -> apart key k -> streq_n key (k ++ rest) (length key) = false.
Proof.
  intros Hk N. apply not_true_is_false. unfold streq_n. rewrite Z.eqb_eq.
  rewrite strncmp_prefix by done. by apply apart_app.
Qed.

Lemma skvs_wf_cons k v kvs :
  mp_wf_kvs (skvs ((k, v) :: kvs)) <->
  (Z.of_nat (length k) < 2 ^ 32 /\ mp_wf v) /\ mp_wf_kvs (skvs kvs).
Proof. unfold mp_wf_kvs. simpl. by rewrite Forall_cons. Qed.

(** One step of the loops over an entry whose key is a string. *)
Ltac scan_step := intros; rewrite <- ?app_assoc; simpl;
  rewrite mp_enc_kvs_cons, <- ?app_assoc, decode_str_enc by done;
  rewrite next_enc by done.

Lemma scan_value_spec key kvs rest :
  nul_free key -> clear_for key kvs -> mp_wf_kvs (skvs kvs) ->
  scan_value (length kvs) (mp_enc_kvs (skvs kvs) ++ rest) key (length key)
  = (fun vr => mp_enc vr.1 ++ vr.2) <$> assoc_at key kvs rest.
Proof.
  intros Hkey. induction 1 as [|[k v] kvs [Hk Hc] _ IH]; [done|].
  rewrite skvs_wf_cons. intros [[Hwk Hwv] Hw]. simpl in Hk, Hc. scan_step.
  case_decide as E.
  - subst k. rewrite value_test_eq by done. done.
  - destruct Hc as [?|Hc]; [done|]. rewrite value_test_apart by done.
    rewrite next_enc by done. by apply IH.
Qed.

Lemma scan_keys_spec {A} key kvs rest (found : bytes -> A) none :
  nul_free key -> clear_for key kvs -> mp_wf_kvs (skvs kvs) ->
  scan_keys (length kvs) (mp_enc_kvs (skvs kvs) ++ rest) key found none
  = match assoc_at key kvs rest with Some (v, r) => found (mp_enc v ++ r) | None => none end.
Proof.
  intros Hkey. induction 1 as [|[k v] kvs [Hk Hc] _ IH]; [done|].
  rewrite skvs_wf_cons. intros [[Hwk Hwv] Hw]. simpl in Hk, Hc. scan_step.
  case_decide as E.
  - subst k. by rewrite key_test_eq.
  - destruct Hc as [?|Hc]; [done|]. rewrite key_test_apart by done.
    rewrite next_enc by done. by apply IH.
Qed.

Lemma scan_str_keys_spec {A} key kvs rest (found : bytes -> A) :
  nul_free key -> clear_for key kvs -> mp_wf_kvs (skvs kvs) ->
  scan_str_keys (length kvs) (mp_enc_kvs (skvs kvs) ++ rest) key found
  = (fun vr => found (mp_enc vr.1 ++ vr.2)) <$> assoc_at key kvs rest.
Proof.
  intros Hkey. induction 1 as [|[k v] kvs [Hk Hc] _ IH]; [done|].
  rewrite skvs_wf_cons. intros [[Hwk Hwv] Hw]. simpl in Hk, Hc. scan_step.
  case_decide as E.
  - subst k. by rewrite key_test_eq.
  - destruct Hc as [?|Hc]; [done|]. rewrite key_test_apart by done.
    rewrite next_enc by done. by apply IH.
Qed.

(** ** The lookups *)

Section lookups.
Context (key : bytes) (kvs : list (bytes * mpval)) (rest : bytes)
  (Hkey : nul_free key) (Hclear : clear_for key kvs) (Hwf : mp_wf (smap kvs)).

#[local] Lemma Hkvs : mp_wf_kvs (skvs kvs).
Proof using Hwf. by apply mp_wf_map in Hwf as [_ ?]. Qed.

Lemma get_value_from_map_assoc :
  cc_coder_get_value_from_map (mp_enc (smap kvs) ++ rest) key
  = (fun vr => mp_enc vr.1 ++ vr.2) <$> assoc_at key kvs rest.
Proof using All.
  unfold cc_coder_get_value_from_map, cc_coder_get_value_from_map_n.
  rewrite in_map_enc, strlen_nul_free_all, length_map by done.
  apply scan_value_spec; auto using Hkvs.
Qed.

Lemma has_key_assoc :
  cc_coder_has_key (mp_enc (smap kvs) ++ rest) key
  = match assoc key kvs with Some _ => true | None => false end.
Proof using All.
  unfold cc_coder_has_key. rewrite in_map_enc, length_map by done.
  rewrite scan_keys_spec, <- (assoc_at_assoc key kvs rest) by auto using Hkvs.
  by destruct (assoc_at key kvs rest) as [[? ?]|].
Qed.

#[local] Lemma Hvals : Forall mp_wf (snd <$> kvs).
Proof using Hwf.
  pose proof Hkvs as H. unfold mp_wf_kvs in H. rewrite Forall_fmap in *.
  change (map ?f ?l) with (f <$> l) in H. rewrite Forall_fmap in H.
  eapply Forall_impl; [exact H|]. by intros kv [_ ?].
Qed.

(** The value under a key of a well-formed map is well formed. *)
Lemma assoc_wf v : assoc key kvs = Some v -> mp_wf v.
Proof using Hwf.
  pose proof Hvals as Hv. unfold assoc. intros E.
  destruct (List.find _ kvs) as [[k' v']|] eqn:F; simplify_eq/=.
  apply List.find_some in F as [F _]. apply list_elem_of_In in F.
  rewrite Forall_fmap, Forall_forall in Hv. by apply (Hv _ F).
Qed.

Lemma decode_string_from_map_assoc :
  cc_coder_decode_string_from_map (mp_enc (smap kvs) ++ rest) key
  = match assoc_at key kvs rest with
    | Some (VStr s, r) => Some (s ++ r, length s)
    | _ => None
    end.
Proof using All.
  unfold cc_coder_decode_string_from_map. rewrite in_map_enc, length_map by done.
  rewrite scan_keys_spec by auto using Hkvs.
  pose proof (assoc_at_assoc key kvs rest) as E'.
  destruct (assoc_at key kvs rest) as [[v r]|]; [|done].
  assert (mp_wf v) as Hwv by by apply assoc_wf.
  destruct v; try by apply decode_str_other. by apply decode_str_enc.
Qed.

Lemma decode_bin_from_map_assoc s r :
  assoc_at key kvs rest = Some (VBin s, r) ->
  cc_coder_decode_bin_from_map (mp_enc (smap kvs) ++ rest) key = Some (s ++ r, length s).
Proof using All.
  intros E. unfold cc_coder_decode_bin_from_map. rewrite in_map_enc, length_map by done.
  rewrite scan_keys_spec, E by auto using Hkvs. apply decode_bin_enc.
  pose proof (assoc_at_assoc key kvs rest) as E'. rewrite E in E'. symmetry in E'. exact (assoc_wf _ E').
Qed.

Lemma decode_uint_from_map_assoc n r :
  assoc_at key kvs rest = Some (VUint n, r) -> 0 <= n < 2 ^ 64 ->
  cc_coder_decode_uint_from_map (mp_enc (smap kvs) ++ rest) key = Some (u32 n).
Proof using All.
  intros E Hn. unfold cc_coder_decode_uint_from_map. rewrite in_map_enc, length_map by done.
  rewrite scan_str_keys_spec, E by auto using Hkvs. simpl.
  by rewrite mpk_decode_uint_enc.
Qed.

Lemma decode_bool_from_map_assoc b r :
  assoc_at key kvs rest = Some (VBool b, r) ->
  cc_coder_decode_bool_from_map (mp_enc (smap kvs) ++ rest) key = Some b.
Proof using All.
  intros E. unfold cc_coder_decode_bool_from_map. rewrite in_map_enc, length_map by done.
  rewrite scan_str_keys_spec, E by auto using Hkvs. simpl.
  by rewrite mp_decode_bool_enc.
Qed.

Lemma decode_uint_from_map_none :
  assoc key kvs = None ->
  cc_coder_decode_uint_from_map (mp_enc (smap kvs) ++ rest) key = None.
Proof using All.
  intros E. unfold cc_coder_decode_uint_from_map. rewrite in_map_enc, length_map by done.
  rewrite scan_str_keys_spec by auto using Hkvs.
  rewrite <- (assoc_at_assoc key kvs rest) in E. by destruct (assoc_at key kvs rest).
Qed.
End lookups.

(** ** Scalars, in the forms the runtime decodes *)

Lemma decode_uint_enc n r : is_u32 n -> cc_coder_decode_uint (mp_enc (VUint n) ++ r) = Ok (Some n).
Proof using L.
  intros Hn. unfold cc_coder_decode_uint. rewrite mp_typeof_enc by (simpl; unfold is_u32 in *; lia).
  cbn [mpval_type mp_enc]. rewrite mpk_decode_uint_enc by (unfold is_u32 in *; lia). simpl. by rewrite u32_id.
Qed.
Lemma decode_bool_enc b r : cc_coder_decode_bool (mp_enc (VBool b) ++ r) = Some b.
Proof using L.
  unfold cc_coder_decode_bool. rewrite is_type_enc, bool_decide_true by done. cbn [mp_enc].
  by rewrite mp_decode_bool_enc.
Qed.

(** ** Arrays *)

Lemma iter_next_enc l i rest :
  Forall mp_wf l -> (i <= length l)%nat ->
  Nat.iter i mp_next (concat (map mp_enc l) ++ rest) = concat (map mp_enc (drop i l)) ++ rest.
Proof.
  intros Hl. revert l Hl. induction i as [|i IH]; intros l Hl Hi; [done|].
  rewrite Nat.iter_succ_r. destruct l as [|v l]; [simpl in Hi; lia|].
  apply Forall_cons in Hl as [Hv Hl]. simpl. rewrite <- app_assoc, next_enc by done.
  apply IH; [done|simpl in Hi; lia].
Qed.

Lemma get_value_from_array_enc l i v rest :
  mp_wf (VArr l) -> l !! i = Some v ->
  cc_coder_get_value_from_array (mp_enc (VArr l) ++ rest) i
  = Some (mp_enc v ++ concat (map mp_enc (drop (S i) l)) ++ rest).
Proof.
  intros H Hi. apply mp_wf_arr in H as [Hn Hl]. pose proof (lookup_lt_Some _ _ _ Hi).
  unfold cc_coder_get_value_from_array. cbn [mp_enc].
  rewrite <- app_assoc, mp_decode_array_enc by lia.
  rewrite (proj2 (Z.ltb_lt _ _)) by lia.
  rewrite iter_next_enc by (done || lia). rewrite (drop_S _ _ _ Hi). simpl.
  by rewrite <- app_assoc.
Qed.

Lemma decode_string_from_array_enc (l : list mpval) (i : nat) (u rest : bytes) :
  mp_wf (VArr l) -> l !! i = Some (VStr u) ->
  exists r, cc_coder_decode_string_from_array (mp_enc (VArr l) ++ rest) i = Some (u ++ r, length u).
Proof.
  intros H Hi. apply mp_wf_arr in H as [Hn Hl]. pose proof (lookup_lt_Some _ _ _ Hi).
  assert (mp_wf (VStr u)) as Hw by (by eapply Forall_lookup_1 in Hl).
  unfold cc_coder_decode_string_from_array. cbn [mp_enc].
  rewrite <- app_assoc, mp_decode_array_enc by lia. rewrite (proj2 (Z.ltb_lt _ _)) by lia.
  rewrite iter_next_enc by (done || lia). rewrite (drop_S _ _ _ Hi). cbn [map concat].
  eexists. rewrite <- app_assoc. by apply decode_str_enc.
Qed.

(** ** Sizes *)

Lemma get_size_of_value_enc v rest :
  mp_wf v -> cc_coder_get_size_of_value (mp_enc v ++ rest) = length (mp_enc v).
Proof.
  intros H. unfold cc_coder_get_size_of_value. rewrite next_enc by done.
  rewrite length_app. lia.
Qed.

Lemma take_size_of_value v rest :
  mp_wf v -> take (cc_coder_get_size_of_value (mp_enc v ++ rest)) (mp_enc v ++ rest) = mp_enc v.
Proof. intros H. rewrite get_size_of_value_enc by done. apply take_app_length. Qed.
End spec.
