(* ===== verification/FifoSpec.v ===== *)
(** The contract of the queue: cc_fifo.c implements a bounded queue with a
    tentative reader.

    The abstract queue is two lists: the tokens handed out and not committed,
    and the tokens not yet read.  [repr] relates it to the ring buffer; every
    operation is simulated as long as the 32-bit write counter has not wrapped. *)
From S2P Require Import Prelude CString MsgPuck Coder Fifo.

(** ** The abstract queue *)

Record aqueue := { pending : list cc_token_t; unread : list cc_token_t }.

Definition aq_all (q : aqueue) : list cc_token_t := pending q ++ unread q.

Definition aq_write (cap : Z) (t : cc_token_t) (q : aqueue) : option aqueue :=
  if Z.of_nat (length (aq_all q)) <? cap
  then Some {| pending := pending q; unread := unread q ++ [t] |} else None.

Definition aq_peek (q : aqueue) : option (cc_token_t * aqueue) :=
  match unread q with
  | t :: u => Some (t, {| pending := pending q ++ [t]; unread := u |})
  | [] => None
  end.

Definition aq_commit (q : aqueue) : aqueue :=
  {| pending := tail (pending q); unread := unread q |}.

Definition aq_cancel (q : aqueue) : aqueue := {| pending := []; unread := aq_all q |}.

(** ** Representation *)

Definition slot (f : cc_fifo_t) (p : Z) : cc_token_t :=
  tokens f !!! Z.to_nat (p mod fifo_size f).

Definition window (f : cc_fifo_t) (a b : Z) : list cc_token_t := map (slot f) (seqZ a (b - a)).

(** The well-formed queues.  Slots outside the window own no buffer. *)
Record fifo_ok (f : cc_fifo_t) : Prop := {
  ok_size : 0 < fifo_size f < 2 ^ 32;
  ok_tokens : Z.of_nat (length (tokens f)) = fifo_size f;
  ok_pos : 0 <= read_pos f <= tentative_read_pos f /\ tentative_read_pos f <= write_pos f < 2 ^ 32;
  ok_room : write_pos f - read_pos f <= fifo_size f - 1;
  ok_clean : forall i, (i < length (tokens f))%nat ->
    (forall p, read_pos f <= p < write_pos f -> Z.to_nat (p mod fifo_size f) <> i) ->
    tok_value (tokens f !!! i) = None
}.

Definition repr (f : cc_fifo_t) (q : aqueue) : Prop :=
  fifo_ok f
  /\ pending q = window f (read_pos f) (tentative_read_pos f)
  /\ unread q = window f (tentative_read_pos f) (write_pos f).

(** ** Slots *)

Lemma mod_apart a b s : a < b -> b - a < s -> a mod s <> b mod s.
Proof.
  intros H1 H2 E. assert ((b - a) mod s = 0) as D.
  { rewrite Zminus_mod, E, Z.sub_diag. apply Z.mod_0_l. lia. }
  rewrite Z.mod_small in D by lia. lia.
Qed.

Lemma slot_index_ok f p : fifo_ok f ->
  slot_index f p = Ok (Z.to_nat (p mod fifo_size f))
  /\ (Z.to_nat (p mod fifo_size f) < length (tokens f))%nat.
Proof.
  intros H. pose proof (ok_size f H). pose proof (ok_tokens f H). unfold slot_index.
  destruct (Z.eqb_spec (fifo_size f) 0); [lia|]. split; [done|].
  pose proof (Z.mod_pos_bound p (fifo_size f)). lia.
Qed.

Lemma get_slot_ok {S} f p (s : S) : fifo_ok f ->
  get_slot f p s = Ok ((Z.to_nat (p mod fifo_size f), slot f p), s).
Proof.
  intros H. destruct (slot_index_ok f p H) as [E L]. unfold get_slot. exec. rewrite E. exec.
  destruct (lookup_lt_is_Some_2 _ _ L) as [t Ht]. unfold slot.
  rewrite Ht, (list_lookup_total_correct _ _ _ Ht). done.
Qed.

Lemma slot_set_token_eq f p t : fifo_ok f ->
  slot (set_token (Z.to_nat (p mod fifo_size f)) t f) p = t.
Proof.
  intros H. destruct (slot_index_ok f p H) as [_ L]. unfold slot. simpl.
  by apply list_lookup_total_insert_eq.
Qed.

Lemma slot_set_token_ne f p p' t : fifo_ok f ->
  p mod fifo_size f <> p' mod fifo_size f ->
  slot (set_token (Z.to_nat (p mod fifo_size f)) t f) p' = slot f p'.
Proof.
  intros H N. unfold slot. simpl. apply list_lookup_total_insert_ne.
  pose proof (ok_size f H).
  pose proof (Z.mod_pos_bound p (fifo_size f)). pose proof (Z.mod_pos_bound p' (fifo_size f)). lia.
Qed.

Lemma window_empty f a : window f a a = [].
Proof. unfold window. by rewrite Z.sub_diag. Qed.

Lemma window_snoc f a b : a <= b -> window f a (b + 1) = window f a b ++ [slot f b].
Proof.
  intros H. unfold window. replace (b + 1 - a) with ((b - a) + 1) by lia.
  rewrite seqZ_app by lia. rewrite map_app. simpl.
  by replace (a + (b - a)) with b by lia.
Qed.

Lemma window_cons f a b : a < b -> window f a b = slot f a :: window f (a + 1) b.
Proof.
  intros H. unfold window. rewrite seqZ_cons by lia. simpl. f_equal. f_equal. f_equal; lia.
Qed.

Lemma window_app f a b c : a <= b <= c -> window f a c = window f a b ++ window f b c.
Proof.
  intros H. unfold window. replace (c - a) with ((b - a) + (c - b)) by lia.
  rewrite seqZ_app by lia. rewrite map_app. by replace (a + (b - a)) with b by lia.
Qed.

Lemma length_window f a b : a <= b -> Z.of_nat (length (window f a b)) = b - a.
Proof. intros H. unfold window. rewrite length_map, length_seqZ. lia. Qed.

Lemma window_ext f g a b :
  (forall p, a <= p < b -> slot f p = slot g p) -> window f a b = window g a b.
Proof.
  intros H. unfold window. apply map_ext_in. intros p Hp.
  apply list_elem_of_In, elem_of_seqZ in Hp. apply H. lia.
Qed.

(** Writing outside a window leaves it alone. *)
Lemma window_set_token f p t a b : fifo_ok f ->
  (forall p', a <= p' < b -> p mod fifo_size f <> p' mod fifo_size f) ->
  window (set_token (Z.to_nat (p mod fifo_size f)) t f) a b = window f a b.
Proof.
  intros H N. apply window_ext. intros p' Hp'. apply slot_set_token_ne; auto.
Qed.

(** The slot the next token goes to owns nothing. *)
Lemma write_slot_free f : fifo_ok f -> tok_value (slot f (write_pos f)) = None.
Proof.
  intros H. pose proof (ok_pos f H). pose proof (ok_room f H). pose proof (ok_size f H).
  destruct (slot_index_ok f (write_pos f) H) as [_ L]. apply (ok_clean f H); [done|].
  intros p Hp E. pose proof (Z.mod_pos_bound p (fifo_size f)).
  pose proof (Z.mod_pos_bound (write_pos f) (fifo_size f)).
  apply (mod_apart p (write_pos f) (fifo_size f)); lia.
Qed.

Lemma repr_all f q : repr f q -> aq_all q = window f (read_pos f) (write_pos f).
Proof.
  intros (H & Hp & Hu). unfold aq_all. rewrite Hp, Hu. symmetry.
  apply window_app. pose proof (ok_pos f H). lia.
Qed.

Lemma slots_available_ok f n : fifo_ok f ->
  cc_fifo_slots_available f n = Ok (n <=? fifo_size f - (write_pos f - read_pos f) - 1).
Proof.
  intros H. pose proof (ok_size f H). pose proof (ok_pos f H). pose proof (ok_room f H).
  unfold cc_fifo_slots_available. destruct (Z.eqb_spec (fifo_size f) 0); [lia|].
  rewrite (u32_id (write_pos f - read_pos f)) by (unfold is_u32; lia).
  rewrite Z.mod_small by lia. by rewrite u32_id by (unfold is_u32; lia).
Qed.

Lemma tokens_available_ok f n : fifo_ok f ->
  cc_fifo_tokens_available f n = (n <=? write_pos f - tentative_read_pos f).
Proof.
  intros H. pose proof (ok_pos f H). unfold cc_fifo_tokens_available.
  by rewrite u32_id by (unfold is_u32; lia).
Qed.

(** ** The simulation *)

Lemma new_fifo_repr size : 0 < size < 2 ^ 32 -> repr (new_fifo size) {| pending := []; unread := [] |}.
Proof.
  intros H. split; [|by rewrite !window_empty].
  split; simpl; rewrite ?length_replicate; try lia.
  intros i Hi _. rewrite list_lookup_total_alt, lookup_replicate_2 by lia. done.
Qed.

Lemma write_fifo_ok f t : fifo_ok f ->
  write_pos f - read_pos f < fifo_size f - 1 -> write_pos f + 1 < 2 ^ 32 ->
  fifo_ok (set_write_pos (write_pos f + 1)
             (set_token (Z.to_nat (write_pos f mod fifo_size f)) t f)).
Proof.
  intros H Hr Hw. destruct (slot_index_ok f (write_pos f) H) as [_ L].
  pose proof (ok_size f H). pose proof (ok_tokens f H). pose proof (ok_pos f H).
  split; simpl; rewrite ?length_insert; try lia.
  intros i Hi N. rewrite list_lookup_total_insert_ne by (apply N; lia).
  apply (ok_clean f H); [done|]. intros p Hp. apply N. lia.
Qed.

(** [cc_fifo_write] refines [aq_write]. *)
Lemma cc_fifo_write_repr f q data size m :
  repr f q -> write_pos f + 1 < 2 ^ 32 ->
  exists f', cc_fifo_write f data size m
    = Ok ((match aq_write (fifo_size f - 1) {| tok_value := data; tok_size := size |} q with
           | Some _ => CC_SUCCESS | None => CC_FAIL end, f'), m)
    /\ fifo_size f' = fifo_size f
    /\ repr f' (default q (aq_write (fifo_size f - 1) {| tok_value := data; tok_size := size |} q)).
Proof.
  intros HR Hw. pose proof (repr_all f q HR) as Hall. destruct HR as (H & Hp & Hu).
  pose proof (ok_pos f H). unfold cc_fifo_write, aq_write.
  rewrite Hall, length_window by lia. exec. rewrite slots_available_ok by done. exec.
  destruct (Z.leb_spec 1 (fifo_size f - (write_pos f - read_pos f) - 1));
    destruct (Z.ltb_spec (write_pos f - read_pos f) (fifo_size f - 1)); try lia; simpl.
  - pose proof (@get_slot_ok mem f (write_pos f) m H) as E. exec. rewrite E. simpl.
    unfold cc_token_set_data. rewrite write_slot_free by done. exec.
    rewrite (u32_id (write_pos f + 1)) by (unfold is_u32; lia).
    eexists. split; [done|]. split; [done|].
    assert (forall a b, read_pos f <= a -> b <= write_pos f ->
      window (set_token (Z.to_nat (write_pos f mod fifo_size f))
        {| tok_value := data; tok_size := size |} f) a b = window f a b) as W.
    { intros a b Ha Hb. apply window_set_token; [done|]. intros p Hp' E'.
      apply (mod_apart p (write_pos f) (fifo_size f)); [lia|lia|done]. }
    split; [by apply write_fifo_ok|]. simpl. split.
    + rewrite Hp. symmetry. apply W; lia.
    + change (window (set_write_pos _ ?g)) with (window g). rewrite window_snoc by lia.
      f_equal; [rewrite Hu; symmetry; apply W; lia|].
      f_equal. symmetry. by apply slot_set_token_eq.
  - exec. exists f. done.
Qed.

(** [cc_fifo_peek] refines [aq_peek] when a token is available. *)
Lemma cc_fifo_peek_repr {S} f q t q' (s : S) :
  repr f q -> aq_peek q = Some (t, q') ->
  cc_fifo_peek f s = Ok ((set_tentative_read_pos (tentative_read_pos f + 1) f, t), s)
  /\ repr (set_tentative_read_pos (tentative_read_pos f + 1) f) q'.
Proof.
  intros (H & Hp & Hu) Hq. pose proof (ok_pos f H). unfold aq_peek in Hq.
  assert (tentative_read_pos f < write_pos f) as Hlt.
  { destruct (Z_lt_ge_dec (tentative_read_pos f) (write_pos f)); [done|].
    replace (write_pos f) with (tentative_read_pos f) in Hu by lia.
    rewrite window_empty in Hu. by rewrite Hu in Hq. }
  rewrite window_cons in Hu by done. rewrite Hu in Hq. simplify_eq.
  unfold cc_fifo_peek. exec. rewrite get_slot_ok by done. simpl.
  rewrite u32_id by (unfold is_u32; lia). split; [done|].
  assert (fifo_ok (set_tentative_read_pos (tentative_read_pos f + 1) f)) as H'.
  { destruct H. split; simpl in *; try done. lia. }
  split; [done|]. simpl. change (window (set_tentative_read_pos _ ?g)) with (window g).
  split; [|done]. rewrite Hp. symmetry. apply window_snoc. lia.
Qed.

(** Dropping the first uncommitted slot. *)
Lemma commit_repr f q t : repr f q -> read_pos f < tentative_read_pos f -> tok_value t = None ->
  repr (set_read_pos (read_pos f + 1) (set_token (Z.to_nat (read_pos f mod fifo_size f)) t f))
       (aq_commit q)
  /\ head (pending q) = Some (slot f (read_pos f)).
Proof.
  intros (H & Hp & Hu) Hlt Ht. pose proof (ok_pos f H). pose proof (ok_room f H).
  destruct (slot_index_ok f (read_pos f) H) as [_ L].
  rewrite window_cons in Hp by done. rewrite Hp. split; [|done].
  set (g := set_token _ t f).
  assert (forall a b, read_pos f + 1 <= a -> b <= write_pos f -> window g a b = window f a b) as W.
  { intros a b Ha Hb. apply window_set_token; [done|]. intros p Hp' E.
    apply (mod_apart (read_pos f) p (fifo_size f)); [lia|lia|done]. }
  split.
  - destruct H. split; simpl in *; rewrite ?length_insert; try lia.
    intros i Hi N. destruct (decide (Z.to_nat (read_pos f mod fifo_size f) = i)) as [<-|Ni].
    + by rewrite list_lookup_total_insert_eq.
    + rewrite list_lookup_total_insert_ne by done. apply ok_clean0; [done|].
      intros p Hp'. destruct (decide (p = read_pos f)) as [->|]; [done|]. apply N. lia.
  - simpl. rewrite Hp, Hu. simpl. change (window (set_read_pos _ ?h)) with (window h).
    split; symmetry; apply W; lia.
Qed.

(** [cc_fifo_commit_read(fifo, false)] refines [aq_commit]: the buffer is not freed. *)
Lemma cc_fifo_commit_read_repr f q m :
  repr f q -> pending q <> [] ->
  exists f', cc_fifo_commit_read f false m = Ok (f', m) /\ fifo_size f' = fifo_size f
    /\ write_pos f' = write_pos f /\ repr f' (aq_commit q).
Proof.
  intros HR Hne. pose proof HR as (H & Hp & Hu). pose proof (ok_pos f H).
  assert (read_pos f < tentative_read_pos f) as Hlt.
  { destruct (Z_lt_ge_dec (read_pos f) (tentative_read_pos f)); [done|].
    replace (tentative_read_pos f) with (read_pos f) in Hp by lia.
    by rewrite window_empty in Hp. }
  unfold cc_fifo_commit_read. rewrite (proj2 (Z.ltb_lt _ _)) by done. exec.
  rewrite get_slot_ok by done. exec. rewrite u32_id by (unfold is_u32; lia).
  eexists. split; [done|]. split; [done|]. split; [done|].
  by apply (commit_repr f q no_token).
Qed.

(** [cc_fifo_cancel] and [cc_fifo_cancel_commit] refine [aq_cancel]. *)
Lemma cc_fifo_cancel_repr f q : repr f q -> repr (cc_fifo_cancel f) (aq_cancel q).
Proof.
  intros HR. pose proof (repr_all f q HR) as Hall. destruct HR as (H & Hp & Hu).
  pose proof (ok_pos f H). split.
  - destruct H. split; simpl in *; try done. lia.
  - simpl. rewrite Hall. change (window (cc_fifo_cancel ?g)) with (window g).
    by rewrite window_empty.
Qed.

(** [cc_fifo_com_commit_read]: the oldest token in flight is freed exactly when the
    acknowledged number is its number. *)
Lemma com_commit_read_run (f : cc_fifo_t) (q : aqueue) (seq : Z) (m : mem) :
  repr f q -> is_u32 seq ->
  (forall v, tok_value (slot f (read_pos f)) = Some v -> is_Some (m !! v)) ->
  exists f' m', cc_fifo_com_commit_read f seq m = Ok (f', m')
    /\ (if bool_decide (seq = read_pos f /\ pending q <> []) then
          repr f' (aq_commit q) /\ read_pos f' = read_pos f + 1
          /\ m' = match tok_value (slot f (read_pos f)) with Some v => delete v m | None => m end
        else f' = f /\ m' = m).
Proof.
  intros HR Hseq Hm. pose proof HR as (H & Hp & Hu). pose proof (ok_pos f H).
  assert (pending q <> [] <-> read_pos f < tentative_read_pos f) as Hne.
  { rewrite Hp. split.
    - intros N. destruct (Z_lt_ge_dec (read_pos f) (tentative_read_pos f)); [done|].
      replace (tentative_read_pos f) with (read_pos f) in N by lia. by rewrite window_empty in N.
    - intros L. by rewrite window_cons by done. }
  unfold cc_fifo_com_commit_read.
  destruct (Z.leb_spec (tentative_read_pos f) seq).
  { exists f, m. rewrite bool_decide_false by (rewrite Hne; lia). done. }
  destruct (Z.ltb_spec (read_pos f) (tentative_read_pos f)); simpl.
  2: { exists f, m. rewrite bool_decide_false by (rewrite Hne; lia). done. }
  destruct (Z.eqb_spec seq (read_pos f)).
  2: { exists f, m. rewrite bool_decide_false by (rewrite Hne; lia). done. }
  rewrite bool_decide_true by (rewrite Hne; lia).
  pose proof (@get_slot_ok mem f (read_pos f) m H) as G. exec. rewrite G. simpl.
  rewrite (u32_id (read_pos f + 1)) by (unfold is_u32; lia).
  unfold cc_token_free. destruct (tok_value (slot f (read_pos f))) as [v|] eqn:Ev.
  - destruct (Hm v eq_refl) as [b Hb]. unfold mem_free. exec. unfold get_. rewrite Hb. simpl.
    eexists _, _. split; [done|]. split; [|done]. by apply (commit_repr f q no_token).
  - exec. eexists _, _. split; [done|]. split; [|done]. by apply commit_repr.
Qed.

(** [cc_fifo_commit_read(fifo, true)] frees the buffer it commits. *)
Lemma commit_read_free f q l b m :
  repr f q -> pending q <> [] -> tok_value (slot f (read_pos f)) = Some l -> m !! l = Some b ->
  exists f', cc_fifo_commit_read f true m = Ok (f', delete l m) /\ fifo_size f' = fifo_size f
    /\ write_pos f' = write_pos f /\ repr f' (aq_commit q).
Proof.
  intros HR Hne Hl Hb. pose proof HR as (H & Hp & Hu). pose proof (ok_pos f H).
  assert (read_pos f < tentative_read_pos f) as Hlt.
  { destruct (Z_lt_ge_dec (read_pos f) (tentative_read_pos f)); [done|].
    replace (tentative_read_pos f) with (read_pos f) in Hp by lia. by rewrite window_empty in Hp. }
  unfold cc_fifo_commit_read. rewrite (proj2 (Z.ltb_lt _ _)) by done.
  rewrite (bind_Ok _ _ _ _ _ (get_slot_ok f (read_pos f) m H)). unfold cc_token_free. rewrite Hl.
  assert ((mem_free l;; mret no_token) m = Ok (no_token, delete l m)) as E.
  { unfold mem_free. exec. unfold get_. by rewrite Hb. }
  rewrite (bind_Ok _ _ _ _ _ E). rewrite u32_id by (unfold is_u32; lia).
  eexists. split; [done|]. split; [done|]. split; [done|]. by apply (commit_repr f q no_token).
Qed.

(** The positions after a write. *)
Lemma cc_fifo_write_positions f data size m f' m' :
  cc_fifo_write f data size m = Ok ((CC_SUCCESS, f'), m') ->
  write_pos f' = u32 (write_pos f + 1) /\ read_pos f' = read_pos f
  /\ tentative_read_pos f' = tentative_read_pos f.
Proof.
  unfold cc_fifo_write. intros (free & s & _ & E)%bind_inv. destruct free; simpl in E; [|by cbv in E].
  apply bind_inv in E as ([i t] & s1 & _ & E). apply bind_inv in E as (t' & s2 & _ & E).
  cbv [mret M_ret] in E. by simplify_eq.
Qed.

(** A write that finds a slot. *)
Lemma cc_fifo_write_room f q data size m : repr f q -> write_pos f + 1 < 2 ^ 32 ->
  Z.of_nat (length (aq_all q)) < fifo_size f - 1 ->
  exists f', cc_fifo_write f data size m = Ok ((CC_SUCCESS, f'), m)
    /\ repr f' {| pending := pending q; unread := unread q ++ [{| tok_value := data; tok_size := size |}] |}
    /\ write_pos f' = write_pos f + 1 /\ read_pos f' = read_pos f
    /\ tentative_read_pos f' = tentative_read_pos f.
Proof.
  intros H Hw Hr. destruct (cc_fifo_write_repr f q data size m H Hw) as (f' & E & _ & R).
  unfold aq_write in E, R. rewrite (proj2 (Z.ltb_lt _ _) Hr) in E, R. exists f'.
  destruct (cc_fifo_write_positions _ _ _ _ _ _ E) as (E1 & E2 & E3). rewrite u32_id in E1.
  2: { destruct H as (H & _). pose proof (ok_pos f H). unfold is_u32. lia. }
  repeat (split; [assumption|]). done.
Qed.

Lemma cc_fifo_write_full f q data size m : repr f q ->
  fifo_size f - 1 <= Z.of_nat (length (aq_all q)) ->
  cc_fifo_write f data size m = Ok ((CC_FAIL, f), m).
Proof.
  intros H Hr. pose proof (repr_all f q H) as Ha. destruct H as (H & _ & _). pose proof (ok_pos f H).
  rewrite Ha, length_window in Hr by lia. unfold cc_fifo_write. rewrite slots_available_ok by done.
  rewrite (proj2 (Z.leb_gt _ _)) by lia. done.
Qed.

Lemma slots_available_repr f q : repr f q ->
  cc_fifo_slots_available f 1 = Ok (Z.of_nat (length (aq_all q)) <? fifo_size f - 1).
Proof.
  intros H. rewrite (repr_all f q H). destruct H as (H & _ & _). pose proof (ok_pos f H).
  rewrite slots_available_ok, length_window by (done || lia). f_equal.
  apply eq_true_iff_eq. rewrite Z.leb_le, Z.ltb_lt. lia.
Qed.

(** A well-formed queue has tokens when its abstract queue has. *)
Lemma tokens_available_repr f q : repr f q ->
  cc_fifo_tokens_available f 1 = negb (bool_decide (unread q = [])).
Proof.
  intros (H & _ & Hu). rewrite tokens_available_ok by done. pose proof (ok_pos f H).
  destruct (Z.leb_spec 1 (write_pos f - tentative_read_pos f)).
  - rewrite bool_decide_false; [done|]. rewrite Hu, window_cons by lia. done.
  - rewrite bool_decide_true; [done|]. rewrite Hu. replace (write_pos f) with (tentative_read_pos f) by lia.
    apply window_empty.
Qed.

Lemma run_com_peek {S} f q t q' (s : S) : repr f q -> aq_peek q = Some (t, q') ->
  cc_fifo_com_peek f s
  = Ok ((set_tentative_read_pos (tentative_read_pos f + 1) f, (t, tentative_read_pos f)), s).
Proof.
  intros H E. unfold cc_fifo_com_peek.
  by rewrite (bind_Ok _ _ _ _ _ (proj1 (cc_fifo_peek_repr f q t q' s H E))).
Qed.
