(* ===== verification/MsgSpec.v ===== *)
(** The messages as values: under the contract of msgpuck the encoders append the
    entries of a map, so that a message built by [cc_proto_send_*] is the encoding
    of one value after the room for the length prefix. *)
From S2P Require Import Prelude CString Common MsgPuck MsgPackRef Coder Fifo Machine Transport.
From S2P Require Import ProtoSend CoderSpec.

(** An identifier in its array: the string, its terminator, anything. *)
Definition in_id (s id : bytes) : Prop :=
  key_ok s /\ length id = CC_UUID_BUFFER_SIZE /\ exists t, id = s ++ NUL :: t.

Lemma in_id_len s id : in_id s id -> uuid_len id = length s.
Proof. intros (Hs & _ & t & ->). by apply strnlen_key_arr. Qed.

Lemma in_id_nul_free s id : in_id s id -> nul_free s.
Proof. by intros ([? _] & _). Qed.

Lemma in_id_short s id : in_id s id -> Z.of_nat (length s) < 2 ^ 32.
Proof. intros ([_ L] & _). unfold CC_UUID_BUFFER_SIZE in L. lia. Qed.

Section msg_spec.
Context `{MP : MsgPuck} `{L : !MsgPuckLaws MP}.

(** ** Entries *)

Abbreviation entry k v := (mp_enc_kvs [(VStr k, v)]).

Lemma entry_eq k v : entry k v = mp_enc (VStr k) ++ mp_enc v.
Proof. unfold mp_enc_kvs. simpl. by rewrite app_nil_r. Qed.

Lemma mp_enc_kvs_app l1 l2 : mp_enc_kvs (l1 ++ l2) = mp_enc_kvs l1 ++ mp_enc_kvs l2.
Proof. unfold mp_enc_kvs. by rewrite map_app, concat_app. Qed.

Lemma encode_key_entry w k : nul_free k -> encode_key w k = w ++ mp_enc (VStr k).
Proof. intros H. unfold encode_key. by rewrite strlen_nul_free_all. Qed.

Lemma enc_str_take s n : (n <= length s)%nat -> mp_encode_str s (Z.of_nat n) = mp_enc (VStr (take n s)).
Proof using L.
  intros H. rewrite mp_encode_str_take by lia. simpl. rewrite Nat2Z.id, length_take_le by done. done.
Qed.

Lemma kv_str_entry w k v n : nul_free k -> (n <= length v)%nat ->
  cc_coder_encode_kv_str w k v n = w ++ entry k (VStr (take n v)).
Proof using L.
  intros Hk Hn. unfold cc_coder_encode_kv_str.
  by rewrite encode_key_entry, enc_str_take, entry_eq, app_assoc.
Qed.

Lemma kv_str_lit w k v : nul_free k ->
  cc_coder_encode_kv_str w k v (length v) = w ++ entry k (VStr v).
Proof using L. intros Hk. by rewrite kv_str_entry, firstn_all. Qed.

Lemma kv_uuid_entry w k s id : nul_free k -> in_id s id ->
  kv_uuid w k id = w ++ entry k (VStr s).
Proof using L.
  intros Hk Hid. unfold kv_uuid. rewrite (in_id_len s id Hid).
  destruct Hid as (_ & _ & t & ->). rewrite kv_str_entry; [|done|rewrite length_app; lia].
  by rewrite take_app_length.
Qed.

Lemma kv_uint_entry w k n : nul_free k ->
  cc_coder_encode_kv_uint w k n = w ++ entry k (VUint n).
Proof. intros Hk. unfold cc_coder_encode_kv_uint. by rewrite encode_key_entry, entry_eq, app_assoc. Qed.

Lemma kv_bin_entry w k v : nul_free k ->
  cc_coder_encode_kv_bin w k v (length v) = w ++ entry k (VBin v).
Proof. intros Hk. unfold cc_coder_encode_kv_bin. by rewrite encode_key_entry, entry_eq, app_assoc. Qed.

Lemma kv_nil_entry w k : nul_free k -> cc_coder_encode_kv_nil w k = w ++ entry k VNil.
Proof. intros Hk. unfold cc_coder_encode_kv_nil. by rewrite encode_key_entry, entry_eq, app_assoc. Qed.

Lemma kv_bool_entry w k b : nul_free k -> cc_coder_encode_kv_bool w k b = w ++ entry k (VBool b).
Proof. intros Hk. unfold cc_coder_encode_kv_bool. by rewrite encode_key_entry, entry_eq, app_assoc. Qed.

(** A map is opened, and what is appended are its entries. *)
Lemma kv_map_open w k l : nul_free k ->
  cc_coder_encode_kv_map w k (Z.of_nat (length l)) ++ mp_enc_kvs l = w ++ entry k (VMap l).
Proof.
  intros Hk. unfold cc_coder_encode_kv_map. rewrite encode_key_entry, entry_eq by done.
  cbn [mp_enc]. fold (mp_enc_kvs l). by rewrite <- !app_assoc.
Qed.

Lemma map_open w l : cc_coder_encode_map w (Z.of_nat (length l)) ++ mp_enc_kvs l = w ++ mp_enc (VMap l).
Proof. unfold cc_coder_encode_map. cbn [mp_enc]. fold (mp_enc_kvs l). by rewrite <- app_assoc. Qed.

Lemma kv_value_entry w k v : nul_free k ->
  cc_coder_encode_kv_value w k (Some (mp_enc v)) (length (mp_enc v)) = w ++ entry k v.
Proof.
  intros Hk. unfold cc_coder_encode_kv_value.
  by rewrite encode_key_entry, entry_eq, firstn_all, app_assoc.
Qed.

Lemma kv_array_open w k l : nul_free k ->
  cc_coder_encode_kv_array w k (Z.of_nat (length l)) ++ concat (map mp_enc l) = w ++ entry k (VArr l).
Proof.
  intros Hk. unfold cc_coder_encode_kv_array. rewrite encode_key_entry, entry_eq by done.
  cbn [mp_enc]. by rewrite <- !app_assoc.
Qed.

(** ** Fields: what a lookup in a known message answers *)

Section fields.
Context (key : bytes) (kvs : list (bytes * mpval)) (rest r : bytes)
  (Hkey : nul_free key) (Hclear : clear_for key kvs) (Hwf : mp_wf (smap kvs)).

Lemma str_field s : assoc_at key kvs rest = Some (VStr s, r) ->
  cc_coder_decode_string_from_map (mp_enc (smap kvs) ++ rest) key = Some (s ++ r, length s).
Proof using All. intros E. by rewrite decode_string_from_map_assoc, E. Qed.

Lemma bin_field s : assoc_at key kvs rest = Some (VBin s, r) ->
  cc_coder_decode_bin_from_map (mp_enc (smap kvs) ++ rest) key = Some (s ++ r, length s).
Proof using All. by apply decode_bin_from_map_assoc. Qed.

Lemma val_field v : assoc_at key kvs rest = Some (v, r) ->
  cc_coder_get_value_from_map (mp_enc (smap kvs) ++ rest) key = Some (mp_enc v ++ r).
Proof using All. intros E. by rewrite get_value_from_map_assoc, E. Qed.

Lemma uint_field n : assoc_at key kvs rest = Some (VUint n, r) -> is_u32 n ->
  cc_coder_decode_uint_from_map (mp_enc (smap kvs) ++ rest) key = Some n.
Proof using All.
  intros E Hn. erewrite decode_uint_from_map_assoc; try done; [|unfold is_u32 in Hn; lia].
  by rewrite u32_id.
Qed.
End fields.
End msg_spec.

(** The keys of a message are known: whether they are clear of each other is
    computed. *)
Ltac keys := apply (bool_decide_unpack _); vm_compute; exact I.

(** Read the field [key] of a known message. *)
Ltac read_str key := erewrite (str_field key); [|keys|keys|assumption|reflexivity].
Ltac read_val key := erewrite (val_field key); [|keys|keys|assumption|reflexivity].
Ltac read_uint key := erewrite (uint_field key); [|keys|keys|assumption|reflexivity|assumption].

