(* ===== verification/Examples.v ===== *)
(** A concrete platform and the concrete runtimes on which the properties with
    hypotheses are instantiated: a node connected to a proxy, with an actor whose
    out-port feeds the in-port of another actor of the same node; and the same with the
    actors of the library. *)
From S2P Require Import Prelude CString Common Json MsgPuck MsgPackRef Coder Fifo Machine Transport.
From S2P Require Import ProtoSend Runtime ActorStore Calvinsys Timer ActorLib CountTimer Sensors Library.
From S2P Require Import Actor Dispatch CoderSpec MsgSpec.

(** Every allocation succeeds, everything is sent, nothing is received. *)
#[export] Instance quiet_platform : Platform := {
  plat_alloc := fun _ => true;
  plat_rand := fun n => Z.of_nat n;
  plat_time := fun n => Z.of_nat n;
  plat_send := fun _ b => Z.of_nat (length b);
  plat_recv := fun _ => []
}.

#[export] Existing Instance ref_msgpuck.

Definition id50 (s : bytes) : bytes := in_array CC_UUID_BUFFER_SIZE s.

(** Such an array holds the identifier. *)
Lemma in_id_id50 s : key_ok s -> in_id s (id50 s).
Proof.
  intros H. split; [done|]. destruct H as [_ H]. split.
  - unfold id50, in_array. rewrite length_app, length_drop. unfold zeroed. rewrite length_replicate. lia.
  - exists (drop (S (length s)) (zeroed CC_UUID_BUFFER_SIZE)). unfold id50, in_array. f_equal.
    apply drop_S. unfold zeroed. apply lookup_replicate_2. lia.
Qed.

Definition the_node_id : bytes := id50 (str "node").
Definition the_peer_id : bytes := id50 (str "peer").

Definition a_port (id name peer : bytes) (d : cc_port_direction_t) (s : cc_port_state_t) (actor : loc)
  : cc_port_t :=
  {| port_id := id50 id; port_name := in_array CC_MAX_PORT_NAME_LENGTH name;
     port_peer_port_id := id50 peer; port_peer_id := zeroed CC_UUID_BUFFER_SIZE;
     port_direction := d; port_peer_port := None; port_tunnel := None; port_state := s;
     port_fifo := Some (new_fifo 4); port_retries := 0; port_actor := actor |}.

Definition an_actor (id : bytes) (ins outs : list loc) (s : cc_actor_state_t) : cc_actor_t :=
  {| actor_type := str "std.Identity"; actor_id := Some id; actor_name := Some id;
     actor_state_was := CC_STATE_WAS_ACTOR; actor_state := s; actor_in_ports := ins;
     actor_out_ports := outs; actor_private_attributes := []; actor_managed_attributes := [] |}.

Definition the_client : cc_transport_client_t :=
  {| tc_peer_id := the_peer_id; tc_state := CC_TRANSPORT_ENABLED; tc_rx_buffer := no_rx;
     tc_prefix_len := 4; tc_transport_type := CC_TRANSPORT_SOCKET_TYPE;
     tc_uri := str "calvinip://10.0.0.1:5000" ++ drop 24 (zeroed CC_MAX_URI_LEN) |}.

(** Addresses: 1 the proxy link; 2 and 3 the storage and proxy tunnels; 10 and 11
    the actors; 20 the out-port of the first, 21 the in-port of the second. *)
Definition the_node : cc_node_t :=
  {| node_state := CC_NODE_STARTED; node_stop_method := CC_NODE_STOP_CLEAN; node_id := the_node_id;
     node_attributes := None; node_pending_msgs := []; node_proxy_link := Some 1%positive;
     node_links := [1%positive]; node_storage_tunnel := Some 2%positive;
     node_proxy_tunnel := Some 3%positive; node_tunnels := [2; 3]%positive;
     node_actors := [10; 11]%positive; node_transport_client := Some the_client;
     node_capabilities := []; node_proxy_uris := []; node_seconds_since_epoch := 0;
     node_time_at_sync := 0 |}.

Definition a_tunnel (id : bytes) (t : cc_tunnel_type_t) : cc_tunnel_t :=
  {| tunnel_id := id50 id; tunnel_link := Some 1%positive; tunnel_state := CC_TUNNEL_ENABLED;
     tunnel_ref_count := 1; tunnel_type := t |}.

Definition the_world : world :=
  {| w_node := the_node;
     w_links := {[ 1%positive := {| link_peer_id := the_peer_id; link_ref_count := 2;
                                    link_is_proxy := true |} ]};
     w_tunnels := <[2%positive := a_tunnel (str "storage-id") CC_TUNNEL_TYPE_STORAGE]>
                  {[3%positive := a_tunnel (str "proxy-id") CC_TUNNEL_TYPE_PROXY]};
     w_ports := <[20%positive := a_port (str "out-port") (str "token") (str "in-port")
                    CC_PORT_DIRECTION_OUT CC_PORT_DISCONNECTED 10%positive]>
                {[21%positive := a_port (str "in-port") (str "token") (str "out-port")
                    CC_PORT_DIRECTION_IN CC_PORT_DISCONNECTED 11%positive]};
     w_actors := <[10%positive := an_actor (str "actor-a") [] [20%positive] CC_ACTOR_PENDING]>
                 {[11%positive := an_actor (str "actor-b") [21%positive] [] CC_ACTOR_PENDING]};
     w_mem := ∅; w_next := 100%positive; w_calls := 0; w_sent := [] |}.

(** * A concrete runtime with the code of an actor type and of a capability, on which
    the properties of actors, calvinsys and the dispatch are instantiated; and one with
    the library of actors. *)

(** The type of the example: it starts, fires and ends without doing anything, and
    has no attributes of its own. *)
Definition idle_type : cc_actor_type_t unit :=
  {| at_init := fun _ _ => mret CC_SUCCESS; at_set_state := fun _ _ => mret CC_SUCCESS;
     at_free_state := None; at_fire_actor := fun _ => mret true; at_get_managed_attributes := None;
     at_will_migrate := None; at_will_end := None; at_did_migrate := None; at_did_replicate := None;
     at_get_requires := None |}.

(** A capability that opens and restores any object, and objects that do nothing. *)
Definition open_any : cc_capability_code_t unit :=
  {| cap_open := Some (fun _ _ => mret CC_SUCCESS); cap_deserialize := Some (fun _ _ => mret CC_SUCCESS) |}.
Definition idle_object : cc_obj_code_t unit :=
  {| oc_can_write := None; oc_write := None; oc_can_read := None; oc_read := None; oc_close := None;
     oc_serialize := None |}.

#[export] Instance idle_code : Code unit := {
  actor_types := [list_item_n (str "std.Identity") 12 idle_type 0];
  capability_code := fun _ => open_any;
  object_code := fun _ => idle_object;
  python_code := None
}.

(** The runtime of Examples, with an instance for each actor. *)
Definition idle_instance : cc_instance_t unit := {| inst_type := 0; inst_state := None |}.
Definition no_platform {V} : platform_state V :=
  {| ps_statics := ∅; ps_client_state := None; ps_fds := []; ps_ready := ∅; ps_open := ∅;
     ps_files := ∅; ps_dirs := ∅ |}.
Definition the_rt : rt unit :=
  {| rt_world := the_world;
     rt_instances := <[10%positive := idle_instance]> {[11%positive := idle_instance]};
     rt_caps := ∅; rt_objs := ∅; cs_capabilities := []; cs_objects := [];
     rt_platform := no_platform |}.

(** A JSON library that parses nothing: the runtime has joined already. *)
#[export] Instance no_jsmn : Jsmn := { jsmn_parse := fun _ _ => None }.

(** * A concrete runtime with the library of actors and capabilities, and a device
    that is always ready, on which their properties are instantiated. *)

(** A device has the number 7 to read and takes whatever is written. *)
Definition ready_device : cc_obj_code_t (lib_state unit) :=
  {| oc_can_write := Some (fun _ => mret true); oc_write := Some (fun _ _ => mret CC_SUCCESS);
     oc_can_read := Some (fun _ => mret true);
     oc_read := Some (fun _ => mret (CC_SUCCESS, Some [Byte.x07])); oc_close := None; oc_serialize := None |}.

#[export] Instance ready_devices : Devices unit := {
  device_capability := fun _ =>
    {| cap_open := Some (fun obj _ => upd_obj obj (set_obj_methods (Some 4%nat)) ;; mret CC_SUCCESS);
       cap_deserialize := Some (fun obj _ => upd_obj obj (set_obj_methods (Some 4%nat)) ;; mret CC_SUCCESS) |};
  device_object := fun _ => ready_device
}.

(** The table is the one that [cc_actor_store_init] fills. *)
#[export] Instance the_library : Code (lib_state unit) :=
  library_code
    match cc_actor_store_init [] (lib_types (zeroed CC_UUID_BUFFER_SIZE)) the_world with
    | Ok ((_, types), _) => types
    | Ub _ => []
    end.

Lemma the_library_types : map li_id actor_types = map bt_name (lib_types (D:=unit) []).
Proof. vm_compute. reflexivity. Qed.

(** Actor 12 has the in-port 22, with the tokens 1 and 2, and the out-port 23. *)
Definition loaded_fifo : cc_fifo_t :=
  {| fifo_size := 4; write_pos := 2; read_pos := 0; tentative_read_pos := 0;
     tokens := [{| tok_value := Some 50%positive; tok_size := 1 |};
                {| tok_value := Some 51%positive; tok_size := 1 |}; no_token; no_token] |}.
Definition in_port : cc_port_t :=
  set_port_fifo (Some loaded_fifo)
    (a_port (str "in-22") (str "token") (str "x") CC_PORT_DIRECTION_IN CC_PORT_ENABLED 12%positive).
Definition out_port : cc_port_t :=
  a_port (str "out-23") (str "token") (str "y") CC_PORT_DIRECTION_OUT CC_PORT_ENABLED 12%positive.

Definition lib_world : world :=
  set_mem (<[50%positive := [Byte.x01]]> {[51%positive := [Byte.x02]]})
    (set_actors {[12%positive := an_actor (str "actor-c") [22%positive] [23%positive] CC_ACTOR_ENABLED]}
      (set_ports (<[22%positive := in_port]> {[23%positive := out_port]}) the_world)).

(** A runtime where actor 12 has the given type and state, and calvinsys the given
    capabilities and objects. *)
Definition lib_rt (type : nat) (state : option (lib_state unit))
  (caps : list (cc_list_t loc)) (objects : list (cc_list_t loc))
  (cap_heap : gmap loc cc_calvinsys_capability_t) (obj_heap : gmap loc (cc_calvinsys_obj_t (lib_state unit)))
  : rt (lib_state unit) :=
  {| rt_world := lib_world; rt_instances := {[12%positive := {| inst_type := type; inst_state := state |}]};
     rt_caps := cap_heap; rt_objs := obj_heap; cs_capabilities := caps; cs_objects := objects;
     rt_platform := no_platform |}.
