(* ===== verification/TransportSpec.v ===== *)
(** Properties of the transport: the length prefix, what is given to the
    platform, and the assembly of a message from any fragments. *)
From S2P Require Import Prelude CString Common MsgPuck Coder Fifo Machine Transport ProtoSend Examples.

(** ** The prefix *)

Lemma testbit_octet z i : 0 <= i -> Z.testbit (Z.land z 255) i = (i <? 8) && Z.testbit z i.
Proof.
  intros Hi. rewrite Z.land_spec. change 255 with (Z.ones 8).
  rewrite Z.testbit_ones_nonneg by lia. by rewrite andb_comm.
Qed.

Lemma land_octet_range z : 0 <= Z.land z 255 < 256.
Proof. change 255 with (Z.ones 8). rewrite Z.land_ones by lia. apply Z.mod_pos_bound. lia. Qed.

Lemma char_val_octet b : Z.land (char_val b) 255 = byte_val b.
Proof.
  pose proof (byte_val_range b). change 255 with (Z.ones 8). rewrite Z.land_ones by lia.
  unfold char_val. destruct (Z.ltb_spec (byte_val b) 128); [by rewrite Z.mod_small|].
  rewrite <- (Z_mod_plus_full _ 1). rewrite Z.mod_small; lia.
Qed.

Lemma octet_byte buffer i z : nth i buffer NUL = byte_of_Z (Z.land z 255) -> octet buffer i = Z.land z 255.
Proof.
  intros E. unfold octet. rewrite E, char_val_octet, byte_val_of_Z.
  apply Z.mod_small, land_octet_range.
Qed.

Lemma get_message_len_prefix n rest : is_u32 n ->
  cc_transport_get_message_len (length_prefix n ++ rest) = n.
Proof.
  intros Hn. unfold cc_transport_get_message_len.
  rewrite (octet_byte _ 3 n), (octet_byte _ 2 (Z.shiftr n 8)), (octet_byte _ 1 (Z.shiftr n 16)),
    (octet_byte _ 0 (Z.shiftr n 24)) by done.
  apply Z.bits_inj'. intros i Hi.
  rewrite !Z.lor_spec, !Z.shiftl_spec by lia.
  assert (forall k, Z.testbit (Z.land (Z.shiftr n k) 255) (i - k)
    = (k <=? i) && (i <? k + 8) && Z.testbit n i) as B.
  { intros k. destruct (Z.leb_spec k i); simpl.
    - rewrite testbit_octet, Z.shiftr_spec by lia. rewrite Z.sub_add. f_equal.
      apply eq_true_iff_eq. rewrite !Z.ltb_lt. lia.
    - apply Z.testbit_neg_r. lia. }
  rewrite !B, Z.sub_0_r, testbit_octet by lia.
  destruct (Z_lt_ge_dec i 32).
  - destruct (Z.ltb_spec i 8), (Z.leb_spec 8 i), (Z.ltb_spec i (8 + 8)), (Z.leb_spec 16 i),
      (Z.ltb_spec i (16 + 8)), (Z.leb_spec 24 i), (Z.ltb_spec i (24 + 8)); try lia; simpl;
      by rewrite ?orb_false_r, ?orb_false_l.
  - assert (Z.testbit n i = false) as ->; [|by rewrite !andb_false_r].
    unfold is_u32 in Hn. destruct (Z.eq_dec n 0) as [->|]; [apply Z.testbit_0_l|].
    apply Z.bits_above_log2; [lia|]. assert (Z.log2 n < 32) by (apply Z.log2_lt_pow2; lia). lia.
Qed.

(** The length prefix.  The prefix written before a message of [n] bytes is
    read back as [n] for every [n] below 2^32, whatever follows it, and leaves the
    bytes of the buffer after it alone. *)
Theorem length_prefix_roundtrip (buffer : bytes) (n : Z) :
  0 <= n < 2 ^ 32 -> (4 <= length buffer)%nat ->
  cc_transport_get_message_len (cc_transport_set_length_prefix buffer n) = n
  /\ drop 4 (cc_transport_set_length_prefix buffer n) = drop 4 buffer
  /\ length (cc_transport_set_length_prefix buffer n) = length buffer.
Proof.
  intros Hn Hl. split; [by apply get_message_len_prefix|]. split; [done|].
  unfold cc_transport_set_length_prefix. rewrite length_app, length_drop. simpl. lia.
Qed.

Lemma length_prefix_roundtrip_witness :
  cc_transport_get_message_len (cc_transport_set_length_prefix (zeroed 6) 4000000000) = 4000000000.
Proof. apply (length_prefix_roundtrip (zeroed 6) 4000000000); [lia|vm_compute; lia]. Defined.

Section transport_spec.
Context `{P : Platform}.

(** What [cc_transport_send] gives to the platform. *)
Definition frame (buffer : bytes) : bytes :=
  length_prefix (Z.of_nat (length buffer) - 4) ++ drop 4 buffer.

Lemma transport_send_spec client buffer w : (4 <= length buffer)%nat ->
  cc_transport_send (Some client) buffer w
  = Ok (if plat_send (w_calls w) (frame buffer) =? Z.of_nat (length buffer) then CC_SUCCESS else CC_FAIL,
        set_sent (w_sent w ++ [frame buffer]) (set_calls (S (w_calls w)) w)).
Proof.
  intros Hl. unfold cc_transport_send. change (Z.of_nat CC_TRANSPORT_LEN_PREFIX_SIZE) with 4.
  assert (take (length buffer) (cc_transport_set_length_prefix buffer (Z.of_nat (length buffer) - 4))
    = frame buffer) as ->.
  { apply take_ge. unfold frame, cc_transport_set_length_prefix. rewrite length_app, length_drop. simpl. lia. }
  done.
Qed.

(** A message of the node behind the room for its prefix goes out as one frame. *)
Lemma run_send_buffer cap client msg w : node_transport_client (w_node w) = Some client ->
  tc_prefix_len client = 4%nat -> (4 + length msg <= cap)%nat ->
  let f := length_prefix (Z.of_nat (length msg)) ++ msg in
  send_buffer cap (message_start client ++ msg) w
  = Ok (if plat_send (w_calls w) f =? Z.of_nat (length f) then CC_SUCCESS else CC_FAIL,
        set_sent (w_sent w ++ [f]) (set_calls (S (w_calls w)) w)).
Proof.
  intros Hc Hpre Hfit f.
  assert (length (message_start client ++ msg) = 4 + length msg)%nat as Hlen.
  { rewrite length_app. unfold message_start. by rewrite length_replicate, Hpre. }
  assert (frame (message_start client ++ msg) = f) as Ef.
  { unfold frame. rewrite Hlen, drop_app_exact by (unfold message_start; by rewrite length_replicate).
    unfold f. do 2 f_equal. lia. }
  unfold send_buffer, in_buffer. rewrite Hlen, (proj2 (Nat.leb_le _ _)) by done.
  rewrite (bind_Ok _ _ _ tt w) by done. rewrite (bind_Ok _ _ _ (w_node w) w) by done.
  rewrite Hc, transport_send_spec by (rewrite Hlen; lia). rewrite Ef, Hlen. unfold f. by rewrite length_app.
Qed.

(** ** Assembly *)

(** The transport client of the node, in the middle of a message. *)
Definition with_rx (rx : cc_transport_buffer_t) (c : cc_transport_client_t) (calls : nat) (w : world)
  : world :=
  set_calls calls (set_node (set_node_transport_client (Some (set_tc_rx_buffer rx c)) (w_node w)) w).

Lemma with_rx_again rx rx' c n n' w :
  with_rx rx' (set_tc_rx_buffer rx c) n' (with_rx rx c n w) = with_rx rx' c n' w.
Proof. by destruct w as [[]]. Qed.

(** The platform delivers [frags] to the calls from the [n]-th on. *)
Definition delivers (n : nat) (frags : list bytes) : Prop :=
  forall i f, frags !! i = Some f -> plat_recv (n + i) = f.

Lemma get_client_rx rx c n w :
  get_client (with_rx rx c n w) = Ok (set_tc_rx_buffer rx c, with_rx rx c n w).
Proof. done. Qed.

Lemma upd_client_rx rx rx' c n w :
  upd_client (set_tc_rx_buffer rx') (with_rx rx c n w) = Ok (tt, with_rx rx' c n w).
Proof. by destruct w as [[]], c. Qed.

Lemma recv_rx rx c n w size f :
  plat_recv n = f -> Z.of_nat (length f) <= size ->
  cc_transport_recv size (with_rx rx c n w) = Ok (f, with_rx rx c (S n) w).
Proof.
  intros E L. unfold cc_transport_recv. cbv [mbind M_bind mret M_ret tick get_ put_]. simpl.
  rewrite E, take_ge by lia. by destruct w as [[]], c.
Qed.

(** The bytes received so far and the fragments to come make the message. *)
Lemma handle_payload_frags handler frags c w : forall data n fuel,
  delivers n frags -> Forall (fun f => f <> []) frags -> frags <> [] ->
  (length (concat frags) < fuel)%nat ->
  let size := Z.of_nat (length (data ++ concat frags)) in
  let rx := {| rx_data := Some data; rx_pos := Z.of_nat (length data); rx_size := size |} in
  let full := {| rx_data := Some (data ++ concat frags); rx_pos := size; rx_size := size |} in
  handle_payload handler fuel (with_rx rx c n w)
  = (_ ← handler (data ++ concat frags); upd_client (set_tc_rx_buffer no_rx) ;; mret CC_SUCCESS)
      (with_rx full c (n + length frags) w).
Proof.
  induction frags as [|f frags IH]; intros data n fuel Hd Hne Hnil Hfuel; [done|].
  apply Forall_cons in Hne as [Hf Hne]. simpl concat in *. rewrite length_app in Hfuel.
  assert (length f <> 0%nat) as Hf' by by destruct f.
  destruct fuel as [|fuel]; [lia|]. cbv zeta. cbn [handle_payload]. unfold lift, world_above.
  rewrite (bind_Ok _ _ _ _ _ (get_client_rx _ c n w)). cbn [tc_rx_buffer set_tc_rx_buffer rx_data rx_pos rx_size].
  rewrite (bind_Ok _ _ _ data _) by done.
  assert (plat_recv n = f) as Hn by (rewrite <- (Nat.add_0_r n); by apply (Hd 0%nat)).
  assert (Z.of_nat (length f) <= Z.of_nat (length (data ++ f ++ concat frags)) - Z.of_nat (length data))
    as Hroom by (rewrite !length_app; lia).
  rewrite (bind_Ok _ _ _ _ _ (recv_rx _ c n w _ f Hn Hroom)).
  rewrite bool_decide_false by done.
  rewrite (bind_Ok _ _ _ _ _ (upd_client_rx _ _ c (S n) w)).
  destruct frags as [|g frags].
  - rewrite (proj2 (Z.eqb_eq _ _)) by (simpl concat; rewrite !length_app; simpl; lia).
    simpl concat. rewrite !app_nil_r. simpl length. rewrite Nat.add_1_r.
    do 2 f_equal. f_equal. rewrite !length_app. lia.
  - assert (length (concat (g :: frags)) <> 0%nat).
    { apply Forall_cons in Hne as [Hg _]. simpl. rewrite length_app. destruct g; [done|simpl; lia]. }
    rewrite (proj2 (Z.eqb_neq _ _)) by (rewrite !length_app; lia).
    assert (delivers (S n) (g :: frags)) as Hd'.
    { intros i h Hi. replace (S n + i)%nat with (n + S i)%nat by lia. by apply (Hd (S i)). }
    assert (length (concat (g :: frags)) < fuel)%nat as Hfuel' by lia.
    pose proof (IH (data ++ f) (S n) fuel Hd' Hne ltac:(done) Hfuel') as E. cbv zeta in E.
    rewrite <- !app_assoc in E. unfold world_above in E.
    replace (Z.of_nat (length data) + Z.of_nat (length f)) with (Z.of_nat (length (data ++ f)))
      by (rewrite length_app; lia).
    rewrite E. do 2 f_equal. simpl. lia.
Qed.

(** C27: a message is assembled whatever the fragments.  When the next calls of
    [recv] deliver the four bytes of the prefix and then the message in any
    non-empty fragments, [cc_transport_handle_data] reads exactly those calls,
    never loops on, gives the whole message to the handler once, forgets the buffer
    and answers success. *)
Theorem handle_data_assembles (handler : bytes -> W cc_result_t) (c : cc_transport_client_t)
  (w : world) (frags : list bytes) :
  node_transport_client (w_node w) = Some c -> tc_rx_buffer c = no_rx ->
  let n := w_calls w in
  let msg := concat frags in
  let size := Z.of_nat (length msg) in
  plat_recv n = length_prefix size -> plat_alloc (S n) = true -> delivers (S (S n)) frags ->
  Forall (fun f => f <> []) frags -> frags <> [] -> size < 2 ^ 31 ->
  cc_transport_handle_data handler w
  = (_ ← handler msg; upd_client (set_tc_rx_buffer no_rx) ;; mret CC_SUCCESS)
      (with_rx {| rx_data := Some msg; rx_pos := size; rx_size := size |} c
               (S (S n) + length frags) w).
Proof.
  intros Hc Hrx n msg size Hp Ha Hd Hne Hnil Hs.
  assert (w = with_rx no_rx c n w) as Ew.
  { destruct w as [[] ? ? ? ? ? ? ? ?], c. simpl in *. subst. done. }
  rewrite Ew at 1. unfold cc_transport_handle_data, lift, world_above.
  rewrite (bind_Ok _ _ _ _ _ (get_client_rx _ c n w)). cbn [tc_rx_buffer set_tc_rx_buffer rx_data no_rx].
  rewrite (bind_Ok _ _ _ _ _ (recv_rx _ c n w 4 (length_prefix size) Hp ltac:(done))).
  cbn [length length_prefix Nat.ltb Nat.leb].
  rewrite <- (app_nil_r (length_prefix size)), get_message_len_prefix by (unfold is_u32, size; lia).
  assert (cc_platform_mem_alloc (with_rx no_rx c (S n) w) = Ok (true, with_rx no_rx c (S (S n)) w)) as Em.
  { unfold cc_platform_mem_alloc. cbv [mbind M_bind mret M_ret tick get_ put_]. simpl. rewrite Ha.
    by destruct w as [[]], c. }
  rewrite (bind_Ok _ _ _ _ _ Em). rewrite (proj2 (Z.leb_gt _ _)) by done. cbn [negb orb].
  rewrite (bind_Ok _ _ _ _ _ (upd_client_rx _ _ c (S (S n)) w)).
  apply (handle_payload_frags handler frags c w [] (S (S n))); try done.
  unfold size, msg. lia.
Qed.
End transport_spec.

(** A platform that delivers the message [hello] in two fragments. *)
#[local] Instance chatty_platform : Platform := {
  plat_alloc := fun _ => true;
  plat_rand := fun n => Z.of_nat n;
  plat_time := fun n => Z.of_nat n;
  plat_send := fun _ b => Z.of_nat (length b);
  plat_recv := fun n => match n with
                        | 0%nat => length_prefix 5
                        | 2%nat => str "he"
                        | 3%nat => str "llo"
                        | _ => []
                        end
}.

(** The message reaches a handler, which here puts it among the messages sent. *)
Lemma handle_data_assembles_witness :
  exists w, cc_transport_handle_data (fun msg => modify (set_sent [msg]) ;; mret CC_SUCCESS) the_world
            = Ok (CC_SUCCESS, w) /\ w_sent w = [str "hello"] /\ w_calls w = 4%nat.
Proof.
  eexists. split; [|split].
  - rewrite (handle_data_assembles (fun msg => modify (set_sent [msg]) ;; mret CC_SUCCESS)
      the_client the_world [str "he"; str "llo"]); try reflexivity; try done.
    + intros [|[|[|i]]] f E; simpl in E; simplify_eq; reflexivity.
    + repeat constructor; done.
  - reflexivity.
  - reflexivity.
Defined.
