(* ===== verification/TokenMsg.v ===== *)
(** The TOKEN message end to end: what [cc_proto_send_token] puts on the wire is
    what [proto_parse_token] reads, and how a port answers it. *)
From S2P Require Import Prelude CString Common MsgPuck MsgPackRef Coder Fifo Machine Transport.
From S2P Require Import ProtoSend Link FifoInit Port Proto CoderSpec FifoSpec.
From S2P Require Import MsgSpec TransportSpec Examples.

(** A token holds the encoding of a value, or nothing. *)
Definition token_holds `{MP : MsgPuck} (m : mem) (t : cc_token_t) (v : mpval) : Prop :=
  (tok_size t = 0 /\ v = VNil)
  \/ exists l, tok_value t = Some l /\ m !! l = Some (mp_enc v)
       /\ tok_size t = Z.of_nat (length (mp_enc v)).

(** The entries of a TOKEN message. *)
Definition token_value_kvs (port peer : bytes) (seq : Z) (v : mpval) : list (bytes * mpval) :=
  [ (str "cmd", VStr (str "TOKEN")); (str "sequencenbr", VUint seq); (str "port_id", VStr port);
    (str "peer_port_id", VStr peer);
    (str "token", smap [(str "type", VStr (str "Token")); (str "data", v)]) ].
Definition token_kvs (to from tid port peer : bytes) (seq : Z) (v : mpval) : list (bytes * mpval) :=
  [ (str "to_rt_uuid", VStr to); (str "from_rt_uuid", VStr from);
    (str "cmd", VStr (str "TUNNEL_DATA")); (str "tunnel_id", VStr tid);
    (str "value", smap (token_value_kvs port peer seq v)) ].

Section token_msg.
Context `{P : Platform} `{MP : MsgPuck} `{L : !MsgPuckLaws MP}.

Lemma enc_nonempty v : length (mp_enc v) <> 0%nat.
Proof using L. pose proof (mp_enc_nonempty v). by destruct (mp_enc v). Qed.

Lemma token_encode_spec w t v m : token_holds m t v ->
  cc_token_encode w t true m
  = Ok (w ++ mp_enc_kvs (skvs [(str "token", smap [(str "type", VStr (str "Token")); (str "data", v)])]), m).
Proof using L.
  intros H. unfold cc_token_encode.
  assert (forall w, w ++ mp_enc_kvs (skvs [(str "token", smap [(str "type", VStr (str "Token")); (str "data", v)])])
    = cc_coder_encode_kv_str (cc_coder_encode_kv_map w (str "token") 2) (str "type") (str "Token") 5
      ++ mp_enc_kvs [(VStr (str "data"), v)]) as E.
  { intros w'. rewrite (kv_str_lit _ _ (str "Token")) by keys. rewrite <- app_assoc, <- mp_enc_kvs_app.
    simpl app. symmetry. apply (kv_map_open w' (str "token") (skvs [(str "type", VStr (str "Token")); (str "data", v)])).
    keys. }
  rewrite E. destruct H as [[Hs ->]|(l & Hl & Hm & Hs)].
  - rewrite Hs. cbn [Z.eqb negb]. by rewrite kv_nil_entry by keys.
  - rewrite Hs. destruct (Z.eqb_spec (Z.of_nat (length (mp_enc v))) 0) as [Z|_].
    { pose proof (enc_nonempty v). lia. }
    cbn [negb]. rewrite Hl, (bind_Ok _ _ _ (mp_enc v) m).
    + by rewrite Nat2Z.id, kv_value_entry by keys.
    + unfold mem_read. exec. unfold get_. by rewrite Hm.
Qed.

(** ** Sending *)

Section sending.
Context (w : world) (port t : loc) (p : cc_port_t) (x : cc_tunnel_t) (client : cc_transport_client_t)
  (token : cc_token_t) (v : mpval) (seq : Z) (to from tid port_name_ peer : bytes)
  (Hc : node_transport_client (w_node w) = Some client)
  (Hp : w_ports w !! port = Some p) (Ht : port_tunnel p = Some t) (Hx : w_tunnels w !! t = Some x)
  (Hto : in_id to (port_peer_id p)) (Hfrom : in_id from (node_id (w_node w)))
  (Htid : in_id tid (tunnel_id x)) (Hport : in_id port_name_ (port_id p))
  (Hpeer : in_id peer (port_peer_port_id p)) (Hv : token_holds (w_mem w) token v).

(** The buffer given to the transport is the encoding of the message after the
    room for the prefix. *)
Lemma send_token_buffer :
  cc_proto_send_token port token seq w
  = send_buffer 1000 (message_start client
      ++ mp_enc (smap (token_kvs to from tid port_name_ peer seq v))) w.
Proof using All.
  unfold cc_proto_send_token. rewrite (bind_Ok _ _ _ (w_node w) w) by done.
  rewrite (bind_Ok _ _ _ client w) by (unfold deref, need; by rewrite Hc).
  rewrite (bind_Ok _ _ _ p w) by (unfold get_port; exec; unfold get_; by rewrite Hp).
  assert (port_tunnel_id p w = Ok (tunnel_id x, w)) as Et.
  { unfold port_tunnel_id. rewrite (bind_Ok _ _ _ t w) by (unfold deref, need; by rewrite Ht).
    rewrite (bind_Ok _ _ _ x w) by (unfold get_tunnel; exec; unfold get_; by rewrite Hx). done. }
  rewrite (bind_Ok _ _ _ _ _ Et). unfold tunnel_data_to_from.
  rewrite (kv_uuid_entry _ _ to (port_peer_id p)), (kv_uuid_entry _ _ from (node_id (w_node w))),
    (kv_uuid_entry _ _ tid (tunnel_id x)), (kv_uuid_entry _ _ port_name_ (port_id p)),
    (kv_uuid_entry _ _ peer (port_peer_port_id p)) by (done || keys).
  rewrite (kv_str_lit _ _ (str "TUNNEL_DATA")), (kv_str_lit _ _ (str "TOKEN")) by keys.
  rewrite kv_uint_entry by keys.
  assert (forall u, on_mem (cc_token_encode u token true) w
    = Ok (u ++ mp_enc_kvs (skvs [(str "token", smap [(str "type", VStr (str "Token")); (str "data", v)])]), w)) as Ek.
  { intros u. unfold on_mem, zoom. rewrite (token_encode_spec u token v (w_mem w) Hv).
    by destruct w. }
  rewrite (bind_Ok _ _ _ _ _ (Ek _)). f_equal.
  rewrite <- !app_assoc, <- !mp_enc_kvs_app. cbn [app].
  rewrite (kv_map_open _ (str "value") (skvs (token_value_kvs port_name_ peer seq v))) by keys.
  rewrite <- !app_assoc, <- !mp_enc_kvs_app. cbn [app].
  exact (map_open (message_start client) (skvs (token_kvs to from tid port_name_ peer seq v))).
Qed.
End sending.

(** ** Receiving *)

Lemma token_kvs_wf to from tid port peer seq v :
  Forall (fun s => Z.of_nat (length s) < 2 ^ 32) [to; from; tid; port; peer] -> is_u32 seq -> mp_wf v ->
  mp_wf (smap (token_kvs to from tid port peer seq v)).
Proof.
  rewrite !Forall_cons. intros (? & ? & ? & ? & ? & _) Hs Hv. unfold is_u32 in Hs.
  simpl. repeat split; try done; lia.
Qed.

Lemma decode_token_enc to from tid port peer seq v rest :
  Forall (fun s => Z.of_nat (length s) < 2 ^ 32) [to; from; tid; port; peer] -> is_u32 seq -> mp_wf v ->
  exists m, decode_token_msg (mp_enc (smap (token_kvs to from tid port peer seq v)) ++ rest) = Some m
    /\ (exists r, tm_from m = (from ++ r, length from))
    /\ (exists r, tm_tunnel m = (tid ++ r, length tid))
    /\ (exists r, tm_port m = (peer ++ r, length peer))
    /\ (exists r, tm_peer_port m = (port ++ r, length port))
    /\ tm_sequencenbr m = seq
    /\ exists r, tm_data m = mp_enc v ++ r.
Proof using L.
  intros Hl Hs Hv. pose proof (token_kvs_wf to from tid port peer seq v Hl Hs Hv) as Hw.
  assert (mp_wf (smap (token_value_kvs port peer seq v))) as Hw2.
  { simpl in Hw. simpl. tauto. }
  assert (mp_wf (smap [(str "type", VStr (str "Token")); (str "data", v)])) as Hw3.
  { simpl. repeat split; done. }
  eexists. split.
  - unfold decode_token_msg. read_str (str "from_rt_uuid"). cbn [mbind option_bind].
    read_str (str "tunnel_id"). cbn [mbind option_bind]. read_val (str "value").
    cbn [mbind option_bind]. fold (token_value_kvs port peer seq v).
    read_str (str "peer_port_id"). cbn [mbind option_bind].
    read_str (str "port_id"). cbn [mbind option_bind].
    read_uint (str "sequencenbr"). cbn [mbind option_bind].
    read_val (str "token"). cbn [mbind option_bind].
    read_val (str "data"). cbn [mbind option_bind]. reflexivity.
  - cbn [tm_from tm_tunnel tm_port tm_peer_port tm_sequencenbr tm_data].
    repeat (split; [first [reflexivity | eexists; reflexivity]|]). eexists. reflexivity.
Qed.

(** ** The two together *)

(** A frame carries a token: it is the length of a message and that message, whose
    decoding gives the sending runtime, the tunnel, the two ports with their
    roles exchanged, the number and, cut to its size, the encoded value. *)
Definition carries (f from tid pname peer : bytes) (seq : Z) (v : mpval) : Prop :=
  exists m, cc_transport_get_message_len f = Z.of_nat (length (drop 4 f))
    /\ decode_token_msg (drop 4 f) = Some m
    /\ take (tm_from m).2 (tm_from m).1 = from
    /\ take (tm_tunnel m).2 (tm_tunnel m).1 = tid
    /\ take (tm_port m).2 (tm_port m).1 = peer
    /\ take (tm_peer_port m).2 (tm_peer_port m).1 = pname
    /\ tm_sequencenbr m = seq
    /\ take (cc_coder_get_size_of_value (tm_data m)) (tm_data m) = mp_enc v.

(** What [cc_proto_send_token] sends carries the token. *)
Lemma send_token_run (w : world) (port t : loc) (p : cc_port_t) (x : cc_tunnel_t)
  (client : cc_transport_client_t) (token : cc_token_t) (v : mpval) (seq : Z)
  (to from tid pname peer : bytes) :
  node_transport_client (w_node w) = Some client -> tc_prefix_len client = 4%nat ->
  w_ports w !! port = Some p -> port_tunnel p = Some t -> w_tunnels w !! t = Some x ->
  in_id to (port_peer_id p) -> in_id from (node_id (w_node w)) -> in_id tid (tunnel_id x) ->
  in_id pname (port_id p) -> in_id peer (port_peer_port_id p) ->
  token_holds (w_mem w) token v -> is_u32 seq -> mp_wf v ->
  let msg := mp_enc (smap (token_kvs to from tid pname peer seq v)) in
  (4 + length msg <= 1000)%nat ->
  exists f,
    cc_proto_send_token port token seq w
    = Ok (if plat_send (w_calls w) f =? Z.of_nat (length f) then CC_SUCCESS else CC_FAIL,
          set_sent (w_sent w ++ [f]) (set_calls (S (w_calls w)) w))
    /\ carries f from tid pname peer seq v.
Proof using L.
  intros Hc Hpre Hp Ht Hx Hto Hfrom Htid Hpn Hpeer Hv Hseq Hwf msg Hfit.
  destruct (decode_token_enc to from tid pname peer seq v []) as (m & Hm & (r1 & E1) & (r2 & E2) & (r3 & E3)
    & (r4 & E4) & E5 & (r6 & E6)); try done.
  { repeat constructor; by eapply in_id_short. }
  rewrite app_nil_r in Hm. fold msg in Hm.
  exists (length_prefix (Z.of_nat (length msg)) ++ msg).
  split; [|exists m; rewrite drop_app_exact by done; repeat split; try done].
  - rewrite (send_token_buffer w port t p x client token v seq to from tid pname peer) by done.
    fold msg. by apply run_send_buffer.
  - rewrite get_message_len_prefix; [done|]. unfold is_u32. lia.
  - rewrite E1. apply take_app_length.
  - rewrite E2. apply take_app_length.
  - rewrite E3. apply take_app_length.
  - rewrite E4. apply take_app_length.
  - rewrite E6. by apply take_size_of_value.
Qed.
End token_msg.
