(* ===== verification/Runs.v ===== *)
(** Runs of the basic operations, as equations the proofs rewrite with: what reading and
    writing an object of the heap of a world does, and then the same for a whole runtime,
    its objects and the states behind them. *)
From S2P Require Import Prelude CString Common MsgPuck Coder Fifo Machine Transport ProtoSend Proto.
From S2P Require Import Runtime Calvinsys CoderSpec FifoSpec MsgSpec.

Section runs.
Implicit Types (w : world) (l : loc).

Lemma run_get_node w : get_node w = Ok (w_node w, w).
Proof. done. Qed.

Lemma run_upd_node w f : upd_node f w = Ok (tt, set_node (f (w_node w)) w).
Proof. done. Qed.

Lemma run_get_port w l p : w_ports w !! l = Some p -> get_port l w = Ok (p, w).
Proof. intros E. unfold get_port. exec. unfold get_. by rewrite E. Qed.

Lemma run_get_actor w l a : w_actors w !! l = Some a -> get_actor l w = Ok (a, w).
Proof. intros E. unfold get_actor. exec. unfold get_. by rewrite E. Qed.

Lemma run_get_tunnel w l t : w_tunnels w !! l = Some t -> get_tunnel l w = Ok (t, w).
Proof. intros E. unfold get_tunnel. exec. unfold get_. by rewrite E. Qed.

Lemma run_get_link w l x : w_links w !! l = Some x -> get_link l w = Ok (x, w).
Proof. intros E. unfold get_link. exec. unfold get_. by rewrite E. Qed.

(** A freed object is not to be read. *)
Lemma run_get_port_freed w l : w_ports w !! l = None -> get_port l w = Ub UseAfterFree.
Proof. intros E. unfold get_port. exec. unfold get_. by rewrite E. Qed.

Lemma run_upd_port w l p f :
  w_ports w !! l = Some p -> upd_port l f w = Ok (tt, set_ports (<[l := f p]> (w_ports w)) w).
Proof. intros E. unfold upd_port. rewrite (bind_Ok _ _ _ _ _ (run_get_port w l p E)). done. Qed.

Lemma run_upd_actor w l a f :
  w_actors w !! l = Some a -> upd_actor l f w = Ok (tt, set_actors (<[l := f a]> (w_actors w)) w).
Proof. intros E. unfold upd_actor. rewrite (bind_Ok _ _ _ _ _ (run_get_actor w l a E)). done. Qed.

Lemma run_upd_tunnel w l t f :
  w_tunnels w !! l = Some t -> upd_tunnel l f w = Ok (tt, set_tunnels (<[l := f t]> (w_tunnels w)) w).
Proof. intros E. unfold upd_tunnel. rewrite (bind_Ok _ _ _ _ _ (run_get_tunnel w l t E)). done. Qed.

(** A computation on the token buffers. *)
Lemma run_on_mem {A} (m : M mem A) w a x :
  m (w_mem w) = Ok (a, x) -> on_mem m w = Ok (a, set_mem x w).
Proof. intros E. unfold on_mem, zoom. by rewrite E. Qed.

(** Writing back what is there. *)
Lemma set_ports_id w : set_ports (w_ports w) w = w.
Proof. by destruct w. Qed.
Lemma set_mem_id w : set_mem (w_mem w) w = w.
Proof. by destruct w. Qed.
Lemma set_actors_id w : set_actors (w_actors w) w = w.
Proof. by destruct w. Qed.
Lemma set_ports_ports x y w : set_ports x (set_ports y w) = set_ports x w.
Proof. done. Qed.

(** The runtime after the allocation of a buffer with [data]. *)
Definition with_copy (data : bytes) (w : world) : world :=
  set_mem (<[w_next w := data]> (w_mem w))
    (set_next (Pos.succ (w_next w)) (set_calls (S (w_calls w)) w)).

End runs.

Lemma run_alloc_buffer `{P : Platform} data w : alloc_buffer data w =
  if plat_alloc (w_calls w) then Ok (Some (w_next w), with_copy data w)
  else Ok (None, set_calls (S (w_calls w)) w).
Proof.
  cbv [alloc_buffer cc_platform_mem_alloc mbind M_bind mret M_ret tick get_ put_ fresh_loc modify].
  simpl. by destruct (plat_alloc _).
Qed.

(** Where every allocation succeeds. *)
Section malloc.
Context `{P : Platform} (Halloc : forall n, plat_alloc n = true).

Lemma run_malloc w : cc_platform_mem_alloc w = Ok (true, set_calls (S (w_calls w)) w).
Proof. cbv [cc_platform_mem_alloc tick]. exec. by rewrite Halloc. Qed.

Lemma run_malloc_list {A} (h : list (cc_list_t A)) (k rest : bytes) (d : A) (m : Z) w :
  cc_list_add_n h (k ++ rest) (length k) d m w
  = Ok (Some (h ++ [list_item_n k (length k) d m]), set_calls (2 + w_calls w) w).
Proof.
  unfold cc_list_add_n. rewrite (bind_Ok _ _ _ _ _ (run_malloc w)). cbn [negb].
  rewrite (bind_Ok _ _ _ _ _ (run_malloc _)). cbn [negb]. unfold cc__list_add. by rewrite list_item_n_app.
Qed.
End malloc.

(** Run the first operation of a computation: by computation, by the fact [E], or
    by what the context says of the object it reads. *)
Ltac run_with E := rewrite (bind_Ok _ _ _ _ _ E).
Ltac live := solve [eassumption | simpl; rewrite ?lookup_insert_eq; reflexivity
  | simpl; rewrite ?lookup_insert_ne by done; eassumption].
Ltac run1 :=
  match goal with
  | |- context [(get_node ≫= _) ?w] => run_with (run_get_node w)
  | |- context [(get_port ?l ≫= _) ?w] => erewrite (bind_Ok _ _ _ _ _ (run_get_port w l _ ltac:(live)))
  | |- context [(get_actor ?l ≫= _) ?w] => erewrite (bind_Ok _ _ _ _ _ (run_get_actor w l _ ltac:(live)))
  | |- context [(get_tunnel ?l ≫= _) ?w] => erewrite (bind_Ok _ _ _ _ _ (run_get_tunnel w l _ ltac:(live)))
  | |- context [(get_link ?l ≫= _) ?w] => erewrite (bind_Ok _ _ _ _ _ (run_get_link w l _ ltac:(live)))
  | |- context [(upd_port ?l ?f ≫= _) ?w] => erewrite (bind_Ok _ _ _ _ _ (run_upd_port w l _ f ltac:(live)))
  | |- context [(upd_tunnel ?l ?f ≫= _) ?w] =>
      erewrite (bind_Ok _ _ _ _ _ (run_upd_tunnel w l _ f ltac:(live)))
  end.

(** * Runs of the basic operations of a whole runtime, as Runs has them for its
    [world]. *)

Section runs.
Context {V : Type}.
Implicit Types s : rt V.

Lemma run_on_world {A} (m : W A) s a w :
  m (rt_world s) = Ok (a, w) -> on_world m s = Ok (a, set_world w s).
Proof. intros E. unfold on_world, zoom. by rewrite E. Qed.

Lemma set_world_id s : set_world (rt_world s) s = s.
Proof. by destruct s. Qed.
Lemma set_world_world w w' s : set_world w (set_world w' s) = set_world w s.
Proof. done. Qed.

Lemma run_get_obj s l o : rt_objs s !! l = Some o -> get_obj l s = Ok (o, s).
Proof. intros E. unfold get_obj. exec. unfold get_. by rewrite E. Qed.
Lemma run_get_cap s l c : rt_caps s !! l = Some c -> get_cap l s = Ok (c, s).
Proof. intros E. unfold get_cap. exec. unfold get_. by rewrite E. Qed.
Lemma run_get_instance s l x : rt_instances s !! l = Some x -> get_instance l s = Ok (x, s).
Proof. intros E. unfold get_instance. exec. unfold get_. by rewrite E. Qed.

Lemma run_upd_obj s l o f : rt_objs s !! l = Some o ->
  upd_obj l f s = Ok (tt, set_objs (<[l := f o]> (rt_objs s)) s).
Proof. intros E. unfold upd_obj. by rewrite (bind_Ok _ _ _ _ _ (run_get_obj s l o E)). Qed.

Section held.
Context {S : Type} `{H : !Holds V S}.

Lemma run_get_obj_state s l o x : rt_objs s !! l = Some o -> obj_state o = Some (hold x) ->
  get_obj_state S l s = Ok (x, s).
Proof.
  intros E Ex. unfold get_obj_state. rewrite (bind_Ok _ _ _ _ _ (run_get_obj s l o E)).
  unfold state_as. rewrite Ex. exec. by rewrite held_hold.
Qed.
Lemma run_put_obj_state s l o x : rt_objs s !! l = Some o ->
  put_obj_state l x s = Ok (tt, set_objs (<[l := set_obj_state (Some (hold x)) o]> (rt_objs s)) s).
Proof. intros E. by apply run_upd_obj. Qed.
Lemma run_get_inst_state s l i x : rt_instances s !! l = Some i -> inst_state i = Some (hold x) ->
  get_inst_state S l s = Ok (x, s).
Proof.
  intros E Ex. unfold get_inst_state. rewrite (bind_Ok _ _ _ _ _ (run_get_instance s l i E)).
  unfold state_as. rewrite Ex. exec. by rewrite held_hold.
Qed.
End held.

(** The runtime after some more calls of the platform. *)
Definition later (c : nat) s : rt V := set_world (set_calls c (rt_world s)) s.

Lemma later_later c d s : later c (later d s) = later c s.
Proof. done. Qed.

Context `{P : Platform}.

Lemma run_alloc s : plat_alloc (w_calls (rt_world s)) = true ->
  on_world cc_platform_mem_alloc s = Ok (true, later (Datatypes.S (w_calls (rt_world s))) s).
Proof. intros E. apply run_on_world. cbv [cc_platform_mem_alloc tick mbind M_bind get_ put_ mret M_ret]. by rewrite E. Qed.

(** The time of the node at the [c]-th call of the platform. *)
Definition time_at (w : world) (c : nat) : Z :=
  u32 (node_seconds_since_epoch (w_node w) + u32 (u32 (plat_time c) - node_time_at_sync (w_node w))).

Lemma run_get_time s :
  on_world cc_node_get_time s
  = Ok (time_at (rt_world s) (w_calls (rt_world s)), later (Datatypes.S (w_calls (rt_world s))) s).
Proof. apply run_on_world. reflexivity. Qed.

Lemma run_list_add_n {A} s (h : list (cc_list_t A)) id len d n :
  (forall c, plat_alloc c = true) ->
  on_world (cc_list_add_n h id len d n) s
  = Ok (Some (h ++ [list_item_n id len d n]), later (2 + w_calls (rt_world s)) s).
Proof.
  intros E. apply run_on_world. cbv [cc_list_add_n cc_platform_mem_alloc tick mbind M_bind get_ put_ mret M_ret].
  simpl. rewrite E. simpl. rewrite E. reflexivity.
Qed.
End runs.

(** Execute the first operation of a computation on a runtime. *)
Ltac rt_live := solve [eassumption | simpl; rewrite ?lookup_insert_eq; reflexivity
  | simpl; rewrite ?lookup_insert_ne by done; eassumption].
Ltac rrun1 :=
  match goal with
  | |- context [(get_obj ?l ≫= _) ?s] => erewrite (bind_Ok _ _ _ _ _ (run_get_obj s l _ ltac:(rt_live)))
  | |- context [(get_cap ?l ≫= _) ?s] => erewrite (bind_Ok _ _ _ _ _ (run_get_cap s l _ ltac:(rt_live)))
  | |- context [(get_instance ?l ≫= _) ?s] => erewrite (bind_Ok _ _ _ _ _ (run_get_instance s l _ ltac:(rt_live)))
  | |- context [(get_ ≫= _) ?s] => rewrite (bind_Ok get_ _ s s s eq_refl)
  | |- context [(on_world cc_node_get_time ≫= _) ?s] => rewrite (bind_Ok _ _ _ _ _ (run_get_time s))
  | H : forall c, plat_alloc c = true |- context [(on_world cc_platform_mem_alloc ≫= _) ?s] =>
      rewrite (bind_Ok _ _ _ _ _ (run_alloc s (H _)))
  | H : forall c, plat_alloc c = true |- context [(on_world (cc_list_add_n ?h ?id ?len ?d ?n) ≫= _) ?s] =>
      rewrite (bind_Ok _ _ _ _ _ (run_list_add_n s h id len d n H))
  end.
