(* ===== verification/Tls.v ===== *)
(** runtime/south/crypto/cc_crypto.c, and what [CC_TLS_ENABLED] changes in
    cc_transport.c and cc_node.c: the frames go through mbed TLS, and the node is named
    by its certificate.

    mbed TLS is not part of the repository: what its functions answer is the class
    [MbedTls], indexed by the call.  [crypto_t] is kept as what has been done with its
    contexts.  The bytes that the library itself sends through [_crypto_tls_send] are
    its own affair: [w_sent] has the frames that are given to it.  After the definitions:
    a join gives nothing to a session whose peer was not verified, and the subject of a
    certificate is read as it is printed. *)
From S2P Require Import Prelude CString CText Common MsgPuck Coder Fifo Machine Transport ProtoSend Runtime Socket.
From S2P Require Import Examples Runs.

Class MbedTls := {
  x509_crt_parse_file : nat -> bytes -> Z;
  x509_dn_gets : nat -> option bytes;             (* the subject; None on an error *)
  ctr_drbg_seed : nat -> bytes -> bool;
  pk_parse_keyfile : nat -> bytes -> bool;
  ssl_config_defaults : nat -> bool;
  ssl_setup : nat -> bool;
  ssl_handshake : nat -> Z;
  ssl_get_verify_result : nat -> Z;
  ssl_write : nat -> bytes -> Z;
  ssl_read : nat -> nat -> bytes                  (* an error is no byte *)
}.

Definition MBEDTLS_ERR_SSL_WANT_READ : Z := -26880.
Definition MBEDTLS_ERR_SSL_WANT_WRITE : Z := -26752.
Definition CRYPTO_PARSE_BUF_SIZE : nat := 200.
Definition CRYPTO_CERT_FILE : bytes := str "cert.pem".
Definition CRYPTO_PRIVE_KEY_FILE : bytes := str "private.key".

(** Does the library ask to be called again? *)
Definition ssl_wants (ret : Z) : bool :=
  (ret =? MBEDTLS_ERR_SSL_WANT_READ) || (ret =? MBEDTLS_ERR_SSL_WANT_WRITE).

(** What is done with the contexts of [crypto_t]. *)
Inductive tls_step :=
  | Seeded (text : bytes)                 (* mbedtls_ctr_drbg_seed *)
  | CertLoaded (file : bytes) | KeyLoaded (file : bytes)
  | ConfiguredClient                      (* MBEDTLS_SSL_IS_CLIENT *)
  | VerifyRequired                        (* MBEDTLS_SSL_VERIFY_REQUIRED *)
  | CaChain | Rng | OwnCert
  | SetUp
  | Bio                                   (* the functions that send and receive *)
  | HandshakeOver.
(** [crypto_t]: the steps so far. *)
Definition crypto_t : Type := list tls_step.

(** ** The subject of a certificate *)

(** The directives of [sscanf]: a text whose blanks stand for any, [%[^,]] and [%s]. *)
Fixpoint scan_text (t s : bytes) : option bytes :=
  match t with
  | [] => Some s
  | c :: t =>
      if is_space c then scan_text t (drop (spaces s) s)
      else match s with
           | d :: s => if bool_decide (c = d) then scan_text t s else None
           | [] => None
           end
  end.
Fixpoint run_of (ok : byte -> bool) (s : bytes) : bytes :=
  match s with c :: s => if ok c then c :: run_of ok s else [] | [] => [] end.
Definition scan_run (ok : byte -> bool) (s : bytes) : option (bytes * bytes) :=
  let w := run_of ok s in
  guard! negb (bool_decide (w = [])) else None in Some (w, drop (length w) s).
Definition COMMA : byte := Byte.x2c.
Definition scan_field (s : bytes) : option (bytes * bytes) := scan_run (fun c => negb (bool_decide (c = COMMA))) s.
Definition scan_word (s : bytes) : option (bytes * bytes) :=
  scan_run (fun c => negb (is_space c)) (drop (spaces s) s).

(** A text that is converted into an array of [size] bytes, with its terminator. *)
Definition convert (size : nat) (w : bytes) : outcome bytes :=
  if (length w <? size)%nat then Ok (w ++ [NUL]) else Ub BufferOverflow.

(** [sscanf(buf, "O=%[^,], dnQualifier=%[^,], CN=%s", domain, id, name)]: whether all three are
    there, and the identifier when it is; the other two are local arrays of the caller. *)
Definition scan_subject (buf : bytes) : outcome (bool * option bytes) :=
  let? (domain, buf) := s ← scan_text (str "O=") buf; scan_field s else Ok (false, None) in
  _ ← convert 50 domain;
  let? (id, buf) := s ← scan_text (str ", dnQualifier=") buf; scan_field s else Ok (false, None) in
  id ← convert CC_UUID_BUFFER_SIZE id;
  let? (name, buf) := s ← scan_text (str ", CN=") buf; scan_word s else Ok (false, Some id) in
  _ ← convert 50 name;
  Ok (true, Some id).

Section tls.
Context {V : Type} `{P : Platform} `{MP : MsgPuck} `{TL : MbedTls} `{HT : !Holds V crypto_t}.

(** ** The session *)

Definition tls_state : nat := 105.
Definition get_crypto : R V crypto_t := p ← get_platform; state_as crypto_t (ps_statics p !! tls_state).
Definition put_crypto (c : crypto_t) : R V unit :=
  upd_platform (fun p => set_ps_statics (<[tls_state := hold c]> (ps_statics p)) p).
Definition did (steps : list tls_step) : R V unit := c ← get_crypto; put_crypto (c ++ steps).

Definition crypto_get_node_info : R V (cc_result_t * option bytes) :=
  n ← os_tick;
  guard! x509_crt_parse_file n CRYPTO_CERT_FILE =? 0 else mret (CC_FAIL, None) in
  n ← os_tick;
  let? subject := x509_dn_gets n else mret (CC_FAIL, None) in
  '(ok, id) ← lift_outcome (scan_subject (cstr (take (CRYPTO_PARSE_BUF_SIZE - 1) subject)));
  mret (if ok : bool then CC_SUCCESS else CC_FAIL, id).

(** [cc_node_setup] with TLS: no state is read back. *)
Definition tls_node_setup : R V cc_result_t :=
  '(r, id) ← crypto_get_node_info;
  node ← on_world get_node;
  match id with
  | Some id => on_world (upd_node (set_node_id (id ++ drop (length id) (node_id node))))
  | None => mret tt
  end ;;
  mret r.

Variable fuel : nat.   (* how often the library may ask to be called again *)

Fixpoint handshake (fuel : nat) : R V bool :=
  match fuel with
  | O => ub_ Diverges
  | S fuel =>
      n ← os_tick;
      let ret := ssl_handshake n in
      if ret =? 0 then mret true else if ssl_wants ret then handshake fuel else mret false
  end.

(** On a failure the contexts stay as they are. *)
Definition crypto_tls_init (node_id : bytes) : R V cc_result_t :=
  put_crypto [] ;;
  n ← os_tick;
  guard! ctr_drbg_seed n (cstr node_id) else mret CC_FAIL in
  did [Seeded (cstr node_id)] ;;
  n ← os_tick;
  guard! 0 <=? x509_crt_parse_file n CRYPTO_CERT_FILE else mret CC_FAIL in
  did [CertLoaded CRYPTO_CERT_FILE] ;;
  n ← os_tick;
  guard! pk_parse_keyfile n CRYPTO_PRIVE_KEY_FILE else mret CC_FAIL in
  did [KeyLoaded CRYPTO_PRIVE_KEY_FILE] ;;
  n ← os_tick;
  guard! ssl_config_defaults n else mret CC_FAIL in
  did [ConfiguredClient; VerifyRequired; CaChain; Rng; OwnCert] ;;
  n ← os_tick;
  guard! ssl_setup n else mret CC_FAIL in
  did [SetUp; Bio] ;;
  ok ← handshake fuel;
  guard! (ok : bool) else mret CC_FAIL in
  did [HandshakeOver] ;;
  n ← os_tick;
  mret (if ssl_get_verify_result n =? 0 then CC_SUCCESS else CC_FAIL).

(** ** The transport *)

(** [while ((ret = mbedtls_ssl_write(..)) <= 0)]: what was written, or the error. *)
Fixpoint write_loop (fuel : nat) (buffer : bytes) : W Z :=
  match fuel with
  | O => ub_ Diverges
  | S fuel =>
      n ← tick;
      let ret := ssl_write n buffer in
      if 0 <? ret then mret ret else if ssl_wants ret then write_loop fuel buffer else mret ret
  end.
Definition crypto_tls_send (buffer : bytes) : W Z := write_loop fuel buffer.

Definition crypto_tls_recv (size : nat) : W bytes := n ← tick; mret (take size (ssl_read n size)).

(** [cc_transport_send] and [cc_transport_recv]. *)
Definition tls_transport_send (transport_client : option cc_transport_client_t) (buffer : bytes) : W cc_result_t :=
  match transport_client with
  | None => mret CC_FAIL
  | Some _ =>
      let size := Z.of_nat (length buffer) in
      let buffer := take (length buffer)
        (cc_transport_set_length_prefix buffer (size - Z.of_nat CC_TRANSPORT_LEN_PREFIX_SIZE)) in
      modify (fun w => set_sent (w_sent w ++ [buffer]) w) ;;
      ret ← crypto_tls_send buffer;
      mret (if ret =? size then CC_SUCCESS else CC_FAIL)
  end.
Definition tls_transport_recv (size : Z) : W bytes := crypto_tls_recv (Z.to_nat size).

(** [cc_transport_join] over a socket, which is what [transport_client->disconnect] closes. *)
Definition tls_transport_join (client : cc_transport_client_t) : R V cc_result_t :=
  node ← on_world get_node;
  r ← crypto_tls_init (node_id node);
  if negb (bool_decide (r = CC_SUCCESS)) then cc_transport_socket_disconnect ;; mret CC_FAIL
  else on_world (request_join tls_transport_send client).

(** Every context is freed; nothing calls it. *)
Definition crypto_tls_free : R V unit := _ ← os_tick; put_crypto [].
End tls.

(** ** What a join does *)

Section session.
Context {V : Type} `{P : Platform} `{MP : MsgPuck} `{TL : MbedTls} `{HT : !Holds V crypto_t}.
Implicit Types s : rt V.

(** The runtime with the steps [c] of a session, after [n] calls. *)
Definition session (c : crypto_t) (n : nat) s : rt V :=
  set_platform (set_ps_statics (<[tls_state := hold c]> (ps_statics (rt_platform s))) (rt_platform s)) (later n s).

Lemma session_tick c n s : os_tick (session c n s) = Ok (n, session c (S n) s).
Proof. reflexivity. Qed.

Lemma put_session c n s : put_crypto c (later n s) = Ok (tt, session c n s).
Proof. reflexivity. Qed.

Lemma session_did c steps n s : did steps (session c n s) = Ok (tt, session (c ++ steps) n s).
Proof.
  unfold did, get_crypto. exec. unfold get_platform, gets. cbn. unfold state_as. rewrite lookup_insert_eq. exec.
  rewrite held_hold. unfold put_crypto, upd_platform, session, set_platform, set_ps_statics, modify. cbn.
  by rewrite insert_insert_eq.
Qed.

(** A handshake that ends well has been answered 0. *)
Lemma handshake_ends c s fuel : forall n b s', handshake fuel (session c n s) = Ok (b, s') ->
  exists m, (n <= m)%nat /\ s' = session c (S m) s /\ (b = true -> ssl_handshake m = 0).
Proof.
  induction fuel as [|fuel IH]; intros n b s' E; [done|]. cbn [handshake] in E.
  rewrite (bind_Ok _ _ _ _ _ (session_tick c n s)) in E.
  destruct (Z.eqb_spec (ssl_handshake n) 0) as [H|H].
  { injection E as <- <-. by exists n. }
  destruct (ssl_wants _).
  - apply IH in E as (m & ? & -> & ?). exists m. split_and!; [lia|done|done].
  - injection E as <- <-. by exists n.
Qed.

(** What has been done when the session is there. *)
Definition secured (node_id : bytes) : crypto_t :=
  [Seeded (cstr node_id); CertLoaded CRYPTO_CERT_FILE; KeyLoaded CRYPTO_PRIVE_KEY_FILE; ConfiguredClient;
   VerifyRequired; CaChain; Rng; OwnCert; SetUp; Bio; HandshakeOver].

Lemma tls_init_ends fuel id s r s' : crypto_tls_init fuel id s = Ok (r, s') ->
  exists c n, s' = session c n s
    /\ (r = CC_SUCCESS -> c = secured id /\ exists i j, (w_calls (rt_world s) <= i < j)%nat
          /\ ssl_handshake i = 0 /\ ssl_get_verify_result j = 0).
Proof.
  intros E. unfold crypto_tls_init in E.
  assert (put_crypto [] s = Ok (tt, session [] (w_calls (rt_world s)) s)) as E0.
  { rewrite <- put_session. f_equal. destruct s as [[] ? ? ? ? ? ?]. reflexivity. }
  rewrite (bind_Ok _ _ _ _ _ E0) in E. clear E0.
  repeat first
    [ rewrite (bind_Ok _ _ _ _ _ (session_tick _ _ _)) in E
    | rewrite (bind_Ok _ _ _ _ _ (session_did _ _ _ _)) in E
    | match type of E with (if ?b then _ else _) _ = _ =>
        destruct b; [|injection E as <- <-; by eexists _, _] end ].
  apply bind_inv in E as (b & s1 & Eh & E). apply handshake_ends in Eh as (m & Hm & -> & Hb).
  destruct b; [|injection E as <- <-; by eexists _, _].
  rewrite (bind_Ok _ _ _ _ _ (session_did _ _ _ _)), (bind_Ok _ _ _ _ _ (session_tick _ _ _)) in E.
  injection E as <- <-. eexists _, _. split; [reflexivity|].
  destruct (Z.eqb_spec (ssl_get_verify_result (S m)) 0); [|done]. intros _. split; [reflexivity|].
  exists m, (S m). split_and!; [lia|lia|auto|done].
Qed.
End session.

(** ** The frames *)

Section frames.
Context `{P : Platform} `{MP : MsgPuck} `{TL : MbedTls}.
Implicit Types w : world.

Abbreviation as_sent l := (fun w => w_sent w = l).

Lemma sent_mem {A} l (m : M mem A) : keeps (as_sent l) (on_mem m).
Proof. intros w a w' E H. unfold on_mem, zoom in E. destruct (m (w_mem w)) as [[? ?]|]; [|done]. by injection E as _ <-. Qed.
Lemma sent_tick l : keeps (as_sent l) tick.
Proof. intros w a w' E H. by injection E as _ <-. Qed.
Lemma sent_name l : keeps (as_sent l) cc_coder_get_name.
Proof.
  unfold cc_coder_get_name, alloc_buffer, cc_platform_mem_alloc.
  apply keeps_bind; [apply keeps_bind; [apply sent_tick|intros n; apply keeps_ret]|].
  intros []; [|apply keeps_ret]. apply keeps_bind; [|intros x; apply keeps_bind; [by apply keeps_modify|intros _; apply keeps_ret]].
  intros w a w' E H. by injection E as _ <-.
Qed.
Lemma sent_uuid l : keeps (as_sent l) gen_msg_uuid.
Proof. intros w a w' E H. by injection E as _ <-. Qed.
Lemma sent_client l f : keeps (as_sent l) (upd_client f).
Proof.
  unfold upd_client, get_client, get_node, deref. apply keeps_bind.
  - apply keeps_bind; [apply keeps_gets|intros node; apply keeps_need].
  - intros c. by apply keeps_modify.
Qed.
Lemma sent_write l fuel buffer : keeps (as_sent l) (write_loop fuel buffer).
Proof.
  induction fuel as [|fuel IH]; [apply keeps_ub|]. apply keeps_bind; [apply sent_tick|]. intros n.
  cbn zeta. destruct (0 <? ssl_write n buffer); [apply keeps_ret|]. destruct (ssl_wants _); [exact IH|apply keeps_ret].
Qed.

Lemma tls_send_one fuel client buffer w r w' : tls_transport_send fuel (Some client) buffer w = Ok (r, w') ->
  exists frame, w_sent w' = w_sent w ++ [frame].
Proof.
  intros E. unfold tls_transport_send in E. apply bind_inv in E as ([] & w1 & E1 & E). injection E1 as <-.
  apply bind_inv in E as (ret & w2 & E2 & E). injection E as _ <-. eexists.
  exact (sent_write _ _ _ _ _ _ E2 eq_refl).
Qed.

(** A request to join is one frame at most, and one when it succeeds. *)
Lemma request_join_one fuel client w r w' : request_join (tls_transport_send fuel) client w = Ok (r, w') ->
  w_sent w' = w_sent w /\ r = CC_FAIL \/ exists frame, w_sent w' = w_sent w ++ [frame].
Proof.
  intros E. unfold request_join in E. apply bind_inv in E as (o & w1 & E1 & E).
  pose proof (sent_name _ _ _ _ E1 eq_refl) as S1. destruct o as [b|]; [|injection E as <- <-; by left].
  right. apply bind_inv in E as (name & w2 & E2 & E). apply (sent_mem _ _ _ _ _ E2) in S1.
  apply bind_inv in E as (r1 & w3 & E3 & E). unfold send_join_request in E3.
  apply bind_inv in E3 as (u & w4 & E4 & E3). apply (sent_uuid _ _ _ _ E4) in S1.
  apply bind_inv in E3 as (node & w5 & E5 & E3). injection E5 as _ <-.
  apply bind_inv in E3 as ([] & w5 & E5 & E3).
  assert (w5 = w4) as ->.
  { unfold in_buffer in E5. destruct (_ <=? _)%nat; [|discriminate E5]. unfold mret, M_ret in E5. congruence. }
  apply tls_send_one in E3 as [frame E3]. rewrite S1 in E3. exists frame.
  destruct (negb _).
  - apply bind_inv in E as ([] & w6 & E6 & E). injection E as _ <-. exact (sent_mem _ _ _ _ _ E6 E3).
  - apply bind_inv in E as ([] & w6 & E6 & E). apply (sent_client _ _ _ _ _ E6) in E3.
    apply bind_inv in E as ([] & w7 & E7 & E). injection E as _ <-. exact (sent_mem _ _ _ _ _ E7 E3).
Qed.
End frames.

Section join.
Context {V : Type} `{P : Platform} `{MP : MsgPuck} `{TL : MbedTls} `{HT : !Holds V crypto_t}.

Lemma disconnect_sends_nothing (s s' : rt V) : cc_transport_socket_disconnect s = Ok (tt, s') -> w_sent (rt_world s') = w_sent (rt_world s).
Proof.
  intros (client & s1 & E1 & E)%bind_inv.
  assert (s1 = s) as ->.
  { unfold on_world, zoom, get_client in E1. rewrite (bind_Ok _ _ _ (w_node (rt_world s)) (rt_world s)) in E1 by done.
    destruct (node_transport_client _); [|discriminate E1]. injection E1 as _ <-. by destruct s. }
  destruct (bool_decide _); [by injection E as <-|].
  unfold close_fd in E. apply bind_inv in E as (n & s2 & E2 & E). injection E2 as _ <-. injection E as <-. done.
Qed.

(** C19: nothing is given to the session of a peer that was not verified.  However the
    library answers, either the join fails and no frame has gone out, or the session was
    set up with the certificate and the key of the node, with the peer to be verified
    against the chain, the handshake ended well and the verification after it too; then a
    join that succeeds has given it one frame, the request. *)
Theorem tls_join_only_verified (fuel : nat) (client : cc_transport_client_t) (s s' : rt V) (r : cc_result_t) :
  tls_transport_join fuel client s = Ok (r, s') ->
  r = CC_FAIL /\ w_sent (rt_world s') = w_sent (rt_world s)
  \/ ps_statics (rt_platform s') !! tls_state = Some (hold (secured (node_id (w_node (rt_world s)))))
     /\ (exists i j, (w_calls (rt_world s) <= i < j)%nat /\ ssl_handshake i = 0 /\ ssl_get_verify_result j = 0)
     /\ exists frame, w_sent (rt_world s') = w_sent (rt_world s) ++ [frame].
Proof.
  intros E. unfold tls_transport_join in E. apply bind_inv in E as (node & s0 & E0 & E).
  assert (s0 = s /\ node = w_node (rt_world s)) as [-> ->].
  { destruct s. injection E0 as <- <-. done. }
  apply bind_inv in E as (r1 & s1 & E1 & E). apply tls_init_ends in E1 as (c & n & -> & Hok).
  destruct (decide (r1 = CC_SUCCESS)) as [->|Hr];
    [rewrite bool_decide_true in E by done|rewrite bool_decide_false in E by done]; cbn [negb] in E.
  - destruct (Hok eq_refl) as (-> & Hij). unfold on_world, zoom in E.
    destruct (request_join (tls_transport_send fuel) client _) as [[r2 w2]|] eqn:E2; [|done]. injection E as <- <-.
    apply request_join_one in E2 as [[Hs ->]|[frame Hs]]; [by left|right].
    split; [apply lookup_insert_eq|]. split; [exact Hij|]. by exists frame.
  - left. apply bind_inv in E as ([] & s2 & E2 & E). injection E as <- <-. split; [done|].
    by rewrite (disconnect_sends_nothing _ _ E2).
Qed.
End join.

(** ** The name of the node *)

Lemma run_of_app ok a c b : Forall (fun x => ok x = true) a -> ok c = false -> run_of ok (a ++ c :: b) = a.
Proof. induction 1 as [|x a Hx _ IH]; intros Hc; cbn; [by rewrite Hc|]. rewrite Hx. by rewrite IH. Qed.
Lemma run_of_all ok a : Forall (fun x => ok x = true) a -> run_of ok a = a.
Proof. induction 1 as [|x a Hx _ IH]; cbn; [done|]. by rewrite Hx, IH. Qed.

Lemma scan_field_app a b : a <> [] -> COMMA ∉ a -> scan_field (a ++ COMMA :: b) = Some (a, COMMA :: b).
Proof.
  intros Ha Hc. unfold scan_field, scan_run. rewrite run_of_app.
  - rewrite bool_decide_false by done. cbn [negb]. by rewrite drop_app_length.
  - apply Forall_forall. intros x Hx. rewrite bool_decide_false; [done|]. by intros ->.
  - by rewrite bool_decide_true.
Qed.

(** The subject of a certificate as mbed TLS prints it. *)
Definition subject (domain id name : bytes) : bytes :=
  str "O=" ++ domain ++ str ", dnQualifier=" ++ id ++ str ", CN=" ++ name.

(** What the certificate says of a node is read as it is printed. *)
Theorem subject_is_read (domain id name : bytes) :
  domain <> [] -> id <> [] -> name <> [] -> COMMA ∉ domain -> COMMA ∉ id ->
  Forall (fun c => is_space c = false) name ->
  (length domain < 50)%nat -> (length id < CC_UUID_BUFFER_SIZE)%nat -> (length name < 50)%nat ->
  scan_subject (subject domain id name) = Ok (true, Some (id ++ [NUL])).
Proof.
  intros Hd Hi Hn Cd Ci Sn Ld Li Ln. unfold scan_subject, subject, convert.
  change (s ← scan_text (str "O=") (str "O=" ++ domain ++ str ", dnQualifier=" ++ id ++ str ", CN=" ++ name); scan_field s)
    with (scan_field (domain ++ COMMA :: str " dnQualifier=" ++ id ++ str ", CN=" ++ name)).
  rewrite scan_field_app by done. rewrite (proj2 (Nat.ltb_lt _ _) Ld). cbn [mbind outcome_bind].
  change (s ← scan_text (str ", dnQualifier=") (COMMA :: str " dnQualifier=" ++ id ++ str ", CN=" ++ name); scan_field s)
    with (scan_field (id ++ COMMA :: str " CN=" ++ name)).
  rewrite scan_field_app by done. rewrite (proj2 (Nat.ltb_lt _ _) Li). cbn [mbind outcome_bind].
  assert (spaces name = 0%nat) as Hs by (destruct Sn as [|c]; [done|]; cbn; by rewrite H).
  change (s ← scan_text (str ", CN=") (COMMA :: str " CN=" ++ name); scan_word s) with (scan_word name).
  unfold scan_word, scan_run. rewrite Hs, drop_0, run_of_all.
  - rewrite bool_decide_false by done. cbn [negb]. by rewrite (proj2 (Nat.ltb_lt _ _) Ln).
  - eapply Forall_impl; [exact Sn|]. cbn. by intros x ->.
Qed.

(** *** A session *)

#[local] Instance a_tls : MbedTls := {
  x509_crt_parse_file := fun _ _ => 0;
  x509_dn_gets := fun _ => Some (subject (str "ericsson") (str "e5a5") (str "kitchen"));
  ctr_drbg_seed := fun _ _ => true;
  pk_parse_keyfile := fun _ _ => true;
  ssl_config_defaults := fun _ => true;
  ssl_setup := fun _ => true;
  ssl_handshake := fun n => if (n =? 5)%nat then MBEDTLS_ERR_SSL_WANT_READ else 0;
  ssl_get_verify_result := fun _ => 0;
  ssl_write := fun n b => if Nat.even n then MBEDTLS_ERR_SSL_WANT_WRITE else Z.of_nat (length b);
  ssl_read := fun _ _ => []
}.
#[local, refine] Instance holds_crypto : Holds crypto_t crypto_t := {| hold x := x; held := Some |}.
Proof. done. Defined.
Definition tls_rt : rt crypto_t :=
  {| rt_world := the_world; rt_instances := ∅; rt_caps := ∅; rt_objs := ∅; cs_capabilities := []; cs_objects := [];
     rt_platform := no_platform |}.

Lemma tls_join_only_verified_witness : exists client s',
  tls_transport_join (P:=quiet_platform) 3 client tls_rt = Ok (CC_SUCCESS, s')
  /\ exists frame, w_sent (rt_world s') = [frame].
Proof.
  exists the_client.
  assert (match tls_transport_join (P:=quiet_platform) 3 the_client tls_rt with Ok (r, _) => Some r | Ub _ => None end
          = Some CC_SUCCESS) as Er by (vm_compute; reflexivity).
  destruct (tls_transport_join (P:=quiet_platform) 3 the_client tls_rt) as [[r s']|] eqn:E; [|done].
  injection Er as ->. exists s'. split; [reflexivity|].
  destruct (tls_join_only_verified (P:=quiet_platform) 3 the_client tls_rt s' CC_SUCCESS E) as [[? _]|(_ & _ & H)];
    [done|exact H].
Defined.

(** A node is named by its certificate. *)
Example certificate_names_node :
  match tls_node_setup tls_rt with Ok (r, s) => Some (r, cstr (node_id (w_node (rt_world s)))) | Ub _ => None end
  = Some (CC_SUCCESS, str "e5a5").
Proof. vm_compute. reflexivity. Qed.
