(* ===== verification/PortProps.v ===== *)
(** Ports: the state of the actor they impose and the queues behind them; connection and
    transmission on one runtime. *)
From S2P Require Import Prelude CString Common MsgPuck MsgPackRef Coder Fifo Machine Transport ProtoSend.
From S2P Require Import Link FifoInit Port FifoSpec Examples Runs.

(** ** The state of an actor *)

(** The ports of a list are alive, in these states. *)
Definition ports_in_states (w : world) (ports : list loc) (ss : list cc_port_state_t) : Prop :=
  Forall2 (fun l s => exists p, w_ports w !! l = Some p /\ port_state p = s) ports ss.

(** The state that the first port that is not enabled imposes. *)
Fixpoint imposed (ss : list cc_port_state_t) : cc_actor_state_t :=
  match ss with
  | [] => CC_ACTOR_ENABLED
  | s :: ss =>
      if bool_decide (s = CC_PORT_DO_DELETE) then CC_ACTOR_DO_DELETE
      else if bool_decide (s = CC_PORT_ENABLED) then imposed ss else CC_ACTOR_PENDING
  end.

Lemma run_ports_state w ports ss :
  ports_in_states w ports ss -> ports_state ports w = Ok (imposed ss, w).
Proof.
  induction 1 as [|l s ports ss (p & E & Hs) _ IH]; [done|]. simpl. run1. rewrite Hs.
  repeat case_bool_decide; done.
Qed.

Lemma imposed_app ss ts :
  imposed (ss ++ ts)
  = if bool_decide (imposed ss = CC_ACTOR_ENABLED) then imposed ts else imposed ss.
Proof. induction ss as [|s ss IH]; simpl; [done|]. by repeat (case_bool_decide; simpl). Qed.

Lemma imposed_enabled ss : imposed ss = CC_ACTOR_ENABLED <-> Forall (eq CC_PORT_ENABLED) ss.
Proof.
  induction ss as [|s ss IH]; simpl; [by split|]. rewrite Forall_cons, <- IH.
  repeat case_bool_decide; subst; intuition congruence.
Qed.

Lemma imposed_delete ss :
  imposed ss = CC_ACTOR_DO_DELETE
  <-> exists n, ss !! n = Some CC_PORT_DO_DELETE /\ Forall (eq CC_PORT_ENABLED) (take n ss).
Proof.
  induction ss as [|s ss IH]; simpl.
  { split; [done|]. intros (n & E & _). by rewrite lookup_nil in E. }
  repeat case_bool_decide; subst.
  - split; [|done]. intros _. exists 0%nat. done.
  - rewrite IH. split.
    + intros (n & E & F). exists (S n). split; [done|]. by constructor.
    + intros ([|n] & E & F); [by simpl in E|]. exists n. split; [done|]. by inversion F.
  - split; [done|]. intros ([|n] & E & F); [by simpl in E; simplify_eq|]. inversion F; congruence.
Qed.

Lemma ports_in_states_app w l1 l2 ss : ports_in_states w (l1 ++ l2) ss ->
  exists ss1 ss2, ss = ss1 ++ ss2 /\ ports_in_states w l1 ss1 /\ ports_in_states w l2 ss2.
Proof. intros H. apply Forall2_app_inv_l in H as (s1 & s2 & ? & ? & ->). eauto 6. Qed.

Lemma run_port_state_changed w actor a ss :
  w_actors w !! actor = Some a -> ports_in_states w (actor_in_ports a ++ actor_out_ports a) ss ->
  cc_actor_port_state_changed actor w
  = Ok (tt, set_actors (<[actor := set_actor_state (imposed ss) a]> (w_actors w)) w).
Proof.
  intros Ha H. apply ports_in_states_app in H as (s1 & s2 & -> & H1 & H2).
  unfold cc_actor_port_state_changed. run1. run_with (run_ports_state w _ _ H1).
  assert ((if bool_decide (imposed s1 = CC_ACTOR_ENABLED)
    then ports_state (actor_out_ports a) else mret (imposed s1)) w = Ok (imposed (s1 ++ s2), w)) as E.
  { rewrite imposed_app. case_bool_decide; [by apply run_ports_state|done]. }
  run_with E. unfold cc_actor_set_state. by apply run_upd_actor.
Qed.

(** ** Queues *)

Lemma run_get_fifo w l p f :
  w_ports w !! l = Some p -> port_fifo p = Some f -> get_fifo l w = Ok (f, w).
Proof. intros E F. unfold get_fifo. run1. unfold deref, need. by rewrite F. Qed.

Lemma run_put_fifo w l p f : w_ports w !! l = Some p ->
  put_fifo l f w = Ok (tt, set_ports (<[l := set_port_fifo (Some f) p]> (w_ports w)) w).
Proof. intros E. by apply run_upd_port. Qed.

(** An actor runs exactly when all its ports are connected.  Whatever port
    changes, [cc_actor_port_state_changed] sets the state of the actor, and only
    that: ENABLED when every port is ENABLED, DO_DELETE when the first port that
    is not enabled, in-ports before out-ports, gave up connecting, PENDING
    otherwise. *)
Theorem actor_follows_ports (w : world) (actor : loc) (a : cc_actor_t) (ss : list cc_port_state_t) :
  w_actors w !! actor = Some a -> ports_in_states w (actor_in_ports a ++ actor_out_ports a) ss ->
  exists s, cc_actor_port_state_changed actor w
      = Ok (tt, set_actors (<[actor := set_actor_state s a]> (w_actors w)) w)
    /\ (s = CC_ACTOR_ENABLED <-> Forall (eq CC_PORT_ENABLED) ss)
    /\ (s = CC_ACTOR_DO_DELETE
        <-> exists n, ss !! n = Some CC_PORT_DO_DELETE /\ Forall (eq CC_PORT_ENABLED) (take n ss))
    /\ s <> CC_ACTOR_PENDING_IMPL.
Proof.
  intros Ha H. exists (imposed ss). split; [by apply run_port_state_changed|].
  split; [apply imposed_enabled|]. split; [apply imposed_delete|].
  clear. induction ss; simpl; by repeat case_bool_decide.
Qed.

Lemma actor_follows_ports_witness :
  exists s, cc_actor_port_state_changed 10 the_world
    = Ok (tt, set_actors (<[10%positive := set_actor_state s
        (an_actor (str "actor-a") [] [20%positive] CC_ACTOR_PENDING)]> (w_actors the_world)) the_world)
    /\ (s = CC_ACTOR_ENABLED <-> Forall (eq CC_PORT_ENABLED) [CC_PORT_DISCONNECTED]).
Proof.
  destruct (actor_follows_ports the_world 10 (an_actor (str "actor-a") [] [20%positive] CC_ACTOR_PENDING)
    [CC_PORT_DISCONNECTED]) as (s & E & H & _); [reflexivity| |eauto].
  repeat constructor. eexists. split; reflexivity.
Defined.

(** * Properties of the ports: local connection, and the way of a token from an
    out-port to the queue of the port it feeds. *)

(** ** Worlds where ports and actors know each other *)

(** The ports an actor lists are alive and name it, and the actor of a port is
    alive. *)
Record wired (w : world) : Prop := {
  listed_alive : forall a x l, w_actors w !! a = Some x -> l ∈ actor_in_ports x ++ actor_out_ports x ->
    exists p, w_ports w !! l = Some p /\ port_actor p = a;
  owner_alive : forall l p, w_ports w !! l = Some p -> is_Some (w_actors w !! port_actor p)
}.

(** The states of ports, and what they impose on an actor. *)
Definition state_at (w : world) (l : loc) : cc_port_state_t :=
  default CC_PORT_DISCONNECTED (port_state <$> w_ports w !! l).
Definition imposed_on (w : world) (x : cc_actor_t) : cc_actor_state_t :=
  imposed (map (state_at w) (actor_in_ports x ++ actor_out_ports x)).

(** What [cc_actor_port_state_changed] and [cc_port_set_state] leave behind. *)
Definition refreshed (a : loc) (w : world) : world :=
  set_actors (alter (fun x => set_actor_state (imposed_on w x) x) a (w_actors w)) w.
Definition in_state (s : cc_port_state_t) (p : cc_port_t) : cc_port_t :=
  set_port_state s
    (if bool_decide (s = CC_PORT_ENABLED) && negb (bool_decide (port_state p = CC_PORT_ENABLED))
     then set_port_retries 0 p else p).

Lemma in_state_actor s p : port_actor (in_state s p) = port_actor p.
Proof. unfold in_state. by destruct (_ && _). Qed.
Lemma in_state_state s p : port_state (in_state s p) = s.
Proof. done. Qed.

Lemma wired_put_port w l p p' :
  wired w -> w_ports w !! l = Some p -> port_actor p' = port_actor p ->
  wired (set_ports (<[l := p']> (w_ports w)) w).
Proof.
  intros [H1 H2] E Ea. split; simpl.
  - intros a x k Hx Hk. destruct (H1 a x k Hx Hk) as (q & Hq & Hqa).
    destruct (decide (l = k)) as [<-|N].
    + rewrite lookup_insert_eq. exists p'. split; [done|]. congruence.
    + rewrite lookup_insert_ne by done. eauto.
  - intros k q Hq. destruct (decide (l = k)) as [<-|N].
    + rewrite lookup_insert_eq in Hq. simplify_eq. rewrite Ea. eauto.
    + rewrite lookup_insert_ne in Hq by done. eauto.
Qed.

Lemma wired_refreshed w a : wired w -> wired (refreshed a w).
Proof.
  intros [H1 H2]. split; simpl.
  - intros b x l Hx Hl. destruct (decide (a = b)) as [<-|N].
    + rewrite lookup_alter_eq in Hx. apply fmap_Some in Hx as (y & Hy & ->). by apply (H1 a y l).
    + rewrite lookup_alter_ne in Hx by done. by apply (H1 b x l).
  - intros l p Hp. rewrite lookup_alter_is_Some. eauto.
Qed.

Lemma run_refresh w a : wired w -> is_Some (w_actors w !! a) ->
  cc_actor_port_state_changed a w = Ok (tt, refreshed a w).
Proof.
  intros H [x Hx]. rewrite (run_port_state_changed w a x (map (state_at w) (actor_in_ports x ++ actor_out_ports x))).
  - unfold refreshed. do 3 f_equal. apply map_eq. intros b. destruct (decide (a = b)) as [<-|N].
    + by rewrite lookup_insert_eq, lookup_alter_eq, Hx.
    + by rewrite lookup_insert_ne, lookup_alter_ne.
  - done.
  - unfold ports_in_states. rewrite Forall2_fmap_r. apply Forall_Forall2_diag, Forall_forall.
    intros l Hl. destruct (listed_alive w H a x l Hx Hl) as (p & Hp & _).
    exists p. split; [done|]. unfold state_at. by rewrite Hp.
Qed.

Lemma run_set_state w l s p : wired w -> w_ports w !! l = Some p ->
  cc_port_set_state l s w
  = Ok (tt, refreshed (port_actor p) (set_ports (<[l := in_state s p]> (w_ports w)) w)).
Proof.
  intros H E. unfold cc_port_set_state. run1. fold (in_state s p).
  set (w1 := set_ports _ _). change (cc_actor_port_state_changed (port_actor (in_state s p)) w1
    = Ok (tt, refreshed (port_actor p) w1)).
  rewrite in_state_actor. apply run_refresh.
  - eapply wired_put_port; [done..|apply in_state_actor].
  - simpl. by eapply owner_alive.
Qed.

(** ** Local connection *)

(** A port once connected to a port of the same runtime. *)
Definition joined (peer : loc) (node_id_ : bytes) (p : cc_port_t) : cc_port_t :=
  in_state CC_PORT_ENABLED
    (set_port_peer_id (strncpy_bytes node_id_ CC_UUID_BUFFER_SIZE) (set_port_peer_port (Some peer) p)).

Lemma joined_retries peer id p : port_state p <> CC_PORT_ENABLED -> port_retries (joined peer id p) = 0.
Proof. intros H. unfold joined, in_state. by rewrite bool_decide_true, bool_decide_false. Qed.
Lemma joined_fifo peer id p : port_fifo (joined peer id p) = port_fifo p.
Proof. unfold joined, in_state. by destruct (_ && _). Qed.
Lemma joined_peer peer id p : port_peer_port (joined peer id p) = Some peer.
Proof. unfold joined, in_state. by destruct (_ && _). Qed.

(** The state of an actor is the one its ports impose. *)
Definition follows (w : world) (a : loc) : Prop :=
  forall x, w_actors w !! a = Some x -> actor_state x = imposed_on w x.

Lemma follows_refreshed w a : follows (refreshed a w) a.
Proof.
  intros x. simpl. rewrite lookup_alter_eq. intros (y & _ & ->)%fmap_Some. done.
Qed.

(** Changing a port of another actor does not matter. *)
Lemma follows_put_port w l p' a b : wired w -> follows w a ->
  (exists p, w_ports w !! l = Some p /\ port_actor p = b) -> a <> b ->
  follows (set_ports (<[l := p']> (w_ports w)) w) a.
Proof.
  intros H Hf (p & Hp & Hb) N x Hx. simpl in Hx. rewrite (Hf x Hx). unfold imposed_on. f_equal.
  apply map_ext_in. intros k Hk%list_elem_of_In. unfold state_at. simpl.
  destruct (decide (l = k)) as [<-|]; [|by rewrite lookup_insert_ne].
  destruct (listed_alive w H a x l Hx Hk) as (q & Hq & ?). simplify_eq.
Qed.

Lemma follows_refreshed_ne w a b : a <> b -> follows w a -> follows (refreshed b w) a.
Proof. intros N Hf x. simpl. rewrite lookup_alter_ne by done. apply Hf. Qed.

Section local.
Context `{P : Platform} `{MP : MsgPuck}.

Lemma run_drop_tunnel_if_any w l p :
  w_ports w !! l = Some p -> port_tunnel p = None -> drop_tunnel_if_any l w = Ok (tt, w).
Proof. intros E Ht. unfold drop_tunnel_if_any. run1. by rewrite Ht. Qed.

Lemma run_set_peer_to_self w l p : w_ports w !! l = Some p ->
  set_peer_to_self l w
  = Ok (tt, set_ports (<[l := set_port_peer_id (strncpy_bytes (node_id (w_node w)) CC_UUID_BUFFER_SIZE) p]>
                         (w_ports w)) w).
Proof. intros E. unfold set_peer_to_self. run1. by apply run_upd_port. Qed.

(** [port->peer_port = peer; strncpy(port->peer_id, node->id, ...); set ENABLED]. *)
Lemma run_join {A} (k : W A) w l peer p : wired w -> w_ports w !! l = Some p ->
  (upd_port l (set_port_peer_port (Some peer)) ;; set_peer_to_self l ;;
   cc_port_set_state l CC_PORT_ENABLED ;; k) w
  = k (refreshed (port_actor p)
         (set_ports (<[l := joined peer (node_id (w_node w)) p]> (w_ports w)) w)).
Proof.
  intros H E. run_with (run_upd_port w l p (set_port_peer_port (Some peer)) E).
  set (p1 := set_port_peer_port (Some peer) p). set (w1 := set_ports _ w).
  assert (wired w1) as H1 by by apply (wired_put_port w l p p1).
  assert (w_ports w1 !! l = Some p1) as E1 by apply lookup_insert_eq.
  run_with (run_set_peer_to_self w1 l p1 E1).
  set (p2 := set_port_peer_id _ p1). set (w2 := set_ports _ w1).
  assert (wired w2) as H2 by by apply (wired_put_port w1 l p1 p2).
  assert (w_ports w2 !! l = Some p2) as E2 by apply lookup_insert_eq.
  run_with (run_set_state w2 l CC_PORT_ENABLED p2 H2 E2). unfold w2, w1. simpl.
  by rewrite !insert_insert_eq.
Qed.

Lemma wired_joined w l peer p id : wired w -> w_ports w !! l = Some p ->
  wired (refreshed (port_actor p) (set_ports (<[l := joined peer id p]> (w_ports w)) w)).
Proof.
  intros H E. apply wired_refreshed. eapply wired_put_port; [done..|unfold joined; by rewrite in_state_actor].
Qed.

(** C28: two ports of one runtime are connected together.  When the port named as
    peer is found on the same runtime and neither port holds a tunnel,
    [cc_port_connect_local] succeeds and leaves each port ENABLED with the other
    as its peer port and the runtime as its peer, its retries reset, every other
    port, tunnel, link and buffer alone, nothing sent, and the actors of both in
    the state that their ports now impose. *)
Theorem connect_local_joins (w : world) (l k : loc) (p q : cc_port_t) :
  wired w -> w_ports w !! l = Some p -> w_ports w !! k = Some q -> l <> k ->
  port_tunnel p = None -> port_tunnel q = None ->
  port_state p <> CC_PORT_ENABLED -> port_state q <> CC_PORT_ENABLED ->
  cc_port_get (port_peer_port_id p) (uuid_len (port_peer_port_id p)) w = Ok (Some k, w) ->
  exists w' p' q', cc_port_connect_local l w = Ok (CC_SUCCESS, w')
    /\ w_ports w' = <[k := q']> (<[l := p']> (w_ports w))
    /\ port_peer_port p' = Some k /\ port_peer_port q' = Some l
    /\ port_state p' = CC_PORT_ENABLED /\ port_state q' = CC_PORT_ENABLED
    /\ port_retries p' = 0 /\ port_retries q' = 0
    /\ port_fifo p' = port_fifo p /\ port_fifo q' = port_fifo q
    /\ follows w' (port_actor p) /\ follows w' (port_actor q)
    /\ w' = set_actors (w_actors w') (set_ports (w_ports w') w).
Proof.
  intros H Hp Hq N Tp Tq Sp Sq Hget. set (id := node_id (w_node w)).
  set (w1 := refreshed (port_actor p) (set_ports (<[l := joined k id p]> (w_ports w)) w)).
  assert (wired w1) as H1 by by apply wired_joined.
  assert (w_ports w1 !! k = Some q) as Hq1 by (simpl; by rewrite lookup_insert_ne).
  exists (refreshed (port_actor q) (set_ports (<[k := joined l id q]> (w_ports w1)) w1)),
    (joined k id p), (joined l id q).
  repeat split; try done; try (apply joined_retries; done); try apply joined_fifo; try apply joined_peer.
  - unfold cc_port_connect_local. run1. run_with Hget.
    run_with (run_drop_tunnel_if_any w l p Hp Tp). run_with (run_drop_tunnel_if_any w k q Hq Tq).
    rewrite (run_join _ w l k p H Hp). fold id w1. by rewrite (run_join _ w1 k l q H1 Hq1).
  - destruct (decide (port_actor p = port_actor q)) as [->|Na]; [apply follows_refreshed|].
    apply follows_refreshed_ne; [done|]. eapply (follows_put_port _ _ _ _ (port_actor q)); eauto.
    apply follows_refreshed.
  - apply follows_refreshed.
Qed.

(** ** Transmission *)

(** What a transmission to a local port does to the two abstract queues. *)
Definition aq_move (cap : Z) (t : cc_token_t) (u : list cc_token_t) (b : aqueue) : aqueue * aqueue :=
  match aq_write cap t b with
  | Some b' => ({| pending := []; unread := u |}, b')
  | None => ({| pending := []; unread := t :: u |}, b)
  end.

Lemma local_move f g t u b m :
  repr f {| pending := []; unread := t :: u |} -> repr g b -> write_pos g + 1 < 2 ^ 32 ->
  let f1 := set_tentative_read_pos (tentative_read_pos f + 1) f in
  exists r f' g', cc_fifo_write g (tok_value t) (tok_size t) m = Ok ((r, g'), m)
    /\ (if bool_decide (r = CC_SUCCESS) then cc_fifo_commit_read f1 false m
        else Ok (cc_fifo_cancel_commit f1, m)) = Ok (f', m)
    /\ repr f' (aq_move (fifo_size g - 1) t u b).1 /\ repr g' (aq_move (fifo_size g - 1) t u b).2.
Proof.
  intros Hf Hg Hw f1.
  destruct (cc_fifo_write_repr g b (tok_value t) (tok_size t) m Hg Hw) as (g' & Eg & _ & Rg).
  pose proof (proj2 (cc_fifo_peek_repr f _ t {| pending := [t]; unread := u |} m Hf eq_refl)) as Hf1.
  assert ({| tok_value := tok_value t; tok_size := tok_size t |} = t) as Et by by destruct t.
  rewrite Et in Eg, Rg. unfold aq_move. destruct (aq_write _ t b) as [b'|]; simpl in *.
  - destruct (cc_fifo_commit_read_repr f1 _ m Hf1 ltac:(done)) as (f' & Ef & _ & _ & Rf).
    exists CC_SUCCESS, f', g'. rewrite bool_decide_true by done. done.
  - exists CC_FAIL, (cc_fifo_cancel f1), g'. rewrite bool_decide_false by done.
    split; [done|]. split; [done|]. split; [exact (cc_fifo_cancel_repr f1 _ Hf1)|done].
Qed.

(** C5: a token goes to the local peer or stays.  An enabled out-port of a running
    actor whose oldest unsent token is [t] writes it to the queue of the port it
    is connected to and gives up its own reference when there is room there, and
    keeps it first in line when there is none.  The buffer of the token is
    neither copied nor freed, nothing is sent and nothing else changes. *)
Theorem transmit_local_moves_token (w : world) (l k : loc) (p q : cc_port_t) (a : cc_actor_t)
  (f g : cc_fifo_t) (t : cc_token_t) (u : list cc_token_t) (b : aqueue) :
  w_ports w !! l = Some p -> w_ports w !! k = Some q -> l <> k ->
  w_actors w !! port_actor p = Some a -> actor_state a = CC_ACTOR_ENABLED ->
  port_state p = CC_PORT_ENABLED -> port_direction p = CC_PORT_DIRECTION_OUT ->
  port_tunnel p = None -> port_peer_port p = Some k ->
  port_fifo p = Some f -> port_fifo q = Some g ->
  repr f {| pending := []; unread := t :: u |} -> repr g b -> write_pos g + 1 < 2 ^ 32 ->
  exists f' g',
    cc_port_transmit l w
    = Ok (tt, set_ports (<[l := set_port_fifo (Some f') p]>
                           (<[k := set_port_fifo (Some g') q]> (w_ports w))) w)
    /\ match aq_write (fifo_size g - 1) t b with
       | Some b' => repr f' {| pending := []; unread := u |} /\ repr g' b'
       | None => repr f' {| pending := []; unread := t :: u |} /\ repr g' b
       end.
Proof.
  intros Hp Hq N Ha Sa Sp Dp Tp Pp Hf Hg Rf Rg Hw.
  destruct (local_move f g t u b (w_mem w) Rf Rg Hw) as (r & f' & g' & Ew & Ec & R1 & R2).
  exists f', g'. split.
  2: { unfold aq_move in *. by destruct (aq_write _ t b). }
  unfold cc_port_transmit. run1. rewrite Sp, bool_decide_true by done.
  run1. rewrite Sa, Dp, !bool_decide_true by done. cbn [andb].
  run_with (run_get_fifo w l p f Hp Hf).
  rewrite (tokens_available_repr f _ Rf), bool_decide_false by done. unfold when, transmit_token. cbn [negb].
  run_with (run_get_fifo w l p f Hp Hf).
  run_with (run_com_peek f _ t {| pending := [t]; unread := u |} w Rf eq_refl). cbv beta iota.
  set (f1 := set_tentative_read_pos _ f) in *.
  run_with (run_put_fifo w l p f1 Hp). set (w1 := set_ports _ w).
  assert (w_ports w1 !! l = Some (set_port_fifo (Some f1) p)) as Hp1 by apply lookup_insert_eq.
  assert (w_ports w1 !! k = Some q) as Hq1 by (simpl; by rewrite lookup_insert_ne).
  run1. cbn [port_tunnel port_peer_port set_port_fifo]. rewrite Tp, Pp.
  run_with (run_get_fifo w1 k q g Hq1 Hg).
  run_with (run_on_mem _ w1 _ _ Ew). change (set_mem (w_mem w) w1) with (set_mem (w_mem w1) w1).
  rewrite set_mem_id. run_with (run_put_fifo w1 k q g' Hq1). set (w2 := set_ports _ w1).
  assert (w_ports w2 !! l = Some (set_port_fifo (Some f1) p)) as Hp2.
  { simpl. by rewrite lookup_insert_ne, lookup_insert_eq. }
  run_with (run_get_fifo w2 l _ f1 Hp2 eq_refl).
  assert (set_ports (<[l := set_port_fifo (Some f') (set_port_fifo (Some f1) p)]> (w_ports w2)) w2
    = set_ports (<[l := set_port_fifo (Some f') p]> (<[k := set_port_fifo (Some g') q]> (w_ports w))) w) as Ef.
  { unfold w2, w1. rewrite !set_ports_ports. cbn [w_ports set_ports]. f_equal.
    rewrite (insert_insert_ne (w_ports w) k l) by done. apply insert_insert_eq. }
  rewrite <- Ef. case_bool_decide.
  - run_with (run_on_mem _ w2 _ _ Ec). change (set_mem (w_mem w) w2) with (set_mem (w_mem w2) w2).
    rewrite set_mem_id. by apply run_put_fifo.
  - simplify_eq. by apply run_put_fifo.
Qed.
End local.

Lemma the_world_wired : wired the_world.
Proof.
  assert (Hp : w_ports the_world = <[20%positive := a_port (str "out-port") (str "token") (str "in-port")
      CC_PORT_DIRECTION_OUT CC_PORT_DISCONNECTED 10%positive]> {[21%positive := a_port (str "in-port")
      (str "token") (str "out-port") CC_PORT_DIRECTION_IN CC_PORT_DISCONNECTED 11%positive]}) by reflexivity.
  assert (Ha : w_actors the_world = <[10%positive := an_actor (str "actor-a") [] [20%positive] CC_ACTOR_PENDING]>
      {[11%positive := an_actor (str "actor-b") [21%positive] [] CC_ACTOR_PENDING]}) by reflexivity.
  split; rewrite Hp, Ha.
  - intros a x l Hx Hl. apply lookup_insert_Some in Hx as [[<- <-]|[_ [<- <-]%lookup_singleton_Some]];
      apply list_elem_of_singleton in Hl as ->; eexists; split; reflexivity.
  - intros l p Hl. apply lookup_insert_Some in Hl as [[<- <-]|[_ [<- <-]%lookup_singleton_Some]];
      eexists; reflexivity.
Qed.

Lemma connect_local_joins_witness :
  exists w' p' q', cc_port_connect_local 20 the_world = Ok (CC_SUCCESS, w')
    /\ w_ports w' = <[21%positive := q']> (<[20%positive := p']> (w_ports the_world))
    /\ port_peer_port p' = Some 21%positive /\ port_state q' = CC_PORT_ENABLED.
Proof.
  destruct (connect_local_joins the_world 20 21
      (a_port (str "out-port") (str "token") (str "in-port") CC_PORT_DIRECTION_OUT CC_PORT_DISCONNECTED 10)
      (a_port (str "in-port") (str "token") (str "out-port") CC_PORT_DIRECTION_IN CC_PORT_DISCONNECTED 11)
      the_world_wired) as (w' & p' & q' & E & W & P1 & _ & _ & S & _); try reflexivity; try discriminate.
  exists w', p', q'. repeat split; assumption.
Defined.

(** The two actors of the example once connected, with a token to move. *)
Definition a_token : cc_token_t := {| tok_value := Some 50%positive; tok_size := 3 |}.
Definition sent_fifo : cc_fifo_t := set_write_pos 1 (set_token 0 a_token (new_fifo 4)).

Lemma sent_fifo_repr : repr sent_fifo {| pending := []; unread := [a_token] |}.
Proof.
  split; [split|]; [simpl; lia|done|simpl; lia|simpl; lia| |done].
  intros i Hi N. destruct i as [|[|[|[|i]]]]; try done.
  exfalso. apply (N 0); [simpl; lia|done].
Qed.

Definition local_out_port : cc_port_t :=
  set_port_fifo (Some sent_fifo) (joined 21 the_node_id
    (a_port (str "out-port") (str "token") (str "in-port") CC_PORT_DIRECTION_OUT CC_PORT_DISCONNECTED 10)).
Definition local_in_port : cc_port_t :=
  joined 20 the_node_id
    (a_port (str "in-port") (str "token") (str "out-port") CC_PORT_DIRECTION_IN CC_PORT_DISCONNECTED 11).
Definition connected_world : world :=
  set_mem {[50%positive := mp_enc (VUint 300)]}
    (set_actors (<[10%positive := an_actor (str "actor-a") [] [20%positive] CC_ACTOR_ENABLED]>
                   {[11%positive := an_actor (str "actor-b") [21%positive] [] CC_ACTOR_ENABLED]})
       (set_ports (<[20%positive := local_out_port]> {[21%positive := local_in_port]}) the_world)).

Lemma transmit_local_moves_token_witness :
  exists f' g', cc_port_transmit 20 connected_world
    = Ok (tt, set_ports (<[20%positive := set_port_fifo (Some f') local_out_port]>
               (<[21%positive := set_port_fifo (Some g') local_in_port]> (w_ports connected_world))) connected_world)
    /\ repr g' {| pending := []; unread := [a_token] |}.
Proof.
  destruct (transmit_local_moves_token connected_world 20 21 local_out_port local_in_port
    (an_actor (str "actor-a") [] [20%positive] CC_ACTOR_ENABLED) sent_fifo (new_fifo 4) a_token []
    {| pending := []; unread := [] |}) as (f' & g' & E & R); try reflexivity; try discriminate.
  - apply sent_fifo_repr.
  - apply (new_fifo_repr 4). lia.
  - exists f', g'. split; [exact E|]. exact (proj2 R).
Defined.
