(* ===== verification/Disconnect.v ===== *)
(** Properties of the disconnection of ports: what both ends are left with, on
    this runtime and on behalf of a peer runtime, and the pointer that outlives
    the port it points to. *)
From S2P Require Import Prelude CString Common MsgPuck MsgPackRef Coder Fifo Machine Transport ProtoSend.
From S2P Require Import Link FifoInit Port FifoSpec Runs Examples PortProps.

Section disconnect.
Context `{P : Platform} `{MP : MsgPuck}.

(** A port after [cc_port_disconnect] or [cc_port_handle_disconnect]. *)
Definition parted (f : cc_fifo_t) (p : cc_port_t) : cc_port_t :=
  {| port_id := port_id p; port_name := port_name p; port_peer_port_id := port_peer_port_id p;
     port_peer_id := zeroed CC_UUID_BUFFER_SIZE; port_direction := port_direction p;
     port_peer_port := None; port_tunnel := None; port_state := CC_PORT_DISCONNECTED;
     port_fifo := Some (cc_fifo_cancel f); port_retries := port_retries p; port_actor := port_actor p |}.

Lemma run_clear_peer_id w l p : w_ports w !! l = Some p ->
  clear_peer_id l w
  = Ok (tt, set_ports (<[l := set_port_peer_id (zeroed CC_UUID_BUFFER_SIZE) p]> (w_ports w)) w).
Proof. intros E. by apply run_upd_port. Qed.

(** The end of a disconnection, on a port without peer or tunnel. *)
Lemma run_part w l p f : wired w -> w_ports w !! l = Some p -> port_fifo p = Some f ->
  port_peer_port p = None -> port_tunnel p = None ->
  (clear_peer_id l ;; cc_port_set_state l CC_PORT_DISCONNECTED ;;
   f ← get_fifo l; put_fifo l (cc_fifo_cancel f)) w
  = Ok (tt, set_ports (<[l := parted f p]> (w_ports w))
              (refreshed (port_actor p) (set_ports (<[l := set_port_state CC_PORT_DISCONNECTED p]> (w_ports w)) w))).
Proof.
  intros H E Hf Hp Ht. run_with (run_clear_peer_id w l p E).
  set (p1 := set_port_peer_id _ p). set (w1 := set_ports _ w).
  assert (w_ports w1 !! l = Some p1) as E1 by apply lookup_insert_eq.
  assert (wired w1) as H1 by by apply (wired_put_port w l p p1).
  run_with (run_set_state w1 l CC_PORT_DISCONNECTED p1 H1 E1).
  set (w2 := refreshed _ _).
  assert (w_ports w2 !! l = Some (in_state CC_PORT_DISCONNECTED p1)) as E2.
  { simpl. apply lookup_insert_eq. }
  run_with (run_get_fifo w2 l _ f E2 Hf). rewrite (run_put_fifo w2 l _ _ E2).
  assert (set_port_fifo (Some (cc_fifo_cancel f)) (in_state CC_PORT_DISCONNECTED p1) = parted f p) as ->.
  { destruct p. simpl in *. by subst. }
  do 2 f_equal. destruct w as [? ? ? ports actors ? ? ? ?]. unfold w2, w1, refreshed. simpl.
  unfold set_ports, set_actors. simpl. rewrite !insert_insert_eq. f_equal.
  apply alter_ext. intros x _. unfold imposed_on. do 2 f_equal. apply map_ext. intros i.
  unfold state_at. simpl. destruct (decide (l = i)) as [<-|]; [by rewrite !lookup_insert_eq|].
  by rewrite !lookup_insert_ne.
Qed.

Lemma follows_set_fifo w l p p' a : w_ports w !! l = Some p -> port_state p' = port_state p ->
  follows w a -> follows (set_ports (<[l := p']> (w_ports w)) w) a.
Proof.
  intros E S H x Hx. rewrite (H x Hx). unfold imposed_on. f_equal. apply map_ext. intros i.
  unfold state_at. simpl. destruct (decide (l = i)) as [<-|].
  - rewrite lookup_insert_eq, E. simpl. by rewrite S.
  - by rewrite lookup_insert_ne.
Qed.

(** What a disconnection makes of a port and of its local peer. *)
Lemma run_disconnect_local w l k p q f unref : wired w ->
  w_ports w !! l = Some p -> w_ports w !! k = Some q -> l <> k ->
  port_tunnel q = None -> port_peer_port q = Some l -> port_fifo q = Some f ->
  exists w', cc_port_disconnect k unref w = Ok (tt, w') /\ wired w'
    /\ w_ports w' = <[k := parted f q]> (<[l := set_port_state CC_PORT_DISCONNECTED p]> (w_ports w))
    /\ follows w' (port_actor p) /\ follows w' (port_actor q)
    /\ w' = set_actors (w_actors w') (set_ports (w_ports w') w).
Proof.
  intros H Hp Hq N Tq Pq Fq. unfold cc_port_disconnect. run1. rewrite Tq, bool_decide_false by (intros ?; done).
  cbn [andb when]. rewrite (bind_Ok _ _ _ tt w) by done. rewrite (bind_Ok _ _ _ _ _ (run_upd_port w k q _ Hq)).
  set (q1 := set_port_tunnel None q). set (w1 := set_ports _ w).
  assert (q1 = q) as Eq by (destruct q; simpl in *; by subst).
  assert (w1 = w) as -> by (unfold w1; rewrite Eq, insert_id by done; apply set_ports_id).
  clear q1 Eq. rewrite Pq.
  pose proof (wired_refreshed _ (port_actor p)
    (wired_put_port w l p (set_port_state CC_PORT_DISCONNECTED p) H Hp eq_refl)) as H2.
  set (w2 := refreshed _ _) in H2.
  assert ((cc_port_set_state l CC_PORT_DISCONNECTED;; upd_port k (set_port_peer_port None)) w
    = Ok (tt, set_ports (<[k := set_port_peer_port None q]> (w_ports w2)) w2)) as E2.
  { run_with (run_set_state w l CC_PORT_DISCONNECTED p H Hp). apply run_upd_port. simpl.
    by rewrite lookup_insert_ne. }
  run_with E2. set (q3 := set_port_peer_port None q). set (w3 := set_ports _ w2).
  assert (w_ports w2 !! k = Some q) as Hq2 by (simpl; by rewrite lookup_insert_ne).
  assert (wired w3) as H3 by by apply (wired_put_port w2 k q q3).
  assert (w_ports w3 !! k = Some q3) as Hq3 by apply lookup_insert_eq.
  rewrite (run_part w3 k q3 f H3 Hq3 Fq eq_refl Tq). set (w4 := refreshed (port_actor q3) _).
  assert (w_ports w4 !! k = Some (set_port_state CC_PORT_DISCONNECTED q3)) as Hq4 by apply lookup_insert_eq.
  assert (wired w4) as H4 by (apply wired_refreshed; by apply (wired_put_port w3 k q3)).
  assert (<[k := parted f q3]> (w_ports w3) = <[k := parted f q3]> (w_ports w4)) as ->.
  { simpl. by rewrite !insert_insert_eq. }
  eexists. split; [reflexivity|]. split; [|split; [|split; [|split]]].
  - by apply (wired_put_port w4 k (set_port_state CC_PORT_DISCONNECTED q3)).
  - simpl. by rewrite !insert_insert_eq.
  - apply (follows_set_fifo w4 k (set_port_state CC_PORT_DISCONNECTED q3)); [done|done|].
    destruct (decide (port_actor p = port_actor q)) as [->|Na]; [apply follows_refreshed|].
    apply follows_refreshed_ne; [done|]. eapply (follows_put_port _ _ _ _ (port_actor q)); eauto.
    eapply (follows_put_port w2 _ _ _ (port_actor q)); eauto. apply follows_refreshed.
  - apply (follows_set_fifo w4 k (set_port_state CC_PORT_DISCONNECTED q3)); [done|done|].
    apply follows_refreshed.
  - done.
Qed.

(** A local disconnection.  [cc_port_disconnect] of a port connected to a port
    of the same runtime leaves both ports DISCONNECTED and both actors in the
    state their ports impose, gives the tokens read and not committed back to
    the queue of the port, and forgets its peer.  The peer port keeps its
    pointer. *)
Theorem disconnect_local_spec (w : world) (l k : loc) (p q : cc_port_t) (f : cc_fifo_t) (b : aqueue)
  (unref : bool) :
  wired w -> w_ports w !! l = Some p -> w_ports w !! k = Some q -> l <> k ->
  port_tunnel q = None -> port_peer_port q = Some l -> port_peer_port p = Some k ->
  port_fifo q = Some f -> repr f b ->
  exists w' p' q' f', cc_port_disconnect k unref w = Ok (tt, w')
    /\ w_ports w' = <[k := q']> (<[l := p']> (w_ports w))
    /\ port_state p' = CC_PORT_DISCONNECTED /\ port_state q' = CC_PORT_DISCONNECTED
    /\ port_fifo q' = Some f' /\ repr f' (aq_cancel b)
    /\ port_fifo p' = port_fifo p /\ port_peer_id q' = zeroed CC_UUID_BUFFER_SIZE
    /\ port_peer_port q' = None /\ port_peer_port p' = Some k
    /\ follows w' (port_actor p) /\ follows w' (port_actor q)
    /\ w' = set_actors (w_actors w') (set_ports (w_ports w') w).
Proof.
  intros H Hp Hq N Tq Pq Pp Fq Rq.
  destruct (run_disconnect_local w l k p q f unref H Hp Hq N Tq Pq Fq) as (w' & E & _ & W & F1 & F2 & Ew).
  exists w', (set_port_state CC_PORT_DISCONNECTED p), (parted f q), (cc_fifo_cancel f).
  pose proof (cc_fifo_cancel_repr f b Rq). tauto.
Qed.

(** C38: the pointer that outlives its port.  When one of two ports connected
    together is disconnected and freed, as [cc_actor_free] does for the ports of
    a destroyed actor, disconnecting the other one writes to the freed port. *)
Theorem dangling_peer_port (w : world) (l k : loc) (p q : cc_port_t) (f : cc_fifo_t) (m : mem) :
  wired w -> w_ports w !! l = Some p -> w_ports w !! k = Some q -> l <> k ->
  port_tunnel p = None -> port_tunnel q = None ->
  port_peer_port q = Some l -> port_peer_port p = Some k ->
  port_fifo q = Some f -> cc_fifo_free f (w_mem w) = Ok (tt, m) ->
  exists w', (cc_port_disconnect k true ;; cc_port_free k false) w = Ok (tt, w')
    /\ cc_port_disconnect l true w' = Ub UseAfterFree.
Proof.
  intros H Hp Hq N Tp Tq Pq Pp Fq Hm.
  destruct (run_disconnect_local w l k p q f true H Hp Hq N Tq Pq Fq) as (w1 & E & _ & W & _ & _ & Ew).
  assert (w_ports w1 !! k = Some (parted f q)) as Hk by (rewrite W; apply lookup_insert_eq).
  exists (set_ports (delete k (w_ports w1)) (set_mem m w1)). split.
  - run_with E. unfold cc_port_free. run1. cbn [when]. rewrite (bind_Ok _ _ _ tt w1) by done. run1.
    cbn [port_tunnel parted]. rewrite (bind_Ok _ _ _ tt w1) by done.
    rewrite (bind_Ok _ _ w1 (cc_fifo_cancel f) w1) by done.
    assert (cc_fifo_free (cc_fifo_cancel f) (w_mem w1) = Ok (tt, m)) as Em by (by rewrite Ew).
    run_with (run_on_mem _ w1 _ _ Em). unfold free_port.
    rewrite (bind_Ok _ _ _ _ _ (run_get_port (set_mem m w1) k _ Hk)). done.
  - unfold cc_port_disconnect. set (w2 := set_ports _ _).
    assert (w_ports w2 !! l = Some (set_port_state CC_PORT_DISCONNECTED p)) as Hl.
    { simpl. by rewrite lookup_delete_ne, W, lookup_insert_ne, lookup_insert_eq. }
    run1. cbn [port_tunnel port_peer_port set_port_state]. rewrite Tp, Pp, bool_decide_false by (intros ?; done).
    cbn [andb when]. rewrite (bind_Ok _ _ _ tt w2) by done.
    rewrite (bind_Ok _ _ _ _ _ (run_upd_port w2 l _ _ Hl)). apply bind_Ub, bind_Ub.
    unfold cc_port_set_state. apply bind_Ub, run_get_port_freed. simpl.
    by rewrite lookup_insert_ne, lookup_delete_eq.
Qed.
End disconnect.

Lemma connected_world_wired : wired connected_world.
Proof.
  assert (Hp : w_ports connected_world = <[20%positive := local_out_port]> {[21%positive := local_in_port]}) by reflexivity.
  assert (Ha : w_actors connected_world
    = <[10%positive := an_actor (str "actor-a") [] [20%positive] CC_ACTOR_ENABLED]>
      {[11%positive := an_actor (str "actor-b") [21%positive] [] CC_ACTOR_ENABLED]}) by reflexivity.
  split; rewrite Hp, Ha.
  - intros a x l Hx Hl. apply lookup_insert_Some in Hx as [[<- <-]|[_ [<- <-]%lookup_singleton_Some]];
      apply list_elem_of_singleton in Hl as ->; eexists; split; reflexivity.
  - intros l p Hl. apply lookup_insert_Some in Hl as [[<- <-]|[_ [<- <-]%lookup_singleton_Some]];
      eexists; reflexivity.
Qed.

Lemma disconnect_local_spec_witness :
  exists w' p' q' f', cc_port_disconnect 20 true connected_world = Ok (tt, w')
    /\ w_ports w' = <[20%positive := q']> (<[21%positive := p']> (w_ports connected_world))
    /\ port_fifo q' = Some f' /\ repr f' {| pending := []; unread := [a_token] |}
    /\ port_peer_port p' = Some 20%positive.
Proof.
  destruct (disconnect_local_spec connected_world 21 20 local_in_port local_out_port sent_fifo
    {| pending := []; unread := [a_token] |} true connected_world_wired)
    as (w' & p' & q' & f' & E & W & _ & _ & F & R & _ & _ & _ & D & _); try reflexivity; try discriminate.
  - apply sent_fifo_repr.
  - exists w', p', q', f'. repeat (split; [assumption|]). exact D.
Defined.

Lemma dangling_peer_port_witness :
  exists w', (cc_port_disconnect 21 true ;; cc_port_free 21 false) connected_world = Ok (tt, w')
    /\ cc_port_disconnect 20 true w' = Ub UseAfterFree.
Proof.
  apply (dangling_peer_port connected_world 20 21 local_out_port local_in_port (new_fifo 4)
    (w_mem connected_world) connected_world_wired); try reflexivity; discriminate.
Defined.
