(* ===== verification/TokenProps.v ===== *)
(** Properties of the tokens between runtimes: what a port answers to a token of
    its peer, and what a transmission through a tunnel puts on the wire. *)
From S2P Require Import Prelude CString Common MsgPuck MsgPackRef Coder Fifo Machine Transport ProtoSend.
From S2P Require Import Link FifoInit Port Proto CoderSpec FifoSpec MsgSpec TransportSpec TokenMsg Runs.
From S2P Require Import Examples PortProps.

(** ** Reception *)

Section reception.
Context `{P : Platform}.

(** A port takes a token when its actor runs and its queue has a slot. *)
Definition takes (a : cc_actor_t) (f : cc_fifo_t) (q : aqueue) : bool :=
  bool_decide (actor_state a = CC_ACTOR_ENABLED)
  && (Z.of_nat (length (aq_all q)) <? fifo_size f - 1).

Lemma com_write_repr f q data size seq m : repr f q -> write_pos f + 1 < 2 ^ 32 ->
  Z.of_nat (length (aq_all q)) < fifo_size f - 1 ->
  exists f', cc_fifo_com_write f data size seq m = Ok ((CC_SUCCESS, f'), m)
    /\ if write_pos f <=? seq
       then repr f' {| pending := pending q; unread := unread q ++ [{| tok_value := data; tok_size := size |}] |}
       else f' = f.
Proof.
  intros H Hw Hr. unfold cc_fifo_com_write. destruct (write_pos f <=? seq); [|by exists f].
  destruct (cc_fifo_write_repr f q data size m H Hw) as (f' & E & _ & R).
  unfold aq_write in R. rewrite (proj2 (Z.ltb_lt _ _) Hr) in R. exists f'. split; [|exact R].
  by run_with E.
Qed.

(** C4: a received token.  A port whose actor does not run, or whose queue is
    full, refuses it and nothing changes.  Otherwise the token is copied and
    acknowledged: it joins the end of the queue when its number is at least the
    number of tokens ever written, while a token with a smaller number, a
    repetition, leaves the queue alone and its copy allocated with no owner. *)
Theorem node_handle_token_spec (w : world) (l : loc) (p : cc_port_t) (a : cc_actor_t) (f : cc_fifo_t)
  (q : aqueue) (data : bytes) (size : nat) (seq : Z) :
  w_ports w !! l = Some p -> w_actors w !! port_actor p = Some a -> port_fifo p = Some f ->
  repr f q -> write_pos f + 1 < 2 ^ 32 -> (size <= length data)%nat ->
  if negb (takes a f q) then cc_node_handle_token l data size seq w = Ok (CC_FAIL, w)
  else if negb (plat_alloc (w_calls w))
  then cc_node_handle_token l data size seq w = Ok (CC_FAIL, set_calls (S (w_calls w)) w)
  else exists f',
    cc_node_handle_token l data size seq w
    = Ok (CC_SUCCESS, set_ports (<[l := set_port_fifo (Some f') p]> (w_ports w))
                        (with_copy (take size data) w))
    /\ if write_pos f <=? seq
       then repr f' {| pending := pending q;
              unread := unread q ++ [{| tok_value := Some (w_next w); tok_size := Z.of_nat size |}] |}
       else f' = f.
Proof.
  intros Hp Ha Hf R Hw Hs. unfold takes, cc_node_handle_token. do 2 run1.
  case_bool_decide as Sa; cbn [andb negb]; [|done].
  run_with (run_get_fifo w l p f Hp Hf). rewrite (slots_available_repr f q R).
  rewrite (bind_Ok _ _ w (Z.of_nat (length (aq_all q)) <? fifo_size f - 1) w) by done.
  destruct (Z.ltb_spec (Z.of_nat (length (aq_all q))) (fifo_size f - 1)) as [Hr|]; cbn [negb]; [|done].
  assert (readable data size w = Ok (tt, w)) as Er.
  { unfold readable. by rewrite (proj2 (Nat.leb_le _ _) Hs). }
  run_with Er. pose proof (run_alloc_buffer (take size data) w) as Eb.
  destruct (plat_alloc (w_calls w)); cbn [negb]; [|by run_with Eb].
  set (w1 := with_copy _ w) in *.
  destruct (com_write_repr f q (Some (w_next w)) (Z.of_nat size) seq (w_mem w1) R Hw Hr) as (f' & E & Rf).
  exists f'. split; [|done]. run_with Eb. run_with (run_on_mem _ w1 _ _ E). rewrite set_mem_id.
  assert (w_ports w1 !! l = Some p) as Hp1 by done.
  by run_with (run_put_fifo w1 l p f' Hp1).
Qed.
End reception.

Lemma node_handle_token_spec_witness :
  exists f', cc_node_handle_token 21 (mp_enc (VUint 300)) 3 0 connected_world
    = Ok (CC_SUCCESS, set_ports (<[21%positive := set_port_fifo (Some f') local_in_port]> (w_ports connected_world))
                        (with_copy (mp_enc (VUint 300)) connected_world))
    /\ repr f' {| pending := []; unread := [{| tok_value := Some 100%positive; tok_size := 3 |}] |}.
Proof.
  exact (node_handle_token_spec connected_world 21 local_in_port
    (an_actor (str "actor-b") [21%positive] [] CC_ACTOR_ENABLED) (new_fifo 4) {| pending := []; unread := [] |}
    (mp_enc (VUint 300)) 3 0 eq_refl eq_refl eq_refl (new_fifo_repr 4 ltac:(lia)) eq_refl
    ltac:(apply Nat.leb_le; vm_compute; reflexivity)).
Defined.

(** ** Transmission through a tunnel *)

Section transmission.
Context `{P : Platform} `{MP : MsgPuck} `{L : !MsgPuckLaws MP}.

(** C3: a token goes to the tunnel.  An enabled out-port of a running actor sends
    its oldest unsent token through its tunnel in one frame that carries the
    sending runtime, the tunnel, both ports, the position of the token in the
    queue as its number and the value.  When the transport took the frame the
    token awaits its acknowledgement in the queue, otherwise it is still the
    next one to send; nothing else changes. *)
Theorem transmit_tunnel_sends_token (w : world) (l t : loc) (p : cc_port_t) (x : cc_tunnel_t)
  (a : cc_actor_t) (client : cc_transport_client_t) (f : cc_fifo_t) (tok : cc_token_t)
  (pend u : list cc_token_t) (v : mpval) (to from tid pname peer : bytes) :
  w_ports w !! l = Some p -> w_actors w !! port_actor p = Some a -> actor_state a = CC_ACTOR_ENABLED ->
  port_state p = CC_PORT_ENABLED -> port_direction p = CC_PORT_DIRECTION_OUT ->
  port_tunnel p = Some t -> w_tunnels w !! t = Some x ->
  node_transport_client (w_node w) = Some client -> tc_prefix_len client = 4%nat ->
  in_id to (port_peer_id p) -> in_id from (node_id (w_node w)) -> in_id tid (tunnel_id x) ->
  in_id pname (port_id p) -> in_id peer (port_peer_port_id p) ->
  port_fifo p = Some f -> repr f {| pending := pend; unread := tok :: u |} ->
  token_holds (w_mem w) tok v -> mp_wf v ->
  (4 + length (mp_enc (smap (token_kvs to from tid pname peer (tentative_read_pos f) v))) <= 1000)%nat ->
  exists frame f',
    cc_port_transmit l w
    = Ok (tt, set_ports (<[l := set_port_fifo (Some f') p]> (w_ports w))
               (set_sent (w_sent w ++ [frame]) (set_calls (S (w_calls w)) w)))
    /\ carries frame from tid pname peer (tentative_read_pos f) v
    /\ if plat_send (w_calls w) frame =? Z.of_nat (length frame)
       then repr f' {| pending := pend ++ [tok]; unread := u |}
       else repr f' {| pending := pend; unread := tok :: u |}.
Proof using L.
  intros Hp Ha Sa Sp Dp Tp Hx Hc Hpre Hto Hfrom Htid Hpn Hpeer Hf R Hv Hwf Hfit.
  destruct (cc_fifo_peek_repr f _ tok {| pending := pend ++ [tok]; unread := u |} w R eq_refl) as [_ R1].
  set (f1 := set_tentative_read_pos (tentative_read_pos f + 1) f) in *.
  set (w1 := set_ports (<[l := set_port_fifo (Some f1) p]> (w_ports w)) w).
  assert (w_ports w1 !! l = Some (set_port_fifo (Some f1) p)) as Hp1 by apply lookup_insert_eq.
  assert (is_u32 (tentative_read_pos f)) as Hseq.
  { destruct R as (H & _ & _). pose proof (ok_pos f H). unfold is_u32. lia. }
  destruct (send_token_run w1 l t (set_port_fifo (Some f1) p) x client tok v (tentative_read_pos f)
    to from tid pname peer Hc Hpre Hp1 Tp Hx Hto Hfrom Htid Hpn Hpeer Hv Hseq Hwf Hfit)
    as (frame & Es & C).
  exists frame, (if plat_send (w_calls w) frame =? Z.of_nat (length frame) then f1 else f).
  change (w_calls w1) with (w_calls w) in Es.
  set (sent := plat_send (w_calls w) frame =? Z.of_nat (length frame)) in *. split; [|split; [exact C|destruct sent; assumption]].
  unfold cc_port_transmit. run1. rewrite Sp, bool_decide_true by done. run1.
  rewrite Sa, Dp, !bool_decide_true by done. cbn [andb].
  run_with (run_get_fifo w l p f Hp Hf).
  rewrite (tokens_available_repr f _ R), bool_decide_false by done. unfold when, transmit_token. cbn [negb].
  run_with (run_get_fifo w l p f Hp Hf).
  run_with (run_com_peek f _ tok {| pending := pend ++ [tok]; unread := u |} w R eq_refl).
  cbv beta iota. run_with (run_put_fifo w l p f1 Hp). fold w1. run1.
  cbn [port_tunnel set_port_fifo]. rewrite Tp. run_with Es.
  destruct sent; [by rewrite bool_decide_true|]. rewrite bool_decide_false by done.
  set (w2 := set_sent _ _). assert (w_ports w2 !! l = Some (set_port_fifo (Some f1) p)) as Hp2 by done.
  run_with (run_get_fifo w2 l _ f1 Hp2 eq_refl). rewrite (run_put_fifo w2 l _ _ Hp2).
  do 2 f_equal. unfold cc_fifo_com_cancel_read, w2, w1. cbn [tentative_read_pos f1 set_tentative_read_pos].
  rewrite (proj2 (Z.leb_gt _ _)) by lia. cbn [andb w_ports set_sent set_calls set_ports].
  rewrite insert_insert_eq. by destruct f, p.
Qed.
End transmission.

(** The out-port of the example, connected through a tunnel. *)
Definition tunneled_port : cc_port_t :=
  set_port_fifo (Some sent_fifo) (set_port_tunnel (Some 2%positive) (set_port_peer_id the_peer_id
    (a_port (str "out-port") (str "token") (str "in-port") CC_PORT_DIRECTION_OUT CC_PORT_ENABLED 10))).
Definition token_world : world :=
  set_ports (<[20%positive := tunneled_port]> (w_ports connected_world)) connected_world.

Lemma transmit_tunnel_sends_token_witness :
  exists frame f',
    cc_port_transmit 20 token_world
    = Ok (tt, set_ports (<[20%positive := set_port_fifo (Some f') tunneled_port]> (w_ports token_world))
               (set_sent [frame] (set_calls 1 token_world)))
    /\ carries frame (str "node") (str "storage-id") (str "out-port") (str "in-port") 0 (VUint 300)
    /\ repr f' {| pending := [a_token]; unread := [] |}.
Proof.
  destruct (transmit_tunnel_sends_token token_world 20 2 tunneled_port
    (a_tunnel (str "storage-id") CC_TUNNEL_TYPE_STORAGE) (an_actor (str "actor-a") [] [20%positive] CC_ACTOR_ENABLED)
    the_client sent_fifo a_token [] [] (VUint 300)
    (str "peer") (str "node") (str "storage-id") (str "out-port") (str "in-port"))
    as (frame & f' & E & C & R); try reflexivity.
  1-5: apply in_id_id50; apply (bool_decide_unpack _); vm_compute; exact I.
  - apply sent_fifo_repr.
  - right. exists 50%positive. split; [reflexivity|]. split; reflexivity.
  - simpl. lia.
  - apply Nat.leb_le. vm_compute. reflexivity.
  - exists frame, f'. split; [exact E|]. split; [exact C|].
    cbn [plat_send quiet_platform] in R. rewrite Z.eqb_refl in R. exact R.
Defined.
