(* ===== verification/TokenProtocol.v ===== *)
(** The protocol of the tokens between an out-port and the in-port of another
    runtime: the queue operations of cc_fifo.c that [cc_port_transmit],
    [cc_node_handle_token] and [cc_node_handle_token_reply] call, over two
    channels that deliver in order, in any interleaving.

    A run is a list of events; an event that is not enabled changes nothing.  After the
    runs without a refusal come those with one, over the two ends as lists ([ends]). *)
From S2P Require Import Prelude CString MsgPuck Coder Fifo FifoSpec.

(** ** The two ends and the channels between them *)

Record net := {
  snd_q : cc_fifo_t; snd_m : mem;      (* the out-port's queue and its buffers *)
  rcv_q : cc_fifo_t; rcv_m : mem;      (* the in-port's *)
  fresh_at : loc;                      (* the next address of both allocators *)
  chan : list (Z * bytes);             (* TOKEN messages under way *)
  backchan : list (bool * Z);          (* TOKEN_REPLY messages under way: ACK or NACK *)
  produced : list bytes;               (* what the sending actor wrote *)
  delivered : list bytes;              (* what the receiving actor read *)
  refused : bool                       (* has a token been refused? *)
}.

Definition start (n k : Z) : net :=
  {| snd_q := new_fifo n; snd_m := ∅; rcv_q := new_fifo k; rcv_m := ∅; fresh_at := 1%positive;
     chan := []; backchan := []; produced := []; delivered := []; refused := false |}.

Inductive event :=
  | Produce (b : bytes)   (* the sending actor writes a token *)
  | Send                  (* the out-port transmits *)
  | Receive               (* the in-port gets the next token *)
  | Reply                 (* the out-port gets the next reply *)
  | Consume.              (* the receiving actor reads and commits *)

Definition step_produce (b : bytes) (s : net) : outcome net :=
  let m := <[fresh_at s := b]> (snd_m s) in
  '(r, f, m) ← cc_fifo_write (snd_q s) (Some (fresh_at s)) (Z.of_nat (length b)) m;
  if bool_decide (r = CC_SUCCESS) then
    Ok {| snd_q := f; snd_m := m; rcv_q := rcv_q s; rcv_m := rcv_m s; fresh_at := Pos.succ (fresh_at s);
          chan := chan s; backchan := backchan s; produced := produced s ++ [b];
          delivered := delivered s; refused := refused s |}
  else Ok s.

Definition step_send (s : net) : outcome net :=
  if cc_fifo_tokens_available (snd_q s) 1 then
    '(f, (t, seq), m) ← cc_fifo_com_peek (snd_q s) (snd_m s);
    '(b, m) ← (l ← need NullDeref (tok_value t); mem_read l) m;
    Ok {| snd_q := f; snd_m := m; rcv_q := rcv_q s; rcv_m := rcv_m s; fresh_at := fresh_at s;
          chan := chan s ++ [(seq, b)]; backchan := backchan s; produced := produced s;
          delivered := delivered s; refused := refused s |}
  else Ok s.

Definition step_receive (s : net) : outcome net :=
  match chan s with
  | [] => Ok s
  | (seq, b) :: rest =>
      ok ← cc_fifo_slots_available (rcv_q s) 1;
      if (ok : bool) then
        let m := <[fresh_at s := b]> (rcv_m s) in
        '(_, f, m) ← cc_fifo_com_write (rcv_q s) (Some (fresh_at s)) (Z.of_nat (length b)) seq m;
        Ok {| snd_q := snd_q s; snd_m := snd_m s; rcv_q := f; rcv_m := m; fresh_at := Pos.succ (fresh_at s);
              chan := rest; backchan := backchan s ++ [(true, seq)]; produced := produced s;
              delivered := delivered s; refused := refused s |}
      else
        Ok {| snd_q := snd_q s; snd_m := snd_m s; rcv_q := rcv_q s; rcv_m := rcv_m s; fresh_at := fresh_at s;
              chan := rest; backchan := backchan s ++ [(false, seq)]; produced := produced s;
              delivered := delivered s; refused := true |}
  end.

Definition step_reply (s : net) : outcome net :=
  match backchan s with
  | [] => Ok s
  | (ack, seq) :: rest =>
      '(f, m) ← (if ack : bool then cc_fifo_com_commit_read (snd_q s) seq (snd_m s)
                 else Ok (cc_fifo_com_cancel_read (snd_q s) seq, snd_m s));
      Ok {| snd_q := f; snd_m := m; rcv_q := rcv_q s; rcv_m := rcv_m s; fresh_at := fresh_at s;
            chan := chan s; backchan := rest; produced := produced s;
            delivered := delivered s; refused := refused s |}
  end.

Definition step_consume (s : net) : outcome net :=
  if cc_fifo_tokens_available (rcv_q s) 1 then
    '(f, t, m) ← cc_fifo_peek (rcv_q s) (rcv_m s);
    '(b, m) ← (l ← need NullDeref (tok_value t); mem_read l) m;
    '(f, m) ← cc_fifo_commit_read f true m;
    Ok {| snd_q := snd_q s; snd_m := snd_m s; rcv_q := f; rcv_m := m; fresh_at := fresh_at s;
          chan := chan s; backchan := backchan s; produced := produced s;
          delivered := delivered s ++ [b]; refused := refused s |}
  else Ok s.

Definition net_step (e : event) (s : net) : outcome net :=
  match e with
  | Produce b => step_produce b s | Send => step_send s | Receive => step_receive s
  | Reply => step_reply s | Consume => step_consume s
  end.

Fixpoint run_net (es : list event) (s : net) : outcome net :=
  match es with
  | [] => Ok s
  | e :: es => s' ← net_step e s; run_net es s'
  end.

(** ** Buffers owned by a queue *)

(** What a token holds. *)
Definition content (m : mem) (t : cc_token_t) : bytes := default [] (tok_value t ≫= (m !!.)).
Abbreviation contents m ts := (map (content m) ts).

(** The tokens hold live buffers of their own, all below the next address. *)
Definition owned (m : mem) (nx : loc) (ts : list cc_token_t) : Prop :=
  NoDup (map tok_value ts)
  /\ Forall (fun t => exists l, tok_value t = Some l /\ is_Some (m !! l) /\ (l < nx)%positive) ts.

Lemma owned_mono m nx nx' ts : owned m nx ts -> (nx <= nx')%positive -> owned m nx' ts.
Proof. intros [N F] L. split; [done|]. eapply Forall_impl; [exact F|]. intros t (l & ? & ? & ?). exists l. repeat split; try done. lia. Qed.

Lemma contents_fresh m nx b ts : owned m nx ts -> contents (<[nx := b]> m) ts = contents m ts.
Proof.
  intros [_ F]. apply map_ext_in. intros t Ht%list_elem_of_In.
  rewrite Forall_forall in F. destruct (F t Ht) as (l & E & _ & L). unfold content. rewrite E. simpl.
  rewrite lookup_insert_ne; [done|]. lia.
Qed.

Lemma owned_add m nx b n ts : owned m nx ts ->
  owned (<[nx := b]> m) (Pos.succ nx) (ts ++ [{| tok_value := Some nx; tok_size := n |}]).
Proof.
  intros [N F]. split.
  - rewrite map_app. apply NoDup_app. split; [done|]. split; [|apply NoDup_singleton].
    intros v Hv Hx. apply list_elem_of_singleton in Hx as ->.
    apply list_elem_of_In, in_map_iff in Hv as (t & E & Ht%list_elem_of_In).
    rewrite Forall_forall in F. destruct (F t Ht) as (l & E' & _ & L). simpl in E. simplify_eq. lia.
  - apply Forall_app. split.
    + eapply Forall_impl; [exact F|]. intros t (l & ? & ? & ?). exists l. repeat split; [done| |lia].
      rewrite lookup_insert_ne by lia. done.
    + repeat constructor. exists nx. repeat split; [|lia]. by rewrite lookup_insert_eq.
Qed.

Lemma owned_drop m nx t ts l : owned m nx (t :: ts) -> tok_value t = Some l ->
  owned (delete l m) nx ts /\ contents (delete l m) ts = contents m ts.
Proof.
  intros [N F] E. simpl in N. apply NoDup_cons in N as [Nl N]. apply Forall_cons in F as [_ F].
  assert (forall u k, u ∈ ts -> tok_value u = Some k -> l <> k) as D.
  { intros u k Hu Ek ->. apply Nl. rewrite E, <- Ek. apply list_elem_of_In, List.in_map, list_elem_of_In, Hu. }
  rewrite Forall_forall in F. split; [split; [done|]|].
  - apply Forall_forall. intros u Hu. destruct (F u Hu) as (k & Ek & Hk & L). exists k.
    repeat split; [done| |done]. rewrite lookup_delete_ne by eauto. done.
  - apply map_ext_in. intros u Hu%list_elem_of_In. destruct (F u Hu) as (k & Ek & _). unfold content.
    rewrite Ek. simpl. by rewrite lookup_delete_ne by eauto.
Qed.

Lemma owned_head m nx t ts : owned m nx (t :: ts) ->
  exists l b, tok_value t = Some l /\ m !! l = Some b /\ content m t = b.
Proof.
  intros [_ F]. apply Forall_cons in F as [(l & E & [b Hb] & _) _]. exists l, b.
  repeat split; [done|done|]. unfold content. by rewrite E; simpl; rewrite Hb.
Qed.

(** ** Steps that take place *)

Lemma step_send_run s pend t u nx : repr (snd_q s) {| pending := pend; unread := t :: u |} ->
  owned (snd_m s) nx (t :: u) ->
  let f := set_tentative_read_pos (tentative_read_pos (snd_q s) + 1) (snd_q s) in
  repr f {| pending := pend ++ [t]; unread := u |}
  /\ step_send s = Ok {| snd_q := f; snd_m := snd_m s; rcv_q := rcv_q s; rcv_m := rcv_m s;
       fresh_at := fresh_at s; chan := chan s ++ [(tentative_read_pos (snd_q s), content (snd_m s) t)];
       backchan := backchan s; produced := produced s; delivered := delivered s; refused := refused s |}.
Proof.
  intros R Ou f. destruct (owned_head _ _ _ _ Ou) as (l & b & El & Eb & Ec).
  split; [by apply (cc_fifo_peek_repr (snd_q s) _ t _ (snd_m s) R)|]. unfold step_send.
  rewrite (tokens_available_repr _ _ R). cbn [negb bool_decide].
  rewrite bool_decide_false by done. cbn [negb].
  rewrite (run_com_peek (snd_q s) _ t {| pending := pend ++ [t]; unread := u |} (snd_m s) R eq_refl).
  cbn [mbind outcome_bind]. rewrite El, (bind_Ok _ _ _ l (snd_m s)) by done.
  unfold mem_read. rewrite (bind_Ok _ _ _ (snd_m s) (snd_m s)) by done. rewrite Eb. simpl. by rewrite Ec.
Qed.

(** The oldest token in flight is acknowledged: its buffer is freed. *)
Lemma step_ack_run s t pend u nx rest : repr (snd_q s) {| pending := t :: pend; unread := u |} ->
  owned (snd_m s) nx (t :: pend ++ u) -> backchan s = (true, read_pos (snd_q s)) :: rest ->
  exists f m, repr f {| pending := pend; unread := u |} /\ read_pos f = read_pos (snd_q s) + 1
  /\ write_pos f = write_pos (snd_q s) /\ tentative_read_pos f = tentative_read_pos (snd_q s)
  /\ owned m nx (pend ++ u) /\ contents m (pend ++ u) = contents (snd_m s) (pend ++ u)
  /\ step_reply s = Ok {| snd_q := f; snd_m := m; rcv_q := rcv_q s; rcv_m := rcv_m s;
       fresh_at := fresh_at s; chan := chan s; backchan := rest; produced := produced s;
       delivered := delivered s; refused := refused s |}.
Proof.
  intros R Os Eb. pose proof (ok_pos _ (proj1 R)) as Hp.
  assert (read_pos (snd_q s) < tentative_read_pos (snd_q s) /\ slot (snd_q s) (read_pos (snd_q s)) = t) as [L Et].
  { destruct R as (_ & Hq & _). simpl in Hq.
    destruct (Z_lt_ge_dec (read_pos (snd_q s)) (tentative_read_pos (snd_q s))).
    - rewrite window_cons in Hq by lia. by injection Hq as -> _.
    - replace (tentative_read_pos (snd_q s)) with (read_pos (snd_q s)) in Hq by lia. by rewrite window_empty in Hq. }
  destruct (owned_head _ _ _ _ Os) as (l & b & El & Ebl & _).
  destruct (owned_drop _ _ _ _ _ Os El) as [Od Cd].
  destruct (com_commit_read_run (snd_q s) _ (read_pos (snd_q s)) (snd_m s) R) as (f' & m' & E & F).
  { unfold is_u32. lia. }
  { intros v Ev. rewrite Et, El in Ev. simplify_eq. eauto. }
  rewrite bool_decide_true in F by done. destruct F as (R' & Er & ->). rewrite Et, El in E.
  assert (write_pos f' = write_pos (snd_q s) /\ tentative_read_pos f' = tentative_read_pos (snd_q s)) as [Ew Etr].
  { unfold cc_fifo_com_commit_read in E. destruct (Z.leb_spec (tentative_read_pos (snd_q s)) (read_pos (snd_q s)));
      [lia|]. destruct (_ && _); [|by cbv in E; simplify_eq].
    apply bind_inv in E as ([i x] & s1 & _ & E). apply bind_inv in E as (y & s2 & _ & E).
    cbv [mret M_ret] in E. by simplify_eq. }
  exists f', (delete l (snd_m s)). repeat (split; [done|]). unfold step_reply. rewrite Eb, E. done.
Qed.

Lemma step_consume_run s t u nx : repr (rcv_q s) {| pending := []; unread := t :: u |} ->
  owned (rcv_m s) nx (t :: u) ->
  exists f m, repr f {| pending := []; unread := u |} /\ write_pos f = write_pos (rcv_q s)
  /\ fifo_size f = fifo_size (rcv_q s) /\ owned m nx u /\ contents m u = contents (rcv_m s) u
  /\ step_consume s = Ok {| snd_q := snd_q s; snd_m := snd_m s; rcv_q := f; rcv_m := m;
       fresh_at := fresh_at s; chan := chan s; backchan := backchan s; produced := produced s;
       delivered := delivered s ++ [content (rcv_m s) t]; refused := refused s |}.
Proof.
  intros R0 Or. destruct (owned_head _ _ _ _ Or) as (l & b & El & Eb & Ec).
  destruct (owned_drop _ _ _ _ _ Or El) as [Od Cd].
  destruct (cc_fifo_peek_repr (rcv_q s) _ t {| pending := [t]; unread := u |} (rcv_m s) R0 eq_refl) as [Ek R].
  assert (slot (rcv_q s) (read_pos (rcv_q s)) = t) as Et.
  { destruct R as (H & Hq & _). pose proof (ok_pos _ H) as Hp. destruct R0 as (H0 & Hq0 & _).
    pose proof (ok_pos _ H0). simpl in *.
    destruct (Z.eq_dec (read_pos (rcv_q s)) (tentative_read_pos (rcv_q s))) as [Eq|].
    2: { by rewrite window_cons in Hq0 by lia. }
    rewrite window_cons in Hq by (simpl; lia). injection Hq as Hq _. by rewrite Hq. }
  destruct (commit_read_free _ _ l b (rcv_m s) R ltac:(done)) as (f' & E & Es & Ew & R').
  { change (tok_value (slot (rcv_q s) (read_pos (rcv_q s))) = Some l). by rewrite <- El, <- Et. }
  { done. }
  exists f', (delete l (rcv_m s)). repeat (split; [done|]). unfold step_consume.
  rewrite (tokens_available_repr _ _ R0), bool_decide_false by done. cbn [negb]. rewrite Ek.
  cbn [mbind outcome_bind]. rewrite El, (bind_Ok _ _ _ l (rcv_m s)) by done.
  unfold mem_read. rewrite (bind_Ok _ _ _ (rcv_m s) (rcv_m s)) by done. rewrite Eb. cbn [need mret M_ret].
  unfold mret, M_ret. cbn [mbind outcome_bind]. rewrite E. cbn [mbind outcome_bind]. by rewrite Ec.
Qed.

(** ** The invariant of the runs without a refusal *)

Record inv (s : net) (qs qr : aqueue) : Prop := {
  i_snd : repr (snd_q s) qs;
  i_rcv : repr (rcv_q s) qr;
  i_own_s : owned (snd_m s) (fresh_at s) (aq_all qs);
  i_own_r : owned (rcv_m s) (fresh_at s) (aq_all qr);
  i_read : pending qr = [];
  i_chan : map fst (chan s) = seqZ (write_pos (rcv_q s)) (Z.of_nat (length (chan s)));
  i_sent : write_pos (rcv_q s) + Z.of_nat (length (chan s)) = tentative_read_pos (snd_q s);
  i_back : backchan s
           = map (pair true) (seqZ (read_pos (snd_q s)) (Z.of_nat (length (backchan s))));
  i_acked : read_pos (snd_q s) + Z.of_nat (length (backchan s)) = write_pos (rcv_q s);
  i_count : write_pos (snd_q s) = Z.of_nat (length (produced s));
  i_order : produced s = delivered s ++ contents (rcv_m s) (unread qr)
                         ++ map snd (chan s) ++ contents (snd_m s) (unread qs);
  i_kept : contents (snd_m s) (aq_all qs) = drop (Z.to_nat (read_pos (snd_q s))) (produced s)
}.

(** The state after a step either keeps the invariant or has refused a token. *)
Definition good (s : net) : Prop := exists qs qr, inv s qs qr.

Lemma start_good n k : 0 < n < 2 ^ 32 -> 0 < k < 2 ^ 32 -> good (start n k).
Proof.
  intros Hn Hk. exists {| pending := []; unread := [] |}, {| pending := []; unread := [] |}.
  split; simpl; try done; try (by apply new_fifo_repr); split; constructor.
Qed.

Lemma owned_unread m nx q : owned m nx (aq_all q) -> owned m nx (unread q).
Proof.
  unfold aq_all, owned. rewrite map_app, Forall_app. intros [N [_ F]]. split; [|done].
  by apply NoDup_app in N as (_ & _ & ?).
Qed.

Lemma produce_good b s : good s -> Z.of_nat (length (produced s)) + 1 < 2 ^ 32 ->
  exists s', step_produce b s = Ok s' /\ good s' /\ refused s' = refused s
    /\ (length (produced s') <= S (length (produced s)))%nat.
Proof.
  intros (qs & qr & I) Hb. pose proof (i_count s qs qr I) as Hc. unfold step_produce.
  set (t := {| tok_value := Some (fresh_at s); tok_size := Z.of_nat (length b) |}).
  assert (content (<[fresh_at s := b]> (snd_m s)) t = b) as Ht.
  { unfold content. simpl. by rewrite lookup_insert_eq. }
  destruct (Z_lt_ge_dec (Z.of_nat (length (aq_all qs))) (fifo_size (snd_q s) - 1)) as [Hr|Hr].
  - destruct (cc_fifo_write_room (snd_q s) qs (Some (fresh_at s)) (Z.of_nat (length b))
      (<[fresh_at s := b]> (snd_m s)) (i_snd _ _ _ I) ltac:(lia) Hr) as (f' & E & R & E1 & E2 & E3).
    rewrite E. cbn [mbind outcome_bind]. rewrite bool_decide_true by done.
    eexists. split; [done|]. split; [|split; [done|simpl; rewrite length_app; simpl; lia]].
    exists {| pending := pending qs; unread := unread qs ++ [t] |}, qr.
    destruct I as [Is Ir Os Or Ip Ic Ie Ib Ia In Io Ik]. split; simpl; try done; try congruence.
    + unfold aq_all. simpl. rewrite app_assoc. by apply owned_add.
    + eapply owned_mono; [done|]. lia.
    + rewrite E1, Hc, length_app. simpl. lia.
    + rewrite Io, map_app, (contents_fresh _ _ _ _ (owned_unread _ _ _ Os)). simpl.
      fold t. rewrite Ht. by rewrite <- !app_assoc.
    + unfold aq_all in *. simpl. rewrite app_assoc, map_app, (contents_fresh _ _ _ _ Os), Ik, E2. simpl.
      rewrite Ht. pose proof (ok_pos _ (proj1 Is)). by rewrite drop_app_le by lia.
  - rewrite (cc_fifo_write_full _ qs) by (apply I || lia). cbn [mbind outcome_bind].
    rewrite bool_decide_false by done. exists s. split; [done|]. split; [by exists qs, qr|]. split; [done|lia].
Qed.

Lemma send_good s : good s ->
  exists s', step_send s = Ok s' /\ good s' /\ refused s' = refused s /\ produced s' = produced s.
Proof.
  intros (qs & qr & I). destruct qs as [pend [|t u]].
  { exists s. unfold step_send. rewrite (tokens_available_repr _ _ (i_snd _ _ _ I)).
    split; [done|]. split; [by eexists _, qr|done]. }
  pose proof (i_own_s _ _ _ I) as Os. pose proof (owned_unread _ _ _ Os) as Ou. simpl in Ou.
  destruct (step_send_run s pend t u _ (i_snd _ _ _ I) Ou) as [R E]. rewrite E.
  eexists. split; [done|]. split; [|done].
  exists {| pending := pend ++ [t]; unread := u |}, qr.
  destruct I as [Is Ir Os' Or Ip Ic Ie Ib Ia In Io Ik]. split; simpl in *; try done.
  - unfold aq_all in *. simpl in *. by rewrite <- app_assoc.
  - rewrite map_app, Ic, length_app. simpl. rewrite Nat2Z.inj_add, seqZ_app by lia. simpl.
    do 2 f_equal. rewrite Ie. done.
  - rewrite length_app. simpl. lia.
  - rewrite Io, map_app. simpl. by rewrite <- !app_assoc.
  - rewrite <- Ik. unfold aq_all. simpl. by rewrite <- app_assoc.
Qed.

Lemma receive_good s : good s -> Z.of_nat (length (produced s)) + 1 < 2 ^ 32 ->
  exists s', step_receive s = Ok s' /\ produced s' = produced s
    /\ (refused s' = true \/ good s' /\ refused s' = refused s).
Proof.
  intros (qs & qr & I) Hb. unfold step_receive. destruct (chan s) as [|[seq b] rest] eqn:Ec.
  { exists s. split; [done|]. split; [done|]. right. split; [by exists qs, qr|done]. }
  pose proof (i_count _ _ _ I) as Hc. pose proof (i_sent _ _ _ I) as He. rewrite Ec in He. simpl in He.
  pose proof (ok_pos _ (proj1 (i_snd _ _ _ I))).
  pose proof (i_chan _ _ _ I) as Hs. rewrite Ec in Hs. simpl in Hs.
  rewrite seqZ_cons in Hs by lia. injection Hs as Hseq Hs.
  rewrite (slots_available_repr _ qr) by apply I. cbn [mbind outcome_bind].
  destruct (Z.ltb_spec (Z.of_nat (length (aq_all qr))) (fifo_size (rcv_q s) - 1)) as [Hr|].
  2: { eexists. split; [done|]. split; [done|]. by left. }
  set (t := {| tok_value := Some (fresh_at s); tok_size := Z.of_nat (length b) |}).
  assert (content (<[fresh_at s := b]> (rcv_m s)) t = b) as Ht.
  { unfold content. simpl. by rewrite lookup_insert_eq. }
  destruct (cc_fifo_write_room (rcv_q s) qr (Some (fresh_at s)) (Z.of_nat (length b))
    (<[fresh_at s := b]> (rcv_m s)) (i_rcv _ _ _ I) ltac:(lia) Hr) as (f' & E & R & E1 & E2 & E3).
  unfold cc_fifo_com_write. rewrite (proj2 (Z.leb_le _ _)) by lia.
  rewrite (bind_Ok _ _ _ _ _ E). cbn [mbind outcome_bind mret M_ret].
  eexists. split; [done|]. split; [done|]. right. split; [|done].
  exists qs, {| pending := pending qr; unread := unread qr ++ [t] |}.
  destruct I as [Is Ir Os Or Ip Ic Ie Ib Ia In Io Ik]. split; simpl; try done; try congruence.
  - eapply owned_mono; [done|]. lia.
  - unfold aq_all. simpl. rewrite app_assoc. by apply owned_add.
  - rewrite E1, Hs. f_equal; lia.
  - lia.
  - rewrite length_app. simpl. rewrite Nat2Z.inj_add, seqZ_app, map_app, <- Ib by lia. simpl. by rewrite Ia, <- Hseq.
  - rewrite length_app. simpl. lia.
  - rewrite Io, Ec, map_app, (contents_fresh _ _ _ _ (owned_unread _ _ _ Or)). simpl. fold t. rewrite Ht.
    by rewrite <- !app_assoc.
Qed.

Lemma reply_good s : good s ->
  exists s', step_reply s = Ok s' /\ good s' /\ refused s' = refused s /\ produced s' = produced s.
Proof.
  intros (qs & qr & I). destruct (backchan s) as [|[ack seq] rest] eqn:Eb.
  { exists s. unfold step_reply. rewrite Eb. repeat split; by exists qs, qr. }
  pose proof (i_back _ _ _ I) as Hs. rewrite Eb in Hs. simpl in Hs. rewrite seqZ_cons in Hs by lia.
  injection Hs as -> -> Hs.
  pose proof (i_acked _ _ _ I) as Ha. rewrite Eb in Ha. simpl in Ha.
  pose proof (i_sent _ _ _ I) as He. pose proof (ok_pos _ (proj1 (i_snd _ _ _ I))) as Hp.
  assert (exists t pend, pending qs = t :: pend) as (t & pend & Ep).
  { destruct (i_snd _ _ _ I) as (_ & Hq & _). rewrite Hq, window_cons by lia. eauto. }
  destruct qs as [pp u]. simpl in Ep. subst pp.
  destruct (step_ack_run s t pend u _ rest (i_snd _ _ _ I) (i_own_s _ _ _ I) Eb)
    as (f & m & R & Er & Ew & Etr & Od & Cd & E). rewrite E.
  eexists. split; [done|]. split; [|done]. exists {| pending := pend; unread := u |}, qr.
  destruct I as [Is Ir Os' Or Ip Ic Ie Ib Ia In Io Ik]. split; simpl in *; try done; try congruence.
  - rewrite Er. rewrite Hs at 1. do 2 f_equal; lia.
  - lia.
  - rewrite Io. rewrite !map_app in Cd. apply app_inj_1 in Cd as [_ ->]; [done|].
    by rewrite !length_map.
  - unfold aq_all in *. simpl in *. rewrite Cd, Er, Z2Nat.inj_add, <- drop_drop, <- Ik by lia. done.
Qed.

Lemma consume_good s : good s ->
  exists s', step_consume s = Ok s' /\ good s' /\ refused s' = refused s /\ produced s' = produced s.
Proof.
  intros (qs & qr & I). destruct qr as [pend u]. pose proof (i_read _ _ _ I) as Ip. simpl in Ip. subst pend.
  destruct u as [|t u].
  { exists s. unfold step_consume. rewrite (tokens_available_repr _ _ (i_rcv _ _ _ I)).
    split; [done|]. split; [by eexists qs, _|done]. }
  destruct (step_consume_run s t u _ (i_rcv _ _ _ I) (i_own_r _ _ _ I)) as (f & m & R & Ew & _ & Od & Cd & E).
  rewrite E. eexists. split; [done|]. split; [|done]. exists qs, {| pending := []; unread := u |}.
  destruct I as [Is Ir Os Or' Ip' Ic Ie Ib Ia In Io Ik]. split; simpl in *; try done; try congruence.
  rewrite Io, Cd. simpl. by rewrite <- app_assoc.
Qed.

(** ** Runs *)

Definition is_produce (e : event) : bool := match e with Produce _ => true | _ => false end.
Definition produces (es : list event) : Z := Z.of_nat (length (List.filter is_produce es)).

Lemma produces_cons e es : produces (e :: es) = Z.b2z (is_produce e) + produces es.
Proof. unfold produces. simpl. destruct (is_produce e); simpl; lia. Qed.

Lemma step_good e s : good s -> Z.of_nat (length (produced s)) + 1 < 2 ^ 32 ->
  exists s', net_step e s = Ok s'
    /\ Z.of_nat (length (produced s')) <= Z.of_nat (length (produced s)) + Z.b2z (is_produce e)
    /\ (refused s' = true \/ good s' /\ refused s' = refused s).
Proof.
  intros H Hb. destruct e as [b| | | |]; simpl.
  - destruct (produce_good b s H Hb) as (s' & E & G & R & L). exists s'. split; [done|]. split; [simpl; lia|]. by right.
  - destruct (send_good s H) as (s' & E & G & R & Ep). exists s'. rewrite Ep. split; [done|]. split; [simpl; lia|]. by right.
  - destruct (receive_good s H Hb) as (s' & E & Ep & R). exists s'. rewrite Ep. split; [done|]. split; [simpl; lia|]. done.
  - destruct (reply_good s H) as (s' & E & G & R & Ep). exists s'. rewrite Ep. split; [done|]. split; [simpl; lia|]. by right.
  - destruct (consume_good s H) as (s' & E & G & R & Ep). exists s'. rewrite Ep. split; [done|]. split; [simpl; lia|]. by right.
Qed.

(** Once refused, always refused. *)
Lemma refused_step e s s' : refused s = true -> net_step e s = Ok s' -> refused s' = true.
Proof.
  intros H. destruct e; simpl; unfold step_produce, step_send, step_receive, step_reply, step_consume;
    cbv [mbind outcome_bind]; intros E; repeat case_match; simplify_eq; done.
Qed.

Lemma refused_run es : forall s s', refused s = true -> run_net es s = Ok s' -> refused s' = true.
Proof.
  induction es as [|e es IH]; simpl; intros s s' H E; [by simplify_eq|].
  destruct (net_step e s) as [s1|] eqn:E1; simpl in E; [|done].
  eapply IH; [|exact E]. by eapply refused_step.
Qed.

(** A run stays good until a refusal, and meets undefined behaviour only after one. *)
Lemma run_good es : forall s, good s -> refused s = false ->
  Z.of_nat (length (produced s)) + produces es + 1 < 2 ^ 32 ->
  match run_net es s with
  | Ok s' => refused s' = true \/ good s'
  | Ub _ => exists es1 es2 s1, es = es1 ++ es2 /\ run_net es1 s = Ok s1 /\ refused s1 = true
  end.
Proof.
  induction es as [|e es IH]; intros s G R Hb; [by right|].
  rewrite produces_cons in Hb. assert (0 <= produces es) by (unfold produces; lia).
  assert (0 <= Z.b2z (is_produce e)) by (by destruct e).
  destruct (step_good e s G ltac:(lia)) as (s1 & E & L & H1). simpl. rewrite E. cbn [mbind outcome_bind].
  destruct H1 as [R1|[G1 R1]].
  - destruct (run_net es s1) as [s2|u] eqn:E2.
    + left. by eapply refused_run.
    + exists [e], es, s1. simpl. by rewrite E.
  - specialize (IH s1 G1 ltac:(congruence) ltac:(lia)). destruct (run_net es s1) as [s2|u]; [done|].
    destruct IH as (es1 & es2 & s2 & -> & E2 & R2). exists (e :: es1), es2, s2. simpl. by rewrite E.
Qed.

(** C1: the delivery of tokens.  Whatever the sizes of the two queues and however
    the events of the two runtimes interleave, as long as no token has been
    refused (and fewer than 2^32 - 1 were produced): no operation meets undefined
    behaviour, every byte string the receiving actor has read is the next one
    the sending actor wrote, those under way are the rest in order, and when
    nothing is under way or queued everything produced has been delivered,
    exactly once. *)
Theorem tokens_delivered_in_order (n k : Z) (es : list event) :
  0 < n < 2 ^ 32 -> 0 < k < 2 ^ 32 -> produces es < 2 ^ 32 - 1 ->
  match run_net es (start n k) with
  | Ok s => refused s = false ->
      (exists queued waiting, produced s = delivered s ++ queued ++ map snd (chan s) ++ waiting)
      /\ (chan s = [] -> cc_fifo_tokens_available (snd_q s) 1 = false ->
          cc_fifo_tokens_available (rcv_q s) 1 = false -> delivered s = produced s)
  | Ub _ => exists es1 es2 s1,
      es = es1 ++ es2 /\ run_net es1 (start n k) = Ok s1 /\ refused s1 = true
  end.
Proof.
  intros Hn Hk Hb. pose proof (run_good es (start n k) (start_good n k Hn Hk) eq_refl ltac:(simpl; lia)) as H.
  destruct (run_net es (start n k)) as [s|u]; [|done]. intros R. destruct H as [|(qs & qr & I)]; [congruence|].
  split; [eexists _, _; apply I|]. intros Hc Hs Hr. pose proof (i_order _ _ _ I) as Ho.
  rewrite (tokens_available_repr _ qs) in Hs by apply I. rewrite (tokens_available_repr _ qr) in Hr by apply I.
  apply negb_false_iff, bool_decide_eq_true in Hs, Hr. rewrite Hc, Hs, Hr in Ho. simpl in Ho.
  by rewrite !app_nil_r in Ho.
Qed.

Definition a_run : list event :=
  [Produce (str "a"); Send; Produce (str "b"); Receive; Send; Consume; Receive; Reply; Consume].

Lemma tokens_delivered_in_order_witness :
  match run_net a_run (start 4 4) with
  | Ok s => refused s = false /\ delivered s = [str "a"; str "b"] /\ delivered s = produced s
  | Ub _ => False
  end.
Proof.
  pose proof (tokens_delivered_in_order 4 4 a_run ltac:(lia) ltac:(lia) ltac:(vm_compute; reflexivity)) as H.
  destruct (run_net a_run (start 4 4)) as [s|u] eqn:E; vm_compute in E; [|discriminate].
  injection E as <-. split; [reflexivity|]. split; [reflexivity|].
  exact (proj2 (H eq_refl) eq_refl eq_refl eq_refl).
Defined.

(** ** The two ends as lists *)

(** What a net holds, with the tokens as byte strings: those sent and not acknowledged
    from the number [acked] on, those waiting to be sent, those stored by the receiver
    up to the number [stored], and what is on the channels. *)
Record ends := Ends {
  acked : Z; flight : list bytes; waiting : list bytes;
  stored : Z; held : list bytes; room : Z;
  under_way : list (Z * bytes); replies : list (bool * Z); given : list bytes; made : list bytes
}.

Record shows (x : ends) (s : net) (qs qr : aqueue) : Prop := {
  sh_snd : repr (snd_q s) qs;
  sh_rcv : repr (rcv_q s) qr;
  sh_own_s : owned (snd_m s) (fresh_at s) (aq_all qs);
  sh_own_r : owned (rcv_m s) (fresh_at s) (aq_all qr);
  sh_read : pending qr = [];
  sh_acked : read_pos (snd_q s) = acked x;
  sh_flight : contents (snd_m s) (pending qs) = flight x;
  sh_waiting : contents (snd_m s) (unread qs) = waiting x;
  sh_stored : write_pos (rcv_q s) = stored x;
  sh_held : contents (rcv_m s) (unread qr) = held x;
  sh_room : fifo_size (rcv_q s) - 1 = room x;
  sh_chan : chan s = under_way x;
  sh_back : backchan s = replies x;
  sh_given : delivered s = given x;
  sh_made : produced s = made x
}.

(** From any net that shows [x] the events lead to one that shows [y]. *)
Definition leads (es : list event) (x y : ends) : Prop :=
  forall s qs qr, shows x s qs qr -> exists s' qs' qr', run_net es s = Ok s' /\ shows y s' qs' qr'.

Lemma run_net_app es es' s : run_net (es ++ es') s = (s' ← run_net es s; run_net es' s').
Proof.
  revert s. induction es as [|e es IH]; intros s; [done|]. cbn [run_net app].
  destruct (net_step e s) as [s1|]; [|done]. cbn [mbind outcome_bind]. by rewrite IH.
Qed.

Lemma leads_app es es' x y z : leads es x y -> leads es' y z -> leads (es ++ es') x z.
Proof.
  intros H1 H2 s qs qr H. destruct (H1 s qs qr H) as (s1 & qs1 & qr1 & E1 & S1).
  destruct (H2 s1 qs1 qr1 S1) as (s2 & qs2 & qr2 & E2 & S2). exists s2, qs2, qr2. split; [|done].
  by rewrite run_net_app, E1.
Qed.
Lemma leads_cons e es x y z : leads [e] x y -> leads es y z -> leads (e :: es) x z.
Proof. apply (leads_app [e] es). Qed.

Lemma leads_one e x y : (forall s qs qr, shows x s qs qr ->
  exists s' qs' qr', net_step e s = Ok s' /\ shows y s' qs' qr') -> leads [e] x y.
Proof.
  intros H s qs qr Hs. destruct (H s qs qr Hs) as (s' & qs' & qr' & E & S). exists s', qs', qr'.
  split; [|done]. cbn [run_net]. by rewrite E.
Qed.

Lemma owned_fresh m nx b ts : owned m nx ts -> owned (<[nx := b]> m) (Pos.succ nx) ts.
Proof.
  intros [N F]. split; [done|]. eapply Forall_impl; [exact F|]. intros t (l & E & H & L). exists l.
  split; [done|]. split; [by rewrite lookup_insert_ne by lia|lia].
Qed.

Section ends.
Context (a st ro : Z) (fl wa he : list bytes) (ch : list (Z * bytes)) (bk : list (bool * Z)) (de pr : list bytes).

Lemma leads_refuse i b : ro <= Z.of_nat (length he) ->
  leads [Receive] (Ends a fl wa st he ro ((i, b) :: ch) bk de pr)
    (Ends a fl wa st he ro ch (bk ++ [(false, i)]) de pr).
Proof.
  intros Hr. apply leads_one. intros s qs qr []. simpl in *. unfold step_receive.
  rewrite sh_chan0, (slots_available_repr _ qr) by done. cbn [mbind outcome_bind].
  rewrite (proj2 (Z.ltb_ge _ _)).
  - eexists _, qs, qr. split; [done|]. split; simpl; try done. by rewrite sh_back0.
  - rewrite <- sh_held0, length_map in Hr. unfold aq_all. by rewrite sh_read0, sh_room0.
Qed.

Lemma leads_store i b : Z.of_nat (length he) < ro -> st <= i -> st + 1 < 2 ^ 32 ->
  leads [Receive] (Ends a fl wa st he ro ((i, b) :: ch) bk de pr)
    (Ends a fl wa (st + 1) (he ++ [b]) ro ch (bk ++ [(true, i)]) de pr).
Proof.
  intros Hr Hi Hs. apply leads_one. intros s qs qr []. simpl in *. unfold step_receive.
  assert (Z.of_nat (length (aq_all qr)) < fifo_size (rcv_q s) - 1) as Hr'.
  { rewrite <- sh_held0, length_map in Hr. unfold aq_all. rewrite sh_read0. simpl. lia. }
  rewrite sh_chan0, (slots_available_repr _ qr), (proj2 (Z.ltb_lt _ _) Hr') by done. cbn [mbind outcome_bind].
  set (m := <[fresh_at s := b]> (rcv_m s)).
  set (t := {| tok_value := Some (fresh_at s); tok_size := Z.of_nat (length b) |}).
  destruct (cc_fifo_write_room (rcv_q s) qr (Some (fresh_at s)) (Z.of_nat (length b)) m sh_rcv0 ltac:(lia) Hr')
    as (f' & E & R & E1 & E2 & E3).
  assert (fifo_size f' = fifo_size (rcv_q s)) as Es.
  { destruct (cc_fifo_write_repr (rcv_q s) qr (Some (fresh_at s)) (Z.of_nat (length b)) m sh_rcv0 ltac:(lia))
      as (f2 & E' & Es & _). rewrite E in E'. by simplify_eq. }
  unfold cc_fifo_com_write. rewrite (proj2 (Z.leb_le _ _)) by lia. rewrite (bind_Ok _ _ _ _ _ E).
  cbn [mbind outcome_bind mret M_ret]. eexists _, qs, {| pending := []; unread := unread qr ++ [t] |}.
  split; [done|]. rewrite sh_read0 in R. split; simpl; try done; try congruence.
  - eapply owned_mono; [done|]. lia.
  - unfold aq_all in *. simpl. rewrite sh_read0 in sh_own_r0. by apply owned_add.
  - rewrite map_app. unfold m. rewrite (contents_fresh _ _ _ _ (owned_unread _ _ _ sh_own_r0)), sh_held0.
    f_equal. simpl. unfold content, t. simpl. by rewrite lookup_insert_eq.
Qed.

(** A number already passed is acknowledged, and nothing is stored. *)
Lemma leads_repeat i b : Z.of_nat (length he) < ro -> i < st ->
  leads [Receive] (Ends a fl wa st he ro ((i, b) :: ch) bk de pr)
    (Ends a fl wa st he ro ch (bk ++ [(true, i)]) de pr).
Proof.
  intros Hr Hi. apply leads_one. intros s qs qr []. simpl in *. unfold step_receive.
  rewrite sh_chan0, (slots_available_repr _ qr) by done. cbn [mbind outcome_bind].
  rewrite (proj2 (Z.ltb_lt _ _)).
  2: { rewrite <- sh_held0, length_map in Hr. unfold aq_all. rewrite sh_read0. simpl. lia. }
  unfold cc_fifo_com_write. rewrite (proj2 (Z.leb_gt _ _)) by lia. cbn [mbind outcome_bind mret M_ret].
  eexists _, qs, qr. split; [done|]. split; simpl; try done; try congruence.
  - eapply owned_mono; [done|]. lia.
  - by apply owned_fresh.
  - by rewrite (contents_fresh _ _ _ _ (owned_unread _ _ _ sh_own_r0)).
Qed.

(** The oldest token is refused: all that was sent will be sent again. *)
Lemma leads_nack : leads [Reply] (Ends a fl wa st he ro ch ((false, a) :: bk) de pr)
  (Ends a [] (fl ++ wa) st he ro ch bk de pr).
Proof.
  apply leads_one. intros s qs qr []. simpl in *. unfold step_reply. rewrite sh_back0.
  cbn [mbind outcome_bind]. pose proof (ok_pos _ (proj1 sh_snd0)) as Hp.
  assert (cc_fifo_com_cancel_read (snd_q s) a = cc_fifo_cancel (snd_q s)) as ->.
  { unfold cc_fifo_com_cancel_read. rewrite (proj2 (Z.ltb_ge a _)), andb_false_r by lia.
    unfold cc_fifo_cancel. by rewrite sh_acked0. }
  eexists _, (aq_cancel qs), qr. split; [done|]. split; simpl; try done.
  - by apply cc_fifo_cancel_repr.
  - unfold aq_all. by rewrite map_app, sh_flight0, sh_waiting0.
Qed.

(** An acknowledgement of what is not in flight is not taken. *)
Lemma leads_late i : i <> a \/ fl = [] ->
  leads [Reply] (Ends a fl wa st he ro ch ((true, i) :: bk) de pr) (Ends a fl wa st he ro ch bk de pr).
Proof.
  intros Hi. apply leads_one. intros s qs qr []. simpl in *. unfold step_reply. rewrite sh_back0.
  exists {| snd_q := snd_q s; snd_m := snd_m s; rcv_q := rcv_q s; rcv_m := rcv_m s; fresh_at := fresh_at s;
    chan := chan s; backchan := bk; produced := produced s; delivered := delivered s; refused := refused s |}, qs, qr.
  split; [|by split]. unfold cc_fifo_com_commit_read. destruct (Z.leb_spec (tentative_read_pos (snd_q s)) i); [done|].
  destruct (Z.ltb_spec (read_pos (snd_q s)) (tentative_read_pos (snd_q s))); [|done].
  destruct (Z.eqb_spec i (read_pos (snd_q s))) as [->|]; [|done]. destruct Hi as [?|Hi]; [done|].
  destruct sh_snd0 as (_ & Hq & _). rewrite Hq, window_cons, Hi in sh_flight0 by lia. done.
Qed.

Lemma leads_ack b : leads [Reply] (Ends a (b :: fl) wa st he ro ch ((true, a) :: bk) de pr)
  (Ends (a + 1) fl wa st he ro ch bk de pr).
Proof.
  apply leads_one. intros s qs qr []. simpl in *. destruct qs as [[|t pend] u]; [done|]. simpl in *.
  rewrite <- sh_acked0 in sh_back0.
  destruct (step_ack_run s t pend u _ bk sh_snd0 sh_own_s0 sh_back0)
    as (f & m & R & Er & Ew & _ & Od & Cd & E). rewrite !map_app in Cd.
  apply app_inj_1 in Cd as [C1 C2]; [|by rewrite !length_map]. injection sh_flight0 as _ Hfl.
  eexists _, {| pending := pend; unread := u |}, qr. split; [exact E|]. split; simpl; try done; try congruence.
Qed.

Lemma leads_send b : leads [Send] (Ends a fl (b :: wa) st he ro ch bk de pr)
  (Ends a (fl ++ [b]) wa st he ro (ch ++ [(a + Z.of_nat (length fl), b)]) bk de pr).
Proof.
  apply leads_one. intros s qs qr []. simpl in *. destruct qs as [pend [|t u]]; [done|]. simpl in *.
  destruct (step_send_run s pend t u _ sh_snd0 (owned_unread _ _ _ sh_own_s0)) as [R E].
  eexists _, {| pending := pend ++ [t]; unread := u |}, qr. split; [exact E|].
  injection sh_waiting0 as Ht Hu. split; simpl; try done.
  - unfold aq_all in *. simpl. by rewrite <- app_assoc.
  - rewrite map_app, sh_flight0. simpl. by rewrite Ht.
  - rewrite sh_chan0, Ht. do 3 f_equal. destruct sh_snd0 as (H & Hq & _). simpl in Hq.
    pose proof (ok_pos _ H). rewrite <- sh_flight0, length_map, Hq, length_window by lia. lia.
Qed.

Lemma leads_consume b : leads [Consume] (Ends a fl wa st (b :: he) ro ch bk de pr)
  (Ends a fl wa st he ro ch bk (de ++ [b]) pr).
Proof.
  apply leads_one. intros s qs [pend u] []. simpl in *. subst pend. destruct u as [|t u]; [done|].
  destruct (step_consume_run s t u _ sh_rcv0 sh_own_r0) as (f & m & R & Ew & Es & Od & Cd & E).
  eexists _, qs, {| pending := []; unread := u |}. split; [exact E|].
  injection sh_held0 as Ht Hu. split; simpl; try done; try congruence.
Qed.
End ends.

Lemma leads_drain a fl wa st he ro ch bk de pr : leads (replicate (length he) Consume)
  (Ends a fl wa st he ro ch bk de pr) (Ends a fl wa st [] ro ch bk (de ++ he) pr).
Proof.
  revert de. induction he as [|b he IH]; intros de; simpl.
  - rewrite app_nil_r. intros s qs qr H. by exists s, qs, qr.
  - eapply leads_cons; [apply leads_consume|]. replace (de ++ b :: he) with ((de ++ [b]) ++ he); [apply IH|].
    by rewrite <- app_assoc.
Qed.

(** The events after the refusal of the first of two tokens under way, the receiver
    holding [h] tokens: the receiver reads what it holds and is given the second, the
    sender reads the two replies and sends both again. *)
Definition refusal (h : nat) : list event :=
  Receive :: replicate h Consume
  ++ [Receive; Consume; Reply; Reply; Send; Receive; Reply; Send; Receive; Reply; Consume].

Lemma leads_refusal a d e he ro de pr : 0 < ro <= Z.of_nat (length he) -> a + 2 < 2 ^ 32 ->
  leads (refusal (length he)) (Ends a [d; e] [] a he ro [(a, d); (a + 1, e)] [] de pr)
    (Ends (a + 2) [] [] (a + 2) [] ro [] [] (de ++ he ++ [e; e]) pr).
Proof.
  intros Hr Ha. unfold refusal. eapply leads_cons; [apply leads_refuse; lia|].
  eapply leads_app; [apply leads_drain|]. cbn [app].
  eapply leads_cons; [apply leads_store; simpl; lia|]. cbn [app].
  eapply leads_cons; [apply leads_consume|].
  eapply leads_cons; [apply leads_nack|]. cbn [app].
  eapply leads_cons; [apply leads_late; by right|].
  eapply leads_cons; [apply leads_send|]. cbn [app length]. rewrite Z.add_0_r.
  eapply leads_cons; [apply leads_repeat; simpl; lia|]. cbn [app].
  eapply leads_cons; [apply leads_ack|].
  eapply leads_cons; [apply leads_send|]. cbn [app length]. rewrite Z.add_0_r.
  eapply leads_cons; [apply leads_store; simpl; lia|]. cbn [app].
  eapply leads_cons; [apply leads_ack|].
  replace (a + 1 + 1) with (a + 2) by lia. rewrite app_assoc.
  replace ((de ++ he) ++ [e; e]) with (((de ++ he) ++ [e]) ++ [e]) by by rewrite <- !app_assoc.
  apply leads_consume.
Qed.

(** A good net with two tokens under way, and no more, as lists. *)
Lemma good_shows s i j d e : good s -> chan s = [(i, d); (j, e)] -> backchan s = [] ->
  cc_fifo_tokens_available (snd_q s) 1 = false -> cc_fifo_slots_available (rcv_q s) 1 = Ok false ->
  exists qs qr a he, shows (Ends a [d; e] [] a he (fifo_size (rcv_q s) - 1) [(a, d); (a + 1, e)] []
      (delivered s) (delivered s ++ he ++ [d; e])) s qs qr
    /\ Z.of_nat (length he) = fifo_size (rcv_q s) - 1 /\ a + 2 < 2 ^ 32.
Proof.
  intros (qs & qr & I) Hc Hb Hs Hr. exists qs, qr, (read_pos (snd_q s)), (contents (rcv_m s) (unread qr)).
  rewrite (tokens_available_repr _ qs) in Hs by apply I. rewrite (slots_available_repr _ qr) in Hr by apply I.
  apply negb_false_iff, bool_decide_eq_true in Hs. injection Hr as Hr%Z.ltb_ge.
  destruct I as [Is Ir Os Or Ip Ic Ie Ib Ia In Io Ik]. rewrite Hb in *. rewrite Hc, Hs in *. simpl in Ia, Ie.
  pose proof (ok_pos _ (proj1 Is)) as Ps. pose proof (ok_pos _ (proj1 Ir)) as Pr.
  pose proof (ok_room _ (proj1 Ir)) as Rr. pose proof (repr_all _ _ Ir) as Ar.
  assert (write_pos (snd_q s) = read_pos (snd_q s) + 2) as Ew.
  { destruct Is as (_ & _ & Hu). rewrite Hs in Hu. pose proof (length_window (snd_q s) (tentative_read_pos (snd_q s))
      (write_pos (snd_q s)) ltac:(lia)) as L. rewrite <- Hu in L. simpl in L. lia. }
  rewrite Ar, length_window in Hr by lia.
  assert (Z.of_nat (length (unread qr)) = fifo_size (rcv_q s) - 1) as Hl.
  { unfold aq_all in Ar. rewrite Ip in Ar. simpl in Ar. rewrite Ar, length_window by lia. lia. }
  cbn [length map fst snd app] in *. change (Z.of_nat 2) with 2 in *. change (Z.of_nat 0) with 0 in *.
  split; [|rewrite length_map; split; [done|lia]]. split; simpl; try done; try lia.
  - unfold aq_all in Ik. rewrite Hs, app_nil_r in Ik. rewrite Ik, Io.
    rewrite app_assoc, drop_app_length'; [done|]. rewrite Io in In.
    rewrite !length_app in In. rewrite length_app. simpl in In. lia.
  - by rewrite Hs.
  - rewrite Hc. rewrite !seqZ_cons in Ic by lia. injection Ic as -> ->. repeat f_equal; lia.
Qed.

(** C24: a refusal breaks the protocol.  Take any run so far, with queues of any sizes
    and whatever tokens, that ends with the receiver's queue full, the two tokens [d] and
    [e] under way and every reply read.  Then [d] is refused; and when the receiver has
    read what it holds before [e] arrives, and the sender answers the two replies by
    sending both again, there is no undefined behaviour, nothing is left under way or
    queued, and what was read is what was written, except that [d] is never delivered,
    although its second copy was acknowledged, and [e] is delivered twice. *)
Theorem refusal_loses_and_repeats (n k i j : Z) (es : list event) (s : net) (d e : bytes) :
  0 < n < 2 ^ 32 -> 0 < k < 2 ^ 32 -> produces es < 2 ^ 32 - 1 ->
  run_net es (start n k) = Ok s -> refused s = false ->
  chan s = [(i, d); (j, e)] -> backchan s = [] -> cc_fifo_tokens_available (snd_q s) 1 = false ->
  1 < fifo_size (rcv_q s) -> cc_fifo_slots_available (rcv_q s) 1 = Ok false ->
  exists before s', run_net (refusal (Z.to_nat (fifo_size (rcv_q s) - 1))) s = Ok s'
    /\ produced s' = before ++ [d; e] /\ delivered s' = before ++ [e; e]
    /\ chan s' = [] /\ backchan s' = []
    /\ cc_fifo_tokens_available (snd_q s') 1 = false /\ cc_fifo_tokens_available (rcv_q s') 1 = false.
Proof.
  intros Hn Hk Hb E R Hc Hr Hs H1 Hf.
  pose proof (run_good es (start n k) (start_good n k Hn Hk) eq_refl ltac:(simpl; lia)) as G.
  rewrite E in G. destruct G as [|G]; [congruence|].
  destruct (good_shows s i j d e G Hc Hr Hs Hf) as (qs & qr & a & he & S & L & B).
  destruct (leads_refusal a d e he (fifo_size (rcv_q s) - 1) (delivered s) _ ltac:(lia) B s qs qr S)
    as (s' & qs' & qr' & E' & []). simpl in *.
  exists (delivered s ++ he), s'. rewrite <- L, Nat2Z.id. split; [done|].
  split; [by rewrite sh_made0, <- app_assoc|]. split; [by rewrite sh_given0, <- app_assoc|].
  split; [done|]. split; [done|].
  apply map_eq_nil in sh_waiting0, sh_held0. 
  by rewrite (tokens_available_repr _ _ sh_snd0), (tokens_available_repr _ _ sh_rcv0), sh_waiting0, sh_held0.
Qed.

(** Two queues of the default size, full of three tokens, when a fourth and a fifth are
    sent. *)
Definition a_refusal : list event :=
  [ Produce (str "a"); Produce (str "b"); Produce (str "c"); Send; Send; Send;
    Receive; Receive; Receive; Reply; Reply; Reply;
    Produce (str "d"); Produce (str "e"); Send; Send ].

Lemma refusal_loses_and_repeats_witness :
  exists s s', run_net a_refusal (start 4 4) = Ok s /\ run_net (refusal 3) s = Ok s'
    /\ produced s' = [str "a"; str "b"; str "c"; str "d"; str "e"]
    /\ delivered s' = [str "a"; str "b"; str "c"; str "e"; str "e"].
Proof.
  destruct (run_net a_refusal (start 4 4)) as [s|] eqn:E; [|by vm_compute in E].
  pose proof E as E0. vm_compute in E. injection E as <-.
  destruct (refusal_loses_and_repeats 4 4 3 4 a_refusal _ (str "d") (str "e") ltac:(lia) ltac:(lia) eq_refl
    E0 eq_refl eq_refl eq_refl eq_refl eq_refl eq_refl) as (before & s' & R & Hp & Hd & _).
  eexists _, s'. split; [reflexivity|]. split; [exact R|].
  assert (produced s' = [str "a"; str "b"; str "c"; str "d"; str "e"]) as P.
  { assert (run_net (refusal 3) _ = Ok s') as R' by exact R. vm_compute in R'. by injection R' as <-. }
  split; [exact P|]. rewrite P in Hp. rewrite Hd.
  assert (before = [str "a"; str "b"; str "c"]) as ->; [|done].
  change ([str "a"; str "b"; str "c"; str "d"; str "e"]) with ([str "a"; str "b"; str "c"] ++ [str "d"; str "e"]) in Hp.
  by apply app_inj_2 in Hp as [<- _].
Defined.
