(* ===== verification/ProtoProps.v ===== *)
(** Properties of the replies: a reply runs the handler its request left behind,
    once, and what an identifier that does not fit its array does.  Properties of the
    dispatch: the parser that a message is given to, and the answer to a command that is
    not known. *)
From S2P Require Import Prelude CString Common Json MsgPuck MsgPackRef Coder Fifo Machine Transport ProtoSend.
From S2P Require Import Link FifoInit Port Proto Runtime Calvinsys Actor Dispatch CoderSpec.
From S2P Require Import MsgSpec TransportSpec Examples Runs.

Section replies.
Context `{P : Platform} `{MP : MsgPuck} `{L : !MsgPuckLaws MP}.
Context (run_handler : cc_msg_handler_t -> bytes -> msg_data_t -> W cc_result_t).

Abbreviation pending_msgs w := (node_pending_msgs (w_node w)).

(** The identifiers of other requests: proper keys of the same length. *)
Definition other_msgs (u : bytes) (l : list (cc_list_t cc_pending_msg_t)) : Prop :=
  Forall (fun j => key_ok (li_id j) /\ length (li_id j) = length u /\ li_id j <> u) l.

Lemma other_find u l : other_msgs u l -> List.find (fun j => bool_decide (li_id j = u)) l = None.
Proof. induction 1 as [|j l (_ & _ & N) _ IH]; simpl; [done|]. by rewrite bool_decide_false. Qed.

Lemma get_n_found u rest l1 i l2 : other_msgs u l1 -> key_ok (li_id i) -> li_id i = u ->
  list_get_n (l1 ++ i :: l2) (u ++ rest) (length u) = Some i.
Proof.
  intros H Hi E. induction H as [|j l1 (Hj & Lj & Nj) _ IH]; cbn [app cc_list_get_n].
  - rewrite get_n_test, bool_decide_true by done. done.
  - rewrite get_n_test, bool_decide_false by done. exact IH.
Qed.

Lemma get_n_absent u rest l : other_msgs u l -> list_get_n l (u ++ rest) (length u) = None.
Proof.
  induction 1 as [|j l (Hj & _ & N) _ IH]; cbn [cc_list_get_n]; [done|].
  by rewrite get_n_test, bool_decide_false.
Qed.

Lemma list_remove_found u rest l1 i l2 : other_msgs u l1 -> key_ok u -> li_id i = u ->
  list_remove (l1 ++ i :: l2) (u ++ rest) = l1 ++ l2.
Proof.
  intros H [Hu _] E. induction H as [|j l1 (Hj & Lj & Nj) _ IH]; cbn [app cc_list_remove].
  - rewrite E, strlen_nul_free_all by done. rewrite (proj2 (streq_key_iff u (u ++ rest) _ Hu eq_refl)); [done|].
    apply prefix_app_r. done.
  - destruct Hj as [Hj _]. rewrite strlen_nul_free_all by done. rewrite IH.
    destruct (streq_n (li_id j) (u ++ rest) (length (li_id j))) eqn:T; [|done].
    apply streq_key_iff in T; [|done..]. by apply prefix_app_same_length in T.
Qed.

(** What the pending list is after the reply to [u]: the request is gone. *)
Definition without_msg (l : list (cc_list_t cc_pending_msg_t)) (w : world) : world :=
  set_node (set_node_pending_msgs l (w_node w)) w.

Lemma run_pending_once u id t data unknown w w1 l1 i l2 l2' r :
  key_ok u -> id = u ++ NUL :: t -> li_id i = u ->
  pending_msgs w = l1 ++ i :: l2 -> other_msgs u l1 ->
  run_handler (pm_handler (li_data i)) data (pm_msg_data (li_data i)) w = Ok (r, w1) ->
  pending_msgs w1 = l1 ++ i :: l2' ->
  run_pending run_handler id data unknown w = Ok (r, without_msg (l1 ++ l2') w1).
Proof.
  intros Hu -> Ei Hw H1 Hr Hw1. unfold run_pending, lift, world_above, cc_node_get_pending_msg, cc_node_remove_pending_msg.
  assert (uuid_len (u ++ NUL :: t) = length u) as El by by apply strnlen_key_arr.
  assert (key_ok (li_id i)) as Hi by by rewrite Ei.
  rewrite (bind_Ok _ _ w (Some (li_data i)) w).
  2: { rewrite (bind_Ok _ _ _ (w_node w) w) by done. rewrite El, Hw, (get_n_found u _ l1 i l2); done. }
  rewrite (bind_Ok _ _ _ _ _ Hr). rewrite (bind_Ok _ _ w1 tt (without_msg (l1 ++ l2') w1)); [done|].
  rewrite (bind_Ok _ _ _ (w_node w1) w1) by done. rewrite El, Hw1, (get_n_found u _ l1 i l2') by done.
  by rewrite list_remove_found.
Qed.

Lemma run_pending_unknown u id t data unknown w :
  key_ok u -> id = u ++ NUL :: t -> other_msgs u (pending_msgs w) ->
  run_pending run_handler id data unknown w = Ok (unknown, w).
Proof.
  intros Hu -> H. unfold run_pending, lift, world_above, cc_node_get_pending_msg.
  assert (uuid_len (u ++ NUL :: t) = length u) as El by by apply strnlen_key_arr.
  rewrite (bind_Ok _ _ w None w); [done|]. rewrite (bind_Ok _ _ _ (w_node w) w) by done.
  by rewrite El, get_n_absent.
Qed.

(** The message carries the identifier [u] of a request. *)
Definition reply_to (u : bytes) (kvs : list (bytes * mpval)) : Prop :=
  clear_for (str "msg_uuid") kvs /\ mp_wf (smap kvs) /\ assoc (str "msg_uuid") kvs = Some (VStr u).

Lemma reply_to_field u kvs rest : reply_to u kvs ->
  exists r, cc_coder_decode_string_from_map (mp_enc (smap kvs) ++ rest) (str "msg_uuid")
            = Some (u ++ r, length u).
Proof using L.
  intros (Hc & Hw & Ha). rewrite <- (assoc_at_assoc _ _ rest) in Ha.
  apply fmap_Some in Ha as ([v r] & E & Ev). simpl in Ev. subst v. exists r.
  apply (str_field (str "msg_uuid") kvs rest); [keys|done..].
Qed.

Lemma run_copy_msg_uuid u r w : key_ok u ->
  copy_msg_uuid (u ++ r, length u) w
  = Ok (u ++ NUL :: drop (S (length u)) (zeroed CC_UUID_BUFFER_SIZE), w).
Proof.
  intros [Hu Lu]. unfold copy_msg_uuid, copy_field. simpl fst. simpl snd.
  rewrite strncpy_nul_Some by (done || (unfold zeroed; by rewrite length_replicate)). done.
Qed.

(** C31: a reply is handled once.  When the message names a request that is
    pending, [cc_proto_parse_reply] answers what the handler of that request
    answers and takes the request, and no other, out of the pending ones, among
    which are those the handler itself has added; the same message received
    again does nothing. *)
Theorem reply_handled_once (u : bytes) (kvs : list (bytes * mpval)) (rest : bytes) (w w1 : world)
  (l1 l2 l3 : list (cc_list_t cc_pending_msg_t)) (i : cc_list_t cc_pending_msg_t) (r : cc_result_t) :
  key_ok u -> reply_to u kvs -> li_id i = u ->
  pending_msgs w = l1 ++ i :: l2 -> other_msgs u (l1 ++ l3) ->
  let data := mp_enc (smap kvs) ++ rest in
  run_handler (pm_handler (li_data i)) data (pm_msg_data (li_data i)) w = Ok (r, w1) ->
  pending_msgs w1 = l1 ++ i :: l3 ->
  cc_proto_parse_reply run_handler data w = Ok (r, without_msg (l1 ++ l3) w1)
  /\ cc_proto_parse_reply run_handler data (without_msg (l1 ++ l3) w1)
     = Ok (CC_SUCCESS, without_msg (l1 ++ l3) w1).
Proof using L.
  intros Hu Hm Ei Hw Ho data Hr Hw1. destruct (reply_to_field u kvs rest Hm) as [x E]. fold data in E.
  apply Forall_app in Ho as Ho'. destruct Ho' as [Ho1 Ho3].
  unfold cc_proto_parse_reply, lift, world_above. rewrite E. rewrite !(bind_Ok _ _ _ _ _ (run_copy_msg_uuid u x _ Hu)). split.
  - by eapply (run_pending_once u _ _ data CC_SUCCESS w w1 l1 i l2 l3).
  - by eapply run_pending_unknown.
Qed.

(** An identifier that does not fit.  The length of the msg_uuid of a message
    is not checked: a REPLY, or the value of a TUNNEL_DATA, whose msg_uuid has 50
    bytes or more is written past the end of the array it is copied to. *)
Theorem long_msg_uuid_overflows (u : bytes) (kvs vkvs : list (bytes * mpval)) (rest : bytes) (w : world) :
  (50 <= length u)%nat ->
  (reply_to u kvs ->
   cc_proto_parse_reply run_handler (mp_enc (smap kvs) ++ rest) w = Ub BufferOverflow)
  /\ (reply_to u vkvs -> clear_for (str "value") kvs -> mp_wf (smap kvs) ->
      assoc (str "value") kvs = Some (smap vkvs) ->
      cc_proto_parse_tunnel_data run_handler (mp_enc (smap kvs) ++ rest) w = Ub BufferOverflow).
Proof using L.
  intros Lu.
  assert (forall x w, copy_msg_uuid (u ++ x, length u) w = Ub BufferOverflow) as Hc.
  { intros x w'. unfold copy_msg_uuid, copy_field. simpl fst. simpl snd.
    rewrite strncpy_nul_None; [done|]. unfold zeroed. by rewrite length_replicate. }
  split.
  - intros Hm. destruct (reply_to_field u kvs rest Hm) as [x E]. unfold cc_proto_parse_reply, lift, world_above. rewrite E.
    apply bind_Ub, Hc.
  - intros Hm Hcl Hw Ha. rewrite <- (assoc_at_assoc _ _ rest) in Ha.
    apply fmap_Some in Ha as ([v r] & Ea & Ev). simpl in Ev. subst v.
    destruct (reply_to_field u vkvs r Hm) as [x E]. unfold cc_proto_parse_tunnel_data, lift, world_above.
    rewrite (val_field (str "value") kvs rest r ltac:(keys) Hcl Hw _ Ea).
    destruct Hm as (Hm1 & Hm2 & Hm3). rewrite has_key_assoc, Hm3, E by (done || keys).
    apply bind_Ub, Hc.
Qed.
End replies.

(** The request of a peer lookup, and the reply to it. *)
Definition a_uuid : bytes := str "MSGID_0123456789abcdef".
Definition a_request : cc_list_t cc_pending_msg_t :=
  list_item_n a_uuid 22 {| pm_handler := H_port_store_reply; pm_msg_data := MD_null |} 0.
Definition a_reply_kvs : list (bytes * mpval) :=
  [(str "cmd", VStr (str "REPLY")); (str "msg_uuid", VStr a_uuid)].
Definition waiting_world : world := without_msg [a_request] the_world.
Definition accept_all : cc_msg_handler_t -> bytes -> msg_data_t -> W cc_result_t :=
  fun _ _ _ => mret CC_PENDING.

Lemma reply_handled_once_witness :
  let data := mp_enc (smap a_reply_kvs) ++ [] in
  cc_proto_parse_reply accept_all data waiting_world = Ok (CC_PENDING, without_msg [] waiting_world)
  /\ cc_proto_parse_reply accept_all data (without_msg [] waiting_world)
     = Ok (CC_SUCCESS, without_msg [] waiting_world).
Proof.
  assert (reply_to a_uuid a_reply_kvs) as Hm.
  { split; [apply (bool_decide_unpack _); vm_compute; exact I|]. split; [simpl; lia|reflexivity]. }
  apply (reply_handled_once accept_all a_uuid a_reply_kvs [] waiting_world waiting_world [] [] [] a_request
    CC_PENDING ltac:(apply (bool_decide_unpack _); vm_compute; exact I) Hm); try reflexivity.
  constructor.
Defined.

Lemma long_msg_uuid_overflows_witness :
  cc_proto_parse_reply accept_all (mp_enc (smap [(str "msg_uuid", VStr (replicate 50 Byte.x61))]) ++ []) the_world
  = Ub BufferOverflow.
Proof.
  apply (proj1 (long_msg_uuid_overflows accept_all (replicate 50 Byte.x61)
    [(str "msg_uuid", VStr (replicate 50 Byte.x61))] [] [] the_world ltac:(simpl; lia))).
  split; [apply (bool_decide_unpack _); vm_compute; exact I|]. split; [simpl; lia|reflexivity].
Defined.

(** * Properties of the dispatch of messages: which parser a command gets, and the
    command that has none. *)

(** ** Specification *)

(** The commands of the protocol. *)
Definition commands : list (bytes * command) :=
  [ (str "REPLY", Reply); (str "TUNNEL_DATA", TunnelData); (str "ACTOR_NEW", ActorNew);
    (str "APP_DESTROY", AppDestroy); (str "PORT_DISCONNECT", PortDisconnect);
    (str "PORT_CONNECT", PortConnect); (str "TUNNEL_NEW", TunnelNew);
    (str "ACTOR_MIGRATE", ActorMigrate) ].

(** The first one whose name the text can be completed to. *)
Definition completed (u : bytes) : option command :=
  snd <$> List.find (fun h => bool_decide (u `prefix_of` h.1)) commands.

(** The names themselves are told apart: none completes to an earlier one. *)
Lemma commands_distinct : Forall (fun h => completed h.1 = Some h.2) commands.
Proof. repeat constructor. Qed.

(** A comparison over the length of a string looks at that string. *)
Lemma streq_text u r name : nul_free u -> streq_n (u ++ r) name (length u) = bool_decide (u `prefix_of` name).
Proof.
  intros H. apply eq_true_iff_eq. rewrite bool_decide_eq_true, <- (streq_key_iff u name (length u)) by done.
  rewrite !streq_n_spec, (cstr_app u), (cstr_nul_free_all u) by done.
  rewrite <- app_assoc, !take_app_length. done.
Qed.

Lemma find_handler_text u r : nul_free u -> find_handler (u ++ r) (length u) = Some <$> completed u.
Proof.
  intros H. unfold find_handler, completed, command_handlers, commands.
  cbn [List.find fst]. rewrite !streq_text by done.
  repeat match goal with |- context [bool_decide (u `prefix_of` str ?s)] =>
    destruct (bool_decide (u `prefix_of` str s)) eqn:?; [done|] end.
  rewrite bool_decide_false; [done|]. intros [x Hx]. destruct u; [|done].
  rewrite bool_decide_eq_false in *. by match goal with H : ~ [] `prefix_of` _ |- _ => destruct H; apply prefix_nil end.
Qed.

Section dispatch.
Context {V : Type} `{C : !Code V} `{P : Platform} `{MP : MsgPuck} `{L : !MsgPuckLaws MP} `{J : Jsmn}.

(** The runtime has joined: messages are MessagePack. *)
Definition joined (s : rt V) : Prop :=
  exists client, node_transport_client (w_node (rt_world s)) = Some client /\ tc_state client = CC_TRANSPORT_ENABLED.

(** The message has the command [u]. *)
Definition commands_to (u : bytes) (kvs : list (bytes * mpval)) : Prop :=
  clear_for (str "cmd") kvs /\ mp_wf (smap kvs) /\ assoc (str "cmd") kvs = Some (VStr u).

Lemma parse_message_run u kvs rest s : joined s -> commands_to u kvs ->
  exists r, cc_proto_parse_message (mp_enc (smap kvs) ++ rest) s
    = match find_handler (u ++ r) (length u) with
      | Some (Some c) => run_command c (mp_enc (smap kvs) ++ rest)
      | Some None => ub_ NullDeref
      | None => unhandled_command (mp_enc (smap kvs) ++ rest)
      end s.
Proof using L.
  intros (client & Hc & He) (Hcl & Hw & Ha). rewrite <- (assoc_at_assoc _ _ rest) in Ha.
  apply fmap_Some in Ha as ([v r] & E & Ev). simpl in Ev. subst v. exists r.
  unfold cc_proto_parse_message. rewrite (bind_Ok _ _ _ (w_node (rt_world s)) s) by by destruct s.
  rewrite Hc, (bind_Ok _ _ _ client s) by by destruct s. rewrite He.
  by rewrite (str_field (str "cmd") kvs rest r ltac:(keys) Hcl Hw u E).
Qed.

(** The commands with their parsers. *)
Definition parsers : list (bytes * (bytes -> R V cc_result_t)) :=
  [ (str "REPLY", cc_proto_parse_reply reply_handler);
    (str "TUNNEL_DATA", cc_proto_parse_tunnel_data reply_handler);
    (str "ACTOR_NEW", cc_proto_parse_actor_new); (str "APP_DESTROY", cc_proto_parse_app_destroy);
    (str "PORT_DISCONNECT", fun data => on_world (cc_proto_parse_port_disconnect data));
    (str "PORT_CONNECT", fun data => on_world (cc_proto_parse_port_connect data));
    (str "TUNNEL_NEW", fun data => on_world (cc_proto_parse_tunnel_new data));
    (str "ACTOR_MIGRATE", cc_proto_parse_actor_migrate) ].
Definition parser_of (u : bytes) : option (bytes -> R V cc_result_t) :=
  snd <$> List.find (fun h => bool_decide (u `prefix_of` h.1)) parsers.

Lemma parsers_commands : parsers = map (fun h => (h.1, run_command h.2)) commands.
Proof. reflexivity. Qed.
Lemma parser_of_completed u : parser_of u = run_command <$> completed u.
Proof.
  unfold parser_of, completed. rewrite parsers_commands. induction commands as [|h l IH]; [done|].
  cbn [map List.find fst]. by destruct (bool_decide _).
Qed.

(** The message has an identifier and a sender. *)
Definition sent_by (peer m : bytes) (kvs : list (bytes * mpval)) : Prop :=
  clear_for (str "msg_uuid") kvs /\ clear_for (str "from_rt_uuid") kvs
  /\ assoc (str "msg_uuid") kvs = Some (VStr m) /\ assoc (str "from_rt_uuid") kvs = Some (VStr peer).

(** A reply without data. *)
Definition reply_kvs (m peer from : bytes) (status : Z) : list (bytes * mpval) :=
  [ (str "msg_uuid", VStr m); (str "to_rt_uuid", VStr peer); (str "from_rt_uuid", VStr from);
    (str "cmd", VStr (str "REPLY"));
    (str "value", smap [ (str "status", VUint status); (str "data", VNil);
                         (str "success_list", VArr (map VUint [200; 201; 202; 203; 204; 205; 206])) ]) ].

Lemma success_list_entry w : success_list w
  = w ++ mp_enc_kvs (skvs [(str "success_list", VArr (map VUint [200; 201; 202; 203; 204; 205; 206]))]).
Proof using L.
  assert (forall l w, foldl cc_coder_encode_uint w l = w ++ concat (map mp_enc (map VUint l))) as E.
  { induction l as [|n l IH]; intros v; [by rewrite app_nil_r|]. cbn [foldl map concat]. rewrite IH. by rewrite app_assoc. }
  unfold success_list. rewrite E.
  exact (kv_array_open w (str "success_list") (map VUint [200; 201; 202; 203; 204; 205; 206]) ltac:(keys)).
Qed.

(** What [proto_send_reply] puts on the wire. *)
Lemma run_send_reply m id peer r from status client w :
  node_transport_client (w_node w) = Some client -> tc_prefix_len client = 4%nat ->
  in_id m id -> in_id from (node_id (w_node w)) -> is_u32 status ->
  let msg := mp_enc (smap (reply_kvs m peer from status)) in
  let f := length_prefix (Z.of_nat (length msg)) ++ msg in
  (4 + length msg <= 1000)%nat ->
  proto_send_reply id (peer ++ r) (length peer) status w
  = Ok (if plat_send (w_calls w) f =? Z.of_nat (length f) then CC_SUCCESS else CC_FAIL,
        set_sent (w_sent w ++ [f]) (set_calls (S (w_calls w)) w)).
Proof using L.
  intros Hc Hpre Hm Hfrom Hs msg f Hfit. unfold proto_send_reply. rewrite (bind_Ok _ _ _ (w_node w) w) by done.
  rewrite Hc. rewrite <- (run_send_buffer 1000 client msg w) by done. f_equal. unfold reply_head. rewrite success_list_entry.
  rewrite (in_id_len m id Hm). destruct Hm as (Hm & _ & t & ->).
  rewrite (kv_str_lit _ _ (str "REPLY")) by keys.
  rewrite !kv_str_entry by (keys || (rewrite length_app; lia)). rewrite !take_app_length.
  rewrite (kv_uuid_entry _ _ from) by (done || keys).
  rewrite kv_uint_entry, kv_nil_entry by keys. rewrite <- !app_assoc, <- !mp_enc_kvs_app. cbn [app].
  rewrite (kv_map_open _ (str "value") [(VStr (str "status"), VUint status); (VStr (str "data"), VNil);
    (VStr (str "success_list"), VArr (map VUint [200; 201; 202; 203; 204; 205; 206]))]) by keys.
  rewrite <- !app_assoc, <- !mp_enc_kvs_app. cbn [app].
  exact (map_open (message_start client) (skvs (reply_kvs m peer from status))).
Qed.

(** C32: every command runs its parser.  Once the runtime has joined, a message whose
    "cmd" is the name of a command is handled by the parser of that command.  Any
    other text is compared over its own length: it stands for the first command it
    can be completed to, so that ACTOR creates an actor and the empty command is a
    reply.  When there is none, the sender is sent one frame, a reply of its message
    with the status 500. *)
Theorem message_runs_command (u : bytes) (kvs : list (bytes * mpval)) (rest : bytes) (s : rt V) :
  joined s -> commands_to u kvs -> nul_free u ->
  let data := mp_enc (smap kvs) ++ rest in
  Forall (fun h => List.find (fun k => bool_decide (h.1 `prefix_of` k.1)) parsers = Some h) parsers
  /\ match List.find (fun h => bool_decide (u `prefix_of` h.1)) parsers with
     | Some h => cc_proto_parse_message data s = h.2 data s
     | None => forall m peer from client,
         sent_by peer m kvs -> key_ok m -> in_id from (node_id (w_node (rt_world s))) ->
         node_transport_client (w_node (rt_world s)) = Some client -> tc_prefix_len client = 4%nat ->
         let msg := mp_enc (smap (reply_kvs m peer from 500)) in
         let f := length_prefix (Z.of_nat (length msg)) ++ msg in
         (4 + length msg <= 1000)%nat ->
         cc_proto_parse_message data s
         = Ok (if plat_send (w_calls (rt_world s)) f =? Z.of_nat (length f) then CC_SUCCESS else CC_FAIL,
               set_world (set_sent (w_sent (rt_world s) ++ [f])
                            (set_calls (S (w_calls (rt_world s))) (rt_world s))) s)
     end.
Proof using L.
  intros Hj Hc Hu data. split; [repeat constructor|].
  destruct (parse_message_run u kvs rest s Hj Hc) as [r E]. fold data in E.
  rewrite find_handler_text in E by done. pose proof (parser_of_completed u) as Hp. unfold parser_of in Hp.
  destruct (List.find _ parsers) as [h|]; destruct (completed u) as [c|]; cbn in Hp; try discriminate Hp.
  - injection Hp as ->. exact E.
  - clear Hp. intros m peer from client (Hcm & Hcp & Ham & Hap) Hm Hfrom Hcl Hpre msg f Hfit. rewrite E.
    destruct Hc as (_ & Hw & _). rewrite <- (assoc_at_assoc _ _ rest) in Ham. rewrite <- (assoc_at_assoc _ _ rest) in Hap.
    apply fmap_Some in Ham as ([v1 r1] & E1 & Ev1). apply fmap_Some in Hap as ([v2 r2] & E2 & Ev2).
    cbn in Ev1, Ev2. subst v1 v2. cbn [fmap option_fmap option_map]. unfold unhandled_command, data.
    rewrite (str_field (str "msg_uuid") kvs rest r1 ltac:(keys) Hcm Hw m E1).
    run_with (run_on_world _ s _ _ (run_copy_msg_uuid m r1 (rt_world s) Hm)). rewrite set_world_id.
    rewrite (str_field (str "from_rt_uuid") kvs rest r2 ltac:(keys) Hcp Hw peer E2).
    unfold reply_status. apply run_on_world. cbn [fst snd].
    apply (run_send_reply m _ peer r2 from 500 client); try done.
    split; [done|]. split; [|by eexists]. destruct Hm as [_ Hm].
    rewrite length_app. cbn [length]. unfold zeroed. rewrite length_drop, length_replicate. lia.
Qed.

(** A command that has no handler.  The table has nine places and eight
    commands: a command that starts with a NUL character agrees with the name of the
    ninth, whose handler is the NULL pointer, and any peer can send it. *)
Theorem nul_command_crashes (u : bytes) (kvs : list (bytes * mpval)) (rest : bytes) (s : rt V) :
  joined s -> commands_to (NUL :: u) kvs ->
  cc_proto_parse_message (mp_enc (smap kvs) ++ rest) s = Ub NullDeref.
Proof using L.
  intros Hj Hc. destruct (parse_message_run _ kvs rest s Hj Hc) as [r ->]. done.
Qed.
End dispatch.

Definition a_command (u : bytes) : list (bytes * mpval) :=
  [(str "from_rt_uuid", VStr (str "peer")); (str "cmd", VStr u)].

Lemma the_rt_joined : joined the_rt.
Proof. exists the_client. done. Qed.

Lemma a_command_to u : Z.of_nat (length u) < 2 ^ 32 -> commands_to u (a_command u).
Proof.
  intros H. split; [|split; [simpl; repeat split; done || lia|reflexivity]].
  apply Forall_cons. split; [split; [keys|right; keys]|]. apply Forall_singleton. split; [keys|by left].
Qed.

(** A reply without identifier fails; a command that is not known is answered. *)
Definition unknown_kvs : list (bytes * mpval) :=
  [(str "from_rt_uuid", VStr (str "peer")); (str "cmd", VStr (str "OTHER")); (str "msg_uuid", VStr (str "MSGID_1"))].
Lemma message_runs_command_witness :
  cc_proto_parse_message (mp_enc (smap (a_command (str "REPLY"))) ++ []) the_rt = Ok (CC_FAIL, the_rt)
  /\ let msg := mp_enc (smap (reply_kvs (str "MSGID_1") (str "peer") (str "node") 500)) in
     exists r s', cc_proto_parse_message (mp_enc (smap unknown_kvs) ++ []) the_rt = Ok (r, s')
     /\ w_sent (rt_world s') = [length_prefix (Z.of_nat (length msg)) ++ msg].
Proof.
  split.
  - destruct (message_runs_command (str "REPLY") (a_command (str "REPLY")) [] the_rt the_rt_joined
      (a_command_to (str "REPLY") eq_refl) ltac:(keys)) as [_ E]. cbn [List.find parsers] in E.
    rewrite bool_decide_true in E by done. rewrite E. vm_compute. reflexivity.
  - intros msg.
    assert (commands_to (str "OTHER") unknown_kvs) as Hc.
    { split; [apply (bool_decide_unpack _); vm_compute; exact I|]. split; [simpl; repeat split; done || lia|reflexivity]. }
    destruct (message_runs_command (str "OTHER") unknown_kvs [] the_rt the_rt_joined Hc ltac:(keys)) as [_ E].
    cbn [List.find parsers fst] in E. rewrite !bool_decide_false in E by (by intros [? ?]).
    eexists _, _. split; [apply (E (str "MSGID_1") (str "peer") (str "node") the_client)|reflexivity].
    + repeat split; apply (bool_decide_unpack _); vm_compute; exact I.
    + apply (bool_decide_unpack _). vm_compute. exact I.
    + apply in_id_id50, (bool_decide_unpack _). vm_compute. exact I.
    + reflexivity.
    + reflexivity.
    + apply Nat.leb_le. vm_compute. reflexivity.
Defined.

Lemma nul_command_crashes_witness :
  cc_proto_parse_message (mp_enc (smap (a_command [NUL])) ++ []) the_rt = Ub NullDeref.
Proof. apply (nul_command_crashes [] (a_command [NUL]) [] the_rt the_rt_joined), a_command_to. reflexivity. Defined.
