(* ===== verification/ActorProps.v ===== *)
(** Runs of what the actors share, the operations on the queue of a port and the first
    ports of an actor; and the identity actor as a pipe between two queues. *)
From S2P Require Import Prelude CString Common MsgPuck MsgPackRef Coder Fifo Machine Transport ProtoSend.
From S2P Require Import Port Proto Runtime Calvinsys Timer ActorLib Sensors Library FifoSpec Examples Runs.
From S2P Require Import PortProps.

(** ** Operations on the queue of a port *)

(** A world in which a port has another queue. *)
Definition with_fifo (l : loc) (p : cc_port_t) (f : cc_fifo_t) (w : world) : world :=
  set_ports (<[l := set_port_fifo (Some f) p]> (w_ports w)) w.

Lemma with_fifo_twice l p f g h w :
  with_fifo l (set_port_fifo h p) f (with_fifo l p g w) = with_fifo l p f w.
Proof. unfold with_fifo. rewrite set_ports_ports. simpl. by rewrite insert_insert_eq. Qed.
Lemma with_fifo_comm l k p r f g w : l <> k ->
  with_fifo k r g (with_fifo l p f w) = with_fifo l p f (with_fifo k r g w).
Proof. intros N. unfold with_fifo. rewrite !set_ports_ports. simpl. by rewrite insert_insert_ne. Qed.
Lemma with_fifo_id w l p f : w_ports w !! l = Some p -> port_fifo p = Some f -> with_fifo l p f w = w.
Proof.
  intros Hp Hf. unfold with_fifo. rewrite insert_id; [apply set_ports_id|].
  rewrite Hp. f_equal. destruct p; simpl in *. by rewrite Hf.
Qed.

Section ports.
Context (w : world) (l : loc) (p : cc_port_t) (f : cc_fifo_t).
Hypotheses (Hp : w_ports w !! l = Some p) (Hf : port_fifo p = Some f).

Lemma run_port_tokens n : port_tokens_available l n w = Ok (cc_fifo_tokens_available f n, w).
Proof. unfold port_tokens_available. run_with (run_get_fifo w l p f Hp Hf). done. Qed.

Lemma run_port_slots n b : cc_fifo_slots_available f n = Ok b -> port_slots_available l n w = Ok (b, w).
Proof.
  intros E. unfold port_slots_available. run_with (run_get_fifo w l p f Hp Hf). by rewrite E.
Qed.

Lemma run_port_peek f' t : cc_fifo_peek f w = Ok ((f', t), w) -> port_peek l w = Ok (t, with_fifo l p f' w).
Proof.
  intros E. unfold port_peek. run_with (run_get_fifo w l p f Hp Hf). run_with E.
  run_with (run_put_fifo w l p f' Hp). done.
Qed.

Lemma run_port_write d n r f' :
  cc_fifo_write f d n (w_mem w) = Ok ((r, f'), w_mem w) -> port_write l d n w = Ok (r, with_fifo l p f' w).
Proof.
  intros E. unfold port_write. run_with (run_get_fifo w l p f Hp Hf). run_with (run_on_mem _ _ _ _ E).
  rewrite set_mem_id. run_with (run_put_fifo w l p f' Hp). done.
Qed.

Lemma run_port_commit f' : cc_fifo_commit_read f false (w_mem w) = Ok (f', w_mem w) ->
  port_commit_read l false w = Ok (tt, with_fifo l p f' w).
Proof.
  intros E. unfold port_commit_read. run_with (run_get_fifo w l p f Hp Hf). run_with (run_on_mem _ _ _ _ E).
  rewrite set_mem_id. apply (run_put_fifo w l p f' Hp).
Qed.
End ports.

(** ** The ports of an actor *)

Section first_ports.
Context {V : Type} `{P : Platform} `{MP : MsgPuck}.
Implicit Types s : rt V.

Lemma run_the_actor s l a : w_actors (rt_world s) !! l = Some a -> on_world (get_actor l) s = Ok (a, s).
Proof.
  intros E. rewrite <- (set_world_id s) at 2. by apply run_on_world, run_get_actor.
Qed.
Lemma run_first_in_port s actor a i : w_actors (rt_world s) !! actor = Some a ->
  head (actor_in_ports a) = Some i -> first_in_port actor s = Ok (i, s).
Proof. intros E Ei. unfold first_in_port. by rewrite (bind_Ok _ _ _ _ _ (run_the_actor s actor a E)), Ei. Qed.
Lemma run_first_out_port s actor a o : w_actors (rt_world s) !! actor = Some a ->
  head (actor_out_ports a) = Some o -> first_out_port actor s = Ok (o, s).
Proof. intros E Eo. unfold first_out_port. by rewrite (bind_Ok _ _ _ _ _ (run_the_actor s actor a E)), Eo. Qed.
End first_ports.

(** * Properties of the actors of the library: the identity actor as a pipe between
    two queues. *)

(** ** The identity actor *)

(** An actor whose first ports are [i] and [o], with queues that hold [ts], none of
    it handed out, and [q]. *)
Record piped (w : world) (actor i o : loc) (pi po : cc_port_t) (fi fo : cc_fifo_t)
  (ts : list cc_token_t) (q : aqueue) : Prop := {
  piped_actor : exists a, w_actors w !! actor = Some a
    /\ head (actor_in_ports a) = Some i /\ head (actor_out_ports a) = Some o;
  piped_apart : i <> o;
  piped_in : w_ports w !! i = Some pi /\ port_fifo pi = Some fi;
  piped_out : w_ports w !! o = Some po /\ port_fifo po = Some fo;
  piped_reprs : repr fi {| pending := []; unread := ts |} /\ repr fo q
}.

(** The tokens there is room for. *)
Definition room (f : cc_fifo_t) (q : aqueue) : nat := Z.to_nat (fifo_size f - 1 - Z.of_nat (length (aq_all q))).

Definition append (q : aqueue) (ts : list cc_token_t) : aqueue :=
  {| pending := pending q; unread := unread q ++ ts |}.

Section identity.
Context `{P : Platform} `{MP : MsgPuck}.

Lemma identity_step_idle w actor i o pi po fi fo ts q :
  piped w actor i o pi po fi fo ts q -> ts = [] \/ room fo q = 0%nat ->
  identity_step i o w = Ok (false, w).
Proof.
  intros [_ N [Hi Hfi] [Ho Hfo] [Ri Ro]] H. unfold identity_step.
  run_with (run_port_tokens w i pi fi Hi Hfi 1). rewrite (tokens_available_repr _ _ Ri). simpl.
  case_bool_decide as E; [done|]. simpl. destruct H as [->|H]; [done|].
  run_with (run_port_slots w o po fo Ho Hfo 1 _ (slots_available_repr _ _ Ro)).
  unfold room in H. rewrite (proj2 (Z.ltb_ge _ _)) by lia. done.
Qed.

Lemma identity_step_moves w actor i o pi po fi fo t ts q :
  piped w actor i o pi po fi fo (t :: ts) q -> room fo q <> 0%nat -> write_pos fo + 1 < 2 ^ 32 ->
  exists fi' fo', identity_step i o w = Ok (true, with_fifo i pi fi' (with_fifo o po fo' w))
    /\ piped (with_fifo i pi fi' (with_fifo o po fo' w)) actor i o
         (set_port_fifo (Some fi') pi) (set_port_fifo (Some fo') po) fi' fo' ts (append q [t])
    /\ fifo_size fo' = fifo_size fo /\ write_pos fo' = write_pos fo + 1.
Proof.
  intros [Ha N [Hi Hfi] [Ho Hfo] [Ri Ro]] Hr Hw. unfold identity_step.
  run_with (run_port_tokens w i pi fi Hi Hfi 1). rewrite (tokens_available_repr _ _ Ri). simpl.
  run_with (run_port_slots w o po fo Ho Hfo 1 _ (slots_available_repr _ _ Ro)).
  unfold room in Hr. rewrite (proj2 (Z.ltb_lt _ _)) by lia. simpl.
  destruct (cc_fifo_peek_repr fi _ t {| pending := [t]; unread := ts |} w Ri eq_refl) as [Ep Rp].
  set (f1 := set_tentative_read_pos _ _) in *.
  run_with (run_port_peek w i pi fi Hi Hfi f1 t Ep).
  set (w1 := with_fifo i pi f1 w).
  assert (w_ports w1 !! o = Some po) as Ho1 by (simpl; by rewrite lookup_insert_ne).
  destruct (cc_fifo_write_room fo q (tok_value t) (tok_size t) (w_mem w1) Ro Hw ltac:(lia))
    as (fo' & Ew & Rw & Hpos & _).
  assert (fifo_size fo' = fifo_size fo) as Hsz.
  { destruct (cc_fifo_write_repr fo q (tok_value t) (tok_size t) (w_mem w1) Ro Hw) as (g & Eg & Hg & _).
    rewrite Ew in Eg. injection Eg as _ <-. exact Hg. }
  run_with (run_port_write w1 o po fo Ho1 Hfo (tok_value t) (tok_size t) CC_SUCCESS fo' Ew). simpl.
  set (w2 := with_fifo o po fo' w1).
  assert (w_ports w2 !! i = Some (set_port_fifo (Some f1) pi)) as Hi2.
  { simpl. rewrite lookup_insert_ne, lookup_insert_eq by done. done. }
  destruct (cc_fifo_commit_read_repr f1 _ (w_mem w2) Rp ltac:(done)) as (fi' & Ec & _ & _ & Rc).
  run_with (run_port_commit w2 i _ f1 Hi2 eq_refl fi' Ec).
  assert (with_fifo i (set_port_fifo (Some f1) pi) fi' w2 = with_fifo i pi fi' (with_fifo o po fo' w)) as ->.
  { unfold w2, w1. rewrite (with_fifo_comm i o) by done. apply with_fifo_twice. }
  exists fi', fo'. split; [done|]. split; [|done]. split; simpl.
  - done.
  - done.
  - by rewrite lookup_insert_eq.
  - rewrite lookup_insert_ne, lookup_insert_eq by done. done.
  - split; [exact Rc|]. destruct t. exact Rw.
Qed.

(** [n] firings: how many of them fired. *)
Context {V : Type} `{C : !Code V} `{HS : !Holds V cc_actor_identity_state_t}.

Fixpoint fire_times (n : nat) (actor : loc) : R V nat :=
  match n with
  | O => mret 0%nat
  | S n =>
      b ← cc_actor_identity_fire actor;
      k ← fire_times n actor;
      mret (if (b : bool) then S k else k)
  end.

Lemma run_identity_fire (s : rt V) actor i o pi po fi fo ts q r :
  piped (rt_world s) actor i o pi po fi fo ts q -> identity_step i o (rt_world s) = Ok r ->
  cc_actor_identity_fire actor s = Ok (r.1, set_world r.2 s).
Proof.
  intros [(a & Ha & Hi & Ho) _ _ _ _] E. unfold cc_actor_identity_fire.
  pose proof (run_first_in_port s actor a i Ha Hi) as Ei. pose proof (run_first_out_port s actor a o Ha Ho) as Eo.
  run_with Ei. run_with Eo. destruct r. by apply run_on_world.
Qed.

Lemma room_append fo fo' q t : fifo_size fo' = fifo_size fo -> room fo q <> 0%nat ->
  room fo q = S (room fo' (append q [t])).
Proof.
  intros E H. unfold room, append, aq_all in *. simpl. rewrite E, !length_app in *. simpl. lia.
Qed.

Lemma append_append q ts us : append (append q ts) us = append q (ts ++ us).
Proof. unfold append. simpl. by rewrite app_assoc. Qed.
Lemma append_nil q : append q [] = q.
Proof. unfold append. rewrite app_nil_r. by destruct q. Qed.
End identity.

(** C10: the identity actor is a pipe: fired [n] times it moves the oldest [k] tokens
    of its in-port, in order and without touching their buffers, to the queue of its
    out-port, where [k] is the least of [n], the tokens that are there and the room
    the other queue has; exactly [k] of the firings report that they fired, and the
    rest of the runtime is as it was.  No firing runs into undefined behaviour. *)
Theorem identity_moves_tokens {V} `{C : !Code V} `{HS : !Holds V cc_actor_identity_state_t}
  `{P : Platform} `{MP : MsgPuck} (n : nat) (s : rt V) (actor i o : loc) (pi po : cc_port_t)
  (fi fo : cc_fifo_t) (ts : list cc_token_t) (q : aqueue) :
  piped (rt_world s) actor i o pi po fi fo ts q -> write_pos fo + Z.of_nat n < 2 ^ 32 ->
  let k := (n `min` (length ts `min` room fo q))%nat in
  exists fi' fo', fire_times n actor s = Ok (k, set_world (with_fifo i pi fi' (with_fifo o po fo' (rt_world s))) s)
    /\ repr fi' {| pending := []; unread := drop k ts |}
    /\ repr fo' (append q (take k ts)).
Proof.
  intros Hpi Hw. cbn zeta. revert s pi po fi fo ts q Hpi Hw. induction n as [|n IH]; intros s pi po fi fo ts q Hpi Hw.
  - exists fi, fo. destruct Hpi as [_ N [Hi Hfi] [Ho Hfo] [Ri Ro]]. simpl.
    rewrite drop_0, append_nil, (with_fifo_id _ o), (with_fifo_id _ i), set_world_id by done. done.
  - assert ((ts = [] \/ room fo q = 0%nat) \/ exists t ts', ts = t :: ts' /\ room fo q <> 0%nat) as [Hz|(t & ts' & -> & Hr)].
    { destruct ts as [|t ts']; [by left; left|]. destruct (decide (room fo q = 0%nat)); [by left; right|].
      right. eauto. }
    + assert ((length ts `min` room fo q = 0)%nat) as Hk by (destruct Hz as [->| ->]; simpl; lia).
      pose proof (identity_step_idle _ _ _ _ _ _ _ _ _ _ Hpi Hz) as E.
      destruct (IH s pi po fi fo ts q Hpi ltac:(lia)) as (fi' & fo' & En & R). exists fi', fo'.
      rewrite Hk, Nat.min_0_r in *. split; [|done]. simpl.
      run_with (run_identity_fire s actor i o pi po fi fo ts q _ Hpi E). simpl. rewrite set_world_id.
      by run_with En.
    + destruct (identity_step_moves _ _ _ _ _ _ _ _ _ _ _ Hpi Hr ltac:(lia)) as (f1 & f2 & E & Hpi' & Hsz & Hwp).
      pose proof (room_append fo f2 q t Hsz Hr) as Hroom.
      destruct (IH (set_world _ s) _ _ _ _ _ _ Hpi' ltac:(lia)) as (fi' & fo' & En & Ri & Ro).
      exists fi', fo'. simpl length in *. rewrite Hroom. change (S n `min` (S (length ts') `min` S ?x))%nat with (S (n `min` (length ts' `min` x)))%nat.
      split; [|split; [exact Ri|]].
      * simpl. run_with (run_identity_fire s actor i o pi po fi fo _ q _ Hpi E). simpl. run_with En. simpl.
        rewrite set_world_world. destruct Hpi as [_ N _ _ _].
        rewrite (with_fifo_comm o i), with_fifo_twice, (with_fifo_comm i o), with_fifo_twice by done. done.
      * by rewrite append_append in Ro.
Qed.

(** Two tokens, three places: the third firing finds nothing. *)
Definition identity_rt : rt (lib_state unit) :=
  lib_rt 0 (Some (S_identity {| id_dump := false |})) [] [] ∅ ∅.

Lemma identity_rt_piped :
  piped (rt_world identity_rt) 12%positive 22%positive 23%positive in_port out_port loaded_fifo (new_fifo 4)
    [{| tok_value := Some 50%positive; tok_size := 1 |}; {| tok_value := Some 51%positive; tok_size := 1 |}]
    {| pending := []; unread := [] |}.
Proof.
  split; [by eexists|done|done|done|]. split; [|by apply new_fifo_repr].
  split; [|done]. split; simpl; try lia. intros i Hi N.
  destruct i as [|[|[|[|i]]]]; [|..|lia]; try reflexivity;
    exfalso; [apply (N 0)|apply (N 1)]; (lia || reflexivity).
Qed.

Lemma identity_moves_tokens_witness : exists fi' fo' s',
  fire_times 3 12%positive identity_rt = Ok (2%nat, s')
  /\ repr fi' {| pending := []; unread := [] |}
  /\ repr fo' {| pending := []; unread := [{| tok_value := Some 50%positive; tok_size := 1 |};
                                           {| tok_value := Some 51%positive; tok_size := 1 |}] |}.
Proof.
  destruct (identity_moves_tokens 3 identity_rt 12%positive 22%positive 23%positive in_port out_port
    loaded_fifo (new_fifo 4) _ _ identity_rt_piped ltac:(simpl; lia)) as (fi' & fo' & E & Ri & Ro).
  eexists fi', fo', _. split; [exact E|]. split; [exact Ri|exact Ro].
Defined.
