(* ===== verification/TimerProps.v ===== *)
(** Properties of the timers: their check against a reference, and what becomes of
    a timer whose actor moves to another runtime. *)
From S2P Require Import Prelude CString Common MsgPuck MsgPackRef Coder Fifo Machine Transport.
From S2P Require Import ProtoSend Port Proto Runtime Calvinsys Timer CoderSpec MsgSpec Runs.
From S2P Require Import Library Examples.

(** ** The check *)

(** The reference: what one timer becomes at time [now], and what it asks for. *)
Definition due (now : Z) (tm : cc_calvinsys_timer_t) : bool := tm_armed tm && (tm_next_time tm <=? now).
Definition rung (now : Z) (tm : cc_calvinsys_timer_t) : cc_calvinsys_timer_t :=
  if due now tm
  then {| tm_timeout := tm_timeout tm; tm_armed := false; tm_next_time := tm_next_time tm;
          tm_repeats := tm_repeats tm; tm_triggered := true |}
  else tm.
Definition asks (now : Z) (tm : cc_calvinsys_timer_t) : option Z :=
  if tm_armed tm then Some (Z.max 0 (tm_next_time tm - now)) else None.

Section check.
Context {V : Type} `{C : !Code V} `{P : Platform} `{MP : MsgPuck} `{H : !Holds V cc_calvinsys_timer_t}.
Implicit Types s : rt V.

Definition is_timer s (l : loc) : bool :=
  default false (o ← rt_objs s !! l; c ← rt_caps s !! obj_capability o;
                 Some (streq_n (cap_name c) (str "sys.timer") 9)).

(** The timer an object keeps. *)
Definition timer_at s (l : loc) : option cc_calvinsys_timer_t :=
  if is_timer s l then o ← rt_objs s !! l; v ← obj_state o; held v else None.

(** The objects of a list are alive with their capabilities, and those of a timer
    keep one. *)
Definition objects_ok s (items : list (cc_list_t loc)) : Prop :=
  Forall (fun i => exists o c, rt_objs s !! li_data i = Some o /\ rt_caps s !! obj_capability o = Some c
    /\ (streq_n (cap_name c) (str "sys.timer") 9 = true ->
        exists tm, obj_state o = Some (hold tm) /\ is_u32 (tm_next_time tm))) items.

(** The objects once the timers of a list have rung. *)
Definition rung_at (now : Z) s (items : list (cc_list_t loc)) (l : loc) : option (cc_calvinsys_obj_t V) :=
  o ← rt_objs s !! l;
  Some (match timer_at s l with
        | Some tm => if bool_decide (l ∈ map li_data items) then set_obj_state (Some (hold (rung now tm))) o else o
        | None => o
        end).

(** What the armed timers of a list ask for, in its order. *)
Definition asked (now : Z) s (items : list (cc_list_t loc)) : list Z :=
  omap (fun i => timer_at s (li_data i) ≫= asks now) items.

Lemma timer_at_hold s l o c tm : rt_objs s !! l = Some o -> rt_caps s !! obj_capability o = Some c ->
  streq_n (cap_name c) (str "sys.timer") 9 = true -> obj_state o = Some (hold tm) -> timer_at s l = Some tm.
Proof.
  intros E Ec Hn Ho. unfold timer_at, is_timer. rewrite E. simpl. rewrite Ec. simpl. rewrite Hn, Ho. simpl.
  apply held_hold.
Qed.

Lemma timer_at_other s l o c : rt_objs s !! l = Some o -> rt_caps s !! obj_capability o = Some c ->
  streq_n (cap_name c) (str "sys.timer") 9 = false -> timer_at s l = None.
Proof. intros E Ec Hn. unfold timer_at, is_timer. rewrite E. simpl. rewrite Ec. simpl. by rewrite Hn. Qed.

(** Another object does not matter. *)
Lemma timer_at_ne s l k o : l <> k -> timer_at (set_objs (<[k := o]> (rt_objs s)) s) l = timer_at s l.
Proof. intros N. unfold timer_at, is_timer. simpl. by rewrite lookup_insert_ne. Qed.
Lemma rung_at_ne now s items l k o : l <> k ->
  rung_at now (set_objs (<[k := o]> (rt_objs s)) s) items l = rung_at now s items l.
Proof. intros N. unfold rung_at. rewrite timer_at_ne by done. simpl. by rewrite lookup_insert_ne. Qed.
Lemma asked_ne now s items k o : k ∉ map li_data items ->
  asked now (set_objs (<[k := o]> (rt_objs s)) s) items = asked now s items.
Proof.
  intros N. unfold asked. induction items as [|i items IH]; [done|].
  apply not_elem_of_cons in N as [Ni N]. simpl. rewrite timer_at_ne by congruence.
  destruct (timer_at s (li_data i) ≫= asks now); [f_equal|]; by apply IH.
Qed.
Lemma objects_ok_ne s items k o : k ∉ map li_data items -> objects_ok s items ->
  objects_ok (set_objs (<[k := o]> (rt_objs s)) s) items.
Proof.
  intros N. unfold objects_ok. rewrite !Forall_forall. intros Hf i Hi.
  destruct (Hf i Hi) as (x & c & E & R). exists x, c. split; [|done]. simpl.
  rewrite lookup_insert_ne; [done|]. intros ->. apply N, list_elem_of_In, List.in_map, list_elem_of_In, Hi.
Qed.

Lemma check_timer_rung now tm timeout : is_u32 now -> is_u32 (tm_next_time tm) ->
  check_timer now tm timeout = (rung now tm, default timeout (asks now tm)).
Proof.
  intros Hn Ht. unfold check_timer, rung, due, asks, is_u32 in *. destruct (tm_armed tm) eqn:E; [|done]. simpl.
  destruct (Z.leb_spec (tm_next_time tm) now); simpl; f_equal; [lia|]. rewrite u32_id by (unfold is_u32; lia). lia.
Qed.

Lemma last_default {A} (x : A) (o : option A) (l : list A) :
  default (default x o) (last l) = default x (last (option_list o ++ l)).
Proof. destruct o as [y|]; [|done]. simpl. rewrite last_cons. by destruct (last l). Qed.

Lemma timers_check_run now items timeout s : is_u32 now -> objects_ok s items -> NoDup (map li_data items) ->
  exists objs, timers_check now items timeout s
    = Ok (default timeout (last (asked now s items)), set_objs objs s)
  /\ forall l, objs !! l = rung_at now s items l.
Proof.
  intros Hnow. revert s timeout. induction items as [|i items IH]; intros s timeout Hok Hnd.
  - exists (rt_objs s). split; [by destruct s|]. intros l. unfold rung_at.
    destruct (rt_objs s !! l) as [o|]; [|done]. simpl. by destruct (timer_at s l).
  - apply Forall_cons in Hok as [(o & c & Eo & Ec & Htm) Hok]. simpl in Hnd.
    apply NoDup_cons in Hnd as [Hni Hnd]. simpl. rrun1. rrun1.
    destruct (streq_n (cap_name c) (str "sys.timer") 9) eqn:Hn.
    + destruct (Htm eq_refl) as (tm & Ho & Hu). pose proof (timer_at_hold s _ o c tm Eo Ec Hn Ho) as Et.
      set (s1 := set_objs (<[li_data i := set_obj_state (Some (hold (rung now tm))) o]> (rt_objs s)) s).
      assert ((timer ← get_obj_state cc_calvinsys_timer_t (li_data i);
               let '(timer, timeout) := check_timer now timer timeout in
               put_obj_state (li_data i) timer ;; mret timeout) s = Ok (default timeout (asks now tm), s1)) as E.
      { rewrite (bind_Ok _ _ _ _ _ (run_get_obj_state s _ o tm Eo Ho)), check_timer_rung by done.
        by rewrite (bind_Ok _ _ _ _ _ (run_put_obj_state s _ o (rung now tm) Eo)). }
      rewrite (bind_Ok _ _ _ _ _ E).
      destruct (IH s1 (default timeout (asks now tm)) (objects_ok_ne s items _ _ Hni Hok) Hnd) as (objs & Er & Hl).
      exists objs. split.
      * rewrite Er. unfold s1. rewrite asked_ne, last_default by done. unfold asked. simpl. rewrite Et. simpl.
        by destruct (asks now tm).
      * intros l. rewrite Hl. destruct (decide (l = li_data i)) as [->|N].
        -- unfold rung_at. simpl. rewrite lookup_insert_eq, Eo. simpl. rewrite Et.
           rewrite (bool_decide_true (_ ∈ _ :: _)) by left. rewrite bool_decide_false by done.
           by destruct (timer_at s1 _).
        -- unfold s1. rewrite rung_at_ne by done. unfold rung_at. destruct (rt_objs s !! l); [|done]. simpl.
           destruct (timer_at s l); [|done]. f_equal.
           rewrite (bool_decide_ext _ (l ∈ li_data i :: map li_data items)) by (rewrite elem_of_cons; naive_solver).
           done.
    + rewrite (bind_Ok (mret timeout) _ s timeout s eq_refl).
      destruct (IH s timeout Hok Hnd) as (objs & Er & Hl). exists objs. split.
      * rewrite Er. unfold asked. simpl. rewrite (timer_at_other s _ o c Eo Ec Hn). done.
      * intros l. rewrite Hl. unfold rung_at. destruct (rt_objs s !! l) as [x|] eqn:El; [|done]. simpl.
        destruct (timer_at s l) eqn:Et; [|done]. f_equal.
        rewrite (bool_decide_ext _ (l ∈ li_data i :: map li_data items)); [done|]. rewrite elem_of_cons.
        split; [naive_solver|]. intros [->|?]; [|done]. rewrite (timer_at_other s _ o c Eo Ec Hn) in Et. done.
Qed.
End check.

(** C12: the check of the timers agrees with a reference.  At time [now] every armed
    timer whose time has come rings, which disarms and triggers it; no other object
    changes, and nothing else but the count of platform calls.  The timeout that is
    answered is the one the last armed timer of the list asks for, the given one when
    no timer is armed; it is not the least, so that the node may sleep past the other
    timers. *)
Theorem timers_check_reference {V} `{C : !Code V} `{P : Platform} `{MP : MsgPuck}
  `{H : !Holds V cc_calvinsys_timer_t} (timeout : Z) (s : rt V) :
  objects_ok s (cs_objects s) -> NoDup (map li_data (cs_objects s)) ->
  let calls := w_calls (rt_world s) in
  let now := time_at (rt_world s) calls in
  exists objs, cc_calvinsys_timers_check timeout s
    = Ok (default timeout (last (asked now s (cs_objects s))), set_objs objs (later (S calls) s))
  /\ forall l, objs !! l = rung_at now s (cs_objects s) l.
Proof.
  intros Hok Hnd calls now. unfold cc_calvinsys_timers_check. rrun1. rrun1.
  apply (timers_check_run now (cs_objects s) timeout (later (S calls) s)); [apply u32_range|done|done].
Qed.

(** Two timers, due in 2 and in 95 seconds: the answer is 95. *)
Definition timer_item (id : bytes) (l : loc) : cc_list_t loc := list_item_n id (length id) l 0.
Definition a_timer (armed : bool) (next : Z) : cc_calvinsys_timer_t :=
  {| tm_timeout := 60; tm_armed := armed; tm_next_time := next; tm_repeats := false; tm_triggered := false |}.
Definition timer_obj (tm : cc_calvinsys_timer_t) : cc_calvinsys_obj_t (lib_state unit) :=
  {| obj_methods := Some timer_code; obj_state := Some (S_timer tm); obj_actor := 12%positive;
     obj_capability := 30%positive |}.
Definition once_cap : cc_calvinsys_capability_t :=
  {| cap_name := str "sys.timer.once"; cap_code := timer_code; cap_init_args := None; cap_python_module := None |}.
Definition timers_rt : rt (lib_state unit) :=
  lib_rt 8 None [timer_item (str "sys.timer.once") 30%positive]
    [timer_item (str "t1") 31%positive; timer_item (str "t2") 32%positive]
    {[30%positive := once_cap]}
    (<[31%positive := timer_obj (a_timer true 2)]> {[32%positive := timer_obj (a_timer true 95)]}).

Lemma timers_check_reference_witness :
  exists objs, cc_calvinsys_timers_check 30 timers_rt = Ok (95, set_objs objs (later 1 timers_rt)).
Proof.
  destruct (timers_check_reference 30 timers_rt) as (objs & E & _).
  - apply Forall_cons. split; [|apply Forall_singleton];
      (eexists _, once_cap; split; [reflexivity|]; split; [reflexivity|]; intros _; eexists; split; [reflexivity|]);
      unfold is_u32; simpl; lia.
  - apply (bool_decide_unpack _). vm_compute. exact I.
  - exists objs. exact E.
Defined.

(** ** Migration *)

Section migration.
Context {V : Type} `{C : !Code V} `{P : Platform} `{MP : MsgPuck} `{L : !MsgPuckLaws MP}.
Context `{H : !Holds V cc_calvinsys_timer_t}.
Implicit Types s : rt V.

(** The state of a timer as a value, and the object with it. *)
Definition timer_kvs (tm : cc_calvinsys_timer_t) : list (bytes * mpval) :=
  [(str "nexttrigger", if tm_armed tm then VUint (tm_next_time tm) else VNil);
   (str "repeats", VBool (tm_repeats tm)); (str "timeout", VUint (tm_timeout tm));
   (str "triggered", VBool (tm_triggered tm))].
Definition object_kvs (name : bytes) (tm : cc_calvinsys_timer_t) : list (bytes * mpval) :=
  [(str "name", VStr name); (str "obj", smap (timer_kvs tm)); (str "args", smap [])].

Lemma encode_timer_entry tm w : encode_timer tm w = w ++ mp_enc_kvs [(VStr (str "obj"), smap (timer_kvs tm))].
Proof using L.
  rewrite <- (kv_map_open w (str "obj") (skvs (timer_kvs tm))) by keys. unfold encode_timer.
  change (Z.of_nat (length (skvs (timer_kvs tm)))) with 4. set (w0 := cc_coder_encode_kv_map w (str "obj") 4).
  rewrite kv_bool_entry, kv_uint_entry, kv_bool_entry by keys.
  assert ((if tm_armed tm then cc_coder_encode_kv_uint w0 (str "nexttrigger") (tm_next_time tm)
           else cc_coder_encode_kv_nil w0 (str "nexttrigger"))
          = w0 ++ mp_enc_kvs [(VStr (str "nexttrigger"), if tm_armed tm then VUint (tm_next_time tm) else VNil)]) as ->.
  { destruct (tm_armed tm); [by rewrite kv_uint_entry by keys|by rewrite kv_nil_entry by keys]. }
  unfold timer_kvs. simpl map. rewrite <- !app_assoc, <- !mp_enc_kvs_app. reflexivity.
Qed.

(** What [encode_object] writes of a timer. *)
Lemma encode_timer_object s w (item : cc_list_t loc) o c tm :
  object_code timer_code = timer_methods ->
  rt_objs s !! li_data item = Some o -> rt_caps s !! obj_capability o = Some c ->
  obj_methods o = Some timer_code -> obj_state o = Some (hold tm) ->
  nul_free (li_id item) -> nul_free (cap_name c) ->
  encode_object w item o s
  = Ok (w ++ mp_enc_kvs [(VStr (li_id item), smap (object_kvs (cap_name c) tm))], s).
Proof using L.
  intros Hc Eo Ec Em Es Hi Hn. unfold encode_object. rrun1.
  assert (methods_of (li_data item) s = Ok (Some timer_methods, s)) as E.
  { unfold methods_of. rrun1. rewrite Em. simpl. by rewrite Hc. }
  rewrite (bind_Ok _ _ _ _ _ E). 
  set (w1 := cc_coder_encode_kv_str _ _ _ _).
  assert (cc_calvinsys_timer_serialize (li_id item) (li_data item) w1 s = Ok (Some (encode_timer tm w1), s)) as Ez.
  { unfold cc_calvinsys_timer_serialize. by rewrite (bind_Ok _ _ _ _ _ (run_get_obj_state s _ o tm Eo Es)). }
  assert ((w_obj ← cc_calvinsys_timer_serialize (li_id item) (li_data item) w1;
       mret (default (cc_coder_encode_kv_map w1 (str "obj") 0) w_obj)) s = Ok (encode_timer tm w1, s)) as Ey.
  { by rewrite (bind_Ok _ _ _ _ _ Ez). }
  change (Some timer_methods ≫= oc_serialize) with (oc_serialize (V:=V) timer_methods).
  change (oc_serialize timer_methods) with (Some cc_calvinsys_timer_serialize). cbv iota beta.
  rewrite (bind_Ok _ _ _ _ _ Ey).
  subst w1. unfold mret, M_ret. f_equal. f_equal.
  rewrite encode_timer_entry, <- (kv_map_open w (li_id item) (skvs (object_kvs (cap_name c) tm))) by done.
  rewrite strlen_nul_free_all, kv_str_lit by (done || keys).
  rewrite <- (app_nil_r (cc_coder_encode_kv_map _ (str "args") 0)).
  rewrite (kv_map_open _ (str "args") []) by keys.
  change (Z.of_nat (length (skvs (object_kvs (cap_name c) tm)))) with 3.
  rewrite <- !app_assoc, <- !mp_enc_kvs_app. done.
Qed.
(** The items of the arguments of an object. *)
Fixpoint kv_items (kvs : list (bytes * mpval)) (rest : bytes) : list (cc_list_t bytes) :=
  match kvs with
  | [] => []
  | (k, v) :: kvs =>
      let value := mp_enc v ++ mp_enc_kvs (skvs kvs) ++ rest in
      list_item_n (k ++ value) (length k) value (Z.of_nat (length (mp_enc v))) :: kv_items kvs rest
  end.

Lemma decode_kwargs_run kvs rest kwargs s : (forall c, plat_alloc c = true) -> mp_wf_kvs (skvs kvs) ->
  decode_kwargs (length kvs) (mp_enc_kvs (skvs kvs) ++ rest) kwargs s
  = Ok (Some (kwargs ++ kv_items kvs rest), later (2 * length kvs + w_calls (rt_world s)) s).
Proof using L.
  intros Ha. revert kwargs s. induction kvs as [|[k v] kvs IH]; intros kwargs s.
  - intros _. simpl. rewrite app_nil_r. by destruct s as [[] ? ? ? ? ?].
  - rewrite skvs_wf_cons. intros [[Hk Hv] Hw]. cbn [length]. cbn [decode_kwargs].
    cbn [map fst snd]. rewrite mp_enc_kvs_cons, <- !app_assoc, decode_str_enc by done.
    unfold cc_coder_decode_map_next. rewrite !next_enc by done. 
    rrun1. rewrite IH by done. cbn [kv_items]. rewrite <- app_assoc.
    rewrite later_later. simpl w_calls.
    assert (length (mp_enc v ++ mp_enc_kvs (skvs kvs) ++ rest) - length (mp_enc_kvs (skvs kvs) ++ rest)
            = length (mp_enc v))%nat as -> by (rewrite length_app; lia).
    replace (2 * S (length kvs) + w_calls (rt_world s))%nat
      with (2 * length kvs + S (S (w_calls (rt_world s))))%nat by lia.
    done.
Qed.

Lemma kv_items_keys kvs rest : Forall (fun kv => key_ok kv.1) kvs -> keys_ok li_id li_id_len (kv_items kvs rest).
Proof.
  unfold keys_ok. induction 1 as [|[k v] kvs Hk _ IH]; [done|]. constructor; [|done].
  rewrite list_item_n_id by apply Hk. split; [done|]. simpl.
  rewrite take_app_length, cstr_nul_free_all; [done|apply Hk].
Qed.

(** What is looked up among the items is what the map has under the key. *)
Lemma kv_items_get kvs rest key v r : Forall (fun kv => key_ok kv.1) kvs -> key_ok key ->
  assoc_at key kvs rest = Some (v, r) ->
  exists item, list_get (kv_items kvs rest) key = Some item /\ li_data item = mp_enc v ++ r.
Proof.
  intros Hks Hk. rewrite cc_list_get_find by auto using kv_items_keys.
  induction Hks as [|[k x] kvs Hkk _ IH]; [done|]. simpl in Hkk. cbn [assoc_at kv_items List.find].
  rewrite list_item_n_id by apply Hkk. case_decide as E.
  - intros [= <- <-]. rewrite bool_decide_true by done. by eexists.
  - rewrite bool_decide_false by done. apply IH.
Qed.

Lemma decode_nexttrigger_enc tm r : is_u32 (tm_next_time tm) ->
  decode_nexttrigger (mp_enc (if tm_armed tm then VUint (tm_next_time tm) else VNil) ++ r)
  = Ok (if tm_armed tm then tm_next_time tm else 0).
Proof using L.
  intros Hn. unfold decode_nexttrigger, cc_coder_type_of. destruct (tm_armed tm).
  - rewrite mp_typeof_enc by (simpl; unfold is_u32 in *; lia). cbn [mpval_type]. by rewrite decode_uint_enc.
  - by rewrite mp_typeof_enc.
Qed.

Definition timer_ok (tm : cc_calvinsys_timer_t) : Prop := is_u32 (tm_timeout tm) /\ is_u32 (tm_next_time tm).

Lemma timer_wf tm : timer_ok tm -> mp_wf (smap (timer_kvs tm)).
Proof. intros [Ht Hn]. unfold is_u32 in *. simpl. destruct (tm_armed tm); repeat split; simpl; lia. Qed.
Lemma object_wf name tm : key_ok name -> timer_ok tm -> mp_wf (smap (object_kvs name tm)).
Proof.
  intros [_ Hl] Ht. apply timer_wf in Ht. unfold CC_UUID_BUFFER_SIZE in *. unfold object_kvs.
  revert Ht. generalize (smap (timer_kvs tm)). intros v Hv. apply mp_wf_map. split; [simpl; lia|].
  repeat constructor; simpl; try lia; done.
Qed.


(** The timer that is restored at times [t1] and [t2], two readings in a row. *)
Definition restored (tm : cc_calvinsys_timer_t) (t1 t2 : Z) : cc_calvinsys_timer_t :=
  {| tm_timeout := tm_timeout tm; tm_armed := true;
     tm_next_time := u32 ((if tm_armed tm then tm_next_time tm else 0) + (t2 - t1));
     tm_repeats := tm_repeats tm; tm_triggered := tm_triggered tm |}.

Lemma timer_deserialize_run s l o tm rest : (forall c, plat_alloc c = true) -> timer_ok tm ->
  rt_objs s !! l = Some o ->
  let c := S (w_calls (rt_world s)) in
  cc_calvinsys_timer_deserialize l (kv_items (timer_kvs tm) rest) s
  = Ok (CC_SUCCESS,
        set_objs (<[l := {| obj_methods := Some timer_code;
                            obj_state := Some (hold (restored tm (time_at (rt_world s) c) (time_at (rt_world s) (S c))));
                            obj_actor := obj_actor o; obj_capability := obj_capability o |}]> (rt_objs s))
          (later (2 + c) s)).
Proof using L.
  intros Ha [Ht Hn] Eo c. unfold cc_calvinsys_timer_deserialize.
  assert (Forall (fun kv => key_ok kv.1) (timer_kvs tm)) as Hk by (repeat constructor; try keys).
  edestruct (kv_items_get (timer_kvs tm) rest (str "timeout")) as (i1 & -> & ->); [done|keys|reflexivity|].
  edestruct (kv_items_get (timer_kvs tm) rest (str "repeats")) as (i2 & -> & ->); [done|keys|reflexivity|].
  edestruct (kv_items_get (timer_kvs tm) rest (str "triggered")) as (i3 & -> & ->); [done|keys|reflexivity|].
  edestruct (kv_items_get (timer_kvs tm) rest (str "nexttrigger")) as (i4 & -> & ->); [done|keys|reflexivity|].
  rewrite decode_uint_enc by done. rewrite !decode_bool_enc, decode_nexttrigger_enc by done.
  rewrite (bind_Ok (lift_outcome (Ok (Some (tm_timeout tm)))) _ s _ s eq_refl).
  rrun1. 
  set (tm0 := {| tm_timeout := _ |}). set (next := if tm_armed tm then _ else _). set (s1 := later c s).
  cbn [negb].
  assert ((nexttrigger ← lift_outcome (Ok next); now ← on_world cc_node_get_time;
           cc_calvinsys_timer_set tm0 (u32 (nexttrigger - now))) s1
          = Ok (restored tm (time_at (rt_world s) c) (time_at (rt_world s) (S c)), later (2 + c) s)) as E.
  { rewrite (bind_Ok (lift_outcome (Ok next)) _ s1 next s1 eq_refl). rrun1. unfold cc_calvinsys_timer_set. rrun1.
    rewrite u32_shift. reflexivity. }
  rewrite (bind_Ok _ _ _ _ _ E), (bind_Ok _ _ _ _ _ (run_upd_obj (later (2 + c) s) l o _ Eo)).
  erewrite (bind_Ok _ _ _ _ _ (run_put_obj_state _ l _ _ (lookup_insert_eq _ _ _))).
  simpl. unfold mret, M_ret, set_objs. simpl. by rewrite insert_insert_eq.
Qed.

(** The runtime with the object that [deserialize_object] has added. *)
Definition with_timer (id : bytes) (actor cap : loc) (tm : cc_calvinsys_timer_t) s : rt V :=
  let w := rt_world s in
  let l := w_next w in
  let c := (12 + w_calls w)%nat in
  {| rt_world := set_calls (2 + c) (set_next (Pos.succ l) w); rt_instances := rt_instances s;
     rt_caps := rt_caps s;
     rt_objs := <[l := {| obj_methods := Some timer_code;
                          obj_state := Some (hold (restored tm (time_at w c) (time_at w (S c))));
                          obj_actor := actor; obj_capability := cap |}]> (rt_objs s);
     cs_capabilities := cs_capabilities s; cs_objects := cs_objects s ++ [list_item_n id (length id) l 0];
     rt_platform := rt_platform s |}.

Lemma decode_timer_args tm rest : timer_ok tm ->
  (if bool_decide (cc_coder_type_of (mp_enc (smap (timer_kvs tm)) ++ rest) = CC_CODER_NIL) then mret (Some [])
   else let '(n, r) := cc_coder_decode_map (mp_enc (smap (timer_kvs tm)) ++ rest) in
        decode_kwargs (V:=V) (Z.to_nat n) r [])
  = decode_kwargs (length (timer_kvs tm)) (mp_enc_kvs (skvs (timer_kvs tm)) ++ rest) [].
Proof using L.
  intros Ht. unfold cc_coder_type_of, cc_coder_decode_map. rewrite mp_typeof_enc by by apply timer_wf.
  cbn [mpval_type]. rewrite bool_decide_false by done. cbn [mp_enc]. rewrite <- app_assoc, mp_decode_map_enc by (simpl; lia).
  done.
Qed.
Lemma deserialize_timer_run s actor id item c tm rest : (forall c, plat_alloc c = true) -> timer_ok tm ->
  key_ok id -> key_ok (cap_name c) -> keys_ok li_id li_id_len (cs_capabilities s) ->
  List.find (fun i => bool_decide (li_id i = cap_name c)) (cs_capabilities s) = Some item ->
  rt_caps s !! li_data item = Some c ->
  cap_deserialize (capability_code (cap_code c)) = Some cc_calvinsys_timer_deserialize ->
  deserialize_object actor (mp_enc_kvs [(VStr id, smap (object_kvs (cap_name c) tm))] ++ rest) s
  = Ok (Some rest, with_timer id actor (li_data item) tm s).
Proof using L.
  intros Ha Ht Hid Hname Hcaps Hfind Hc Hd.
  assert (mp_wf (smap (object_kvs (cap_name c) tm))) as Hwf.
  { by apply object_wf. }
  assert (mp_wf_kvs (skvs (timer_kvs tm))) as Hkw by by apply mp_wf_map, timer_wf.
  assert (Z.of_nat (length id) < 2 ^ 32) as Hlen by (destruct Hid; unfold CC_UUID_BUFFER_SIZE in *; lia).
  unfold deserialize_object. rewrite mp_enc_kvs_cons, mp_enc_kvs_nil, app_nil_r, <- app_assoc.
  rewrite decode_str_enc by done. unfold cc_coder_decode_map_next. rewrite (next_enc (VStr id)) by done.
  read_str (str "name"). rrun1. rewrite (cc_list_get_n_find li_id li_id_len), Hfind by done. rrun1. rewrite Hd.
  rrun1. cbn [negb]. 
  set (s1 := later (S (w_calls (rt_world s))) s).
  set (l := w_next (rt_world s)).
  set (s2 := set_world (set_next (Pos.succ l) (rt_world s1)) s1).
  assert (on_world fresh_loc s1 = Ok (l, s2)) as El by (by apply run_on_world).
  rewrite (bind_Ok _ _ _ _ _ El). rrun1. rrun1.
  rewrite list_item_n_app. set (s3 := later _ s2).
  set (objects := cs_objects s2 ++ _).
  set (o := {| obj_methods := None |}).
  rewrite (bind_Ok (modify (set_cs_objects objects)) _ s3 tt (set_cs_objects objects s3) eq_refl).
  set (s4 := set_objs (<[l := o]> (rt_objs s)) (set_cs_objects objects s3)).
  rewrite (bind_Ok (put_obj l o) _ _ tt s4 eq_refl).
  read_val (str "obj").
  rewrite decode_timer_args by done.
  rewrite (bind_Ok _ _ _ _ _ (decode_kwargs_run (timer_kvs tm) _ [] s4 Ha Hkw)).
  cbn [app].
  rewrite (bind_Ok _ _ _ _ _ (timer_deserialize_run _ l o tm _ Ha Ht (lookup_insert_eq _ _ _))).
  rewrite next_enc by done. cbn [obj_actor obj_capability o].
  unfold mret, M_ret. subst s4. unfold set_objs. cbn [rt_objs later set_world]. rewrite insert_insert_eq. reflexivity.
Qed.
End migration.

(** C9: a timer survives the move of its actor.  The entry that is written of its
    object is read back, to its last byte, by a runtime that has the capability: the
    object is there under the same identifier with the methods of a timer, the
    timeout, the repetition and the pending trigger are those that were sent, and the
    time it rings at is the one it had, shifted by what the clock moved between the
    two readings that restore it.  The restored timer is always armed: one that was
    not comes back due at once ([restored]). *)
Theorem timer_migrates {V} `{C : !Code V} `{P : Platform} `{MP : MsgPuck} `{L : !MsgPuckLaws MP}
  `{H : !Holds V cc_calvinsys_timer_t} (s1 s2 : rt V) (w rest : bytes)
  (item : cc_list_t loc) o c tm (actor : loc) (cap_item : cc_list_t loc) cap :
  object_code timer_code = timer_methods ->
  rt_objs s1 !! li_data item = Some o -> rt_caps s1 !! obj_capability o = Some c ->
  obj_methods o = Some timer_code -> obj_state o = Some (hold tm) ->
  timer_ok tm -> key_ok (li_id item) -> key_ok (cap_name c) ->
  (forall n, plat_alloc n = true) -> keys_ok li_id li_id_len (cs_capabilities s2) ->
  List.find (fun i => bool_decide (li_id i = cap_name c)) (cs_capabilities s2) = Some cap_item ->
  rt_caps s2 !! li_data cap_item = Some cap -> cap_name cap = cap_name c ->
  cap_deserialize (capability_code (cap_code cap)) = Some cc_calvinsys_timer_deserialize ->
  exists entry, encode_object w item o s1 = Ok (w ++ entry, s1)
  /\ deserialize_object actor (entry ++ rest) s2
     = Ok (Some rest, with_timer (li_id item) actor (li_data cap_item) tm s2).
Proof.
  intros Hc Eo Ec Em Es Ht Hid Hname Ha Hcaps Hfind Ecap En Hd.
  exists (mp_enc_kvs [(VStr (li_id item), smap (object_kvs (cap_name c) tm))]). split.
  - apply encode_timer_object; try done; [by destruct Hid|by destruct Hname].
  - rewrite <- En in Hname, Hfind |- *. by apply deserialize_timer_run.
Qed.

(** The timer that is not armed: it is sent between two runtimes alike and comes back
    armed, due at the time the clock moved by, which is 1. *)
Definition idle_rt : rt (lib_state unit) :=
  lib_rt 8 None [timer_item (str "sys.timer.once") 30%positive] [timer_item (str "t1") 31%positive]
    {[30%positive := once_cap]} {[31%positive := timer_obj (a_timer false 0)]}.

Lemma timer_migrates_witness :
  exists entry, encode_object [] (timer_item (str "t1") 31%positive) (timer_obj (a_timer false 0)) idle_rt
                = Ok (entry, idle_rt)
  /\ deserialize_object 12%positive (entry ++ str "rest") idle_rt
     = Ok (Some (str "rest"), with_timer (str "t1") 12%positive 30%positive (a_timer false 0) idle_rt)
  /\ tm_armed (restored (a_timer false 0) 5 6) = true.
Proof.
  destruct (timer_migrates idle_rt idle_rt [] (str "rest") (timer_item (str "t1") 31%positive)
              (timer_obj (a_timer false 0)) once_cap (a_timer false 0) 12%positive
              (timer_item (str "sys.timer.once") 30%positive) once_cap) as (entry & E1 & E2);
    try reflexivity; try keys.
  exists entry. split; [exact E1|]. split; [exact E2|reflexivity].
Defined.
