(* ===== verification/Quiet.v ===== *)
(** What the code of the objects promises to the actors: a method of an object, or a
    capability that opens one, works on the objects of calvinsys and on the node;
    the actors, their states, the ports and the buffers of the tokens are not
    touched.  [QuietCode] is that promise, which the operations of calvinsys and the
    actors are reasoned with; the timers, the schedules and the attributes of the
    node keep it, so that a library keeps it when its devices do. *)
From S2P Require Import Prelude CString Common Json MsgPuck Coder Fifo Machine Transport ProtoSend.
From S2P Require Import Proto Runtime Calvinsys Timer Socket Library X86Devices Coap.

(** The part of a world, and of a runtime, that is left alone. *)
Record wsame (w w' : world) : Prop := {
  ws_ports : w_ports w' = w_ports w;
  ws_actors : w_actors w' = w_actors w;
  ws_mem : w_mem w' = w_mem w;
  ws_next : (w_next w <= w_next w')%positive
}.
Record same {V} (s s' : rt V) : Prop := {
  sm_world : wsame (rt_world s) (rt_world s');
  sm_instances : rt_instances s' = rt_instances s
}.

#[export] Instance wsame_preorder : PreOrder wsame.
Proof.
  split; [by split|]. intros x y z [] []. split; try congruence. by etransitivity.
Qed.
#[export] Instance same_preorder {V} : PreOrder (same (V:=V)).
Proof.
  split; [by split|]. intros x y z [Hw Hi] [Hw' Hi']. split; [by etransitivity|congruence].
Qed.

(** A computation every normal end of which is related to its start. *)
Definition along {S A} (R : S -> S -> Prop) (m : M S A) : Prop :=
  forall s a s', m s = Ok (a, s') -> R s s'.

Section along.
Context {S : Type} (R : S -> S -> Prop) `{!PreOrder R}.

Lemma along_ret {A} (a : A) : along R (mret a).
Proof. intros s a' s' E. injection E as _ <-. done. Qed.
Lemma along_ub {A} u : along R (ub_ u : M S A).
Proof. done. Qed.
Lemma along_bind {A B} (m : M S A) (f : A -> M S B) :
  along R m -> (forall a, along R (f a)) -> along R (m ≫= f).
Proof. intros Hm Hf s b s' (a & t & E1 & E2)%bind_inv. etransitivity; [by eapply Hm|by eapply Hf]. Qed.
Lemma along_need {A} u (o : option A) : along R (need u o).
Proof. destruct o; [apply along_ret|apply along_ub]. Qed.
Lemma along_lift {A} (o : outcome A) : along R (lift_outcome o).
Proof. destruct o; [apply along_ret|apply along_ub]. Qed.
Lemma along_get : along R get_.
Proof. intros s a s' E. injection E as _ <-. done. Qed.
Lemma along_modify (f : S -> S) : (forall s, R s (f s)) -> along R (modify f).
Proof. intros H s a s' E. injection E as _ <-. apply H. Qed.
End along.

Abbreviation quiet := (along same).
Abbreviation wquiet := (along wsame).

Create HintDb quiet discriminated.
#[export] Hint Constants Opaque : quiet.

(** Along the text of an operation: its structure, then the lemma of its head. *)
Ltac quiet_step :=
  match goal with
  | |- along _ (mret _) => apply along_ret; apply _
  | |- along _ (ub_ _) => apply along_ub
  | |- along _ (lift_outcome _) => apply along_lift; apply _
  | |- along _ (need _ _) => apply along_need; apply _
  | |- along _ get_ => apply along_get; apply _
  | |- along _ (mbind _ _) => apply along_bind; [apply _| |intros ?]
  | |- along _ (match ?x with _ => _ end) => destruct x eqn:?
  | |- along _ _ => solve [eauto 3 with quiet]
  end.
Ltac quiet := repeat quiet_step.

(** ** The world *)

Section world.
Context `{P : Platform}.

Lemma wq_tick : wquiet tick.
Proof. intros w a w' E. cbv in E. simplify_eq. by split. Qed.
Lemma wq_alloc : wquiet cc_platform_mem_alloc.
Proof. intros w a w' E. cbv [cc_platform_mem_alloc tick mbind M_bind get_ put_ mret M_ret] in E. simplify_eq. by split. Qed.
Lemma wq_fresh : wquiet fresh_loc.
Proof. intros w a w' E. cbv [fresh_loc mbind M_bind get_ put_ mret M_ret] in E. simplify_eq. split; simpl; (done || lia). Qed.
Lemma wq_get_node : wquiet get_node.
Proof. intros w a w' E. cbv in E. by simplify_eq. Qed.
Lemma wq_upd_node f : wquiet (upd_node f).
Proof. intros w a w' E. cbv [upd_node modify] in E. simplify_eq. by split. Qed.
End world.
#[export] Hint Resolve wq_tick wq_alloc wq_fresh wq_get_node wq_upd_node : quiet.

Lemma wq_add_n `{P : Platform} {A} (l : list (cc_list_t A)) id len d n : wquiet (cc_list_add_n l id len d n).
Proof. unfold cc_list_add_n. quiet. Qed.
Lemma wq_get_time `{P : Platform} : wquiet cc_node_get_time.
Proof. unfold cc_node_get_time, cc_platform_get_time. quiet. Qed.
Lemma wq_gen_uuid `{P : Platform} p : wquiet (gen_uuid p).
Proof.
  intros w a w' E. cbv [gen_uuid mbind M_bind get_ put_ mret M_ret] in E. simplify_eq. by split.
Qed.
#[export] Hint Resolve wq_add_n wq_get_time wq_gen_uuid : quiet.

(** ** The runtime *)

Section runtime.
Context {V : Type}.

Lemma q_world {A} (m : W A) : wquiet m -> quiet (on_world (V:=V) m).
Proof.
  intros H s a s' E. unfold on_world, zoom in E. destruct (m (rt_world s)) as [[b w]|] eqn:Em; [|done].
  simplify_eq. split; [by eapply H|done].
Qed.
Lemma q_modify (f : rt V -> rt V) : (forall s, rt_world (f s) = rt_world s /\ rt_instances (f s) = rt_instances s) ->
  quiet (modify f).
Proof.
  intros H. apply along_modify. intros s. destruct (H s) as [Hw Hi]. split; [by rewrite Hw|done].
Qed.
Lemma q_get_obj l : quiet (get_obj (V:=V) l).
Proof. unfold get_obj. quiet. Qed.
Lemma q_get_cap l : quiet (get_cap (V:=V) l).
Proof. unfold get_cap. quiet. Qed.
Lemma q_get_instance l : quiet (get_instance (V:=V) l).
Proof. unfold get_instance. quiet. Qed.
Lemma q_put_obj l x : quiet (put_obj (V:=V) l x).
Proof. by apply q_modify. Qed.
Lemma q_set_objects x : quiet (modify (set_cs_objects (V:=V) x)).
Proof. by apply q_modify. Qed.
Lemma q_get_platform : quiet (get_platform (V:=V)).
Proof. intros s a s' E. cbv [get_platform gets] in E. by simplify_eq. Qed.
Lemma q_upd_platform f : quiet (upd_platform (V:=V) f).
Proof. by apply q_modify. Qed.
Lemma q_delete_obj l : quiet (modify (fun s : rt V => set_objs (delete l (rt_objs s)) s)).
Proof. by apply q_modify. Qed.
End runtime.
#[export] Hint Resolve q_get_obj q_get_cap q_get_instance q_put_obj q_set_objects q_delete_obj
  q_get_platform q_upd_platform : quiet.
#[export] Hint Extern 1 (quiet (on_world _)) => apply q_world : quiet.

Section runtime2.
Context {V : Type}.

Lemma q_free_obj l : quiet (free_obj (V:=V) l).
Proof. unfold free_obj. quiet. Qed.
Lemma q_upd_obj l f : quiet (upd_obj (V:=V) l f).
Proof. unfold upd_obj. quiet. Qed.
Lemma q_state_as S `{!Holds V S} v : quiet (state_as (V:=V) S v).
Proof. unfold state_as. quiet. Qed.
End runtime2.
#[export] Hint Resolve q_free_obj q_upd_obj q_state_as : quiet.

Section states.
Context {V S : Type} `{H : !Holds V S}.
Lemma q_get_obj_state l : quiet (get_obj_state (V:=V) S l).
Proof. unfold get_obj_state. quiet. Qed.
Lemma q_put_obj_state l (x : S) : quiet (put_obj_state (V:=V) l x).
Proof. unfold put_obj_state. quiet. Qed.
Lemma q_get_inst_state l : quiet (get_inst_state (V:=V) S l).
Proof. unfold get_inst_state. quiet. Qed.
End states.
#[export] Hint Resolve q_get_obj_state q_put_obj_state q_get_inst_state : quiet.

(** ** The promise *)

(** The methods of an object, the functions of a capability. *)
Record quiet_object {V} (m : cc_obj_code_t V) : Prop := {
  qo_can_write f l : oc_can_write m = Some f -> quiet (f l);
  qo_write f l d : oc_write m = Some f -> quiet (f l d);
  qo_can_read f l : oc_can_read m = Some f -> quiet (f l);
  qo_read f l : oc_read m = Some f -> quiet (f l);
  qo_close f l : oc_close m = Some f -> quiet (f l)
}.
Record quiet_capability {V} (c : cc_capability_code_t V) : Prop := {
  qc_open f l kwargs : cap_open c = Some f -> quiet (f l kwargs);
  qc_deserialize f l kwargs : cap_deserialize c = Some f -> quiet (f l kwargs)
}.

Class QuietCode {V} (C : Code V) : Prop := {
  quiet_objects i : quiet_object (object_code i);
  quiet_capabilities i : quiet_capability (capability_code i)
}.
Class QuietDevices {D} (DV : Devices D) : Prop := {
  quiet_device_objects i : quiet_object (device_object i);
  quiet_device_capabilities i : quiet_capability (device_capability i)
}.

(** The objects that the repository implements keep it. *)
Section library.
Context `{P : Platform} `{MP : MsgPuck} `{J : Jsmn} {V : Type}.
Context `{HT : !Holds V cc_calvinsys_timer_t} `{HS : !Holds V cc_calvinsys_schedule_t}.
Context `{HA : !Holds V cc_calvinsys_attribute_t}.

Lemma q_timer_set (t : cc_calvinsys_timer_t) timeout : quiet (cc_calvinsys_timer_set (V:=V) t timeout).
Proof. unfold cc_calvinsys_timer_set. quiet. Qed.
#[local] Hint Resolve q_timer_set : quiet.
Lemma q_timer_can_write l : quiet (cc_calvinsys_timer_can_write (V:=V) l).
Proof. unfold cc_calvinsys_timer_can_write. quiet. Qed.
#[local] Hint Resolve q_timer_can_write : quiet.
Lemma q_find_attribute name len : quiet (find_attribute (V:=V) name len).
Proof. unfold find_attribute. quiet. Qed.
#[local] Hint Resolve q_find_attribute : quiet.

Lemma quiet_timer : quiet_object (timer_methods (V:=V)).
Proof.
  split; intros; simplify_eq/=; first [apply q_timer_can_write
    | progress unfold cc_calvinsys_timer_write | progress unfold cc_calvinsys_timer_can_read
    | progress unfold cc_calvinsys_timer_read | progress unfold cc_calvinsys_timer_close]; quiet.
Qed.
Lemma quiet_timer_capability : quiet_capability (timer_capability (V:=V)).
Proof.
  split; intros; simplify_eq/=; first [progress unfold cc_calvinsys_timer_open|progress unfold cc_calvinsys_timer_deserialize]; quiet.
Qed.
Lemma quiet_schedule : quiet_object (schedule_methods (V:=V)).
Proof.
  split; intros; simplify_eq/=; first [progress unfold cc_calvinsys_schedule_can_write
    | progress unfold cc_calvinsys_schedule_write | progress unfold cc_calvinsys_schedule_can_read
    | progress unfold cc_calvinsys_schedule_read | progress unfold cc_calvinsys_schedule_close]; quiet.
Qed.
Lemma quiet_schedule_capability : quiet_capability (schedule_capability (V:=V)).
Proof. split; intros; simplify_eq/=; unfold cc_calvinsys_schedule_open; quiet. Qed.
Lemma quiet_attribute : quiet_object (attribute_methods (V:=V)).
Proof.
  split; intros; simplify_eq/=; first [progress unfold cc_calvinsys_attribute_can_write
    | progress unfold cc_calvinsys_attribute_write | progress unfold cc_calvinsys_attribute_can_read
    | progress unfold cc_calvinsys_attribute_read | progress unfold cc_calvinsys_attribute_close]; quiet.
Qed.
Lemma quiet_attribute_capability : quiet_capability (attribute_capability (V:=V)).
Proof.
  split; intros; simplify_eq/=;
    first [progress unfold cc_calvinsys_attribute_open|progress unfold cc_calvinsys_attribute_deserialize]; quiet.
Qed.
End library.

#[export] Instance library_quiet {D} `{DV : !Devices D} `{P : Platform} `{MP : MsgPuck} `{J : Jsmn}
  `{Q : !QuietDevices DV} types : QuietCode (library_code (D:=D) types).
Proof.
  split; intros i; simpl; [unfold lib_object|unfold lib_capability];
    destruct (i =? timer_code)%nat; [apply quiet_timer| |apply quiet_timer_capability|];
    (destruct (i =? schedule_code)%nat; [apply quiet_schedule || apply quiet_schedule_capability|]);
    (destruct (i =? attribute_code)%nat; [apply quiet_attribute || apply quiet_attribute_capability|]).
  - apply quiet_device_objects.
  - apply quiet_device_capabilities.
Qed.

(** The devices of the x86 platform keep it. *)
Section x86.
Context `{P : Platform} `{MP : MsgPuck} {V : Type}.
Context `{HG : !Holds V cc_gpio_state_t} `{HT : !Holds V cc_temperature_state_t} `{HA : !Holds V bool}.

Lemma quiet_gpio : quiet_object (gpio_methods (V:=V)).
Proof.
  split; intros; simplify_eq/=; first [progress unfold cc_gpio_can_write | progress unfold cc_gpio_write
    | progress unfold cc_gpio_can_read | progress unfold cc_gpio_read | progress unfold cc_gpio_close]; quiet.
Qed.
Lemma quiet_gpio_capability : quiet_capability (gpio_capability (V:=V)).
Proof. split; intros; simplify_eq/=; unfold cc_test_gpio_open; quiet. Qed.
Lemma quiet_temperature : quiet_object (temperature_methods (V:=V)).
Proof.
  split; intros; simplify_eq/=; first [progress unfold cc_temperature_can_write
    | progress unfold cc_temperature_write | progress unfold cc_temperature_can_read
    | progress unfold cc_temperature_read, get_add, set_add | progress unfold cc_temperature_close]; quiet.
Qed.
Lemma quiet_temperature_capability : quiet_capability (temperature_capability (V:=V)).
Proof. split; intros; simplify_eq/=; unfold cc_test_temperature_open; quiet. Qed.
End x86.

#[export] Instance x86_quiet `{P : Platform} `{MP : MsgPuck} : QuietDevices x86_devices.
Proof.
  split; intros [|[|i]]; simpl.
  - apply quiet_gpio.
  - apply quiet_temperature.
  - by split.
  - apply quiet_gpio_capability.
  - apply quiet_temperature_capability.
  - by split.
Qed.

(** So does the CoAP client, with its socket. *)
Section sockets.
Context {V : Type} `{P : Platform} `{SK : Sockets}.

Lemma q_os_tick : quiet (os_tick (V:=V)).
Proof. unfold os_tick. quiet. Qed.
#[local] Hint Resolve q_os_tick : quiet.
Lemma q_open_socket : quiet (open_socket (V:=V)).
Proof. unfold open_socket. quiet. Qed.
Lemma q_close_fd fd : quiet (close_fd (V:=V) fd).
Proof. unfold close_fd. quiet. Qed.
End sockets.
#[export] Hint Resolve q_os_tick q_open_socket q_close_fd : quiet.

Section coap.
Context {V : Type} `{P : Platform} `{MP : MsgPuck} `{SK : Sockets} `{LC : LibCoap} `{RS : Resolver}.
Context `{HC : !Holds V cc_coap_state_t}.

Lemma q_send_wire fd pdu : quiet (send_wire (V:=V) fd pdu).
Proof. unfold send_wire. quiet. Qed.
#[local] Hint Resolve q_send_wire : quiet.
Lemma q_coap_send_pdu obj start : quiet (cc_coap_send_pdu (V:=V) obj start).
Proof. unfold cc_coap_send_pdu. quiet. Qed.
Lemma q_coap_send_ack fd pdu : quiet (cc_coap_send_ack (V:=V) fd pdu).
Proof. unfold cc_coap_send_ack. quiet. Qed.
Lemma q_coap_payload r pdu : quiet (coap_payload (V:=V) r pdu).
Proof. unfold coap_payload. quiet. Qed.
Lemma q_connect_any_address l port : quiet (connect_any_address (V:=V) l port).
Proof. induction l as [|a l IH]; cbn [connect_any_address]; quiet. Qed.
#[local] Hint Resolve q_coap_send_pdu q_coap_send_ack q_coap_payload q_connect_any_address : quiet.
Lemma q_coap_setup ip port n : quiet (cc_coap_setup (V:=V) ip port n).
Proof. unfold cc_coap_setup. quiet. Qed.
#[local] Hint Resolve q_coap_setup : quiet.
Lemma q_coap_init args : quiet (cc_coap_init (V:=V) args).
Proof. unfold cc_coap_init. quiet. Qed.
#[local] Hint Resolve q_coap_init : quiet.

Lemma quiet_coap : quiet_object (coap_methods (V:=V)).
Proof.
  split; intros; simplify_eq/=; first [progress unfold cc_coap_can_write | progress unfold cc_coap_write
    | progress unfold cc_coap_can_read | progress unfold cc_coap_read | progress unfold cc_coap_close]; quiet.
Qed.
Lemma quiet_coap_capability : quiet_capability (coap_capability (V:=V)).
Proof. split; intros; simplify_eq/=; unfold cc_calvinsys_coap_open; quiet. Qed.
End coap.

#[export] Instance coap_quiet `{P : Platform} `{MP : MsgPuck} `{SK : Sockets} `{LC : LibCoap} `{RS : Resolver} :
  QuietDevices coap_devices.
Proof. split; intros i; cbn [device_object device_capability coap_devices]; [apply quiet_coap|apply quiet_coap_capability]. Qed.

(** ** Calvinsys over quiet code *)

Section calvinsys.
Context {V : Type} `{C : !Code V} `{Q : !QuietCode C} `{P : Platform} `{MP : MsgPuck}.

Lemma q_methods_of l : quiet (methods_of l).
Proof. unfold methods_of. quiet. Qed.
#[local] Hint Resolve q_methods_of : quiet.

Lemma methods_of_code l s m s' : methods_of l s = Ok (Some m, s') -> exists i, m = object_code i.
Proof.
  unfold methods_of. intros (o & t & _ & E)%bind_inv. cbv [mret M_ret] in E.
  destruct (obj_methods o); simplify_eq/=. eauto.
Qed.

Lemma q_with_object {A} id (absent : A) call :
  (forall l i f, call l (object_code i) = Some f -> quiet f) -> quiet (with_object id absent call).
Proof.
  intros H. unfold with_object. apply along_bind; [apply _|quiet|]. intros s.
  destruct (list_get (cs_objects s) id) as [item|]; [|quiet].
  intros s1 a s2 (m & s' & Em & E)%bind_inv. etransitivity; [by eapply q_methods_of|].
  destruct m as [m|]; simpl in E.
  - apply methods_of_code in Em as [i ->]. destruct (call (li_data item) (object_code i)) eqn:Ef.
    + by eapply H.
    + eapply along_ret; [apply _|done].
  - eapply along_ret; [apply _|done].
Qed.

Lemma q_can_write id : quiet (cc_calvinsys_can_write id).
Proof. apply q_with_object. intros l i f E. apply bind_Some in E as (g & Eg & [= <-]). by eapply (qo_can_write _ (quiet_objects i)). Qed.
Lemma q_write id d : quiet (cc_calvinsys_write id d).
Proof. apply q_with_object. intros l i f E. apply bind_Some in E as (g & Eg & [= <-]). by eapply (qo_write _ (quiet_objects i)). Qed.
Lemma q_can_read id : quiet (cc_calvinsys_can_read id).
Proof. apply q_with_object. intros l i f E. apply bind_Some in E as (g & Eg & [= <-]). by eapply (qo_can_read _ (quiet_objects i)). Qed.
Lemma q_read id : quiet (cc_calvinsys_read id).
Proof. apply q_with_object. intros l i f E. apply bind_Some in E as (g & Eg & [= <-]). by eapply (qo_read _ (quiet_objects i)). Qed.

Lemma q_close id : quiet (cc_calvinsys_close id).
Proof.
  unfold cc_calvinsys_close. apply along_bind; [apply _|quiet|]. intros s.
  destruct (list_get (cs_objects s) id) as [item|]; [|quiet].
  intros s1 a s2 (m & s' & Em & E)%bind_inv. etransitivity; [by eapply q_methods_of|].
  revert E. apply along_bind; [apply _| |intros ?; quiet].
  destruct m as [m|]; simpl; [|quiet]. apply methods_of_code in Em as [i ->].
  destruct (oc_close (object_code i)) eqn:Ec; [|quiet].
  apply along_bind; [apply _|by eapply (qo_close _ (quiet_objects i))|intros ?; quiet].
Qed.

Lemma q_add_init_args n init kwargs : quiet (add_init_args (V:=V) n init kwargs).
Proof. revert init kwargs. induction n; intros; simpl; quiet. Qed.
#[local] Hint Resolve q_add_init_args : quiet.

Lemma q_open actor name kwargs : quiet (cc_calvinsys_open actor name kwargs).
Proof.
  unfold cc_calvinsys_open. quiet. all: by eapply (qc_open _ (quiet_capabilities _)).
Qed.
End calvinsys.
#[export] Hint Resolve q_can_write q_write q_can_read q_read q_close q_open : quiet.
