(* ===== verification/Inert.v ===== *)
(** What most operations leave alone: a relation between worlds that does not look at
    links, actors, buffers and messages, nor at the fields of tunnels and ports other
    than the counter of a tunnel, the tunnel of a port and its connection attempts
    ([Inert]).  Every operation of this file keeps any such relation ([fr_*], the hints
    of [frame] and the tactic [framed]); its users bring the relation and the operations
    that it is about. *)
From S2P Require Import Prelude CString Common MsgPuck Coder Fifo Machine Transport ProtoSend.
From S2P Require Import Link FifoInit Port Proto Quiet.

Class Inert (R : relation world) : Prop := {
  inert_preorder :: PreOrder R;
  inert_links w x : R w (set_links x w);
  inert_actors w x : R w (set_actors x w);
  inert_mem w x : R w (set_mem x w);
  inert_next w : R w (set_next (Pos.succ (w_next w)) w);
  inert_calls w n : R w (set_calls n w);
  inert_sent w x : R w (set_sent x w);
  inert_node w n : node_storage_tunnel n = node_storage_tunnel (w_node w) ->
    node_proxy_tunnel n = node_proxy_tunnel (w_node w) -> R w (set_node n w);
  inert_tunnel w l x y : w_tunnels w !! l = Some x -> tunnel_ref_count y = tunnel_ref_count x ->
    R w (set_tunnels (<[l := y]> (w_tunnels w)) w);
  inert_port w l x y : w_ports w !! l = Some x -> port_tunnel y = port_tunnel x ->
    port_retries y = port_retries x -> R w (set_ports (<[l := y]> (w_ports w)) w)
}.

Create HintDb frame discriminated.
#[export] Hint Constants Opaque : frame.
#[export] Hint Extern 0 (Inert _) => apply _ : frame.

Ltac framed_step :=
  match goal with
  | |- along _ (mret _) => apply along_ret; apply _
  | |- along _ (ub_ _) => apply along_ub
  | |- along _ (lift_outcome _) => apply along_lift; apply _
  | |- along _ (need _ _) => apply along_need; apply _
  | |- along _ get_ => apply along_get; apply _
  | |- along _ (when ?b _) => destruct b; cbn [when]
  | |- along _ (mbind _ _) => apply along_bind; [apply _| |intros ?]
  | |- along _ (match ?x with _ => _ end) => destruct x eqn:?
  | |- along _ _ => solve [eauto 4 with frame]
  end.
Ltac framed := repeat framed_step.

(** What an update or a release of an object did. *)
Lemma upd_tunnel_inv l f w a w' : upd_tunnel l f w = Ok (a, w') ->
  exists x, w_tunnels w !! l = Some x /\ w' = set_tunnels (<[l := f x]> (w_tunnels w)) w.
Proof.
  intros (x & w1 & (w2 & w3 & E2 & E1)%bind_inv & E)%bind_inv. injection E2 as <- <-.
  destruct (w_tunnels w !! l) as [y|]; [|done]. injection E1 as -> <-. injection E as _ <-. by exists x.
Qed.
Lemma upd_port_inv l f w a w' : upd_port l f w = Ok (a, w') ->
  exists x, w_ports w !! l = Some x /\ w' = set_ports (<[l := f x]> (w_ports w)) w.
Proof.
  intros (x & w1 & (w2 & w3 & E2 & E1)%bind_inv & E)%bind_inv. injection E2 as <- <-.
  destruct (w_ports w !! l) as [y|]; [|done]. injection E1 as -> <-. injection E as _ <-. by exists x.
Qed.
Lemma free_tunnel_inv l w a w' : free_tunnel l w = Ok (a, w') ->
  exists x, w_tunnels w !! l = Some x /\ w' = set_tunnels (delete l (w_tunnels w)) w.
Proof.
  intros (x & w1 & (w2 & w3 & E2 & E1)%bind_inv & E)%bind_inv. injection E2 as <- <-.
  destruct (w_tunnels w !! l) as [y|]; [|done]. injection E1 as -> <-. injection E as _ <-. by exists x.
Qed.
Lemma free_port_inv l w a w' : free_port l w = Ok (a, w') ->
  exists x, w_ports w !! l = Some x /\ w' = set_ports (delete l (w_ports w)) w.
Proof.
  intros (x & w1 & (w2 & w3 & E2 & E1)%bind_inv & E)%bind_inv. injection E2 as <- <-.
  destruct (w_ports w !! l) as [y|]; [|done]. injection E1 as -> <-. injection E as _ <-. by exists x.
Qed.

Section basics.
Context {R : relation world} `{I : !Inert R}.
Abbreviation FR m := (along R m).

Lemma fr_get_node : FR get_node.
Proof. intros w a w' E. cbv in E. by simplify_eq. Qed.
Lemma fr_deref {A} (p : option A) : FR (deref p).
Proof. unfold deref. framed. Qed.
Lemma fr_get_link l : FR (get_link l).
Proof. unfold get_link. framed. Qed.
Lemma fr_get_tunnel l : FR (get_tunnel l).
Proof. unfold get_tunnel. framed. Qed.
Lemma fr_get_port l : FR (get_port l).
Proof. unfold get_port. framed. Qed.
Lemma fr_get_actor l : FR (get_actor l).
Proof. unfold get_actor. framed. Qed.
Lemma fr_put_link l x : FR (put_link l x).
Proof. apply along_modify. intros w. apply inert_links. Qed.
Lemma fr_put_actor l x : FR (put_actor l x).
Proof. apply along_modify. intros w. apply inert_actors. Qed.
Lemma fr_on_mem {A} (m : M mem A) : FR (on_mem m).
Proof. intros w a w' E. unfold on_mem, zoom in E. destruct (m (w_mem w)) as [[]|]; simplify_eq. apply inert_mem. Qed.
Lemma fr_fresh : FR fresh_loc.
Proof. intros w a w' E. cbv [fresh_loc mbind M_bind get_ put_ mret M_ret] in E. simplify_eq. apply inert_next. Qed.
Lemma fr_upd_node f : (forall x, node_storage_tunnel (f x) = node_storage_tunnel x
    /\ node_proxy_tunnel (f x) = node_proxy_tunnel x) -> FR (upd_node f).
Proof. intros H. apply along_modify. intros w. destruct (H (w_node w)). by apply inert_node. Qed.
Lemma fr_upd_tunnel l f : (forall x, tunnel_ref_count (f x) = tunnel_ref_count x) -> FR (upd_tunnel l f).
Proof. intros H w a w' (x & Hx & ->)%upd_tunnel_inv. by eapply inert_tunnel. Qed.
Lemma fr_upd_port l f : (forall x, port_tunnel (f x) = port_tunnel x) ->
  (forall x, port_retries (f x) = port_retries x) -> FR (upd_port l f).
Proof. intros H1 H2 w a w' (x & Hx & ->)%upd_port_inv. by eapply inert_port. Qed.
Hint Resolve fr_get_node fr_deref fr_get_link fr_get_tunnel fr_get_port fr_get_actor fr_put_link
  fr_put_actor fr_on_mem fr_fresh : frame.
Lemma fr_free_link l : FR (free_link l).
Proof. unfold free_link. framed. apply along_modify. intros w. apply inert_links. Qed.
Lemma fr_upd_actor l f : FR (upd_actor l f).
Proof. unfold upd_actor. framed. Qed.
Lemma fr_walk {B} alive l (find : list loc -> option B) : FR (walk alive l find).
Proof. unfold walk. framed. Qed.
Lemma fr_readable b n : FR (readable b n).
Proof. unfold readable. framed. Qed.
Lemma fr_in_buffer n b : FR (in_buffer n b).
Proof. unfold in_buffer. framed. Qed.
Lemma fr_copy_field n s : FR (copy_field n s).
Proof. unfold copy_field. framed. Qed.
Hint Resolve fr_free_link fr_upd_actor fr_walk fr_readable fr_in_buffer fr_copy_field : frame.
Lemma fr_walk_remove alive key l id : FR (walk_remove alive key l id).
Proof. unfold walk_remove. framed. Qed.
Hint Resolve fr_walk_remove : frame.

End basics.
#[export] Hint Resolve fr_get_node fr_deref fr_get_link fr_get_tunnel fr_get_port fr_get_actor fr_put_link
  fr_put_actor fr_on_mem fr_fresh fr_free_link fr_upd_actor fr_walk fr_readable fr_in_buffer fr_copy_field
  fr_walk_remove : frame.
#[export] Hint Extern 1 (along _ (upd_node _)) => apply fr_upd_node; by split : frame.
#[export] Hint Extern 1 (along _ (upd_tunnel _ _)) => apply fr_upd_tunnel; done : frame.
#[export] Hint Extern 1 (along _ (upd_port _ _)) => apply fr_upd_port; done : frame.

Section sends.
Context `{P : Platform}.
Context {R : relation world} `{I : !Inert R}.
Abbreviation FR m := (along R m).

Lemma fr_tick : FR tick.
Proof. intros w a w' E. cbv in E. simplify_eq. apply (inert_calls w). Qed.
Hint Resolve fr_tick : frame.
Lemma fr_alloc : FR cc_platform_mem_alloc.
Proof. unfold cc_platform_mem_alloc. framed. Qed.
Lemma fr_gen_uuid p : FR (gen_uuid p).
Proof. intros w a w' E. cbv [gen_uuid mbind M_bind get_ put_ mret M_ret] in E. simplify_eq. apply inert_calls. Qed.
Hint Resolve fr_alloc fr_gen_uuid : frame.
Lemma fr_gen_uuid_buffer p : FR (gen_uuid_buffer p).
Proof. unfold gen_uuid_buffer. framed. Qed.
Hint Resolve fr_gen_uuid_buffer : frame.
Lemma fr_gen_msg_uuid : FR gen_msg_uuid.
Proof. apply fr_gen_uuid_buffer. Qed.
Lemma fr_get_time : FR cc_platform_get_time.
Proof. unfold cc_platform_get_time. framed. Qed.
Lemma fr_alloc_buffer d : FR (alloc_buffer d).
Proof. unfold alloc_buffer. framed. apply along_modify. intros w. apply inert_mem. Qed.
Lemma fr_list_add h l : FR (cc_list_add h l).
Proof. unfold cc_list_add. framed. Qed.
Lemma fr_list_add_n {A} (h : list (cc_list_t A)) i n d z : FR (cc_list_add_n h i n d z).
Proof. unfold cc_list_add_n. framed. Qed.
Lemma fr_transport_send c b : FR (cc_transport_send c b).
Proof. unfold cc_transport_send. framed. apply along_modify. intros w. apply inert_sent. Qed.
Hint Resolve fr_gen_msg_uuid fr_get_time fr_alloc_buffer fr_list_add @fr_list_add_n fr_transport_send : frame.
Lemma fr_add_pending u h d : FR (cc_node_add_pending_msg u h d).
Proof. unfold cc_node_add_pending_msg. framed. Qed.
Lemma fr_remove_pending u : FR (cc_node_remove_pending_msg u).
Proof. unfold cc_node_remove_pending_msg. framed. Qed.
Lemma fr_get_pending u : FR (cc_node_get_pending_msg u).
Proof. unfold cc_node_get_pending_msg. framed. Qed.
Hint Resolve fr_add_pending fr_remove_pending fr_get_pending : frame.
Lemma fr_send_request n b u h d : FR (send_request n b u h d).
Proof. unfold send_request. framed. Qed.
Lemma fr_send_buffer n b : FR (send_buffer n b).
Proof. unfold send_buffer. framed. Qed.
Lemma fr_tunnel_peer t : FR (tunnel_peer t).
Proof. unfold tunnel_peer. framed. Qed.
Lemma fr_port_tunnel_id p : FR (port_tunnel_id p).
Proof. unfold port_tunnel_id. framed. Qed.
Hint Resolve fr_send_request fr_send_buffer fr_tunnel_peer fr_port_tunnel_id : frame.
Lemma fr_storage_route : FR storage_route.
Proof. unfold storage_route. framed. Qed.
End sends.
#[export] Hint Resolve fr_tick fr_alloc fr_gen_uuid fr_gen_uuid_buffer fr_gen_msg_uuid fr_get_time fr_alloc_buffer
  fr_list_add fr_list_add_n fr_transport_send fr_add_pending fr_remove_pending fr_get_pending fr_send_request
  fr_send_buffer fr_tunnel_peer fr_port_tunnel_id fr_storage_route : frame.

Section senders.
Context `{P : Platform} `{MP : MsgPuck}.
Context {R : relation world} `{I : !Inert R}.
Abbreviation FR m := (along R m).

Lemma fr_send_tunnel_request t h : FR (cc_proto_send_tunnel_request t h).
Proof. unfold cc_proto_send_tunnel_request. framed. Qed.
Lemma fr_send_tunnel_destroy t h : FR (cc_proto_send_tunnel_destroy t h).
Proof. unfold cc_proto_send_tunnel_destroy. framed. Qed.
Lemma fr_send_token p t n : FR (cc_proto_send_token p t n).
Proof. unfold cc_proto_send_token. framed. Qed.
Lemma fr_send_port_connect p h : FR (cc_proto_send_port_connect p h).
Proof. unfold cc_proto_send_port_connect. framed. Qed.
Lemma fr_send_port_disconnect p h : FR (cc_proto_send_port_disconnect p h).
Proof. unfold cc_proto_send_port_disconnect. framed. Qed.
Lemma fr_send_set_port p h : FR (cc_proto_send_set_port p h).
Proof. unfold cc_proto_send_set_port. framed. Qed.
Lemma fr_send_get_port i h d : FR (cc_proto_send_get_port i h d).
Proof. unfold cc_proto_send_get_port. framed. Qed.
Lemma fr_send_remove_port p h : FR (cc_proto_send_remove_port p h).
Proof. unfold cc_proto_send_remove_port. framed. Qed.
Lemma fr_tunnel_new_reply a b c d e f g : FR (proto_send_tunnel_new_reply a b c d e f g).
Proof. unfold proto_send_tunnel_new_reply. framed. Qed.
Lemma fr_port_connect_reply a b c d e f g : FR (cc_proto_send_port_connect_reply a b c d e f g).
Proof. unfold cc_proto_send_port_connect_reply. framed. Qed.
Lemma fr_port_disconnect_reply a b c d e : FR (cc_proto_send_port_disconnect_reply a b c d e).
Proof. unfold cc_proto_send_port_disconnect_reply. framed. Qed.

(** Links, and the lookups of tunnels. *)
Lemma fr_link_get i n : FR (cc_link_get i n).
Proof. unfold cc_link_get. framed. Qed.
Hint Resolve fr_link_get : frame.
Lemma fr_link_free l : FR (cc_link_free l).
Proof. unfold cc_link_free. framed. Qed.
Hint Resolve fr_link_free : frame.
Lemma fr_link_add_ref l : FR (cc_link_add_ref l).
Proof. unfold cc_link_add_ref. framed. Qed.
Lemma fr_link_remove_ref l : FR (cc_link_remove_ref l).
Proof. unfold cc_link_remove_ref. framed. Qed.
Lemma fr_link_create i n b : FR (cc_link_create i n b).
Proof. unfold cc_link_create. framed. Qed.
Lemma fr_tunnel_get_from_id i n : FR (cc_tunnel_get_from_id i n).
Proof. unfold cc_tunnel_get_from_id. framed. Qed.
Lemma fr_find_peer_tunnel i n t l : FR (find_peer_tunnel i n t l).
Proof. induction l; simpl; framed. Qed.
Hint Resolve fr_find_peer_tunnel : frame.
Lemma fr_tunnel_get_peer i n t : FR (cc_tunnel_get_from_peerid_and_type i n t).
Proof. unfold cc_tunnel_get_from_peerid_and_type. framed. Qed.
End senders.
#[export] Hint Resolve fr_send_tunnel_request fr_send_tunnel_destroy fr_send_token fr_send_port_connect
  fr_send_port_disconnect fr_send_set_port fr_send_get_port fr_send_remove_port fr_tunnel_new_reply
  fr_port_connect_reply fr_port_disconnect_reply fr_link_get fr_link_add_ref fr_link_remove_ref fr_link_create
  fr_tunnel_get_from_id fr_tunnel_get_peer : frame.

Section ports.
Context {R : relation world} `{I : !Inert R}.
Abbreviation FR m := (along R m).

(** Ports, their queues and their actors. *)
Lemma fr_get_fifo l : FR (get_fifo l).
Proof. unfold get_fifo. framed. Qed.
Lemma fr_put_fifo l f : FR (put_fifo l f).
Proof. unfold put_fifo. framed. Qed.
Lemma fr_set_actor_state a s : FR (cc_actor_set_state a s).
Proof. unfold cc_actor_set_state. framed. Qed.
Lemma fr_ports_state l : FR (ports_state l).
Proof. induction l; simpl; framed. Qed.
Hint Resolve fr_get_fifo fr_put_fifo fr_set_actor_state fr_ports_state : frame.
Lemma fr_port_state_changed a : FR (cc_actor_port_state_changed a).
Proof. unfold cc_actor_port_state_changed. framed. Qed.
Hint Resolve fr_port_state_changed : frame.
(** The state that disconnects a port, or asks for something, is only a state. *)
Lemma set_state_inv p s w a w' : cc_port_set_state p s w = Ok (a, w') -> exists x,
  let y := set_port_state s (if bool_decide (s = CC_PORT_ENABLED) && negb (bool_decide (port_state x = CC_PORT_ENABLED))
                             then set_port_retries 0 x else x) in
  w_ports w !! p = Some x
  /\ cc_actor_port_state_changed (port_actor y) (set_ports (<[p := y]> (w_ports w)) w) = Ok (a, w').
Proof.
  intros (x & w1 & (w2 & w3 & E2 & E1)%bind_inv & E)%bind_inv. injection E2 as <- <-.
  destruct (w_ports w !! p) as [q|]; [|done]. injection E1 as -> <-. exists x. split; [done|].
  apply bind_inv in E as ([] & w2 & E2 & E). injection E2 as <-.
  destruct (_ && _) in E |- *; exact E.
Qed.
Lemma fr_port_set_state p s : s <> CC_PORT_ENABLED -> FR (cc_port_set_state p s).
Proof.
  intros Hs w a w' (x & Hx & E)%set_state_inv. rewrite bool_decide_false in E by done. cbn [andb] in E.
  etransitivity; [by eapply (inert_port _ p x (set_port_state s x))|by eapply fr_port_state_changed].
Qed.
Lemma fr_clear_peer_id p : FR (clear_peer_id p).
Proof. unfold clear_peer_id. framed. Qed.
Lemma fr_port_in l i n : FR (port_in l i n).
Proof. unfold port_in. framed. Qed.
Lemma fr_first_port f l : FR (first_port f l).
Proof. induction l; simpl; framed. Qed.
Hint Resolve fr_clear_peer_id fr_port_in fr_first_port : frame.
Lemma fr_find_port i n l : FR (find_port i n l).
Proof. induction l; simpl; framed. Qed.
Lemma fr_find_peer_port i n l : FR (find_peer_port i n l).
Proof. induction l; simpl; framed. Qed.
Hint Resolve fr_find_port fr_find_peer_port : frame.
Lemma fr_port_get i n : FR (cc_port_get i n).
Proof. unfold cc_port_get. framed. Qed.
Lemma fr_port_get_peer i n : FR (cc_port_get_from_peer_port_id i n).
Proof. unfold cc_port_get_from_peer_port_id. framed. Qed.
Lemma fr_set_peer_to_self p : FR (set_peer_to_self p).
Proof. unfold set_peer_to_self. framed. Qed.
Hint Resolve fr_port_get fr_port_get_peer fr_set_peer_to_self : frame.
End ports.
#[export] Hint Resolve fr_get_fifo fr_put_fifo fr_set_actor_state fr_ports_state fr_port_state_changed
  fr_clear_peer_id fr_port_in fr_first_port fr_find_port fr_find_peer_port fr_port_get fr_port_get_peer
  fr_set_peer_to_self : frame.
#[export] Hint Extern 1 (along _ (cc_port_set_state _ _)) => apply fr_port_set_state; discriminate : frame.

Section queues.
Context `{P : Platform} `{MP : MsgPuck}.
Context {R : relation world} `{I : !Inert R}.
Abbreviation FR m := (along R m).

Lemma fr_peer_lookup p : FR (cc_port_do_peer_lookup p).
Proof. unfold cc_port_do_peer_lookup. framed. Qed.
Lemma fr_transmit_token p : FR (transmit_token p).
Proof. unfold transmit_token, cc_fifo_com_peek, cc_fifo_peek, get_slot. framed. Qed.
Lemma fr_set_slot f i d n : FR (set_slot_data f i d n).
Proof. unfold set_slot_data. framed. Qed.
Hint Resolve fr_set_slot : frame.
Lemma fr_init_tokens b n i f : FR (init_tokens b n i f).
Proof. revert i f. induction n; intros; cbn [init_tokens]; framed. Qed.
Hint Resolve fr_init_tokens : frame.
Lemma fr_init_positions r f : FR (init_positions r f).
Proof. unfold init_positions. framed. Qed.
Hint Resolve fr_init_positions : frame.
Lemma fr_fifo_init o b : FR (cc_fifo_init o b).
Proof. unfold cc_fifo_init. framed. Qed.
Lemma fr_handle_token p d n q : FR (cc_node_handle_token p d n q).
Proof. unfold cc_node_handle_token. framed. Qed.
Lemma fr_handle_token_reply i n t q : FR (cc_node_handle_token_reply i n t q).
Proof. unfold cc_node_handle_token_reply. framed. Qed.
Hint Resolve fr_handle_token fr_handle_token_reply : frame.
Lemma fr_parse_token r : FR (proto_parse_token r).
Proof. unfold proto_parse_token. framed. Qed.
Lemma fr_parse_token_reply r : FR (proto_parse_token_reply r).
Proof. unfold proto_parse_token_reply. framed. Qed.
Lemma fr_parse_destroy r : FR (proto_parse_destroy r).
Proof. unfold proto_parse_destroy, upd_node_state, upd_node_stop_method. framed. Qed.
Lemma fr_store_reply d : FR (cc_port_store_reply_handler d).
Proof. unfold cc_port_store_reply_handler. framed. Qed.
Lemma fr_tunnel_request_reply d : FR (tunnel_request_handler d).
Proof. unfold tunnel_request_handler. framed. Qed.
Lemma fr_tunnel_destroy_reply d : FR (tunnel_destroy_handler d).
Proof. unfold tunnel_destroy_handler. framed. Qed.
Lemma fr_remove_reply d : FR (cc_port_remove_reply_handler d).
Proof. unfold cc_port_remove_reply_handler. framed. Qed.
Lemma fr_disconnect_reply d : FR (cc_port_disconnect_reply_handler d).
Proof. unfold cc_port_disconnect_reply_handler. framed. Qed.
Lemma fr_copy_msg_uuid s : FR (copy_msg_uuid s).
Proof. apply fr_copy_field. Qed.
End queues.
#[export] Hint Resolve fr_peer_lookup fr_transmit_token fr_fifo_init fr_parse_token fr_parse_token_reply
  fr_parse_destroy fr_store_reply fr_tunnel_request_reply fr_tunnel_destroy_reply
  fr_remove_reply fr_disconnect_reply fr_copy_msg_uuid : frame.
