(* ===== verification/SensorProps.v ===== *)
(** Properties of the sensor actors and of the counting actor: what their timers let
    them do. *)
From S2P Require Import Prelude CString Common Json MsgPuck MsgPackRef Coder Fifo Machine Transport.
From S2P Require Import ProtoSend Port Proto Runtime Calvinsys Timer ActorLib CountTimer Sensors Library.
From S2P Require Import FifoSpec MsgSpec Examples Runs PortProps ActorProps TimerProps Quiet.

(** ** An object that is a timer *)

Section timer_object.
Context {V : Type} `{C : !Code V} `{P : Platform} `{MP : MsgPuck} `{H : !Holds V cc_calvinsys_timer_t}.
Implicit Types s : rt V.

(** The timer that calvinsys has under an identifier. *)
Record timer_ref s (id : bytes) (l : loc) (o : cc_calvinsys_obj_t V) (tm : cc_calvinsys_timer_t) : Prop := {
  tr_item : li_data <$> list_get (cs_objects s) id = Some l;
  tr_obj : rt_objs s !! l = Some o;
  tr_methods : obj_methods o = Some timer_code;
  tr_state : obj_state o = Some (hold tm)
}.

Lemma timer_ref_later s id l o tm c : timer_ref s id l o tm -> timer_ref (later c s) id l o tm.
Proof. by intros []. Qed.

Hypothesis Htimer : object_code timer_code = timer_methods.

(** A method that is called through the identifier is the timer's. *)
Lemma run_with_timer {A} s id l o tm (absent : A) (call : loc -> cc_obj_code_t V -> option (R V A)) f :
  timer_ref s id l o tm -> call l timer_methods = Some f -> with_object id absent call s = f s.
Proof using Htimer.
  intros [Hi Ho Hm Hs] Ef. unfold with_object. rrun1.
  destruct (list_get (cs_objects s) id) as [item|]; [|done]. injection Hi as Hi. rewrite Hi.
  assert (methods_of l s = Ok (Some timer_methods, s)) as E.
  { unfold methods_of. rrun1. rewrite Hm. simpl. by rewrite Htimer. }
  rewrite (bind_Ok _ _ _ _ _ E). simpl. by rewrite Ef.
Qed.

Lemma run_timer_can_read s id l o tm : timer_ref s id l o tm ->
  cc_calvinsys_can_read id s = Ok (tm_triggered tm, s).
Proof using Htimer.
  intros Hr. unfold cc_calvinsys_can_read. erewrite run_with_timer by (exact Hr || reflexivity).
  unfold cc_calvinsys_timer_can_read. destruct Hr as [_ Ho _ Hs].
  by rewrite (bind_Ok _ _ _ _ _ (run_get_obj_state s l o tm Ho Hs)).
Qed.

Lemma run_timer_refuses s id l o tm data : timer_ref s id l o tm -> tm_triggered tm || tm_armed tm = true ->
  cc_calvinsys_write id data s = Ok (CC_FAIL, s).
Proof using Htimer.
  intros Hr Hb. unfold cc_calvinsys_write. erewrite run_with_timer by (exact Hr || reflexivity).
  unfold cc_calvinsys_timer_write, cc_calvinsys_timer_can_write. destruct Hr as [_ Ho _ Hs].
  assert ((timer ← get_obj_state cc_calvinsys_timer_t l; mret (negb (tm_triggered timer || tm_armed timer))) s
          = Ok (false, s)) as E.
  { rewrite (bind_Ok _ _ _ _ _ (run_get_obj_state s l o tm Ho Hs)), Hb. done. }
  by rewrite (bind_Ok _ _ _ _ _ E).
Qed.
End timer_object.

(** ** sensor.TemperatureTagged *)

(** C34: the tagged temperature sensor never fires.  It waits for its timer to have
    triggered and only then writes to it, which a triggered timer refuses; so
    whatever the temperature and the queue have, a firing answers [false] and leaves
    the runtime as it was, the count of platform calls aside: the sensor is never
    read and no token is ever written. *)
Theorem tagged_never_fires {V} `{C : !Code V} `{P : Platform} `{MP : MsgPuck}
  `{H : !Holds V cc_calvinsys_timer_t} `{HT : !Holds V temperature_tagged_state_t}
  (s : rt V) (actor port : loc) a i st l o tm p f ready room :
  object_code timer_code = timer_methods ->
  w_actors (rt_world s) !! actor = Some a -> head (actor_out_ports a) = Some port ->
  w_ports (rt_world s) !! port = Some p -> port_fifo p = Some f -> cc_fifo_slots_available f 1 = Ok room ->
  rt_instances s !! actor = Some i -> inst_state i = Some (hold st) ->
  timer_ref s (tt_timer st) l o tm -> cc_calvinsys_can_read (tt_temperature st) s = Ok (ready, s) ->
  exists c, cc_actor_temperature_tagged_fire actor s = Ok (false, later c s).
Proof.
  intros Hc Ha Hout Hp Hf Hroom Hi Hst Ht Hready. unfold cc_actor_temperature_tagged_fire.
  rewrite (bind_Ok _ _ _ _ _ (run_first_out_port s actor a port Ha Hout)).
  rewrite (bind_Ok _ _ _ _ _ (run_get_inst_state s actor i st Hi Hst)).
  rewrite (bind_Ok _ _ _ _ _ (run_timer_can_read Hc s _ l o tm Ht)).
  destruct (tm_triggered tm) eqn:Htr; [|by exists (w_calls (rt_world s)); destruct s as [[]]].
  rewrite (bind_Ok _ _ _ _ _ Hready). destruct ready; [|by exists (w_calls (rt_world s)); destruct s as [[]]].
  assert (on_world (port_slots_available port 1) s = Ok (room, s)) as E.
  { rewrite <- (set_world_id s) at 2. by apply run_on_world, (run_port_slots _ port p f Hp Hf). }
  rewrite (bind_Ok _ _ _ _ _ E). destruct room; [|by exists (w_calls (rt_world s)); destruct s as [[]]].
  set (n := w_calls (rt_world s)). exists (S n).
  assert (on_world cc_platform_mem_alloc s = Ok (plat_alloc n, later (S n) s)) as E' by by apply run_on_world.
  rewrite (bind_Ok _ _ _ _ _ E'). destruct (plat_alloc n); [|done].
  rewrite (bind_Ok _ _ _ _ _ (run_timer_refuses Hc _ _ l o tm _ (timer_ref_later _ _ _ _ _ _ Ht) ltac:(by rewrite Htr))).
  done.
Qed.

(** The timer has triggered, the temperature is ready and the queue empty. *)
Definition rung_timer : cc_calvinsys_timer_t :=
  {| tm_timeout := 60; tm_armed := false; tm_next_time := 2; tm_repeats := false; tm_triggered := true |}.
Definition an_obj (methods : nat) (state : option (lib_state unit)) : cc_calvinsys_obj_t (lib_state unit) :=
  {| obj_methods := Some methods; obj_state := state; obj_actor := 12%positive; obj_capability := 30%positive |}.
Definition an_item (id : bytes) (l : loc) : cc_list_t loc := list_item_n id (length id) l 0.
Definition tagged_rt : rt (lib_state unit) :=
  lib_rt 6 (Some (S_tagged {| tt_temperature := str "temp"; tt_timer := str "t1" |})) []
    [an_item (str "temp") 31%positive; an_item (str "t1") 32%positive] ∅
    (<[31%positive := an_obj 4 None]> {[32%positive := an_obj timer_code (Some (S_timer rung_timer))]}).

Lemma tagged_never_fires_witness :
  exists c, cc_actor_temperature_tagged_fire 12%positive tagged_rt = Ok (false, later c tagged_rt).
Proof.
  apply (tagged_never_fires tagged_rt 12%positive 23%positive
           (an_actor (str "actor-c") [22%positive] [23%positive] CC_ACTOR_ENABLED)
           {| inst_type := 6; inst_state := Some (S_tagged {| tt_temperature := str "temp"; tt_timer := str "t1" |}) |}
           {| tt_temperature := str "temp"; tt_timer := str "t1" |} 32%positive
           (an_obj timer_code (Some (S_timer rung_timer))) rung_timer out_port (new_fifo 4) true true);
    try reflexivity. split; reflexivity.
Defined.

(** ** sensor.Accelerometer *)

(** A runtime with an accelerometer whose platform gives [args]. *)
Definition level_rt (args : option bytes) : rt (lib_state unit) :=
  lib_rt 8 None [an_item (str "io.accelerometer") 30%positive] []
    {[30%positive := {| cap_name := str "io.accelerometer"; cap_code := 4; cap_init_args := args; cap_python_module := None |}]} ∅.
Definition level_attributes : list (cc_list_t bytes) := [list_item_n (str "period") 6 [Byte.x05] 1].
Definition pin_args : bytes := cc_coder_encode_kv_uint (cc_coder_encode_map [] 1) (str "pin") 5.

(** Without arguments of the platform the actor gets its state; with one that it did
    not give itself, its attributes are freed with a value that is not from the heap. *)
Lemma accelerometer_init_args_freed :
  (r ← cc_actor_accelerometer_init 12%positive level_attributes;
   s ← get_inst_state cc_state_t 12%positive; mret (r, lv_period s)) (level_rt None)
    ≫= (fun x => Ok x.1) = Ok (CC_SUCCESS, Some [Byte.x05])
  /\ cc_actor_accelerometer_init 12%positive level_attributes (level_rt (Some pin_args)) = Ub BadFree.
Proof. split; vm_compute; reflexivity. Qed.

(** * The count timer (cc_actor_counttimer.c): what it has written is the sequence of
    numbers up to its count, over any run of the actor and its reader. *)

(** ** Normal ends *)

(** Every normal end of a computation from [s] satisfies [Q]. *)
Definition wlp {S A} (m : M S A) (Q : A -> S -> Prop) (s : S) : Prop :=
  forall a s', m s = Ok (a, s') -> Q a s'.

Section wlp.
Context {S : Type}.
Lemma wlp_ret {A} (a : A) (Q : A -> S -> Prop) s : Q a s -> wlp (mret a) Q s.
Proof. intros H a' s' E. injection E as <- <-. done. Qed.
Lemma wlp_bind {A B} (m : M S A) (f : A -> M S B) Q s :
  wlp m (fun a s' => wlp (f a) Q s') s -> wlp (m ≫= f) Q s.
Proof. intros H b s' (a & t & E1 & E2)%bind_inv. exact (H a t E1 b s' E2). Qed.
Lemma wlp_mono {A} (m : M S A) (Q R : A -> S -> Prop) s :
  wlp m Q s -> (forall a s', Q a s' -> R a s') -> wlp m R s.
Proof. intros H HR a s' E. by apply HR, H. Qed.
Lemma wlp_run {A} (m : M S A) a s s' (Q : A -> S -> Prop) : m s = Ok (a, s') -> Q a s' -> wlp m Q s.
Proof. intros E H b t E'. rewrite E in E'. injection E' as <- <-. done. Qed.
Lemma wlp_along {A} (R : S -> S -> Prop) (m : M S A) (Q : A -> S -> Prop) s :
  along R m -> (forall a s', R s s' -> Q a s') -> wlp m Q s.
Proof. intros H HQ a s' E. by eapply HQ, H. Qed.
End wlp.

(** ** The stream *)

(** A token that owns the buffer with the bytes [d]. *)
Definition token_is (m : mem) (t : cc_token_t) (d : bytes) : Prop :=
  exists l, tok_value t = Some l /\ m !! l = Some d /\ tok_size t = Z.of_nat (length d).

Section count.
Context {V : Type} `{C : !Code V} `{Q : !QuietCode C} `{P : Platform} `{MP : MsgPuck}.
Context `{H : !Holds V cc_actor_counttimer_state_t}.
Variables (actor o : loc).
Implicit Types (s : rt V) (st : cc_actor_counttimer_state_t).

(** The actor has the state [st] and its first out-port the queue with the tokens
    [data], of which at most [n] have ever been written. *)
Record counting s st (n : Z) (data : list bytes) : Prop := {
  ct_inst : exists i, rt_instances s !! actor = Some i /\ inst_state i = Some (hold st);
  ct_actor : exists a, w_actors (rt_world s) !! actor = Some a /\ head (actor_out_ports a) = Some o;
  ct_queue : exists p f q, w_ports (rt_world s) !! o = Some p /\ port_fifo p = Some f /\ repr f q
    /\ write_pos f <= n /\ Forall2 (token_is (w_mem (rt_world s))) (aq_all q) data;
  ct_fresh : forall l, is_Some (w_mem (rt_world s) !! l) -> (l < w_next (rt_world s))%positive
}.

Lemma counting_same s s' st n data : same s s' -> counting s st n data -> counting s' st n data.
Proof.
  intros [[Hp Ha Hm Hn] Hi] [Ci Ca Cq Cf]. split; rewrite ?Hp, ?Ha, ?Hm, ?Hi; try done.
  intros l Hl. specialize (Cf l Hl). lia.
Qed.

Lemma wlp_quiet {A} (m : R V A) (R : A -> rt V -> Prop) s st n data : quiet m -> counting s st n data ->
  (forall a s', counting s' st n data -> R a s') -> wlp m R s.
Proof.
  intros Hm Hc HR. eapply wlp_along; [exact Hm|]. intros a s' Hs. by eapply HR, counting_same.
Qed.

Lemma wlp_state (R : _ -> rt V -> Prop) s st n data : counting s st n data -> R st s ->
  wlp (get_inst_state cc_actor_counttimer_state_t actor) R s.
Proof.
  intros [(i & Hi & Hs) _ _ _] HR. eapply wlp_run; [by eapply run_get_inst_state|done].
Qed.

Lemma wlp_put st' (R : unit -> rt V -> Prop) s st n data : counting s st n data ->
  (forall s', counting s' st' n data -> R tt s') -> wlp (put_inst_state actor st') R s.
Proof.
  intros [(i & Hi & Hs) Ca Cq Cf] HR. unfold put_inst_state.
  eapply wlp_run; [by rewrite (bind_Ok _ _ _ _ _ (run_get_instance s actor i Hi))|]. apply HR.
  split; try done. eexists. split; [apply lookup_insert_eq|done].
Qed.

Lemma wlp_upd f (R : unit -> rt V -> Prop) s st n data : counting s st n data ->
  (forall s', counting s' (f st) n data -> R tt s') -> wlp (upd_inst_state actor f) R s.
Proof.
  intros Hc HR. unfold upd_inst_state. eapply wlp_bind, wlp_state; [done|]. by eapply wlp_put.
Qed.

Lemma wlp_out (R : loc -> rt V -> Prop) s st n data : counting s st n data -> R o s ->
  wlp (first_out_port actor) R s.
Proof.
  intros [_ (a & Ha & Ho) _ _] HR. eapply wlp_run; [by eapply run_first_out_port|done].
Qed.

Hypothesis Hmem : forall n, plat_alloc n = true.

Lemma token_is_insert m l d t b : (forall k, is_Some (m !! k) -> (k < l)%positive) ->
  token_is m t b -> token_is (<[l := d]> m) t b.
Proof.
  intros Hf (k & Hk & Hm & Hs). exists k. split; [done|]. split; [|done].
  rewrite lookup_insert_ne; [done|]. intros <-. specialize (Hf l ltac:(eauto)). lia.
Qed.

(** The write of a number: when the queue takes it, it is the last token. *)
Lemma wlp_write_count c (R : bool -> rt V -> Prop) s st n data : counting s st n data -> n + 1 < 2 ^ 32 ->
  (forall s', counting s' st n data -> R false s') ->
  (forall s', counting s' st (n + 1) (data ++ [mp_encode_uint c]) -> R true s') ->
  wlp (on_world (write_count o c)) R s.
Proof.
  intros [Ci Ca (p & f & q & Hp & Hf & Hr & Hw & Hd) Cf] Hn Hno Hyes.
  set (w := rt_world s). set (d := mp_encode_uint c). set (w1 := with_copy d w).
  set (t := {| tok_value := Some (w_next w); tok_size := Z.of_nat (length d) |}).
  assert (w_ports w1 !! o = Some p) as Hp1 by done.
  assert (alloc_buffer d w = Ok (Some (w_next w), w1)) as Ea by by rewrite run_alloc_buffer, Hmem.
  assert (forall k, is_Some (w_mem w1 !! k) -> (k < w_next w1)%positive) as Hf1.
  { intros k. simpl. rewrite lookup_insert_is_Some. intros [->|[_ Hk]]; [lia|]. specialize (Cf k Hk). fold w in Cf. lia. }
  destruct (Z_lt_ge_dec (Z.of_nat (length (aq_all q))) (fifo_size f - 1)) as [Hl|Hl].
  - destruct (cc_fifo_write_room f q (tok_value t) (tok_size t) (w_mem w1) Hr ltac:(lia) Hl)
      as (f' & Ew & Hr' & Hw' & _).
    eapply wlp_run.
    { apply run_on_world. unfold write_count. change (cc_coder_encode_uint [] c) with d. fold w. run_with Ea.
      unfold write_or_free. run_with (run_port_write w1 o p f Hp1 Hf _ _ _ _ Ew). reflexivity. }
    apply Hyes. split; try done. exists (set_port_fifo (Some f') p), f', {| pending := pending q; unread := unread q ++ [t] |}.
    split; [apply lookup_insert_eq|]. split; [done|]. split; [done|]. split; [lia|].
    unfold aq_all. simpl. rewrite app_assoc. apply Forall2_app.
    + eapply Forall2_impl; [exact Hd|]. intros u b. by apply token_is_insert.
    + constructor; [|constructor]. exists (w_next w). split; [done|]. split; [apply lookup_insert_eq|done].
  - pose proof (cc_fifo_write_full f q (tok_value t) (tok_size t) (w_mem w1) Hr ltac:(lia)) as Ew.
    assert (on_mem (mem_free (w_next w)) w1 = Ok (tt, set_mem (w_mem w) w1)) as Efree.
    { apply run_on_mem. unfold mem_free. exec. unfold get_. rewrite lookup_insert_eq. simpl.
      rewrite delete_insert_id; [done|]. apply eq_None_not_Some. intros Hl'. specialize (Cf _ Hl'). fold w in Cf. lia. }
    eapply wlp_run.
    { apply run_on_world. unfold write_count. change (cc_coder_encode_uint [] c) with d. fold w. run_with Ea.
      unfold write_or_free. run_with (run_port_write w1 o p f Hp1 Hf _ _ _ _ Ew).
      rewrite (with_fifo_id w1) by done. rewrite bool_decide_false by done. by run_with Efree. }
    apply Hno. split; try done.
    + exists p, f, q. done.
    + intros l Hl'. specialize (Cf l Hl'). simpl. fold w in Cf |- *. lia.
Qed.

(** ** The steps *)

Definition args_ok st : Prop := 0 <= ct_start st /\ 0 <= ct_count st <= ct_steps st /\ ct_steps st < 2 ^ 32.

(** From one state to another the count may grow, up to the number of steps. *)
Record advances st st' : Prop := {
  adv_sleep : ct_sleep st' = ct_sleep st;
  adv_start : ct_start st' = ct_start st;
  adv_steps : ct_steps st' = ct_steps st;
  adv_count : ct_count st <= ct_count st' <= ct_steps st
}.

(** The numbers that are written in between. *)
Definition counted st st' : list bytes := map mp_encode_uint (seqZ (ct_count st) (ct_count st' - ct_count st)).

Definition stream_step (m : R V bool) : Prop := forall s st data, args_ok st -> counting s st (ct_count st) data ->
  wlp m (fun _ s' => exists st', advances st st' /\ counting s' st' (ct_count st') (data ++ counted st st')) s.

Lemma counted_none st st' : ct_count st' = ct_count st -> counted st st' = [].
Proof. intros E. unfold counted. by rewrite E, Z.sub_diag. Qed.
Lemma counted_one st st' : ct_count st' = ct_count st + 1 -> counted st st' = [mp_encode_uint (ct_count st)].
Proof. intros E. unfold counted. rewrite E. by replace (ct_count st + 1 - ct_count st) with 1 by lia. Qed.
Lemma counted_app st st' st'' : ct_count st <= ct_count st' <= ct_count st'' ->
  counted st st' ++ counted st' st'' = counted st st''.
Proof.
  intros Hc. unfold counted. rewrite <- map_app. f_equal.
  replace (ct_count st'' - ct_count st) with ((ct_count st' - ct_count st) + (ct_count st'' - ct_count st')) by lia.
  rewrite seqZ_app by lia. by replace (ct_count st + (ct_count st' - ct_count st)) with (ct_count st') by lia.
Qed.

(** Two states that differ in the timer at most. *)
Definition same_args st st' : Prop := ct_count st' = ct_count st /\ ct_sleep st' = ct_sleep st
  /\ ct_start st' = ct_start st /\ ct_steps st' = ct_steps st.

Lemma stream_done s st st' data : args_ok st -> same_args st st' -> counting s st' (ct_count st) data ->
  exists st', advances st st' /\ counting s st' (ct_count st') (data ++ counted st st').
Proof.
  intros Ha (Hc & H1 & H2 & H3) Hs. exists st'. rewrite counted_none, app_nil_r, Hc by done. split; [|done].
  destruct Ha as (_ & Ha & _). split; (done || lia).
Qed.
Lemma stream_one s st st' data : args_ok st -> ct_count st < ct_steps st -> ct_count st' = u32 (ct_count st + 1) ->
  ct_sleep st' = ct_sleep st -> ct_start st' = ct_start st -> ct_steps st' = ct_steps st ->
  counting s st' (ct_count st + 1) (data ++ [mp_encode_uint (ct_count st)]) ->
  exists st', advances st st' /\ counting s st' (ct_count st') (data ++ counted st st').
Proof.
  intros (_ & Ha & Hb) Hlt Hc H1 H2 H3 Hs. rewrite u32_id in Hc by (unfold is_u32; lia).
  exists st'. rewrite counted_one, Hc by done. split; [|done]. split; (done || lia).
Qed.

(** The operation at the head of a step, when it leaves the stream alone. *)
Ltac ct_quiet Hc b s' Hc' :=
  apply wlp_bind; eapply wlp_quiet; [quiet|exact Hc|]; clear Hc; intros b s' Hc'.

Ltac ct_done Hc := eapply wlp_ret, stream_done; [eassumption| |exact Hc]; done.

Lemma stop_streams : stream_step (cc_actor_counttimer_stop actor).
Proof using Q.
  intros s st data Ha Hc. unfold cc_actor_counttimer_stop. eapply wlp_bind, wlp_state; [exact Hc|].
  destruct (ct_stopped st); [ct_done Hc|].
  destruct (ct_count st =? ct_steps st); [|ct_done Hc].
  ct_quiet Hc x s' Hc'. eapply wlp_bind, wlp_upd; [exact Hc'|]. intros s2 Hc2. ct_done Hc2.
Qed.

(** The end of both steps that write. *)
Lemma stream_counted s st data (b : bool) : args_ok st -> ct_count st < ct_steps st ->
  counting s st (ct_count st + 1) (data ++ [mp_encode_uint (ct_count st)]) ->
  wlp (upd_inst_state actor (fun x => set_ct_count (u32 (ct_count x + 1)) x) ;; mret b)
    (fun _ s' => exists st', advances st st' /\ counting s' st' (ct_count st') (data ++ counted st st')) s.
Proof.
  intros Ha Hlt Hc. eapply wlp_bind, wlp_upd; [exact Hc|]. intros s' Hc'.
  eapply wlp_ret, stream_one; [eassumption|exact Hlt| | | | |exact Hc']; done.
Qed.

Lemma periodic_streams : stream_step (cc_actor_counttimer_step_periodic actor).
Proof using Q Hmem.
  intros s st data Ha Hc. unfold cc_actor_counttimer_step_periodic.
  eapply wlp_bind, wlp_out; [exact Hc|]. eapply wlp_bind, wlp_state; [exact Hc|].
  destruct (Z.leb_spec (ct_steps st) (ct_count st)); simpl; [ct_done Hc|].
  ct_quiet Hc b s1 Hc1. destruct b; [|ct_done Hc1].
  ct_quiet Hc1 x s2 Hc2. eapply wlp_bind, wlp_state; [exact Hc2|].
  eapply wlp_bind, wlp_write_count; [exact Hc2|destruct Ha; lia| |]; intros s3 Hc3.
  - ct_done Hc3.
  - by apply stream_counted.
Qed.

Lemma q_open_ref name kwargs : quiet (open_ref actor name kwargs).
Proof using Q. unfold open_ref, keep_ref, copy_ref. quiet. Qed.
#[local] Hint Resolve q_open_ref : quiet.

Lemma switch_timer_streams s st n data (R : option bool -> rt V -> Prop) : counting s st n data ->
  (forall r s' st', same_args st st' -> counting s' st' n data -> R r s') ->
  wlp (switch_timer actor) R s.
Proof using Q.
  intros Hc HR. assert (same_args st st) as E by done. unfold switch_timer. eapply wlp_bind, wlp_state; [exact Hc|].
  ct_quiet Hc b s1 Hc1. eapply wlp_bind, wlp_state; [exact Hc1|].
  ct_quiet Hc1 c s2 Hc2. destruct c; [|by eapply wlp_ret, HR].
  ct_quiet Hc2 c s3 Hc3. destruct c; [|by eapply wlp_ret, HR].
  ct_quiet Hc3 r s4 Hc4. destruct r as [ref|]; [|by eapply wlp_ret, HR].
  eapply wlp_bind, wlp_upd; [exact Hc4|]. intros s5 Hc5. eapply wlp_ret, HR; [|exact Hc5]. done.
Qed.

(** The part of the step that writes, whatever became of the timer. *)
Lemma no_periodic_writes s st st' data : args_ok st -> ct_count st < ct_steps st -> same_args st st' ->
  counting s st' (ct_count st) data ->
  wlp (state ← get_inst_state cc_actor_counttimer_state_t actor;
       ok ← on_world (write_count o (ct_count state));
       guard! (ok : bool) else mret false in
       ok ← on_world cc_platform_mem_alloc;
       guard! (ok : bool) else mret false in
       _ ← cc_calvinsys_write (ct_timer state) (Some (cc_coder_encode_uint [] (ct_sleep state)));
       upd_inst_state actor (fun x => set_ct_count (u32 (ct_count x + 1)) x) ;;
       mret true)
    (fun _ s' => exists st', advances st st' /\ counting s' st' (ct_count st') (data ++ counted st st')) s.
Proof using Q Hmem.
  intros Ha Hlt E Hc. eapply wlp_bind, wlp_state; [exact Hc|].
  eapply wlp_bind, wlp_write_count; [exact Hc|destruct Ha; lia| |]; intros s1 Hc1; [ct_done Hc1|].
  eapply wlp_bind, wlp_run; [apply run_alloc, Hmem|]. 
  assert (counting (later (S (w_calls (rt_world s1))) s1) st' (ct_count st + 1) (data ++ [mp_encode_uint (ct_count st')])) as Hc2.
  { eapply counting_same; [|exact Hc1]. by split. }
  ct_quiet Hc2 c s3 Hc3. destruct E as (E1 & E2 & E3 & E4). rewrite E1 in Hc3.
  eapply wlp_bind, wlp_upd; [exact Hc3|]. intros s4 Hc4.
  eapply wlp_ret, stream_one; [eassumption|exact Hlt| | | | |exact Hc4]; simpl; congruence.
Qed.

Lemma no_periodic_streams : stream_step (cc_actor_counttimer_step_no_periodic actor).
Proof using Q Hmem.
  intros s st data Ha Hc. unfold cc_actor_counttimer_step_no_periodic.
  eapply wlp_bind, wlp_out; [exact Hc|]. eapply wlp_bind, wlp_state; [exact Hc|].
  destruct (u32 (ct_start st + 3) <=? ct_count st); simpl; [ct_done Hc|].
  destruct (Z.leb_spec (ct_steps st) (ct_count st)); simpl; [ct_done Hc|].
  ct_quiet Hc b s1 Hc1. destruct b; [|ct_done Hc1].
  ct_quiet Hc1 x s2 Hc2. eapply wlp_bind, wlp_state; [exact Hc2|]. apply wlp_bind.
  destruct (ct_count st =? u32 (ct_start st + 2)).
  - eapply switch_timer_streams; [exact Hc2|]. intros [b|] s3 st3 E Hc3; [ct_done Hc3|].
    by eapply no_periodic_writes.
  - apply wlp_ret. by eapply no_periodic_writes.
Qed.

Lemma fire_streams : stream_step (cc_actor_counttimer_fire actor).
Proof using Q Hmem.
  assert (forall (m : R V bool) (f : bool -> R V bool), stream_step m -> (forall b, stream_step (f b)) ->
          stream_step (m ≫= f)) as Hseq.
  { intros m f Hm Hf s st data Ha Hc. apply wlp_bind. eapply wlp_mono; [by apply Hm|].
    intros b s1 (st1 & A1 & Hc1). assert (args_ok st1) as Ha1.
    { destruct A1, Ha as (? & ? & ?). repeat split; lia. }
    eapply wlp_mono; [by apply Hf|]. intros b2 s2 (st2 & A2 & Hc2). exists st2.
    rewrite <- app_assoc, counted_app in Hc2 by (destruct A1, A2; lia). split; [|done].
    destruct A1, A2. split; try congruence. lia. }
  unfold cc_actor_counttimer_fire. apply Hseq; [apply no_periodic_streams|]. intros a.
  apply Hseq; [apply periodic_streams|]. intros b. apply Hseq; [apply stop_streams|]. intros c.
  intros s st data Ha Hc. ct_done Hc.
Qed.
End count.

(** ** Runs *)

(** A step of anything else, as far as the actor can tell: its state and its port
    stay, and from the front of the queue the tokens [taken] are gone. *)
Record reads {V} (actor o : loc) (taken : list bytes) (s s' : rt V) : Prop := {
  rd_instance : rt_instances s' !! actor = rt_instances s !! actor;
  rd_actor a : w_actors (rt_world s) !! actor = Some a ->
    exists a', w_actors (rt_world s') !! actor = Some a' /\ head (actor_out_ports a') = head (actor_out_ports a);
  rd_queue p f q data : w_ports (rt_world s) !! o = Some p -> port_fifo p = Some f -> repr f q ->
    Forall2 (token_is (w_mem (rt_world s))) (aq_all q) data ->
    exists p' f' q' rest, w_ports (rt_world s') !! o = Some p' /\ port_fifo p' = Some f' /\ repr f' q'
      /\ write_pos f' = write_pos f /\ data = taken ++ rest
      /\ Forall2 (token_is (w_mem (rt_world s'))) (aq_all q') rest;
  rd_fresh : (forall l, is_Some (w_mem (rt_world s) !! l) -> (l < w_next (rt_world s))%positive) ->
    forall l, is_Some (w_mem (rt_world s') !! l) -> (l < w_next (rt_world s'))%positive
}.

(** A run of the actor and of what reads from it: the tokens that were read. *)
Inductive ct_run {V} `{C : !Code V} `{P : Platform} `{MP : MsgPuck} `{H : !Holds V cc_actor_counttimer_state_t}
  (actor o : loc) (s : rt V) : list bytes -> rt V -> Prop :=
  | ct_here : ct_run actor o s [] s
  | ct_fire out s1 b s2 : ct_run actor o s out s1 -> cc_actor_counttimer_fire actor s1 = Ok (b, s2) ->
      ct_run actor o s out s2
  | ct_read out taken s1 s2 : ct_run actor o s out s1 -> reads actor o taken s1 s2 ->
      ct_run actor o s (out ++ taken) s2.

Lemma counting_reads {V} `{H : !Holds V cc_actor_counttimer_state_t} actor o taken (s s' : rt V) st n data :
  reads actor o taken s s' -> counting actor o s st n data ->
  exists rest, data = taken ++ rest /\ counting actor o s' st n rest.
Proof.
  intros [Ri Ra Rq Rf] [(i & Hi & Hs) (a & Ha & Ho) (p & f & q & Hp & Hf & Hr & Hw & Hd) Cf].
  destruct (Rq p f q data Hp Hf Hr Hd) as (p' & f' & q' & rest & Hp' & Hf' & Hr' & Hw' & E & Hd').
  destruct (Ra a Ha) as (a' & Ha' & Ho'). exists rest. split; [done|]. split; [|..].
  - exists i. by rewrite Ri.
  - exists a'. by rewrite Ho'.
  - exists p', f', q'. by rewrite Hw'.
  - by apply Rf.
Qed.

Lemma token_is_fun m t d e : token_is m t d -> token_is m t e -> d = e.
Proof. intros (l & ? & ? & _) (k & ? & ? & _). simplify_eq. done. Qed.
Lemma repr_fun f q r : repr f q -> repr f r -> q = r.
Proof. intros (_ & P1 & U1) (_ & P2 & U2). destruct q, r. simpl in *. congruence. Qed.

(** The reader of the same runtime that takes a token over (an identity actor, the
    transmission to a connected in-port) is such a step. *)
Lemma reads_commit {V} `{P : Platform} `{MP : MsgPuck} actor o (s : rt V) p f u t d :
  w_ports (rt_world s) !! o = Some p -> port_fifo p = Some f ->
  repr f {| pending := []; unread := t :: u |} -> token_is (w_mem (rt_world s)) t d ->
  exists s', on_world (_ ← port_peek o; port_commit_read o false) s = Ok (tt, s') /\ reads actor o [d] s s'.
Proof.
  intros Hp Hf Hr Ht. set (w := rt_world s).
  destruct (cc_fifo_peek_repr f _ t {| pending := [t]; unread := u |} w Hr eq_refl) as [Ep Rp].
  set (f1 := set_tentative_read_pos _ _) in *. set (w1 := with_fifo o p f1 w).
  assert (w_ports w1 !! o = Some (set_port_fifo (Some f1) p)) as Hp1 by (simpl; by rewrite lookup_insert_eq).
  destruct (cc_fifo_commit_read_repr f1 _ (w_mem w1) Rp ltac:(done)) as (f2 & Ec & _ & Hw2 & Rc).
  exists (set_world (with_fifo o p f2 w) s). split.
  - apply run_on_world. fold w. run_with (run_port_peek w o p f Hp Hf f1 t Ep).
    cbv beta. fold w1. rewrite (run_port_commit w1 o _ f1 Hp1 eq_refl f2 Ec). unfold w1. by rewrite with_fifo_twice.
  - split; [done|by eauto| |done]. intros p0 f0 q0 data Hp0 Hf0 Hr0 Hd. fold w in Hp, Hp0. simplify_eq.
    rewrite (repr_fun _ _ _ Hr0 Hr) in Hd. apply Forall2_cons_inv_l in Hd as (e & rest & Ht' & Hd & ->).
    rewrite (token_is_fun _ _ _ _ Ht Ht') in *. exists (set_port_fifo (Some f2) p), f2, (aq_commit {| pending := [t]; unread := u |}), rest.
    split; [apply lookup_insert_eq|]. split; [done|]. split; [done|]. split; [done|]. split; [done|]. done.
Qed.

(** C8: what the count timer has written is the sequence of the numbers it has
    counted: over any run in which it fires and its queue is read from, the tokens
    that were read followed by those still in the queue are the ones that were there
    and then the numbers from the count at the start up to the count now, each once
    and in order; the count never goes down and never passes the number of steps,
    and the arguments stay.  Nothing is lost when the queue is full, whatever the
    timer answers.  (Where an allocation fails a number may be written twice.) *)
Theorem counttimer_counts {V} `{C : !Code V} `{Q : !QuietCode C} `{P : Platform} `{MP : MsgPuck}
  `{H : !Holds V cc_actor_counttimer_state_t} (actor o : loc) (s s' : rt V)
  (st : cc_actor_counttimer_state_t) (data out : list bytes) :
  (forall n, plat_alloc n = true) -> args_ok st -> counting actor o s st (ct_count st) data ->
  ct_run actor o s out s' ->
  exists st' rest, advances st st' /\ counting actor o s' st' (ct_count st') rest
    /\ out ++ rest = data ++ counted st st'.
Proof.
  intros Hmem Ha Hc. induction 1 as [|out s1 b s2 _ IH E|out taken s1 s2 _ IH E].
  - exists st, data. rewrite counted_none, app_nil_r by done. split; [|done].
    destruct Ha as (_ & ? & _). split; (done || lia).
  - destruct IH as (st1 & rest & A1 & Hc1 & Eq). assert (args_ok st1) as Ha1.
    { destruct A1, Ha as (? & ? & ?). repeat split; lia. }
    destruct (fire_streams actor o Hmem s1 st1 rest Ha1 Hc1 b s2 E) as (st2 & A2 & Hc2).
    exists st2, (rest ++ counted st1 st2). split; [|split; [done|]].
    + destruct A1, A2. split; try congruence. lia.
    + rewrite app_assoc, Eq, <- app_assoc, counted_app; [done|]. destruct A1, A2. lia.
  - destruct IH as (st1 & rest & A1 & Hc1 & Eq).
    destruct (counting_reads _ _ _ _ _ _ _ _ E Hc1) as (rest' & -> & Hc2).
    exists st1, rest'. split; [done|]. split; [done|]. by rewrite <- app_assoc.
Qed.

(** The timer has triggered: the first number is written. *)
#[export] Instance ready_quiet : QuietDevices ready_devices.
Proof.
  split; intros i; split; intros; simplify_eq/=; quiet.
Qed.

Definition counter : cc_actor_counttimer_state_t :=
  {| ct_timer := str "t1"; ct_sleep := 1; ct_start := 1; ct_steps := 3; ct_count := 1; ct_stopped := false |}.
Definition count_rt : rt (lib_state unit) :=
  lib_rt 8 (Some (S_counttimer counter)) [] [timer_item (str "t1") 32%positive] ∅
    {[32%positive := an_obj timer_code (Some (S_timer rung_timer))]}.

Lemma counttimer_counts_witness : exists b s' st' rest,
  cc_actor_counttimer_fire 12%positive count_rt = Ok (b, s') /\ advances counter st' /\ rest = counted counter st'.
Proof.
  destruct (cc_actor_counttimer_fire 12%positive count_rt) as [[b s']|u] eqn:E.
  - destruct (counttimer_counts 12%positive 23%positive count_rt s' counter [] []) as (st' & rest & A & _ & Eq).
    + reflexivity.
    + repeat split; simpl; lia.
    + split.
      * eexists. split; reflexivity.
      * eexists. split; reflexivity.
      * exists out_port, (new_fifo 4), {| pending := []; unread := [] |}.
        split; [reflexivity|]. split; [reflexivity|]. split; [by apply new_fifo_repr|]. split; [simpl; lia|constructor].
      * intros l Hl. simpl in Hl. rewrite lookup_insert_is_Some, lookup_singleton_is_Some in Hl. simpl.
        destruct Hl as [<-|[_ <-]]; lia.
    + eapply ct_fire; [apply ct_here|exact E].
    + exists b, s', st', rest. split; [reflexivity|]. split; [exact A|exact Eq].
  - exfalso. vm_compute in E. discriminate.
Defined.
