(* ===== verification/AttributeProps.v ===== *)
(** The attributes of an actor on the wire: what [encode_attributes] writes is what
    [cc_actor_get_attributes] reads back. *)
From S2P Require Import Prelude CString Common MsgPuck MsgPackRef Coder Fifo Machine Transport ProtoSend.
From S2P Require Import Port Runtime Calvinsys Actor CoderSpec MsgSpec Runs Examples.

(** An attribute with its encoded value. *)
Definition attribute `{MP : MsgPuck} (kv : bytes * mpval) : cc_list_t bytes :=
  list_item_n kv.1 (length kv.1) (mp_enc kv.2) (Z.of_nat (length (mp_enc kv.2))).

(** The attributes that name the actor. *)
Definition note_as (key : bytes) (set : option bytes -> cc_actor_t -> cc_actor_t) (a : cc_actor_t)
  (kv : bytes * mpval) : cc_actor_t :=
  match kv.2 with
  | VStr s => if decide (kv.1 = key) then set (Some (s ++ [NUL])) a else a
  | _ => a
  end.
Definition note (a : cc_actor_t) (kv : bytes * mpval) : cc_actor_t :=
  note_as (str "_name") set_actor_name (note_as (str "_id") set_actor_id a kv) kv.

(** An attribute whose name is not mistaken for one of the three that are treated
    apart; an identifier or a name is a string. *)
Record attribute_ok (kv : bytes * mpval) : Prop := {
  pa_key : key_ok kv.1;
  pa_shadow : apart (str "_shadow_args") kv.1;
  pa_id : kv.1 = str "_id" \/ apart (str "_id") kv.1;
  pa_name : kv.1 = str "_name" \/ apart (str "_name") kv.1;
  pa_string : kv.1 = str "_id" \/ kv.1 = str "_name" -> exists s, kv.2 = VStr s /\ nul_free s;
  pa_value : mp_wf kv.2
}.
(** The name of a private one starts with an underscore. *)
Definition private_attribute (kv : bytes * mpval) : Prop := attribute_ok kv /\ hd NUL kv.1 = Byte.x5f.

Section attributes.
Context `{P : Platform} `{MP : MsgPuck} `{L : !MsgPuckLaws MP}.

Lemma encode_attributes_entries w kvs : Forall attribute_ok kvs ->
  encode_attributes w (map (fun kv => with_data (attribute kv)) kvs) = w ++ mp_enc_kvs (skvs kvs).
Proof.
  intros Hk. revert w. unfold encode_attributes. induction Hk as [|[k v] kvs Hkv _ IH]; intros w.
  - by rewrite mp_enc_kvs_nil, app_nil_r.
  - destruct (pa_key _ Hkv) as [Hn _]. simpl in Hn. cbn [map foldl].
    assert (cc_coder_encode_kv_value w (li_id (with_data (attribute (k, v)))) (li_data (with_data (attribute (k, v))))
              (Z.to_nat (li_data_len (with_data (attribute (k, v))))) = w ++ mp_enc_kvs [(VStr k, v)]) as ->.
    { rewrite <- kv_value_entry by done. simpl. by rewrite Nat2Z.id, firstn_all, cstr_nul_free_all. }
    rewrite IH, <- app_assoc, <- mp_enc_kvs_app. done.
Qed.

Context (Halloc : forall n, plat_alloc n = true).

(** One of the attributes that name the actor, or not. *)
Lemma run_note key set w actor a k v rest : w_actors w !! actor = Some a ->
  nul_free key -> k = key \/ apart key k -> nul_free k -> (k = key -> exists s, v = VStr s /\ nul_free s) -> mp_wf v ->
  exists c, (if streq_n (k ++ rest) key (length key) then set_string actor (mp_enc v) set else mret true) w
    = Ok (true, set_actors (<[actor := note_as key set a (k, v)]> (w_actors w)) (set_calls c w)).
Proof using L Halloc.
  intros Hl Hkey Hk Hn Hs Hw. unfold note_as. simpl. destruct (decide (k = key)) as [->|N].
  - destruct (Hs eq_refl) as (s & -> & Hss). rewrite key_test_eq by done. unfold set_string.
    rewrite <- (app_nil_r (mp_enc (VStr s))), decode_str_enc by done.
    run_with (run_malloc Halloc w). simpl. set (w1 := set_calls _ w).
    assert (w_actors w1 !! actor = Some a) as Hl1 by done.
    run_with (run_upd_actor w1 actor a (set (Some (strncpy_bytes (s ++ []) (length s) ++ [NUL]))) Hl1).
    rewrite strncpy_bytes_all by done. eexists. reflexivity.
  - destruct Hk as [?|Hk]; [done|]. rewrite streq_n_sym, value_test_apart by done. exists (w_calls w).
    assert ((match v with VStr s => a | _ => a end) = a) as -> by by destruct v.
    rewrite insert_id by done. by destruct w.
Qed.

(** Both kinds of attributes, before [m] entries more. *)
Lemma get_attributes_run po actor kvs m rest attrs w a : Forall attribute_ok kvs ->
  (po = true -> Forall private_attribute kvs) -> w_actors w !! actor = Some a ->
  exists c, get_attributes (length kvs + m) actor (mp_enc_kvs (skvs kvs) ++ rest) po attrs w
  = get_attributes m actor rest po (attrs ++ map attribute kvs)
      (set_actors (<[actor := foldl note a kvs]> (w_actors w)) (set_calls c w)).
Proof using L Halloc.
  intros Hk. revert attrs w a. induction Hk as [|[k v] kvs Hkv _ IH]; intros attrs w a Hpo Ha.
  - exists (w_calls w). simpl. rewrite app_nil_r, insert_id by done. by destruct w.
  - assert (po = true -> Forall private_attribute kvs) as Hpo'.
    { intros ->. by specialize (Hpo eq_refl); apply Forall_cons in Hpo as [_ ?]. }
    assert (po && negb (bool_decide (hd NUL k = Byte.x5f)) = false) as Hu.
    { destruct po; [|done]. specialize (Hpo eq_refl). apply Forall_cons in Hpo as [[_ E] _]. simpl in E.
      by rewrite bool_decide_true. }
    destruct Hkv as [[Hn Hlen] Hsh Hid Hname Hstr Hw]. simpl in Hn, Hlen, Hsh, Hid, Hname, Hstr, Hw.
    unfold CC_UUID_BUFFER_SIZE in Hlen. simpl length. simpl Nat.add. cbn [get_attributes map fst snd].
    rewrite mp_enc_kvs_cons, <- !app_assoc, decode_str_enc by lia. unfold cc_coder_decode_map_next.
    rewrite !next_enc by (done || (simpl; lia)). set (tail := mp_enc_kvs (skvs kvs) ++ rest).
    assert (po && negb (bool_decide (hd NUL (k ++ mp_enc v ++ tail) = Byte.x5f)) = false) as ->.
    { destruct k; [|exact Hu]. destruct po; [|done]. by rewrite bool_decide_false in Hu. }
    change 12%nat with (length (str "_shadow_args")). rewrite streq_n_sym, value_test_apart by (done || keys).
    rewrite get_size_of_value_enc, take_app_length by done. run_with (run_malloc Halloc w). cbn [negb].
    set (w1 := set_calls _ w). assert (w_actors w1 !! actor = Some a) as Ha1 by done.
    change 3%nat with (length (str "_id")). change 5%nat with (length (str "_name")).
    destruct (run_note (str "_id") set_actor_id w1 actor a k v (mp_enc v ++ tail) Ha1 ltac:(keys) Hid Hn) as (c1 & E1); [by auto..|].
    run_with E1. cbn [negb]. set (a1 := note_as _ _ a _) in *. set (w2 := set_actors _ _).
    assert (w_actors w2 !! actor = Some a1) as Ha2 by apply lookup_insert_eq.
    destruct (run_note (str "_name") set_actor_name w2 actor a1 k v (mp_enc v ++ tail) Ha2 ltac:(keys) Hname Hn) as (c2 & E2); [by auto..|].
    run_with E2. cbn [negb]. set (a2 := note_as _ _ a1 _) in *. set (w3 := set_actors _ _).
    run_with (run_malloc_list Halloc attrs k (mp_enc v ++ tail) (mp_enc v) (Z.of_nat (length (mp_enc v))) w3).
    change (attrs ++ [list_item_n _ _ _ _]) with (attrs ++ [attribute (k, v)]). set (w4 := set_calls _ w3). assert (w_actors w4 !! actor = Some a2) as Ha4 by apply lookup_insert_eq.
    destruct (IH (attrs ++ [attribute (k, v)]) w4 a2 Hpo' Ha4) as (c & E). exists c. fold tail in E. rewrite E. clear.
    rewrite <- app_assoc. subst w4 w3 w2 w1. simpl. rewrite !insert_insert_eq. reflexivity.
Qed.
End attributes.

(** C11: the private attributes of an actor survive a serialisation: the map that is
    written of them, followed by anything, is read back as the same attributes in the
    same order, each with its name and its encoded value, and the actor gets its
    identifier and its name from them; nothing else of the runtime changes but the
    count of platform calls. *)
Theorem attributes_roundtrip `{P : Platform} `{MP : MsgPuck} `{L : !MsgPuckLaws MP}
  (actor : loc) (a : cc_actor_t) (kvs : list (bytes * mpval)) (w : world) (buffer rest : bytes) :
  (forall n, plat_alloc n = true) -> w_actors w !! actor = Some a ->
  Forall private_attribute kvs -> Z.of_nat (length kvs) < 2 ^ 32 ->
  let attributes := map attribute kvs in
  exists written c,
    encode_attributes (cc_coder_encode_map buffer (cc_list_count attributes)) (map with_data attributes)
      = buffer ++ written
    /\ cc_actor_get_attributes actor (written ++ rest) [] true w
       = Ok ((CC_SUCCESS, attributes),
             set_actors (<[actor := foldl note a kvs]> (w_actors w)) (set_calls c w)).
Proof.
  intros Halloc Ha Hk Hn attributes.
  assert (Forall attribute_ok kvs) as Hok by (eapply Forall_impl; [exact Hk|by intros ? [? _]]).
  destruct (get_attributes_run Halloc true actor kvs 0 rest [] w a Hok (fun _ => Hk) Ha) as (c & E).
  exists (mp_enc (smap kvs)), c. split.
  - unfold attributes. rewrite map_map, encode_attributes_entries by done. unfold cc_list_count.
    rewrite length_map, u32_id by (unfold is_u32; lia). rewrite <- map_open. by rewrite length_map.
  - unfold cc_actor_get_attributes, cc_coder_decode_map. cbn [mp_enc].
    rewrite <- app_assoc, mp_decode_map_enc by (rewrite length_map; lia). rewrite length_map, Nat2Z.id.
    rewrite Nat.add_0_r in E. exact E.
Qed.

Definition some_attributes : list (bytes * mpval) :=
  [(str "_id", VStr (str "actor-c")); (str "_name", VStr (str "app:counter")); (str "_has_started", VBool true)].

Lemma some_attributes_private : Forall private_attribute some_attributes.
Proof.
  unfold some_attributes.
  constructor; [|constructor; [|constructor; [|constructor]]]; (split; [split|reflexivity]); simpl; try keys; try reflexivity;
    try (left; reflexivity); try (right; keys); try (intros _; eexists; split; [reflexivity|keys]).
  intros [E|E]; discriminate E.
Qed.

Lemma attributes_roundtrip_witness : exists written w',
  encode_attributes (cc_coder_encode_map [] 3) (map with_data (map attribute some_attributes)) = written
  /\ cc_actor_get_attributes 12%positive (written ++ str "rest") [] true lib_world
     = Ok ((CC_SUCCESS, map attribute some_attributes), w')
  /\ actor_name <$> w_actors w' !! 12%positive = Some (Some (str "app:counter" ++ [NUL])).
Proof.
  destruct (attributes_roundtrip 12%positive (an_actor (str "actor-c") [22%positive] [23%positive] CC_ACTOR_ENABLED)
    some_attributes lib_world [] (str "rest")) as (written & c & E1 & E2);
    [reflexivity|reflexivity|exact some_attributes_private|reflexivity|].
  eexists written, _. split; [exact E1|]. split; [exact E2|reflexivity].
Defined.
