(* ===== verification/ButtonProps.v ===== *)
(** io.Button over the pins of the x86 platform (cc_actor_button.c, cc_calvinsys.c,
    cc_test_gpio.c, cc_port.c, cc_fifo.c together): what the actor sends. *)
From S2P Require Import Prelude CString Common Json MsgPuck MsgPackRef Coder Fifo Machine Transport.
From S2P Require Import ProtoSend Port Proto Runtime Socket Calvinsys Timer ActorLib CountTimer Sensors.
From S2P Require Import Library X86Devices FifoSpec MsgSpec Runs Examples PortProps ActorProps Quiet.
From S2P Require Import TimerProps SensorProps.

(** A computation run [n] times: how many of the runs answered [true]. *)
Fixpoint times {S} (n : nat) (m : M S bool) : M S nat :=
  match n with
  | O => mret 0%nat
  | Datatypes.S n =>
      b ← m;
      k ← times n m;
      mret (if (b : bool) then Datatypes.S k else k)
  end.

Section button.
Context `{P : Platform} `{MP : MsgPuck} `{J : Jsmn}.
Context (types : list (cc_list_t (cc_actor_type_t (lib_state x86_state)))).
#[local] Instance x86_library : Code (lib_state x86_state) := library_code types.
Abbreviation XR := (R (lib_state x86_state)).
Implicit Types s : rt (lib_state x86_state).

Variables (actor o l : loc) (id : bytes).

(** The actor reads the object [id], a pin that has been read [r] times, and its first
    out-port has a queue that has room for [k] tokens more and holds the [data]. *)
Record wired s (r : Z) (k : nat) (data : list bytes) : Prop := {
  wi_instance : exists i st, rt_instances s !! actor = Some i /\ inst_state i = Some (hold st) /\ bu_button st = id;
  wi_actor : exists a, w_actors (rt_world s) !! actor = Some a /\ head (actor_out_ports a) = Some o;
  wi_object : exists item, list_get (cs_objects s) id = Some item /\ li_data item = l;
  wi_pin : exists ob g, rt_objs s !! l = Some ob /\ obj_methods ob = Some gpio_code
    /\ obj_state ob = Some (hold g) /\ gpio_readings g = r;
  wi_queue : exists p f q, w_ports (rt_world s) !! o = Some p /\ port_fifo p = Some f /\ repr f q
    /\ room f q = k /\ write_pos f + Z.of_nat k < 2 ^ 32
    /\ Forall2 (token_is (w_mem (rt_world s))) (aq_all q) data;
  wi_fresh : forall b, is_Some (w_mem (rt_world s) !! b) -> (b < w_next (rt_world s))%positive
}.

Lemma run_method {A} s ob (absent : A) (call : loc -> cc_obj_code_t (lib_state x86_state) -> option (XR A)) item f :
  list_get (cs_objects s) id = Some item -> li_data item = l -> rt_objs s !! l = Some ob ->
  obj_methods ob = Some gpio_code -> call l gpio_methods = Some f -> with_object id absent call s = f s.
Proof.
  intros Hi Hl Ho Hm Hf. unfold with_object. rewrite (bind_Ok get_ _ s s s eq_refl), Hi, Hl.
  unfold methods_of. rewrite (bind_Ok _ _ s (Some gpio_methods) s).
  - simpl. by rewrite Hf.
  - rewrite (bind_Ok _ _ _ _ _ (run_get_obj s l ob Ho)). by rewrite Hm.
Qed.

Lemma run_pin_can_read s ob g : rt_objs s !! l = Some ob -> obj_state ob = Some (hold g) ->
  cc_gpio_can_read l s = Ok (gpio_readings g <? 5, s).
Proof.
  intros Ho Hg. unfold cc_gpio_can_read. by rewrite (bind_Ok _ _ _ _ _ (run_get_obj_state s l ob g Ho Hg)).
Qed.

Definition read_pin (g : cc_gpio_state_t) : cc_gpio_state_t :=
  {| gpio_pin := gpio_pin g; gpio_direction := gpio_direction g; gpio_value := 0;
     gpio_readings := u32 (gpio_readings g + 1) |}.

Hypothesis Hmem : forall n, plat_alloc n = true.

Lemma run_pin_read s ob g : rt_objs s !! l = Some ob -> obj_state ob = Some (hold g) ->
  cc_gpio_read l s
  = Ok ((CC_SUCCESS, Some (mp_encode_uint 0)),
        set_objs (<[l := set_obj_state (Some (hold (read_pin g))) ob]> (rt_objs s))
          (later (S (w_calls (rt_world s))) s)).
Proof using Hmem.
  intros Ho Hg. unfold cc_gpio_read. rewrite (bind_Ok _ _ _ _ _ (run_get_obj_state s l ob g Ho Hg)).
  assert ((if gpio_value g =? 1 then 0 else 0) = 0) as -> by by destruct (_ =? _).
  rewrite (bind_Ok _ _ _ _ _ (run_put_obj_state s l ob _ Ho)). rrun1.
  erewrite (bind_Ok _ _ _ _ _ (run_put_obj_state _ l _ _ (lookup_insert_eq _ _ _))).
  simpl. unfold mret, M_ret, set_objs. simpl. by rewrite insert_insert_eq.
Qed.

(** Without a reading or without room the actor does not fire and changes nothing. *)
Lemma fire_idle s r k data : wired s r k data -> 5 <= r \/ k = 0%nat ->
  cc_actor_button_fire actor s = Ok (false, s).
Proof using Type.
  intros [(i & st & Hi & Hs & Hid) (a & Ha & Ho) (item & Hit & Hl) (ob & g & Hob & Hm & Hg & Hr)
          (p & f & q & Hp & Hf & Hrep & Hk & _) _] Hz.
  unfold cc_actor_button_fire. run_with (run_first_out_port s actor a o Ha Ho).
  run_with (run_get_inst_state s actor i st Hi Hs). rewrite Hid.
  assert (cc_calvinsys_can_read id s = Ok (r <? 5, s)) as Ec.
  { unfold cc_calvinsys_can_read. erewrite run_method by (done || reflexivity). rewrite <- Hr. by eapply run_pin_can_read. }
  run_with Ec. destruct (Z.ltb_spec r 5); [|done]. destruct Hz as [?|Hz]; [lia|].
  assert (on_world (port_slots_available o 1) s = Ok (false, s)) as Es.
  { erewrite run_on_world; [by rewrite set_world_id|].
    apply (run_port_slots _ o p f Hp Hf). rewrite (slots_available_repr _ _ Hrep). do 2 f_equal.
    unfold room in *. apply Z.ltb_ge. lia. }
  by run_with Es.
Qed.

(** One reading: the token 0 at the end of the queue. *)
Lemma fire_sends s r k data : 0 <= r < 5 -> wired s r (S k) data ->
  exists s', cc_actor_button_fire actor s = Ok (true, s') /\ wired s' (r + 1) k (data ++ [mp_encode_uint 0]).
Proof using Hmem.
  intros Hr5 [(i & st & Hi & Hs & Hid) (a & Ha & Ho) (item & Hit & Hl) (ob & g & Hob & Hm & Hg & Hr)
          (p & f & q & Hp & Hf & Hrep & Hk & Hw & Hd) Cf].
  set (d := mp_encode_uint 0). unfold cc_actor_button_fire. run_with (run_first_out_port s actor a o Ha Ho).
  run_with (run_get_inst_state s actor i st Hi Hs). rewrite Hid.
  assert (cc_calvinsys_can_read id s = Ok (true, s)) as Ec.
  { unfold cc_calvinsys_can_read. erewrite run_method by (done || reflexivity).
    rewrite (run_pin_can_read s ob g Hob Hg), Hr. by rewrite (proj2 (Z.ltb_lt _ _)) by lia. }
  run_with Ec. unfold room in Hk.
  assert (on_world (port_slots_available o 1) s = Ok (true, s)) as Es.
  { erewrite run_on_world; [by rewrite set_world_id|].
    apply (run_port_slots _ o p f Hp Hf). rewrite (slots_available_repr _ _ Hrep). do 2 f_equal. apply Z.ltb_lt. lia. }
  run_with Es. unfold read_to_port.
  set (s1 := set_objs (<[l := set_obj_state (Some (hold (read_pin g))) ob]> (rt_objs s)) (later (S (w_calls (rt_world s))) s)).
  assert (cc_calvinsys_read id s = Ok ((CC_SUCCESS, Some d), s1)) as Er.
  { unfold cc_calvinsys_read. erewrite run_method by (done || reflexivity). by apply run_pin_read. }
  run_with Er. cbn [bool_decide].
  set (w1 := rt_world s1). set (b := w_next (rt_world s)).
  set (w2 := set_mem (<[b := d]> (w_mem w1)) (set_next (Pos.succ b) w1)).
  assert (on_world (adopt (Some d)) s1 = Ok (Some b, set_world w2 s1)) as Ead by (by apply run_on_world).
  rewrite bool_decide_true by done. run_with Ead.
  destruct (cc_fifo_write_room f q (Some b) (data_size (Some d)) (w_mem w2) Hrep ltac:(lia) ltac:(lia))
    as (f' & Ew & Hr' & Hw' & _).
  assert (fifo_size f' = fifo_size f) as Hsz.
  { destruct (cc_fifo_write_repr f q (Some b) (data_size (Some d)) (w_mem w2) Hrep ltac:(lia)) as (f'' & Eg & Hsz & _).
    rewrite Ew in Eg. injection Eg as _ <-. exact Hsz. }
  eexists. split.
  - apply run_on_world. unfold write_or_free.
    rewrite (bind_Ok _ _ _ _ _ (run_port_write w2 o p f Hp Hf _ _ _ _ Ew)). reflexivity.
  - split.
    + by exists i, st.
    + by exists a.
    + by exists item.
    + eexists _, (read_pin g). split; [apply lookup_insert_eq|]. split; [done|]. split; [done|].
      simpl. rewrite u32_id by (unfold is_u32; lia). lia.
    + exists (set_port_fifo (Some f') p), f',
        {| pending := pending q; unread := unread q ++ [{| tok_value := Some b; tok_size := data_size (Some d) |}] |}.
      split; [apply lookup_insert_eq|]. split; [done|]. split; [done|]. unfold room, aq_all in *.
      split; [simpl; rewrite Hsz, !length_app in *; simpl; lia|]. split; [lia|].
      simpl. rewrite app_assoc. apply Forall2_app.
      * eapply Forall2_impl; [exact Hd|]. intros u e. by apply token_is_insert.
      * constructor; [|constructor]. exists b. split; [done|]. split; [apply lookup_insert_eq|done].
    + intros x. simpl. rewrite lookup_insert_is_Some. intros [<-|[_ Hx]]; [lia|]. specialize (Cf x Hx). unfold b. lia.
Qed.
End button.

(** C22: a button on a pin of the x86 platform is a source of at most five tokens.
    Fired [n] times, the actor sends one token for every reading, as long as the pin
    still has readings to give (five in all, of which [r] are used) and the queue has
    room; every token is the number 0, whatever the pin; exactly the firings that
    sent a token report that they fired, none of them fails or loses a reading for
    want of room, and none runs into undefined behaviour. *)
Theorem button_sends_five `{P : Platform} `{MP : MsgPuck} `{J : Jsmn}
  (types : list (cc_list_t (cc_actor_type_t (lib_state x86_state)))) (actor o l : loc) (id : bytes)
  (n : nat) (s : rt (lib_state x86_state)) (r : nat) (places : nat) (data : list bytes) :
  (forall c, plat_alloc c = true) -> (r <= 5)%nat -> wired actor o l id s (Z.of_nat r) places data ->
  let k := (n `min` ((5 - r) `min` places))%nat in
  exists s', times n (cc_actor_button_fire (C:=library_code types) actor) s = Ok (k, s')
    /\ wired actor o l id s' (Z.of_nat (r + k)) (places - k) (data ++ replicate k (mp_encode_uint 0)).
Proof.
  intros Hmem. cbn zeta. revert s r places data. induction n as [|n IH]; intros s r places data Hr Hw.
  - exists s. simpl. by rewrite app_nil_r, Nat.add_0_r, Nat.sub_0_r.
  - destruct (decide (r = 5%nat \/ places = 0%nat)) as [Hz|Hz].
    + destruct (IH s r places data Hr Hw) as (s' & E & Hw').
      exists s'. replace (S n `min` ((5 - r) `min` places))%nat with (n `min` ((5 - r) `min` places))%nat by lia.
      split; [|done]. simpl. rewrite (bind_Ok _ _ _ _ _ (fire_idle types actor o l id s _ _ _ Hw ltac:(lia))).
      by run_with E.
    + destruct places as [|places]; [lia|].
      destruct (fire_sends types actor o l id Hmem s (Z.of_nat r) places data ltac:(lia) Hw) as (s1 & E1 & Hw1).
      replace (Z.of_nat r + 1) with (Z.of_nat (S r)) in Hw1 by lia.
      destruct (IH s1 (S r) places _ ltac:(lia) Hw1) as (s' & E & Hw').
      exists s'. set (k := (n `min` ((5 - S r) `min` places))%nat) in *.
      replace (S n `min` ((5 - r) `min` S places))%nat with (S k) by lia. split.
      * simpl. run_with E1. by run_with E.
      * replace (r + S k)%nat with (S r + k)%nat by lia. rewrite <- app_assoc in Hw'. exact Hw'.
Qed.

(** The pin of the configuration, opened by the actor, and a queue of three places. *)
Definition button_actor : cc_actor_button_state_t :=
  {| bu_button := str "b1"; bu_text := None; bu_text_len := 0 |}.
Definition button_pin : cc_gpio_state_t :=
  {| gpio_pin := 1; gpio_direction := CC_GPIO_IN; gpio_value := 0; gpio_readings := 0 |}.
Definition button_rt : rt (lib_state x86_state) :=
  {| rt_world := lib_world;
     rt_instances := {[12%positive := {| inst_type := 1; inst_state := Some (S_button button_actor) |}]};
     rt_caps := ∅;
     rt_objs := {[32%positive := {| obj_methods := Some gpio_code; obj_state := Some (S_device (X_gpio button_pin));
                                    obj_actor := 12%positive; obj_capability := 33%positive |}]};
     cs_capabilities := []; cs_objects := [list_item_n (str "b1") 2 32%positive 0]; rt_platform := no_platform |}.

Lemma button_sends_five_witness : exists s' : rt (lib_state x86_state),
  times 7 (cc_actor_button_fire (C:=library_code []) 12%positive) button_rt = Ok (3%nat, s')
  /\ wired 12%positive 23%positive 32%positive (str "b1") s' 3 0 (replicate 3 (mp_encode_uint 0)).
Proof.
  apply (button_sends_five [] 12%positive 23%positive 32%positive (str "b1") 7 button_rt 0 3 []).
  - reflexivity.
  - lia.
  - split.
    + eexists _, button_actor. repeat split; reflexivity.
    + eexists. split; reflexivity.
    + eexists. split; reflexivity.
    + eexists _, button_pin. repeat split; reflexivity.
    + exists out_port, (new_fifo 4), {| pending := []; unread := [] |}.
      split; [reflexivity|]. split; [reflexivity|]. split; [by apply new_fifo_repr|].
      split; [reflexivity|]. split; [simpl; lia|constructor].
    + intros b Hb. simpl in Hb. rewrite lookup_insert_is_Some, lookup_singleton_is_Some in Hb. simpl.
      destruct Hb as [<-|[_ <-]]; lia.
Defined.
