(* ===== verification/SocketProps.v ===== *)
(** The socket transport (cc_transport_socket.c): the address of a runtime, from its
    uri or from the answers to a discovery, to the connection. *)
From stdpp Require Import pretty.
From S2P Require Import Prelude CString CText Common Json MsgPuck MsgPackRef Coder Fifo Machine Transport ProtoSend.
From S2P Require Import Proto Runtime Socket CoderSpec MsgSpec Runs Examples.

(** ** Numbers as text *)

Definition COLON : byte := Byte.x3a.
Definition is_digit (c : byte) : Prop := is_Some (digit c).

Lemma digit_char x : (x < 10)%N -> digit (Ascii.byte_of_ascii (pretty_N_char x)) = Some (Z.of_N x).
Proof.
  intros H. assert (x = 0 \/ x = 1 \/ x = 2 \/ x = 3 \/ x = 4 \/ x = 5 \/ x = 6 \/ x = 7 \/ x = 8 \/ x = 9)%N as Hx by lia.
  by decompose [or] Hx; subst.
Qed.

Lemma digit_not_colon c : is_digit c -> c <> COLON /\ c <> NUL /\ c <> Byte.x2d /\ c <> Byte.x2b /\ is_space c = false
  /\ c <> Byte.x2f /\ c <> QUOTE.
Proof. unfold is_digit. intros H. split_and!; try (intros ->; by destruct H). destruct c; (done || by destruct H). Qed.

(** The digits that a number is printed with are read back as that number. *)
Lemma digits_pretty_go (x : N) : forall s rest, (0 < x)%N -> exists k,
  (0 < k)%nat /\ digits (str (pretty_N_go x s) ++ rest) 0
    = (let '(v, n) := digits (str s ++ rest) (Z.of_N x) in (v, (k + n)%nat))
  /\ (Forall is_digit (str s) -> Forall is_digit (str (pretty_N_go x s)))
  /\ exists t, str (pretty_N_go x s) = t ++ str s.
Proof.
  induction (N.lt_wf_0 x) as [x _ IH]. intros s rest Hx. rewrite pretty_N_go_step by done.
  pose proof (N.mod_lt x 10 ltac:(done)) as Hm. pose proof (N.div_mod x 10 ltac:(done)) as Hd.
  assert (Z.of_N x = 10 * Z.of_N (x / 10) + Z.of_N (x `mod` 10)) as Hz by lia.
  set (c := pretty_N_char (x `mod` 10)).
  assert (str (String.String c s) = Ascii.byte_of_ascii c :: str s) as Es by done.
  assert (forall acc, digits ((Ascii.byte_of_ascii c :: str s) ++ rest) acc
    = let '(v, n) := digits (str s ++ rest) (10 * acc + Z.of_N (x `mod` 10)) in (v, S n)) as Ec.
  { intros acc. simpl. unfold c. by rewrite digit_char. }
  assert (is_digit (Ascii.byte_of_ascii c)) as Hc by (unfold is_digit, c; rewrite digit_char by done; eauto).
  destruct (decide (x / 10 = 0)%N) as [Ez|Ez].
  - exists 1%nat. rewrite Ez, pretty_N_go_0, Es. split; [lia|]. split; [|split].
    + rewrite Ec. replace (10 * 0 + Z.of_N (x `mod` 10)) with (Z.of_N x) by (rewrite Hz, ?Ez; simpl; lia). done.
    + by constructor.
    + by exists [Ascii.byte_of_ascii c].
  - destruct (IH (x / 10)%N ltac:(apply N.div_lt; lia) (String.String c s) rest ltac:(lia)) as (k & Hk & E & Hf & t & Et).
    rewrite Es in *. exists (S k). split; [lia|]. split; [|split].
    + rewrite E, Ec. replace (10 * Z.of_N (x / 10) + Z.of_N (x `mod` 10)) with (Z.of_N x) by (rewrite Hz, ?Ez; simpl; lia).
      destruct (digits (str s ++ rest) (Z.of_N x)) as [v m]. f_equal. apply Nat.add_succ_r.
    + intros Hs. apply Hf. by constructor.
    + exists (t ++ [Ascii.byte_of_ascii c]). by rewrite Et, <- app_assoc.
Qed.

(** Where the digits end. *)
Definition no_digit (rest : bytes) : Prop := match rest with c :: _ => digit c = None | [] => True end.
Lemma digits_end rest acc : no_digit rest -> digits rest acc = (acc, 0%nat).
Proof. destruct rest as [|c rest]; [done|]. simpl. by intros ->. Qed.

Lemma decimal_digits (n : Z) rest : 0 <= n -> no_digit rest ->
  Forall is_digit (decimal n) /\ decimal n <> []
  /\ exists k, (0 < k)%nat /\ digits (decimal n ++ rest) 0 = (n, k).
Proof.
  intros Hn Hr. unfold decimal. destruct n as [|p|p]; [| |lia].
  - split_and!; [|done|]. { constructor; [|constructor]. by eexists. }
    exists 1%nat. split; [lia|]. simpl. by rewrite digits_end.
  - change (pretty (Z.pos p)) with (pretty_N_go (N.pos p) String.EmptyString).
    destruct (digits_pretty_go (N.pos p) String.EmptyString rest ltac:(lia)) as (k & Hk & E & Hf & _).
    change (str String.EmptyString ++ rest) with rest in E. rewrite (digits_end rest) in E by done. split_and!; [by apply Hf| |].
    + intros E0. destruct (digits_pretty_go (N.pos p) String.EmptyString [] ltac:(lia)) as (k' & Hk' & E' & _).
      rewrite E0 in E'. simpl in E'. injection E'. lia.
    + exists k. split; [done|]. rewrite E. simpl. f_equal. lia.
Qed.

Lemma strtol_decimal (n : Z) rest : 0 <= n < 2 ^ 63 -> no_digit rest ->
  exists k, (0 < k)%nat /\ strtol (decimal n ++ rest) = (n, k).
Proof.
  intros Hn Hr. destruct (decimal_digits n rest) as (Hf & Hne & k & Hk & E); [lia|done|].
  exists k. split; [done|]. destruct (decimal n) as [|c s] eqn:Ed; [done|].
  apply Forall_cons in Hf as [Hc _]. destruct (digit_not_colon c Hc) as (_ & _ & H1 & H2 & Hs & _).
  unfold strtol. cbn [app spaces]. rewrite Hs. cbn [drop]. rewrite !bool_decide_false by done. cbn [drop].
  cbn [app] in E. rewrite E. rewrite (proj2 (Nat.eqb_neq k 0)) by lia. f_equal; lia.
Qed.

(** ** A uri *)

(** An address and a port that fit a client. *)
Record endpoint (ip : bytes) (port : Z) : Prop := {
  ep_text : nul_free ip;
  ep_some : ip <> [];
  ep_port : 0 <= port < 65536;
  ep_room : (length ip + length (decimal port) < 38)%nat
}.
Definition uri_of (ip : bytes) (port : Z) : bytes := str "calvinip://" ++ ip ++ str ":" ++ decimal port.

Lemma nul_free_digits s : Forall is_digit s -> nul_free s /\ COLON ∉ s.
Proof.
  intros H. split; intros Hin; rewrite Forall_forall in H; apply H, digit_not_colon in Hin; naive_solver.
Qed.

Lemma uri_of_facts ip port : endpoint ip port ->
  nul_free (uri_of ip port) /\ COLON ∉ decimal port /\ (length (uri_of ip port) < CC_MAX_URI_LEN)%nat.
Proof.
  intros [Ht _ Hp Hr]. destruct (decimal_digits port [] ltac:(lia) I) as (Hf & _).
  apply nul_free_digits in Hf as [Hn Hc]. split_and!; [|done|].
  - unfold uri_of. rewrite !nul_free_app. split_and!; [keys|done|keys|done].
  - unfold uri_of, CC_MAX_URI_LEN. rewrite !length_app. simpl. lia.
Qed.

(** The end of a string: of what the list holds, or a terminator. *)
Definition ends (rest : bytes) : Prop := hd NUL rest = NUL.
Lemma ends_nth rest : ends rest -> nth 0 rest NUL = NUL.
Proof. by destruct rest. Qed.
Lemma strlen_ends s rest : nul_free s -> ends rest -> strlen (s ++ rest) = length s.
Proof.
  intros Hs. destruct rest as [|c rest]; [intros _|unfold ends; cbn [hd]; intros ->].
  - rewrite app_nil_r. by apply strlen_nul_free_all.
  - by apply strlen_nul_free.
Qed.

(** The last colon, from the end. *)
Lemma last_colon_found pre post rest : ends rest -> COLON ∉ post -> (11 < length pre)%nat -> forall k, (k <= S (length post))%nat ->
  last_colon (pre ++ COLON :: post ++ rest) (length pre + k) = Some (length pre).
Proof.
  intros He Hc Hp. induction k as [|k IH]; intros Hk.
  - rewrite Nat.add_0_r. destruct (length pre) as [|n] eqn:E; [lia|]. cbn [last_colon].
    rewrite (proj2 (Nat.leb_gt _ _)) by lia. rewrite <- E. rewrite app_nth2, Nat.sub_diag by lia. simpl. by rewrite E.
  - rewrite Nat.add_succ_r. cbn [last_colon]. rewrite (proj2 (Nat.leb_gt _ _)) by lia.
    rewrite bool_decide_false; [apply IH; lia|].
    rewrite app_nth2 by lia. replace (S (length pre + k) - length pre)%nat with (S k) by lia. cbn [nth].
    destruct (decide (k = length post)) as [->|].
    + rewrite app_nth2, Nat.sub_diag, ends_nth by (done || lia). done.
    + rewrite app_nth1 by lia. intros E. apply Hc. unfold COLON. rewrite <- E. apply list_elem_of_In, nth_In. lia.
Qed.

(** An array that holds a uri: the address and the port are found in it. *)
Lemma parse_uri_of ip port rest : endpoint ip port -> ends rest ->
  exists tail, cc_transport_socket_parse_uri (uri_of ip port ++ rest) = Some (ip ++ tail, length ip, port).
Proof.
  intros Hep He. destruct (uri_of_facts ip port Hep) as (Hn & Hc & _). destruct Hep as [Ht Hs Hp _].
  exists (str ":" ++ decimal port ++ rest). unfold cc_transport_socket_parse_uri.
  rewrite strlen_ends by done.
  assert (streq_n (uri_of ip port ++ rest) (str "calvinip://") 11 = true) as ->.
  { unfold uri_of. rewrite <- !app_assoc. change 11%nat with (length (str "calvinip://")). apply key_test_eq. keys. }
  cbn [negb]. unfold uri_of. rewrite !length_app.
  replace (length (str "calvinip://") + (length ip + (length (str ":") + length (decimal port))))%nat
    with (length (str "calvinip://" ++ ip) + S (length (decimal port)))%nat by (rewrite length_app; simpl; lia).
  rewrite <- !app_assoc. change (str ":" ++ decimal port ++ rest) with (COLON :: decimal port ++ rest).
  rewrite (app_assoc (str "calvinip://") ip).
  assert (0 < length ip)%nat by (destruct ip; [done|simpl; lia]).
  rewrite last_colon_found; [|done|done|rewrite length_app; simpl; lia|lia]. cbn [mbind option_bind].
  destruct (strtol_decimal port rest) as (k & _ & E); [lia|by destruct rest as [|c rest]; [|unfold ends in He; simpl in He; subst c]|].
  set (pre := str "calvinip://" ++ ip). set (tl := COLON :: decimal port ++ rest).
  assert (drop (length pre + 1) (pre ++ tl) = decimal port ++ rest) as ->.
  { rewrite <- drop_drop, drop_app_length. done. }
  rewrite E. cbn [fst]. unfold i32. rewrite u32_id by (unfold is_u32; lia). rewrite (proj2 (Z.ltb_lt _ _)) by lia.
  assert (length pre - 11 = length ip)%nat as -> by (unfold pre; rewrite length_app; simpl; lia).
  unfold pre. rewrite <- app_assoc. done.
Qed.

(** ** Runs of the operations *)

Section runs.
Context {V : Type} `{P : Platform} `{SK : Sockets} `{HK : !Holds V cc_transport_socket_client_t}.
Implicit Types s : rt V.

Lemma run_uninit s size : exists g, uninit size s = Ok (g, s) /\ length g = size.
Proof.
  eexists. split; [reflexivity|]. unfold zeroed. rewrite length_take, length_app, length_replicate. lia.
Qed.

(** A descriptor that is open, or no more. *)
Definition with_open (o : gset Z) s : rt V :=
  set_platform (set_ps_open o (rt_platform s)) (later (S (w_calls (rt_world s))) s).

Lemma run_open_socket s : 0 <= os_socket (w_calls (rt_world s)) ->
  open_socket s = Ok (os_socket (w_calls (rt_world s)),
                      with_open ({[os_socket (w_calls (rt_world s))]} ∪ ps_open (rt_platform s)) s).
Proof.
  intros H. cbv [open_socket os_tick on_world zoom tick upd_platform]. exec. by rewrite (proj2 (Z.leb_le _ _)).
Qed.
Lemma run_close_fd s fd : close_fd fd s = Ok (tt, with_open (ps_open (rt_platform s) ∖ {[fd]}) s).
Proof. reflexivity. Qed.
Lemma run_os_tick s : os_tick s = Ok (w_calls (rt_world s), later (S (w_calls (rt_world s))) s).
Proof. reflexivity. Qed.

(** A text that leaves room for its terminator. *)
Lemma run_recv_text s buffer data : os_recv (w_calls (rt_world s)) = Some data ->
  (length data < CC_RECV_BUF_SIZE)%nat -> length buffer = CC_RECV_BUF_SIZE ->
  exists rest, recv_text buffer s = Ok (Some (data ++ NUL :: rest), later (S (w_calls (rt_world s))) s).
Proof.
  intros E Hl Hb. exists (drop (S (length data)) buffer). unfold recv_text. run_with (run_os_tick s). rewrite E.
  rewrite take_ge by lia. unfold store. rewrite decide_True by (rewrite length_app, length_drop; lia).
  rewrite insert_app_r_alt, Nat.sub_diag by lia. destruct (lookup_lt_is_Some_2 buffer (length data)) as [c Hc]; [lia|].
  by rewrite (drop_S buffer c (length data) Hc).
Qed.

(** ** Creation and connection *)

Definition socket_client (uri : bytes) : cc_transport_client_t :=
  {| tc_transport_type := CC_TRANSPORT_SOCKET_TYPE; tc_uri := uri; tc_peer_id := zeroed CC_UUID_BUFFER_SIZE;
     tc_state := CC_TRANSPORT_INTERFACE_UP; tc_rx_buffer := no_rx; tc_prefix_len := CC_TRANSPORT_LEN_PREFIX_SIZE |}.

(** The transport keeps the address. *)
Definition keeps_address (ip : bytes) (port : Z) (p : platform_state V) : Prop :=
  exists sk t, ps_client_state p = Some (hold sk) /\ sk_ip sk = ip ++ NUL :: t /\ sk_port sk = port.

Hypothesis Hmem : forall n, plat_alloc n = true.

Lemma create_at_target s uri ip port tail s1 : endpoint ip port ->
  socket_target uri s = Ok (Some (ip ++ tail, length ip, port), s1) ->
  exists t p c, cc_transport_socket_create uri s
    = Ok (Some (socket_client (uri_of ip port ++ NUL :: t)), set_platform p (later c s1))
    /\ length (uri_of ip port ++ NUL :: t) = CC_MAX_URI_LEN /\ keeps_address ip port p
    /\ ps_open p = ps_open (rt_platform s1).
Proof using Hmem.
  intros Hep E. destruct (uri_of_facts ip port Hep) as (_ & _ & Hlen). destruct Hep as [Ht Hs Hp Hr].
  unfold cc_transport_socket_create. run_with E. cbn iota. rrun1. cbn iota. rrun1. cbv zeta.
  set (s2 := later _ s1). destruct (run_uninit s2 40) as (g & Eg & Hg). run_with Eg. rrun1. cbn iota.
  rewrite strncpy_nul_Some by (done || (unfold CC_MAX_URI_LEN in *; lia)).
  set (s3 := later _ s2). rewrite (bind_Ok (need _ (Some _)) _ s3 _ s3 eq_refl).
  unfold client_uri. rewrite cstr_nul_free by done. fold (uri_of ip port).
  rewrite (proj2 (Nat.ltb_lt _ _)) by done. rewrite (bind_Ok (need _ (Some _)) _ s3 _ s3 eq_refl).
  assert (zeroed (CC_MAX_URI_LEN - length (uri_of ip port)) = NUL :: zeroed (CC_MAX_URI_LEN - S (length (uri_of ip port)))) as ->.
  { unfold zeroed. replace (CC_MAX_URI_LEN - length (uri_of ip port))%nat
      with (S (CC_MAX_URI_LEN - S (length (uri_of ip port))))%nat by lia. done. }
  eexists _, _, _. split; [reflexivity|]. split; [|split; [|reflexivity]].
  - rewrite length_app. cbn [length]. unfold zeroed. rewrite length_replicate. lia.
  - eexists _, _. split; [reflexivity|]. split; reflexivity.
Qed.

(** What the connection answers is what the network answers for the address. *)
Lemma run_connect s ip port client : endpoint ip port -> keeps_address ip port (rt_platform s) ->
  node_transport_client (w_node (rt_world s)) = Some client ->
  let n := w_calls (rt_world s) in 0 <= os_socket n ->
  exists s', cc_transport_socket_connect s
      = Ok (if os_connect (S n) ip port then CC_SUCCESS else CC_FAIL, s')
    /\ os_socket n ∈ ps_open (rt_platform s')
    /\ node_transport_client (w_node (rt_world s'))
       = Some (if os_connect (S n) ip port then set_tc_state CC_TRANSPORT_CONNECTED client else client).
Proof.
  clear Hmem. intros [Ht _ Hp _] (sk & t & Hc & Hi & Hpo) Hn n Hf. unfold cc_transport_socket_connect.
  assert (get_socket s = Ok (sk, s)) as Eg.
  { unfold get_socket. rewrite (bind_Ok get_platform _ s _ s eq_refl). unfold state_as. rewrite Hc. exec.
    by rewrite held_hold. }
  run_with Eg. run_with (run_open_socket s Hf). fold n.
  set (s1 := with_open _ s).
  assert (forall x, put_socket x s1 = Ok (tt, set_platform (set_ps_client_state (Some (hold x)) (rt_platform s1)) s1)) as Ep by done.
  run_with (Ep {| sk_fd := os_socket n; sk_ip := sk_ip sk; sk_port := sk_port sk |}).
  rewrite (proj2 (Z.leb_le _ _)) by done. set (s2 := set_platform _ s1).
  run_with (run_os_tick s2). change (w_calls (rt_world s2)) with (S n).
  rewrite Hi, Hpo, cstr_nul_free by done. unfold u16. rewrite Z.mod_small by lia.
  destruct (os_connect (S n) ip port).
  - eexists. split; [|split]; [|shelve|shelve]. cbv [upd_client get_client get_node upd_node on_world zoom]. exec.
    rewrite Hn. reflexivity.
    Unshelve. + simpl. set_solver. + reflexivity.
  - eexists. split; [reflexivity|]. split; [simpl; set_solver|done].
Qed.
End runs.

(** ** Text that is looked for *)

(** The first occurrence is where the first byte occurs first. *)
Lemma find_text_at c pat pre post : c ∉ pre ->
  find_text (c :: pat) (pre ++ (c :: pat) ++ post) = Some (length pre).
Proof.
  induction pre as [|d pre IH]; intros H.
  - simpl. rewrite decide_True by (by exists post). done.
  - apply not_elem_of_cons in H as [Hd H]. specialize (IH H). cbn [app find_text length] in *.
    rewrite decide_False; [by rewrite IH|]. intros [t E]. by injection E.
Qed.

Lemma first_colon_at pre post n : COLON ∉ pre -> first_colon (pre ++ COLON :: post) n = Some (n + length pre)%nat.
Proof.
  revert n. induction pre as [|d pre IH]; intros n H; cbn [app first_colon length].
  - by rewrite bool_decide_true, Nat.add_0_r.
  - apply not_elem_of_cons in H as [Hd H]. rewrite bool_decide_false by (unfold COLON in *; congruence).
    rewrite IH by done. f_equal. lia.
Qed.

(** A status line is compared over its length. *)
Lemma starts_with pre rest n : nul_free pre -> n = length pre -> streq_n (pre ++ rest) pre n = true.
Proof. intros H ->. by apply key_test_eq. Qed.

(** ** Discovery *)

Definition CR : byte := Byte.x0d.

(** Where the runtime answers over HTTP: its address, port and path. *)
Record http_place (ip : bytes) (port : Z) (path : bytes) : Prop := {
  hp_ip : nul_free ip /\ COLON ∉ ip /\ SLASH ∉ ip /\ CR ∉ ip;
  hp_port : 0 <= port < 65536;
  hp_path : nul_free path /\ CR ∉ path /\ exists t, path = SLASH :: t;
  hp_room : (length ip + length (decimal port) + length path < CC_LOCATION_SIZE - 8)%nat
}.
Definition location_of (ip : bytes) (port : Z) (path : bytes) : bytes :=
  str "http://" ++ ip ++ str ":" ++ decimal port ++ path.

(** A text that is received whole: a status line, something, the text that is looked
    for, where it occurs first, and more. *)
Record reply_with (status mark text more reply : bytes) : Prop := {
  rw_text : exists pre, reply = status ++ pre ++ mark ++ text ++ more
                        /\ find_text mark reply = Some (length (status ++ pre));
  rw_nul : nul_free reply;
  rw_room : (length reply < CC_RECV_BUF_SIZE)%nat
}.

Lemma digits_clear port : 0 <= port -> nul_free (decimal port) /\ SLASH ∉ decimal port /\ CR ∉ decimal port
  /\ QUOTE ∉ decimal port /\ decimal port <> [].
Proof.
  intros Hp. destruct (decimal_digits port [] Hp I) as (Hf & Hne & _). rewrite Forall_forall in Hf.
  split_and!; [..|done]; intros Hin; apply Hf in Hin; by destruct Hin.
Qed.

Lemma parse_location_of ip port path rest : http_place ip port path ->
  exists tail, parse_location (location_of ip port path ++ NUL :: rest)
    = Some (ip ++ tail, length ip, port, path ++ NUL :: rest).
Proof.
  intros [(Hi & Hc & Hs & _) Hp (Hpn & _ & t & Et) Hr]. destruct (digits_clear port) as (Hd & Hds & _ & _ & Hne); [lia|].
  exists (COLON :: decimal port ++ path ++ NUL :: rest). unfold parse_location.
  assert (nul_free (location_of ip port path)) as Hn.
  { unfold location_of. rewrite !nul_free_app. split_and!; [keys|done|keys|done|done]. }
  assert (length (location_of ip port path) = 8 + (length ip + length (decimal port) + length path))%nat as El.
  { unfold location_of. rewrite !length_app. simpl. lia. }
  rewrite strnlen_nul_free by (done || lia). rewrite take_app_length.
  unfold location_of. rewrite <- !app_assoc. rewrite starts_with by (keys || done). cbn [negb].
  change 7%nat with (length (str "http://")). rewrite !drop_app_length.
  change (str ":" ++ decimal port ++ path) with (COLON :: decimal port ++ path).
  rewrite first_colon_at by done. cbn [mbind option_bind].
  set (l := ip ++ str ":" ++ decimal port ++ path ++ NUL :: rest).
  assert (strchr l Byte.x2f = Some (length (ip ++ str ":" ++ decimal port))) as ->.
  { unfold strchr, l. rewrite !cstr_app by (done || keys). rewrite Et.
    replace (ip ++ str ":" ++ decimal port ++ (SLASH :: t) ++ cstr (NUL :: rest))
      with ((ip ++ str ":" ++ decimal port) ++ [SLASH] ++ t ++ cstr (NUL :: rest)) by by rewrite <- !app_assoc.
    apply find_text_at. rewrite !not_elem_of_app. split_and!; [done|keys|done]. }
  cbn [mbind option_bind]. replace (length (str "http://") + length ip - length (str "http://"))%nat with (length ip) by lia.
  assert (drop (length ip + 1) l = decimal port ++ path ++ NUL :: rest) as ->.
  { rewrite <- drop_drop. unfold l. by rewrite drop_app_length. }
  destruct (strtol_decimal port (path ++ NUL :: rest)) as (k & Hk & ->); [lia|by rewrite Et|].
  rewrite (proj2 (Nat.eqb_neq k 0)) by lia. unfold i32. rewrite u32_id by (unfold is_u32; lia).
  rewrite (proj2 (Z.ltb_lt _ _)) by lia. do 2 f_equal.
  replace l with ((ip ++ str ":" ++ decimal port) ++ path ++ NUL :: rest) by (unfold l; by rewrite <- !app_assoc).
  by rewrite drop_app_length.
Qed.

Lemma ssdp_location_of loc more reply rest :
  CR ∉ loc -> (length loc < CC_LOCATION_SIZE)%nat ->
  reply_with (str "HTTP/1.1 200 OK") (str "LOCATION:") (str " " ++ loc ++ CRLF) more reply ->
  ssdp_location (reply ++ NUL :: rest) = Ok (Some loc).
Proof.
  intros Hc Hl [(pre & E & F) Hn _]. unfold ssdp_location. rewrite E at 1. rewrite <- app_assoc.
  rewrite starts_with by (keys || done). cbn [negb]. unfold strstr. rewrite cstr_nul_free, F by done.
  assert (drop (length (str "HTTP/1.1 200 OK" ++ pre) + 10) (reply ++ NUL :: rest) = loc ++ CRLF ++ more ++ NUL :: rest) as ->.
  { rewrite E. replace ((str "HTTP/1.1 200 OK" ++ pre ++ str "LOCATION:" ++ (str " " ++ loc ++ CRLF) ++ more) ++ NUL :: rest)
      with ((str "HTTP/1.1 200 OK" ++ pre) ++ str "LOCATION: " ++ loc ++ CRLF ++ more ++ NUL :: rest)
      by (rewrite <- !app_assoc; reflexivity).
    rewrite <- drop_drop, drop_app_length. reflexivity. }
  rewrite E, !nul_free_app in Hn. destruct Hn as (_ & _ & _ & (_ & Hnl & _) & Hnm).
  unfold strstr_array, strstr. rewrite !cstr_app by (done || keys).
  rewrite (find_text_at CR [Byte.x0a] loc) by done. cbn [mbind outcome_bind].
  rewrite (proj2 (Nat.ltb_ge _ _)) by lia. by rewrite take_app_length.
Qed.

Lemma http_interface_of uri more reply rest : QUOTE ∉ uri -> (exists t, uri = str "calvinip://" ++ t) ->
  reply_with (str "HTTP/1.0 200 OK") (str "calvinip://") (drop 11 uri ++ [QUOTE]) more reply ->
  http_interface (reply ++ NUL :: rest) = Some uri.
Proof.
  intros Hq (t & Et) [(pre & E & F) Hn _]. unfold http_interface. rewrite E at 1. rewrite <- app_assoc.
  rewrite starts_with by (keys || done). cbn [negb]. unfold strstr. rewrite cstr_nul_free, F by done.
  assert (drop (length (str "HTTP/1.0 200 OK" ++ pre)) (reply ++ NUL :: rest) = uri ++ [QUOTE] ++ more ++ NUL :: rest) as ->.
  { rewrite E, Et. rewrite (app_assoc (str "HTTP/1.0 200 OK") pre), <- (app_assoc (_ ++ pre)), drop_app_length.
    rewrite <- !app_assoc. reflexivity. }
  rewrite E, !nul_free_app in Hn. destruct Hn as (_ & _ & Hnm & (Hnu & _) & Hnm').
  assert (nul_free uri) as Hu.
  { rewrite Et in *. apply nul_free_app. by split. }
  unfold strchr. rewrite !cstr_app by (done || keys). rewrite find_text_at by done. cbn [mbind option_bind].
  by rewrite take_app_length.
Qed.

(** ** The discovery of a runtime *)

Section discovery.
Context {V : Type} `{P : Platform} `{SK : Sockets} `{HK : !Holds V cc_transport_socket_client_t}.
Implicit Types s : rt V.

(** What the network does from the call [n] on: the request is sent, the answer [data]
    comes over the same descriptor. *)
Record answers_request (n : nat) (data : bytes) : Prop := {
  ar_socket : 0 <= os_socket n;
  ar_send : os_send (S n) ssdp_request = Z.of_nat (length ssdp_request);
  ar_ready : os_select (2 + n) (Some 5) {[os_socket n]} = Some {[os_socket n]};
  ar_recv : os_recv (3 + n) = Some data
}.

(** And what the runtime at [ip] and [port] does with the request for [path]. *)
Record answers_http (n : nat) (ip : bytes) (port : Z) (path data : bytes) : Prop := {
  ah_socket : 0 <= os_socket n;
  ah_connect : os_connect (S n) ip port = true;
  ah_send : 0 <= os_send (2 + n) (http_request path);
  ah_recv : os_recv (3 + n) = Some data
}.

(** The runtime after five calls, one of which opened a descriptor that was closed. *)
Definition after_request s : rt V :=
  with_open (({[os_socket (w_calls (rt_world s))]} ∪ ps_open (rt_platform s)) ∖ {[os_socket (w_calls (rt_world s))]})
    (later (4 + w_calls (rt_world s)) s).

Lemma run_ssdp_response s data : answers_request (w_calls (rt_world s)) data ->
  (length data < CC_RECV_BUF_SIZE)%nat ->
  exists rest, ssdp_response s = Ok (Some (data ++ NUL :: rest), after_request s).
Proof.
  intros [H1 H2 H3 H4] Hl. unfold ssdp_response.
  destruct (run_uninit s CC_RECV_BUF_SIZE) as (g & Eg & Hg). run_with Eg. cbv zeta.
  set (b := ssdp_request ++ NUL :: drop (S (length ssdp_request)) g).
  assert (length b = CC_RECV_BUF_SIZE) as Hb.
  { unfold b. rewrite length_app. cbn [length]. rewrite length_drop, Hg. reflexivity. }
  run_with (run_open_socket s H1). set (n := w_calls (rt_world s)) in *.
  rewrite (proj2 (Z.eqb_neq _ _)) by lia. cbn [negb].
  set (s1 := with_open _ s). run_with (run_os_tick s1). change (w_calls (rt_world s1)) with (S n).
  rewrite H2, Z.eqb_refl. set (s2 := later _ s1). run_with (run_os_tick s2).
  change (w_calls (rt_world s2)) with (2 + n)%nat. rewrite H3. rewrite bool_decide_true by set_solver.
  set (s3 := later _ s2). destruct (run_recv_text s3 b data H4 Hl Hb) as (rest & E).
  exists rest. run_with E. cbn iota. set (s4 := later _ s3). run_with (run_close_fd s4 (os_socket n)). reflexivity.
Qed.

Lemma run_get_ip_uri s uri ip tail port path text more reply : nul_free ip -> (length ip < CC_RECV_BUF_SIZE)%nat ->
  0 <= port < 65536 ->
  answers_http (w_calls (rt_world s)) ip port path reply -> (length (http_request path) <= CC_RECV_BUF_SIZE)%nat ->
  QUOTE ∉ text -> (exists t, text = str "calvinip://" ++ t) -> (length text < length uri)%nat ->
  reply_with (str "HTTP/1.0 200 OK") (str "calvinip://") (drop 11 text ++ [QUOTE]) more reply ->
  exists t, cc_transport_socket_get_ip_uri uri (ip ++ tail) (length ip) port path s
            = Ok (Some (text ++ NUL :: t), after_request s).
Proof.
  intros Hi Hil Hp [H1 H2 H3 H4] Hr Hq Ht Hu Hw. unfold cc_transport_socket_get_ip_uri.
  run_with (run_open_socket s H1). set (n := w_calls (rt_world s)) in *. rewrite (proj2 (Z.leb_le _ _)) by done.
  set (s1 := with_open _ s). destruct (run_uninit s1 CC_RECV_BUF_SIZE) as (g & Eg & Hg). run_with Eg.
  rewrite strncpy_nul_Some by (done || lia). rewrite (bind_Ok (need _ (Some _)) _ s1 _ s1 eq_refl).
  run_with (run_os_tick s1). change (w_calls (rt_world s1)) with (S n). rewrite cstr_nul_free by done.
  unfold u16. rewrite Z.mod_small, H2 by lia. set (s2 := later _ s1).
  assert (exists rest, http_response (os_socket n) path s2 = Ok (Some (reply ++ NUL :: rest), after_request s)) as (rest & E).
  { unfold http_response. cbv zeta. rewrite (proj2 (Nat.ltb_ge _ _)) by done.
    run_with (run_os_tick s2). change (w_calls (rt_world s2)) with (2 + n)%nat. rewrite (proj2 (Z.leb_le _ _)) by done.
    set (s3 := later _ s2). destruct (run_recv_text s3 (zeroed CC_RECV_BUF_SIZE) reply H4) as (rest & E);
      [by destruct Hw|reflexivity|].
    exists rest. run_with E. set (s4 := later _ s3). run_with (run_close_fd s4 (os_socket n)). reflexivity. }
  run_with E. cbn iota. rewrite (http_interface_of text more) by done.
  assert (nul_free text) as Htn.
  { destruct Hw as [(pre & Er & _) Hn _], Ht as (t & ->). rewrite Er, !nul_free_app in Hn. apply nul_free_app. split; tauto. }
  rewrite strncpy_nul_all by done. eexists. reflexivity.
Qed.

(** The uri that is discovered. *)
Lemma run_discover s uri lip lport path ip port more reply more' answer :
  endpoint ip port -> QUOTE ∉ ip -> http_place lip lport path -> (length (uri_of ip port) < length uri)%nat ->
  answers_request (w_calls (rt_world s)) reply -> answers_http (5 + w_calls (rt_world s)) lip lport path answer ->
  reply_with (str "HTTP/1.1 200 OK") (str "LOCATION:") (str " " ++ location_of lip lport path ++ CRLF) more reply ->
  reply_with (str "HTTP/1.0 200 OK") (str "calvinip://") (drop 11 (uri_of ip port) ++ [QUOTE]) more' answer ->
  exists t, cc_transport_socket_discover_proxy uri s
            = Ok (Some (uri_of ip port ++ NUL :: t), after_request (after_request s)).
Proof.
  intros Hep Hqi Hpl Hu Hreq Hhttp Hr Ha. unfold cc_transport_socket_discover_proxy, cc_transport_socket_discover_location.
  assert (length (location_of lip lport path) < CC_LOCATION_SIZE)%nat as Hloc.
  { destruct Hpl as [_ _ _ Hroom]. unfold location_of. rewrite !length_app. unfold CC_LOCATION_SIZE in *. simpl. lia. }
  destruct (digits_clear lport ltac:(by destruct Hpl; lia)) as (Hdn & _ & Hdc & _).
  destruct (digits_clear port ltac:(by destruct Hep; lia)) as (_ & _ & _ & Hdq & _).
  destruct (run_ssdp_response s reply Hreq ltac:(by destruct Hr)) as (rest & E).
  set (loc := location_of lip lport path) in *.
  assert (nul_free loc /\ CR ∉ loc) as [Hln Hlc].
  { destruct Hpl as [(? & _ & _ & ?) _ (? & ? & _) _]. unfold loc, location_of. rewrite !nul_free_app, !not_elem_of_app.
    split_and!; (done || keys). }
  set (s1 := after_request s).
  assert ((r ← ssdp_response;
    let? buffer := r else mret None in
    text ← lift_outcome (ssdp_location buffer);
    let? text := text else mret None in
    location ← need BufferOverflow (strncpy_nul (zeroed CC_LOCATION_SIZE) text (length text));
    mret (Some location)) s
    = Ok (Some (loc ++ NUL :: drop (S (length loc)) (zeroed CC_LOCATION_SIZE)), s1)) as El.
  { run_with E. cbn iota. rewrite (ssdp_location_of loc more reply rest) by done.
    rewrite (bind_Ok (lift_outcome (Ok _)) _ s1 _ s1 eq_refl). cbn iota.
    rewrite strncpy_nul_all by done. reflexivity. }
  run_with El. cbn iota.
  destruct (parse_location_of lip lport path (drop (S (length loc)) (zeroed CC_LOCATION_SIZE)) Hpl) as (tail & Ep).
  fold loc in Ep. rewrite Ep.
  assert (http_request (path ++ NUL :: drop (S (length loc)) (zeroed CC_LOCATION_SIZE)) = http_request path) as Eh.
  { destruct Hpl as [_ _ (? & _) _]. unfold http_request. by rewrite cstr_nul_free, cstr_nul_free_all. }
  assert (length (http_request path) <= CC_RECV_BUF_SIZE)%nat as Hrl.
  { destruct Hpl as [_ _ (? & _) Hroom]. unfold http_request. rewrite cstr_nul_free_all by done.
    unfold CC_LOCATION_SIZE, CC_RECV_BUF_SIZE in *. rewrite !length_app. simpl. lia. }
  destruct Hpl as [(Hin & _) Hlp _ Hroom].
  apply (run_get_ip_uri s1 uri lip tail lport _ (uri_of ip port) more' answer).
  - done.
  - unfold CC_LOCATION_SIZE, CC_RECV_BUF_SIZE in *. lia.
  - done.
  - destruct Hhttp as [? ? ? ?]. split; [done..| |done]. by rewrite Eh.
  - by rewrite Eh.
  - unfold uri_of. rewrite !not_elem_of_app. split_and!; (done || keys).
  - by eexists.
  - done.
  - done.
Qed.
End discovery.

Lemma socket_target_uri {V : Type} `{P : Platform} `{SK : Sockets} ip port rest (s : rt V) : endpoint ip port -> ends rest ->
  exists tail, socket_target (uri_of ip port ++ rest) s = Ok (Some (ip ++ tail, length ip, port), s).
Proof.
  intros Hep He. destruct (parse_uri_of ip port rest Hep He) as (tail & E). exists tail.
  unfold socket_target. assert (streq_n (uri_of ip port ++ rest) (str "ssdp") 4 = false) as -> by done. by rewrite E.
Qed.

Lemma created {V : Type} `{P : Platform} `{SK : Sockets} `{HK : !Holds V cc_transport_socket_client_t} uri u (s s' : rt V) :
  create_client CC_TRANSPORTS uri None s = Ok (Some (socket_client u), s') ->
  cc_transport_create uri s = Ok (Some (socket_client u), s').
Proof. intros E. unfold cc_transport_create. by run_with E. Qed.

(** C21: the socket transport reaches the runtime that a uri names.  For every address
    and port, with room for the client's own text of them, the client that
    [cc_transport_create] makes of "calvinip://ip:port" has that text as its uri and
    is up; connecting it asks the network for exactly that address and port, answers
    what the network answers, and the client is connected exactly on success. *)
Theorem uri_is_connected_to {V : Type} `{P : Platform} `{SK : Sockets} `{HK : !Holds V cc_transport_socket_client_t}
  (ip : bytes) (port : Z) (rest : bytes) (s : rt V) :
  (forall n, plat_alloc n = true) -> endpoint ip port -> ends rest ->
  exists client s1 t, cc_transport_create (uri_of ip port ++ rest) s = Ok (Some client, s1)
    /\ tc_uri client = uri_of ip port ++ NUL :: t /\ length (tc_uri client) = CC_MAX_URI_LEN
    /\ tc_state client = CC_TRANSPORT_INTERFACE_UP
    /\ forall s2, rt_platform s2 = rt_platform s1 -> node_transport_client (w_node (rt_world s2)) = Some client ->
       let n := w_calls (rt_world s2) in 0 <= os_socket n ->
       exists s3, cc_transport_socket_connect s2 = Ok (if os_connect (S n) ip port then CC_SUCCESS else CC_FAIL, s3)
         /\ os_socket n ∈ ps_open (rt_platform s3)
         /\ node_transport_client (w_node (rt_world s3))
            = Some (if os_connect (S n) ip port then set_tc_state CC_TRANSPORT_CONNECTED client else client).
Proof.
  intros Hmem Hep He. destruct (socket_target_uri ip port rest s Hep He) as (tail & Et).
  destruct (create_at_target Hmem s _ ip port tail s Hep Et) as (t & p & c & E & Hl & Hk & _).
  exists (socket_client (uri_of ip port ++ NUL :: t)), (set_platform p (later c s)), t.
  split; [|split; [reflexivity|split; [exact Hl|split; [reflexivity|]]]].
  - apply created. unfold CC_TRANSPORTS. cbn [create_client].
    assert (streq_n (uri_of ip port ++ rest) (str "calvinip") (strlen (str "calvinip")) = true) as ->.
    { unfold uri_of. rewrite <- !app_assoc. apply (starts_with (str "calvinip") (str "://" ++ ip ++ str ":" ++ decimal port ++ rest)); [keys|done]. }
    run_with E. assert (streq_n (uri_of ip port ++ rest) (str "ssdp") (strlen (str "ssdp")) = false) as -> by done.
    reflexivity.
  - intros s2 Hp Hn n Hf. apply (run_connect s2 ip port); [exact Hep| |exact Hn|exact Hf]. rewrite Hp. exact Hk.
Qed.

(** C20: the socket transport finds a runtime by itself.  When the answer to the
    multicast names an http location of at most 199 bytes, and what is answered there
    holds the uri of an interface, the client that [cc_transport_create] makes of
    "ssdp" is the client of that uri, and no descriptor of the discovery is left open;
    the texts before the location and the uri are any that do not hold the marks
    LOCATION: and calvinip://. *)
Theorem ssdp_finds_runtime {V : Type} `{P : Platform} `{SK : Sockets} `{HK : !Holds V cc_transport_socket_client_t}
  (lip : bytes) (lport : Z) (path ip : bytes) (port : Z) (more reply more' answer rest : bytes) (s : rt V) :
  (forall n, plat_alloc n = true) -> endpoint ip port -> QUOTE ∉ ip -> http_place lip lport path -> ends rest ->
  let n := w_calls (rt_world s) in
  answers_request n reply -> answers_http (5 + n) lip lport path answer ->
  reply_with (str "HTTP/1.1 200 OK") (str "LOCATION:") (str " " ++ location_of lip lport path ++ CRLF) more reply ->
  reply_with (str "HTTP/1.0 200 OK") (str "calvinip://") (drop 11 (uri_of ip port) ++ [QUOTE]) more' answer ->
  exists t s1, cc_transport_create (str "ssdp" ++ rest) s = Ok (Some (socket_client (uri_of ip port ++ NUL :: t)), s1)
    /\ keeps_address ip port (rt_platform s1) /\ ps_open (rt_platform s1) ⊆ ps_open (rt_platform s).
Proof.
  intros Hmem Hep Hq Hpl He n Hreq Hhttp Hr Ha. destruct (uri_of_facts ip port Hep) as (_ & _ & Hlen).
  destruct (run_uninit s 100) as (g & Eg & Hg).
  destruct (run_discover s g lip lport path ip port more reply more' answer) as (t0 & Ed); try done.
  { unfold CC_MAX_URI_LEN in Hlen. lia. }
  destruct (parse_uri_of ip port (NUL :: t0) Hep eq_refl) as (tail & Ep).
  set (s0 := after_request (after_request s)).
  assert (socket_target (str "ssdp" ++ rest) s = Ok (Some (ip ++ tail, length ip, port), s0)) as Et.
  { unfold socket_target. rewrite starts_with by (keys || done). run_with Eg. run_with Ed. cbn iota. by rewrite Ep. }
  destruct (create_at_target Hmem s _ ip port tail s0 Hep Et) as (t & p & c & E & Hl & Hk & Ho).
  exists t, (set_platform p (later c s0)). split; [|split; [exact Hk|]].
  - apply created. unfold CC_TRANSPORTS. cbn [create_client].
    assert (streq_n (str "ssdp" ++ rest) (str "calvinip") (strlen (str "calvinip")) = false) as -> by done.
    rewrite (bind_Ok (mret None) _ s _ s eq_refl).
    rewrite (starts_with (str "ssdp") rest) by (keys || done). run_with E. reflexivity.
  - simpl. rewrite Ho. unfold s0, after_request. simpl. set_solver.
Qed.

(** A network of two runtimes: at 10.0.0.2 the one that answers, and at 10.0.0.1 the
    interface it tells of. *)
Definition ssdp_reply : bytes :=
  str "HTTP/1.1 200 OK" ++ (CRLF ++ str "CACHE-CONTROL: max-age=1800" ++ CRLF ++ str "EXT:" ++ CRLF) ++ str "LOCATION:"
  ++ (str " " ++ location_of (str "10.0.0.2") 5022 (str "/node") ++ CRLF) ++ str "USN: x" ++ CRLF ++ CRLF.
Definition http_answer : bytes :=
  str "HTTP/1.0 200 OK" ++ (CRLF ++ CRLF ++ str "interface=" ++ [QUOTE]) ++ str "calvinip://"
  ++ (drop 11 (uri_of (str "10.0.0.1") 5000) ++ [QUOTE]) ++ CRLF.

#[export] Instance two_runtimes : Sockets := {
  os_socket := fun n => 3 + Z.of_nat n;
  os_connect := fun _ ip port => bool_decide (ip = str "10.0.0.1" /\ port = 5000)
                                 || bool_decide (ip = str "10.0.0.2" /\ port = 5022);
  os_send := fun _ b => Z.of_nat (length b);
  os_recv := fun n => if (n =? 3)%nat then Some ssdp_reply else if (n =? 8)%nat then Some http_answer else None;
  os_select := fun _ _ fds => Some fds;
  os_stack := fun _ => [];
  os_word := fun _ => 0
}.
#[export] Instance holds_itself : Holds cc_transport_socket_client_t cc_transport_socket_client_t :=
  {| hold := fun x => x; held := Some; held_hold := fun _ => eq_refl |}.

(** The runtime of the examples, with a client or without one. *)
Definition socket_rt (client : option cc_transport_client_t) (p : platform_state cc_transport_socket_client_t)
  : rt cc_transport_socket_client_t :=
  {| rt_world := set_node (set_node_transport_client client the_node) the_world; rt_instances := ∅; rt_caps := ∅;
     rt_objs := ∅; cs_capabilities := []; cs_objects := []; rt_platform := p |}.

Lemma the_endpoint : endpoint (str "10.0.0.1") 5000.
Proof. split; [keys|done|lia|apply Nat.ltb_lt; vm_compute; reflexivity]. Qed.

Lemma uri_is_connected_to_witness : exists client s1 s3,
  cc_transport_create (str "calvinip://10.0.0.1:5000") (socket_rt None no_platform) = Ok (Some client, s1)
  /\ cc_transport_socket_connect (socket_rt (Some client) (rt_platform s1)) = Ok (CC_SUCCESS, s3).
Proof.
  destruct (uri_is_connected_to (str "10.0.0.1") 5000 [] (socket_rt None no_platform)) as (client & s1 & t & E & _ & _ & _ & H).
  - reflexivity.
  - exact the_endpoint.
  - reflexivity.
  - destruct (H (socket_rt (Some client) (rt_platform s1)) eq_refl eq_refl) as (s3 & E3 & _); [simpl; lia|].
    exists client, s1, s3. split; [exact E|exact E3].
Defined.

Lemma ssdp_finds_runtime_witness : exists t s1,
  cc_transport_create (str "ssdp") (socket_rt None no_platform)
  = Ok (Some (socket_client (str "calvinip://10.0.0.1:5000" ++ NUL :: t)), s1).
Proof.
  destruct (ssdp_finds_runtime (str "10.0.0.2") 5022 (str "/node") (str "10.0.0.1") 5000
    (str "USN: x" ++ CRLF ++ CRLF) ssdp_reply CRLF http_answer [] (socket_rt None no_platform)) as (t & s1 & E & _).
  - reflexivity.
  - exact the_endpoint.
  - keys.
  - split; [split_and!; keys|lia|split_and!; [keys|keys|by eexists]|apply Nat.ltb_lt; vm_compute; reflexivity].
  - reflexivity.
  - split; [simpl; lia|reflexivity..].
  - split; [simpl; lia|reflexivity|simpl; lia|reflexivity].
  - split; [|keys|apply Nat.ltb_lt; vm_compute; reflexivity].
    eexists. split; [reflexivity|vm_compute; reflexivity].
  - split; [|keys|apply Nat.ltb_lt; vm_compute; reflexivity].
    eexists. split; [reflexivity|vm_compute; reflexivity].
  - exists t, s1. exact E.
Defined.
