(* ===== verification/StorageProps.v ===== *)
(** What is stored is found again: files on the disk of the x86 platform
    (cc_platform_x86.c), and the configuration of a node (cc_node.c) over any storage
    that keeps the promise [StorageLaws]. *)
From S2P Require Import Prelude CString CText Common Json MsgPuck MsgPackRef Coder Fifo Machine Transport ProtoSend.
From S2P Require Import Proto Runtime Calvinsys Timer Actor AppManager Node NodeRun Dispatch Socket X86Platform.
From S2P Require Import CoderSpec MsgSpec Runs Examples.

(** ** The contract *)

(** A file that is [writable] is written, and then [stored]; what is stored is there,
    and read as it was written.  Only the disk and the count of the calls change. *)
Class StorageLaws (V : Type) `{ST : Storage V} := {
  writable : platform_state V -> bytes -> Prop;
  stored : platform_state V -> bytes -> bytes -> Prop;
  file_written (s : rt V) path content : writable (rt_platform s) path ->
    exists p c, cc_platform_file_write path content s = Ok (CC_SUCCESS, set_platform p (later c s))
      /\ stored p path content;
  file_there (s : rt V) path content : stored (rt_platform s) path content ->
    exists c, cc_platform_file_stat path s = Ok (CC_STAT_FILE, later c s);
  file_read (s : rt V) path content : stored (rt_platform s) path content ->
    exists c, cc_platform_file_read path s = Ok (Some content, later c s)
}.

(** ** The disk of x86 *)

(** A disk that refuses nothing and does whole reads and writes. *)
Class GoodDisk (DK : Disk) : Prop := {
  disk_ok_true n : disk_ok n = true;
  disk_count_all n len : disk_count n len = len
}.

Lemma last_slash_Some path j : last_slash path = Some j -> (j < length path)%nat /\ nth j path NUL = SLASH.
Proof.
  revert j. induction path as [|c path IH]; intros j; simpl; [done|].
  destruct (last_slash path) as [i|].
  - intros [= <-]. destruct (IH i eq_refl). split; [lia|done].
  - case_bool_decide; [|done]. intros [= <-]. split; [lia|done].
Qed.

Lemma nth_take_lt (path : bytes) i j : (j < i)%nat -> nth j (take i path) NUL = nth j path NUL.
Proof.
  revert i j. induction path as [|c path IH]; intros i j H; [by rewrite take_nil|].
  destruct i as [|i]; [lia|]. destruct j as [|j]; [done|]. simpl. apply IH. lia.
Qed.

Section x86.
Context {V : Type} `{C : !Code V} `{P : Platform} `{MP : MsgPuck} `{J : Jsmn}.
Context `{SK : Sockets} `{DK : Disk} `{GD : !GoodDisk DK}.
Hypothesis Hmem : forall n, plat_alloc n = true.
Implicit Types (s : rt V) (p : platform_state V) (path content : bytes).

(** A directory of the path: it ends before a slash that is not the first byte. *)
Definition dir_of path (j : nat) : Prop := (1 <= j)%nat /\ nth j path NUL = SLASH.

(** The path is a text, no directory has its name, and no file that of one of its
    directories. *)
Record x86_writable p path : Prop := {
  wr_text : nul_free path;
  wr_not_dir : path ∉ ps_dirs p;
  wr_parents j : dir_of path j -> ps_files p !! take j path = None
}.
Definition x86_stored p path content : Prop := path ∉ ps_dirs p /\ ps_files p !! path = Some content.

(** Only the directories are new. *)
Definition with_dirs (d : gset bytes) (c : nat) s : rt V :=
  set_platform (set_ps_dirs d (rt_platform s)) (later c s).

Lemma with_dirs_id s : with_dirs (ps_dirs (rt_platform s)) (w_calls (rt_world s)) s = s.
Proof. destruct s as [w i cs o x y p]. destruct w, p. reflexivity. Qed.

Lemma parent_made d path i : (forall j, dir_of path j -> (j < i)%nat -> take j path ∈ d) ->
  parent_exists d (take i path) = true.
Proof.
  intros H. unfold parent_exists. destruct (last_slash (take i path)) as [[|j]|] eqn:E; [done| |done].
  apply last_slash_Some in E as [Hlt Hs]. rewrite length_take in Hlt.
  rewrite nth_take_lt in Hs by lia. apply bool_decide_eq_true. rewrite take_take, Nat.min_l by lia.
  apply H; [split; [lia|done]|lia].
Qed.

Lemma run_make_dir s path : parent_exists (ps_dirs (rt_platform s)) path = true ->
  ps_files (rt_platform s) !! path = None -> path ∉ ps_dirs (rt_platform s) ->
  make_dir path s = Ok (true, with_dirs ({[path]} ∪ ps_dirs (rt_platform s)) (S (w_calls (rt_world s))) s).
Proof using GD.
  intros Hp Hf Hd. cbv [make_dir os_tick on_world zoom tick get_platform upd_platform]. exec.
  rewrite disk_ok_true, Hp, Hf. rewrite bool_decide_false by (by intros [? ?]). by rewrite bool_decide_false.
Qed.

(** The step of the loop at a slash. *)
Lemma run_create_dir s path i : (forall j, dir_of path j -> (j < i)%nat -> take j path ∈ ps_dirs (rt_platform s)) ->
  ps_files (rt_platform s) !! take i path = None ->
  exists c, (st ← x86_file_stat (take i path);
             if bool_decide (st = CC_STAT_NO_EXIST) then make_dir (take i path) else mret true) s
            = Ok (true, with_dirs ({[take i path]} ∪ ps_dirs (rt_platform s)) c s).
Proof using GD.
  intros Hd Hf. unfold x86_file_stat at 1, get_platform. rewrite (bind_Ok _ _ s _ s eq_refl). rewrite Hf.
  destruct (decide (take i path ∈ ps_dirs (rt_platform s))) as [Hin|Hin].
  - rewrite (bool_decide_true (take i path ∈ _)) by done. rewrite bool_decide_false by done. exists (w_calls (rt_world s)).
    replace ({[take i path]} ∪ ps_dirs (rt_platform s)) with (ps_dirs (rt_platform s)) by (clear Hmem; set_solver).
    by rewrite with_dirs_id.
  - rewrite (bool_decide_false (take i path ∈ _)) by done. rewrite (bool_decide_false (is_Some _)) by (by intros [? ?]).
    rewrite bool_decide_true by done. eexists. apply run_make_dir; [by apply parent_made|done|done].
Qed.

Lemma run_create_dirs path n : forall i s,
  (i + n <= length path)%nat -> (1 <= i)%nat ->
  (forall j, dir_of path j -> ps_files (rt_platform s) !! take j path = None) ->
  (forall j, dir_of path j -> (j < i)%nat -> take j path ∈ ps_dirs (rt_platform s)) ->
  exists d c, create_dirs path n i s = Ok (CC_SUCCESS, with_dirs d c s)
    /\ (forall j, dir_of path j -> (j < i + n)%nat -> take j path ∈ d)
    /\ (forall x, x ∈ d -> x ∈ ps_dirs (rt_platform s) \/ (length x < i + n)%nat).
Proof using Hmem GD.
  induction n as [|n IH]; intros i s Hn Hi Hf Hd.
  - exists (ps_dirs (rt_platform s)), (w_calls (rt_world s)). rewrite with_dirs_id.
    split; [done|]. split; [|by left]. intros j Hj Hlt. apply Hd; [done|lia].
  - cbn [create_dirs]. case_bool_decide as Es.
    + rrun1. cbn iota.
      destruct (run_create_dir (later (S (w_calls (rt_world s))) s) path i) as (c & E);
        [exact Hd|by apply Hf|].
      apply bind_inv in E as (st & s1 & E1 & E2).
      rewrite (bind_Ok _ _ _ _ _ E1), (bind_Ok _ _ _ _ _ E2). cbn iota.
      destruct (IH (S i) (with_dirs ({[take i path]} ∪ ps_dirs (rt_platform s)) c s)) as (d & c' & E & Hd' & Hx);
        [lia|lia|exact Hf| |].
      { intros j Hj Hlt. simpl. destruct (decide (j = i)) as [->|]; [set_solver|].
        apply elem_of_union_r, Hd; [done|lia]. }
      exists d, c'. split; [exact E|]. split; [intros j Hj Hlt; apply Hd'; [done|lia]|].
      intros x [Hin|Hlt]%Hx; [|right; lia]. simpl in Hin. rewrite elem_of_union, elem_of_singleton in Hin.
      destruct Hin as [->|Hin]; [right; rewrite length_take; lia|by left].
    + destruct (IH (S i) s) as (d & c & E & Hd' & Hx); [lia|lia|exact Hf| |].
      { intros j Hj Hlt. apply Hd; [done|]. destruct Hj as [_ Hj]. destruct (decide (j = i)); [congruence|lia]. }
      exists d, c. split; [exact E|]. split; [intros j Hj Hlt; apply Hd'; [done|lia]|].
      intros x [Hin|Hlt]%Hx; [by left|right; lia].
Qed.

(** The directories of a path are there after the loop, and the path is none of them. *)
Lemma run_dirs s path : x86_writable (rt_platform s) path ->
  exists d c, cc_platform_create_dirs path s = Ok (CC_SUCCESS, with_dirs d c s)
    /\ parent_exists d path = true /\ path ∉ d.
Proof using Hmem GD.
  intros [Ht Hd Hf]. unfold cc_platform_create_dirs. rewrite strlen_nul_free_all by done.
  destruct path as [|b path].
  { exists (ps_dirs (rt_platform s)), (w_calls (rt_world s)). rewrite with_dirs_id. by split_and!. }
  destruct (run_create_dirs (b :: path) (length (b :: path) - 1) 1 s) as (d & c & E & Hin & Hx);
    [simpl; lia|lia|done| |].
  { intros j [? _]. lia. }
  exists d, c. split; [exact E|]. split.
  - rewrite <- (firstn_all (b :: path)). apply parent_made. intros j Hj Hlt. apply Hin; [done|simpl in *; lia].
  - intros [?|Hlt]%Hx; [done|simpl in Hlt; lia].
Qed.

Lemma x86_file_written s path content : x86_writable (rt_platform s) path ->
  exists p c, x86_file_write path content s = Ok (CC_SUCCESS, set_platform p (later c s))
    /\ x86_stored p path content.
Proof using Hmem GD.
  intros Hw. destruct (run_dirs s path Hw) as (d & c & E & Hp & Hd).
  set (s1 := with_dirs d c s).
  exists (set_ps_files (<[path := content]> (ps_files (rt_platform s1))) (rt_platform s1)), (S (S c)). split.
  - unfold x86_file_write. run_with E. rewrite bool_decide_true by done.
    cbv [os_tick on_world zoom tick get_platform upd_platform]. exec.
    rewrite disk_ok_true, Hp, bool_decide_false by done. simpl.
    rewrite disk_count_all, firstn_all, Nat.eqb_refl. reflexivity.
  - split; [exact Hd|]. apply lookup_insert_eq.
Qed.

Lemma x86_file_there s path content : x86_stored (rt_platform s) path content ->
  exists c, x86_file_stat path s = Ok (CC_STAT_FILE, later c s).
Proof.
  intros [Hd Hf]. exists (w_calls (rt_world s)). unfold x86_file_stat, get_platform. exec.
  rewrite bool_decide_false by done. rewrite bool_decide_true by done. by destruct s as [[] ? ? ? ? ? ?].
Qed.

Lemma x86_file_found s path content : x86_stored (rt_platform s) path content ->
  exists c, x86_file_read path s = Ok (Some content, later c s).
Proof using Hmem GD.
  intros [Hd Hf]. eexists. unfold x86_file_read, os_tick.
  cbv [get_platform on_world zoom tick cc_platform_mem_alloc]. exec. rewrite Hf, disk_ok_true.
  simpl. rewrite Hmem, disk_count_all, Nat.leb_refl. reflexivity.
Qed.

(** The disk keeps the contract. *)
Definition x86_storage_laws : StorageLaws V := {|
  writable := x86_writable; stored := x86_stored;
  file_written := x86_file_written; file_there := x86_file_there; file_read := x86_file_found |}.
End x86.

(** ** The configuration of a node *)

(** The identifier, the attributes and the uris of the proxies of a node, as texts. *)
Record configured (id : bytes) (attrs : option bytes) (uris : list bytes) (n : cc_node_t) : Prop := {
  cf_id : in_id id (node_id n);
  cf_attrs : match attrs with
             | Some a => nul_free a /\ (length a <= CC_MAX_ATTRIBUTES_LEN)%nat
                         /\ exists t, node_attributes n = Some (a ++ NUL :: t)
             | None => node_attributes n = None
             end;
  cf_uris : map li_id (node_proxy_uris n) = uris;
  cf_texts : Forall (fun u => nul_free u /\ (length u <= CC_MAX_URI_LEN)%nat) uris
}.

(** What is written of them. *)
Definition config_value (id : bytes) (attrs : option bytes) (uris : list bytes) : list (bytes * mpval) :=
  [(str "id", VStr id);
   (str "attributes", match attrs with Some a => VStr a | None => VNil end);
   (str "proxy_uris", VArr (map VStr uris))].

Section restart.
Context {V : Type} `{C : !Code V} `{P : Platform} `{MP : MsgPuck} `{L : !MsgPuckLaws MP}.
Context `{ST : !Storage V} `{SL : !StorageLaws V}.
Hypothesis Hmem : forall n, plat_alloc n = true.
Implicit Types (s : rt V) (w : world) (n : cc_node_t) (id : bytes) (uris : list bytes).

Lemma concat_enc_length (l : list mpval) : (length l <= length (concat (map mp_enc l)))%nat.
Proof using L.
  induction l as [|v l IH]; [done|]. simpl. rewrite length_app.
  pose proof (mp_enc_nonempty v). destruct (mp_enc v); [done|]. simpl. lia.
Qed.

(** What fits the buffer has a length that fits its field. *)
Lemma config_fits id attrs uris n : configured id attrs uris n ->
  (length (mp_enc (smap (config_value id attrs uris))) <= 500)%nat ->
  (length uris <= 500)%nat.
Proof using L.
  intros _ H. cbn [mp_enc config_value map fst snd length concat] in H. rewrite !length_app in H.
  pose proof (concat_enc_length (map VStr uris)). rewrite length_map in *. lia.
Qed.

Lemma config_value_wf id attrs uris n : configured id attrs uris n -> (length uris <= 500)%nat ->
  mp_wf (smap (config_value id attrs uris)).
Proof.
  intros [Hid Ha _ Hu] Hn. pose proof (in_id_short _ _ Hid) as Hs.
  apply mp_wf_map. split; [done|]. unfold mp_wf_kvs, config_value. cbn [map fst snd]. rewrite !Forall_cons. cbn [fst snd].
  split_and!; [reflexivity| |reflexivity| |reflexivity| |by constructor].
  - cbn [mp_wf]. lia.
  - destruct attrs as [a|]; [|done]. destruct Ha as (_ & Ha & _). unfold CC_MAX_ATTRIBUTES_LEN in Ha. simpl. lia.
  - apply mp_wf_arr. rewrite length_map. split; [lia|]. rewrite Forall_map. eapply Forall_impl; [exact Hu|].
    intros u [_ Hl]. unfold CC_MAX_URI_LEN in Hl. simpl. lia.
Qed.

Lemma strnlen_text (a t : bytes) m : nul_free a -> (length a <= m)%nat -> strnlen (a ++ NUL :: t) m = length a.
Proof.
  intros Ha Hm. destruct (decide (length a = m)) as [E|]; [|apply strnlen_nul_free; [done|lia]].
  unfold strnlen. rewrite take_app_exact by done. by apply strlen_nul_free_all.
Qed.
Lemma strnlen_all (a : bytes) m : nul_free a -> (length a <= m)%nat -> strnlen a m = length a.
Proof. intros Ha Hm. unfold strnlen. rewrite take_ge by lia. by apply strlen_nul_free_all. Qed.

Lemma encode_uris (l : list (cc_list_t unit)) (w : bytes) : Forall (fun u => nul_free u /\ (length u <= CC_MAX_URI_LEN)%nat) (map li_id l) ->
  foldl (fun (w : bytes) (u : cc_list_t unit) => cc_coder_encode_str w (li_id u) (strnlen (li_id u) CC_MAX_URI_LEN)) w l
  = w ++ concat (map mp_enc (map VStr (map li_id l))).
Proof using L.
  revert w. induction l as [|u l IH]; intros w H; simpl; [by rewrite app_nil_r|].
  inversion H as [|? ? [Hu Hl] Hr]; subst. rewrite strnlen_all by done. rewrite IH by done.
  unfold cc_coder_encode_str. by rewrite app_assoc.
Qed.

(** The configuration, written. *)
Lemma encode_config_value id attrs uris n : configured id attrs uris n -> (length uris <= 500)%nat ->
  encode_config (cc_coder_encode_map [] 3) n = mp_enc (smap (config_value id attrs uris)).
Proof using L.
  intros [Hid Ha Hu Ht] Hn. unfold encode_config.
  assert (strlen (node_id n) = length id) as ->.
  { destruct Hid as (Hk & _ & t & ->). apply strlen_nul_free. by destruct Hk. }
  rewrite kv_str_entry; [|keys|].
  2: { destruct Hid as (_ & _ & t & ->). rewrite length_app. lia. }
  assert (take (length id) (node_id n) = id) as -> by (destruct Hid as (_ & _ & t & ->); apply take_app_length).
  set (w := cc_coder_encode_map [] 3 ++ _).
  assert (match node_attributes n with
    | Some a => cc_coder_encode_kv_str w (str "attributes") a (strnlen a CC_MAX_ATTRIBUTES_LEN)
    | None => cc_coder_encode_kv_nil w (str "attributes") end
    = w ++ mp_enc_kvs [(VStr (str "attributes"), match attrs with Some a => VStr a | None => VNil end)]) as ->.
  { destruct attrs as [a|].
    - destruct Ha as (Hf & Hl & t & ->). rewrite strnlen_text by done.
      rewrite kv_str_entry; [|keys|rewrite length_app; lia]. by rewrite take_app_length.
    - rewrite Ha. apply kv_nil_entry; keys. }
  rewrite encode_uris by by rewrite Hu. rewrite Hu.
  assert (cc_list_count (node_proxy_uris n) = Z.of_nat (length (map VStr uris))) as ->.
  { unfold cc_list_count. rewrite length_map, <- Hu, length_map. apply u32_id.
    rewrite <- Hu, length_map in Hn. unfold is_u32. lia. }
  rewrite kv_array_open by keys. subst w. rewrite <- !app_assoc, <- !mp_enc_kvs_app.
  change 3 with (Z.of_nat (length (skvs (config_value id attrs uris)))). by rewrite map_open.
Qed.

(** [cc_node_set_state]: the file holds the configuration. *)
Lemma set_state_stores id attrs uris s : configured id attrs uris (w_node (rt_world s)) ->
  (length (mp_enc (smap (config_value id attrs uris))) <= 500)%nat -> writable (rt_platform s) CC_STATE_FILE ->
  exists p c, cc_node_set_state false s = Ok (tt, set_platform p (later c s))
    /\ stored p CC_STATE_FILE (mp_enc (smap (config_value id attrs uris))).
Proof using L Hmem.
  intros Hc Hl Hw. pose proof (config_fits _ _ _ _ Hc Hl) as Hn.
  unfold cc_node_set_state. rewrite (bind_Ok _ _ _ _ _ (run_on_world get_node s _ _ eq_refl)).
  rewrite set_world_id. rrun1. cbn [negb]. set (s1 := later _ s).
  unfold encode_state. rewrite (bind_Ok _ _ s1 (mp_enc (smap (config_value id attrs uris))) s1).
  2: { rewrite (bind_Ok _ _ _ _ _ (run_on_world get_node s1 _ _ eq_refl)). rewrite set_world_id.
       cbn [when]. change (w_node (rt_world s1)) with (w_node (rt_world s)).
       by rewrite (encode_config_value id attrs uris). }
  rewrite (bind_Ok _ _ s1 tt s1).
  2: { erewrite run_on_world; [by rewrite set_world_id|]. unfold in_buffer.
       rewrite (proj2 (Nat.leb_le _ _)) by lia. reflexivity. }
  destruct (file_written s1 CC_STATE_FILE (mp_enc (smap (config_value id attrs uris))) Hw) as (p & c & E & Hs).
  run_with E. exists p, c. split; [|exact Hs]. reflexivity.
Qed.

(** ** What is restored *)

Definition uri_item (u : bytes) : cc_list_t unit := list_item_n u (length u) tt 0.
Lemma uri_item_id u : nul_free u -> li_id (uri_item u) = u.
Proof. intros H. unfold uri_item. rewrite <- (app_nil_r u) at 1. by apply list_item_n_id. Qed.

(** The rest of the uris go to the end of the list. *)
Lemma restore_uris_run (rest : bytes) (us : list bytes) : forall (done_ : list bytes) w,
  mp_wf (VArr (map VStr (done_ ++ us))) ->
  exists c, restore_uris (length us) (length done_) (mp_enc (VArr (map VStr (done_ ++ us))) ++ rest) w
    = Ok (true, set_node (set_node_proxy_uris (node_proxy_uris (w_node w) ++ map uri_item us) (w_node w))
                  (set_calls c w)).
Proof using L Hmem.
  induction us as [|u us IH]; intros done_ w Hw.
  - exists (w_calls w). simpl. rewrite app_nil_r. by destruct w as [[] ? ? ? ? ? ? ? ?].
  - cbn [length restore_uris].
    destruct (decode_string_from_array_enc (map VStr (done_ ++ u :: us)) (length done_) u rest) as (r & ->);
      [done|by rewrite list_lookup_fmap, list_lookup_middle|].
    rewrite (bind_Ok _ _ _ _ _ (run_get_node w)).
    run_with (run_malloc_list Hmem (node_proxy_uris (w_node w)) u r tt 0 w). fold (uri_item u).
    set (w1 := set_node (set_node_proxy_uris (node_proxy_uris (w_node w) ++ [uri_item u]) (w_node w)) (set_calls (2 + w_calls w) w)).
    rewrite (bind_Ok _ _ _ tt w1) by reflexivity.
    destruct (IH (done_ ++ [u]) w1) as (c' & E').
    { by rewrite <- app_assoc. }
    rewrite <- app_assoc, length_app, Nat.add_1_r in E'. change ([u] ++ us) with (u :: us) in E'. exists c'. rewrite E'.
    assert (node_proxy_uris (w_node w1) ++ map uri_item us
            = node_proxy_uris (w_node w) ++ map uri_item (u :: us)) as -> by (simpl; by rewrite <- app_assoc).
    reflexivity.
Qed.

(** The attributes: what the node has is kept. *)
Definition kept (given : option bytes) (attrs : option bytes) : option bytes :=
  match given with Some a => Some a | None => (fun a => a ++ [NUL]) <$> attrs end.

Section file.
Variables (id : bytes) (attrs : option bytes) (uris : list bytes).
Hypothesis Hwf : mp_wf (smap (config_value id attrs uris)).
Hypothesis Hattrs : match attrs with Some a => nul_free a | None => True end.
Abbreviation buffer := (mp_enc (smap (config_value id attrs uris)) ++ []).

Lemma no_entry key : nul_free key -> clear_for key (config_value id attrs uris) ->
  assoc key (config_value id attrs uris) = None -> forall {S} (body : nat -> nat -> bytes -> M S bool),
  for_array buffer key body = mret true.
Proof using L Hwf.
  intros Hk Hc E S body. unfold for_array. by rewrite has_key_assoc, E.
Qed.

Lemma restore_attributes_run w : exists c,
  restore_attributes buffer w
  = Ok (true, set_node (set_node_attributes (kept (node_attributes (w_node w)) attrs) (w_node w)) (set_calls c w)).
Proof using L Hwf Hmem Hattrs.
  unfold restore_attributes. rewrite (bind_Ok _ _ _ _ _ (run_get_node w)).
  destruct (node_attributes (w_node w)) as [a|] eqn:Ea.
  { exists (w_calls w). cbn. rewrite <- Ea. by destruct w as [[] ? ? ? ? ? ? ? ?]. }
  rewrite bool_decide_true by done. cbn [negb orb].
  rewrite has_key_assoc by (done || keys). cbn [negb].
  replace (match assoc (str "attributes") (config_value id attrs uris) with Some _ => true | None => false end)
    with true by reflexivity. cbn [negb].
  erewrite (val_field (str "attributes")); [|keys|keys|done|reflexivity].
  unfold cc_coder_type_of. rewrite mp_typeof_enc.
  2: { eapply (assoc_wf (str "attributes")); [exact Hwf|reflexivity]. }
  destruct attrs as [a|]; cbn [mpval_type].
  - rewrite bool_decide_true by done. cbn [negb].
    erewrite (str_field (str "attributes")); [|keys|keys|done|reflexivity].
    rewrite (bind_Ok _ _ _ _ _ (run_malloc Hmem w)). cbn [negb]. eexists.
    rewrite strncpy_bytes_all by done. reflexivity.
  - rewrite bool_decide_false by done. exists (w_calls w). simpl. rewrite <- Ea. by destruct w as [[] ? ? ? ? ? ? ? ?].
Qed.

(** What a node that is given [n] has after the restoration. *)
Definition restored (n : cc_node_t) : cc_node_t :=
  set_node_config (kept (node_attributes n) attrs)
    (if bool_decide (node_proxy_uris n = []) then map uri_item uris else node_proxy_uris n)
    (set_node_id (id ++ NUL :: drop (S (length id)) (node_id n)) n).

Hypothesis Hid : key_ok id.

Lemma restore_uris_field w : node_proxy_uris (w_node w) = [] ->
  exists c, for_array buffer (str "proxy_uris") restore_uris w
    = Ok (true, set_node (set_node_proxy_uris (map uri_item uris) (w_node w)) (set_calls c w)).
Proof using L Hwf Hmem.
  intros Eu. unfold for_array. rewrite has_key_assoc by (done || keys). cbn iota.
  replace (match assoc (str "proxy_uris") (config_value id attrs uris) with Some _ => true | None => false end)
    with true by reflexivity.
  erewrite (val_field (str "proxy_uris")); [|keys|keys|done|reflexivity].
  assert (mp_wf (VArr (map VStr uris))) as Hw.
  { eapply (assoc_wf (str "proxy_uris")); [exact Hwf|reflexivity]. }
  assert (Z.to_nat (cc_coder_get_size_of_array (mp_enc (VArr (map VStr uris)) ++ mp_enc_kvs [] ++ [])) = length uris) as Es.
  { unfold cc_coder_get_size_of_array. cbn [mp_enc]. apply mp_wf_arr in Hw as [Hn _].
    rewrite <- app_assoc, mp_decode_array_enc by lia. simpl. by rewrite length_map, Nat2Z.id. }
  destruct (restore_uris_run (mp_enc_kvs [] ++ []) uris [] w Hw) as (c & E).
  exists c. rewrite Eu in E. etransitivity; [|exact E]. f_equal; exact Es.
Qed.

Lemma restore_world_run w : length (node_id (w_node w)) = CC_UUID_BUFFER_SIZE -> exists c,
  restore_world buffer w = Ok (true, set_node (restored (w_node w)) (set_calls c w)).
Proof using L Hwf Hmem Hattrs Hid.
  intros Hlen. unfold restore_world. destruct Hid as [Hf Hl].
  erewrite (str_field (str "id")); [|keys|keys|done|reflexivity].
  rewrite (bind_Ok _ _ _ _ _ (run_get_node w)). rewrite strncpy_nul_Some by (done || lia).
  rewrite (bind_Ok (need _ (Some _)) _ w _ w eq_refl).
  set (w1 := set_node (set_node_id (id ++ NUL :: drop (S (length id)) (node_id (w_node w))) (w_node w)) w).
  rewrite (bind_Ok _ _ _ tt w1) by reflexivity.
  destruct (restore_attributes_run w1) as (c1 & E1). run_with E1. cbn [negb]. set (w2 := set_node _ _).
  rewrite (bind_Ok _ _ _ _ _ (run_get_node w2)).
  set (w3 := fun c => set_node (restored (w_node w)) (set_calls c w)).
  assert (exists c, (if bool_decide (node_proxy_uris (w_node w2) = []) then for_array buffer (str "proxy_uris") restore_uris
                     else mret true) w2 = Ok (true, w3 c)) as (c & E).
  { unfold w3, restored. change (node_proxy_uris (w_node w2)) with (node_proxy_uris (w_node w)).
    case_bool_decide as Eu.
    - destruct (restore_uris_field w2 Eu) as (c & E). exists c. rewrite E. reflexivity.
    - exists c1. reflexivity. }
  run_with E. cbn [negb].
  rewrite (bind_Ok (restore_node_state buffer) _ _ tt (w3 c)).
  2: { unfold restore_node_state. by rewrite has_key_assoc by (done || keys). }
  rewrite (no_entry (str "links")), (no_entry (str "tunnels")) by (keys || reflexivity).
  exists c. reflexivity.
Qed.
End file.

(** [cc_node_setup], with the file on the disk. *)
Lemma setup_restores id attrs uris s : mp_wf (smap (config_value id attrs uris)) ->
  match attrs with Some a => nul_free a | None => True end -> key_ok id ->
  length (node_id (w_node (rt_world s))) = CC_UUID_BUFFER_SIZE ->
  stored (rt_platform s) CC_STATE_FILE (mp_enc (smap (config_value id attrs uris))) ->
  exists c, cc_node_setup s
    = Ok (CC_SUCCESS, set_world (set_node (restored id attrs uris (w_node (rt_world s))) (set_calls c (rt_world s))) s).
Proof using L Hmem.
  intros Hwf Ha Hid Hlen Hst. unfold cc_node_setup.
  destruct (file_there s CC_STATE_FILE _ Hst) as (c1 & E1). run_with E1. rewrite bool_decide_true by done.
  destruct (file_read (later c1 s) CC_STATE_FILE _ Hst) as (c2 & E2).
  destruct (restore_world_run id attrs uris Hwf Ha Hid (rt_world (later c2 s)) Hlen) as (c & E3).
  set (s3 := set_world (set_node (restored id attrs uris (w_node (rt_world s))) (set_calls c (rt_world s))) s).
  assert (cc_node_get_state (later c1 s) = Ok (CC_SUCCESS, s3)) as Eg.
  { unfold cc_node_get_state. run_with E2. cbn iota. rewrite app_nil_r in E3.
    rewrite (bind_Ok _ _ _ true s3) by (exact (run_on_world _ (later c2 (later c1 s)) _ _ E3)). cbn [negb].
    rewrite <- (app_nil_r (mp_enc _)). rewrite (no_entry _ _ _ Hwf) by (keys || reflexivity). reflexivity. }
  exists c. assert ((r ← cc_node_get_state;
    if bool_decide (r = CC_SUCCESS) then mret true else cc_node_reset ;; mret false) (later c1 s) = Ok (true, s3)) as Er.
  { by run_with Eg. }
  by run_with Er.
Qed.

(** The node afterwards, as texts. *)
Lemma setup_configured id id' attrs attrs' uris uris' s : mp_wf (smap (config_value id attrs uris)) -> key_ok id ->
  match attrs with Some a => nul_free a /\ (length a <= CC_MAX_ATTRIBUTES_LEN)%nat | None => True end ->
  Forall (fun u => nul_free u /\ (length u <= CC_MAX_URI_LEN)%nat) uris ->
  configured id' attrs' uris' (w_node (rt_world s)) ->
  stored (rt_platform s) CC_STATE_FILE (mp_enc (smap (config_value id attrs uris))) ->
  exists i a u c,
    let n := set_node_config a u (set_node_id i (w_node (rt_world s))) in
    cc_node_setup s = Ok (CC_SUCCESS, set_world (set_node n (set_calls c (rt_world s))) s)
    /\ configured id (match attrs' with Some a' => Some a' | None => attrs end)
                      (match uris' with [] => uris | _ => uris' end) n.
Proof using L Hmem.
  intros Hwf Hk Ha Ht [Hid' Ha' Hu' Ht'] Hst. destruct Hid' as (Hk' & Hlen & t' & Et).
  destruct (setup_restores id attrs uris s Hwf) as (c' & E'); [|done|done|done|].
  { destruct attrs; [by destruct Ha|done]. }
  eexists _, _, _, c'. cbn zeta. split; [exact E'|]. split; simpl.
  - split; [done|]. destruct Hk as [_ Hk]. unfold CC_UUID_BUFFER_SIZE in *. split; [|eauto].
    rewrite length_app. cbn [length]. rewrite length_drop. lia.
  - destruct attrs' as [a'|]; [destruct Ha' as (? & ? & t & ->); split_and!; [done..|]; by exists t|].
    rewrite Ha'. destruct attrs as [a|]; [|done]. destruct Ha as [? ?]. split_and!; [done..|]. by exists [].
  - destruct uris' as [|u' us'].
    + apply map_eq_nil in Hu'. rewrite Hu', bool_decide_true by done. rewrite map_map.
      rewrite <- (map_id uris) at 2. apply map_ext_Forall. eapply Forall_impl; [exact Ht|].
      intros u [? _]. by apply uri_item_id.
    + rewrite bool_decide_false by (intros E0; by rewrite E0 in Hu'). done.
  - by destruct uris'.
Qed.
End restart.

(** C14: the configuration of a node survives a restart.  Over any storage that keeps
    its promise, a node that writes its state without its actors ([cc_node_reset] does
    so) leaves a file from which a node that is started on that storage takes the
    identifier, and the attributes and the uris of the proxies that it was not given
    itself; they are the texts that the first node had, and nothing else of the new
    node changes.  What is written has to fit the buffer of 500 bytes of
    [cc_node_set_state]. *)
Theorem config_survives_restart {V : Type} `{C : !Code V} `{P : Platform} `{MP : MsgPuck} `{L : !MsgPuckLaws MP}
  `{ST : !Storage V} `{SL : !StorageLaws V} (id id' : bytes) (attrs attrs' : option bytes) (uris uris' : list bytes)
  (s : rt V) :
  (forall n, plat_alloc n = true) ->
  configured id attrs uris (w_node (rt_world s)) ->
  (length (mp_enc (smap (config_value id attrs uris))) <= 500)%nat ->
  writable (rt_platform s) CC_STATE_FILE ->
  exists s1, cc_node_set_state false s = Ok (tt, s1)
  /\ forall s2, rt_platform s2 = rt_platform s1 -> configured id' attrs' uris' (w_node (rt_world s2)) ->
     exists i a u c,
       let n := set_node_config a u (set_node_id i (w_node (rt_world s2))) in
       cc_node_setup s2 = Ok (CC_SUCCESS, set_world (set_node n (set_calls c (rt_world s2))) s2)
       /\ configured id (match attrs' with Some a' => Some a' | None => attrs end)
                        (match uris' with [] => uris | _ => uris' end) n.
Proof.
  intros Hmem Hc Hl Hw. destruct (set_state_stores Hmem id attrs uris s Hc Hl Hw) as (p & c & E & Hst).
  eexists. split; [exact E|]. intros s2 Hp Hc'.
  pose proof (config_value_wf _ _ _ _ Hc (config_fits _ _ _ _ Hc Hl)) as Hwf. destruct Hc as [Hid Ha Hu Ht].
  apply (setup_configured Hmem id id'); [done|apply Hid| |done|done|by rewrite Hp].
  destruct attrs; [by destruct Ha as (? & ? & _)|done].
Qed.

(** A disk that refuses nothing, a node with attributes and a proxy, and the same
    node before it is set up. *)
#[export] Instance good_disk : Disk := { disk_ok := fun _ => true; disk_count := fun _ n => n }.
#[export] Instance good_disk_good : GoodDisk good_disk.
Proof. by split. Qed.

Definition stored_node : cc_node_t :=
  set_node_config (Some (str "{name: a}" ++ [NUL])) [uri_item (str "ssdp")] the_node.
Definition blank_node : cc_node_t :=
  set_node_config None [] (set_node_id (zeroed CC_UUID_BUFFER_SIZE) the_node).
Definition node_rt (n : cc_node_t) (p : platform_state unit) : rt unit :=
  set_platform p (set_world (set_node n (rt_world the_rt)) the_rt).

Lemma config_survives_restart_witness : exists s1 s2 : rt unit,
  cc_node_set_state (ST:=x86_storage) false (node_rt stored_node no_platform) = Ok (tt, s1)
  /\ cc_node_setup (ST:=x86_storage) (node_rt blank_node (rt_platform s1)) = Ok (CC_SUCCESS, s2)
  /\ configured (str "node") (Some (str "{name: a}")) [str "ssdp"] (w_node (rt_world s2)).
Proof.
  destruct (config_survives_restart (SL:=x86_storage_laws (P:=quiet_platform) (fun _ => eq_refl)) (str "node") []
    (Some (str "{name: a}")) None [str "ssdp"] [] (node_rt stored_node no_platform)) as (s1 & E1 & H).
  - reflexivity.
  - split; simpl.
    + split; [split; [keys|unfold CC_UUID_BUFFER_SIZE; simpl; lia]|]. split; [reflexivity|]. eexists. reflexivity.
    + split_and!; [keys|unfold CC_MAX_ATTRIBUTES_LEN; simpl; lia|by exists []].
    + reflexivity.
    + constructor; [|constructor]. split; [keys|unfold CC_MAX_URI_LEN; simpl; lia].
  - apply Nat.leb_le. vm_compute. reflexivity.
  - split; simpl; [keys|set_solver|]. intros j _. apply lookup_empty.
  - destruct (H (node_rt blank_node (rt_platform s1)) eq_refl) as (i & a & u & c & E2 & Hc).
    + split; simpl; [|reflexivity|reflexivity|constructor].
      split; [split; [keys|unfold CC_UUID_BUFFER_SIZE; simpl; lia]|]. split; [reflexivity|].
      exists (zeroed 49). reflexivity.
    + eexists s1, _. split; [exact E1|]. split; [exact E2|]. exact Hc.
Defined.
