(* ===== verification/MpyProps.v ===== *)
(** Python objects and tokens: what an actor in Python writes, another one reads; and
    what does not get across. *)
From Stdlib Require Import SpecFloat.
From S2P Require Import Prelude CString CText Common MsgPuck MsgPackRef Coder Fifo Machine Transport ProtoSend.
From S2P Require Import Port Proto Runtime Mpy MpyActor Calvinsys MpyCalvinsys Timer ActorLib Sensors Library MpyPort.
From S2P Require Import Actor X86Platform CoderSpec FifoSpec Examples Runs PortProps ActorProps StorageProps.

(** ** Values *)

(** The values of Python that tokens are made of. *)
Inductive pyval :=
  | VaNone
  | VaBool (b : bool)
  | VaInt (n : Z)
  | VaStr (s : bytes)
  | VaList (l : list pyval)
  | VaDict (l : list (bytes * pyval)).

Section pyval_ind.
Context (Q : pyval -> Prop) (Hnone : Q VaNone) (Hbool : forall b, Q (VaBool b)) (Hint : forall n, Q (VaInt n))
  (Hstr : forall s, Q (VaStr s)) (Hlist : forall l, Forall Q l -> Q (VaList l))
  (Hdict : forall l, Forall (fun kv => Q kv.2) l -> Q (VaDict l)).

(** Induction that goes through the lists. *)
Fixpoint pyval_deep_ind (v : pyval) : Q v :=
  match v with
  | VaNone => Hnone
  | VaBool b => Hbool b
  | VaInt n => Hint n
  | VaStr s => Hstr s
  | VaList l => Hlist l
      ((fix go l := match l return Forall Q l with
        | [] => Forall_nil_2 Q
        | v :: l => Forall_cons_2 Q v l (pyval_deep_ind v) (go l) end) l)
  | VaDict l => Hdict l
      ((fix go l := match l return Forall (fun kv => Q kv.2) l with
        | [] => Forall_nil_2 _
        | kv :: l => Forall_cons_2 _ kv l (pyval_deep_ind kv.2) (go l) end) l)
  end.
End pyval_ind.

(** On the wire. *)
Fixpoint wire (v : pyval) : mpval :=
  match v with
  | VaNone => VNil
  | VaBool b => VBool b
  | VaInt n => VUint n
  | VaStr s => VStr s
  | VaList l => VArr (map wire l)
  | VaDict l => VMap (map (fun kv => (VStr kv.1, wire kv.2)) l)
  end.

(** The calls that the deepest object takes. *)
Fixpoint py_depth (v : pyval) : nat :=
  match v with
  | VaList l => S (max_list (map py_depth l))
  | VaDict l => S (S (max_list (map (fun kv => py_depth kv.2) l)))
  | _ => 1
  end.

(** Two lists of one length, related item by item. *)
Definition all2 {A B} (R : A -> B -> Prop) : list A -> list B -> Prop :=
  fix go l k := match l, k with
    | [], [] => True
    | a :: l, b :: k => R a b /\ go l k
    | _, _ => False
    end.

Lemma all2_Forall2 {A B} (R : A -> B -> Prop) l k : all2 R l k <-> Forall2 R l k.
Proof.
  revert k. induction l as [|a l IH]; intros [|b k]; simpl; (split; [intros H|intros H; inversion H; subst]);
    try done; try constructor; try destruct H; auto; try by apply IH.
Qed.

(** The places of a table that are in use. *)
Definition used (table : list (mp_obj * mp_obj)) : list (mp_obj * mp_obj) :=
  List.filter (fun e => negb (is_null e.1)) table.

(** A value as an actor may send it: its integers are small and natural, its texts have
    no NUL, and the entries of its dictionaries are the first places of their tables. *)
Fixpoint sends (h : py_heap) (v : pyval) (o : mp_obj) : Prop :=
  match v with
  | VaNone => o = PyNone
  | VaBool b => o = PyBool b
  | VaInt n => o = PySmallInt n /\ is_u32 n
  | VaStr s => o = PyStr s /\ nul_free s /\ Z.of_nat (length s) < 2 ^ 32
  | VaList vs => exists l os, o = PyList l /\ ph_lists h !! l = Some os /\ Z.of_nat (length vs) < 2 ^ 32
      /\ all2 (sends h) vs os
  | VaDict kvs => exists l es empty, o = PyDict l /\ ph_dicts h !! l = Some (es ++ empty)
      /\ Z.of_nat (length kvs) < 2 ^ 32 /\ used empty = [] /\ NoDup (map fst kvs)
      /\ all2 (fun kv e => (e.1 = PyStr kv.1 /\ nul_free kv.1 /\ Z.of_nat (length kv.1) < 2 ^ 32)
                           /\ sends h kv.2 e.2) kvs es
  end.

Section shows.
Context {V : Type} `{MV : !MicroPython V}.

(** A value as it is after decoding, in boxes from [lo] on.  The entries of a dictionary
    are somewhere in its table. *)
Fixpoint shows (h : py_heap) (lo : loc) (v : pyval) (o : mp_obj) : Prop :=
  match v with
  | VaNone => o = PyNone
  | VaBool b => o = PyBool b
  | VaInt n => o = mp_obj_new_int n
  | VaStr s => o = PyStr s
  | VaList vs => exists l os, o = PyList l /\ (lo <= l < ph_next h)%positive /\ ph_lists h !! l = Some os
      /\ all2 (shows h lo) vs os
  | VaDict kvs => exists l table es, o = PyDict l /\ (lo <= l < ph_next h)%positive
      /\ ph_dicts h !! l = Some table /\ used table ≡ₚ es
      /\ all2 (fun kv e => e.1 = PyStr kv.1 /\ shows h lo kv.2 e.2) kvs es
  end.
End shows.

(** ** Encoding *)

(** A buffer with [w] at [pos]. *)
Definition patched (mem : bytes) (pos : nat) (w : bytes) : bytes :=
  take pos mem ++ w ++ drop (pos + length w) mem.

Lemma length_patched mem pos w : (pos + length w <= length mem)%nat -> length (patched mem pos w) = length mem.
Proof. intros H. unfold patched. rewrite !length_app, length_take, length_drop. lia. Qed.

Lemma patched_app mem pos a b : (pos + length a + length b <= length mem)%nat ->
  patched (patched mem pos a) (pos + length a) b = patched mem pos (a ++ b).
Proof.
  intros H. unfold patched. rewrite length_app.
  rewrite (app_assoc (take pos mem) a), take_app_length' by (rewrite length_app, length_take; lia).
  rewrite drop_app_ge by (rewrite length_app, length_take; lia).
  rewrite length_app, length_take, drop_drop, <- !app_assoc.
  do 4 f_equal. lia.
Qed.

Lemma write_at_patched mem pos w : (pos + length w <= length mem)%nat -> write_at mem pos w = Ok (patched mem pos w).
Proof. intros H. unfold write_at. by rewrite (proj2 (Nat.leb_le _ _) H). Qed.

Lemma max_list_le n l : (max_list l <= n)%nat <-> Forall (fun x => x <= n)%nat l.
Proof.
  induction l as [|x l IH]; simpl; [split; [constructor|lia]|].
  rewrite Forall_cons, <- IH. lia.
Qed.

Section encode.
Context {V : Type} `{MV : !MicroPython V} `{MP : MsgPuck}.

(** What an encoding that succeeds comes to. *)
Definition writes (m : E py_heap encoded) (mem : bytes) (pos : nat) (w : bytes) (h : py_heap) : Prop :=
  m h = Ok (inl (true, (patched mem pos w, Z.of_nat (length w))), h).

Lemma put_value_writes mem pos w h : (pos + length w <= length mem)%nat -> writes (put_value mem pos w) mem pos w h.
Proof.
  intros H. unfold writes, put_value, mbind, E_bind, pure_. by rewrite write_at_patched.
Qed.

(** Objects one after the other. *)
Lemma encode_objs_writes enc (ws : list bytes) objs pos mem size h :
  Forall2 (fun w o => forall pos mem size, (pos + length w <= length mem)%nat -> writes (enc o pos mem size) mem pos w h)
    ws objs ->
  (pos + length (concat ws) <= length mem)%nat ->
  exists size', encode_objs enc objs pos mem size h
    = Ok (inl (true, (patched mem pos (concat ws), size'), (pos + length (concat ws))%nat), h).
Proof.
  intros H. revert pos mem size. induction H as [|w o ws objs Hw _ IH]; intros pos mem size L.
  - exists size. simpl. unfold patched. simpl. rewrite Nat.add_0_r, take_drop. reflexivity.
  - simpl in L. rewrite length_app in L.
    destruct (IH (pos + length w)%nat (patched mem pos w) (Z.of_nat (length w))) as [size' E].
    { rewrite length_patched; lia. }
    exists size'. simpl encode_objs. unfold mbind at 1, E_bind at 1.
    rewrite (Hw pos mem size ltac:(lia)). simpl. rewrite Nat2Z.id, E, patched_app by lia.
    rewrite length_app, Nat.add_assoc. reflexivity.
Qed.

Lemma put_objs_writes enc head (ws : list bytes) objs pos mem size h :
  Forall2 (fun w o => forall pos mem size, (pos + length w <= length mem)%nat -> writes (enc o pos mem size) mem pos w h)
    ws objs ->
  (pos + length (head ++ concat ws) <= length mem)%nat ->
  writes (put_objs enc head objs pos mem size) mem pos (head ++ concat ws) h.
Proof.
  intros H L. rewrite length_app in L. unfold put_objs, writes.
  rewrite write_at_patched by lia. unfold mbind at 1, E_bind at 1, pure_. simpl.
  destruct (encode_objs_writes enc ws objs (pos + length head) (patched mem pos head) size h H) as [size' E].
  { rewrite length_patched; lia. }
  unfold mbind, E_bind. rewrite E, patched_app by lia. unfold mret, E_ret.
  rewrite length_app. repeat f_equal. lia.
Qed.

Lemma concat_wire_kvs kvs :
  concat (map (fun kv => mp_enc kv.1 ++ mp_enc kv.2) (map (fun kv : bytes * pyval => (VStr kv.1, wire kv.2)) kvs))
  = concat (concat (map (fun kv => [mp_enc (VStr kv.1); mp_enc (wire kv.2)]) kvs)).
Proof. induction kvs as [|kv kvs IH]; [done|]. simpl. by rewrite IH, <- app_assoc. Qed.

Lemma used_all es : Forall (fun e => is_null e.1 = false) es -> used es = es.
Proof. induction 1 as [|e es He _ IH]; [done|]. unfold used in *. simpl. by rewrite He, IH. Qed.

Lemma encode_str_text s : nul_free s -> cc_coder_encode_str [] s (strlen s) = mp_enc (VStr s).
Proof. intros H. unfold cc_coder_encode_str. by rewrite strlen_nul_free_all. Qed.

Lemma encode_sends h v : forall o stack pos mem size, sends h v o -> (py_depth v <= stack)%nat ->
  (pos + length (mp_enc (wire v)) <= length mem)%nat ->
  writes (encode_obj stack o pos mem size) mem pos (mp_enc (wire v)) h.
Proof.
  induction v as [|b|n|s|vs IH|kvs IH] using pyval_deep_ind; intros o [|st] pos mem size Ho D L;
    try (cbn in D; lia).
  - cbn [sends] in Ho. subst o. by apply put_value_writes.
  - cbn [sends] in Ho. subst o. by apply put_value_writes.
  - destruct Ho as [-> Hn]. cbn [encode_obj]. rewrite (u32_id n Hn). by apply put_value_writes.
  - destruct Ho as (-> & Hs & _). cbn [encode_obj]. rewrite encode_str_text by done. by apply put_value_writes.
  - destruct Ho as (l & os & -> & El & _ & Hos). apply all2_Forall2 in Hos.
    cbn [py_depth] in D. apply le_S_n, max_list_le in D. rewrite Forall_map in D.
    cbn [encode_obj]. unfold writes. unfold mbind at 1, E_bind at 1, list_items, pure_ at 1.
    unfold mbind at 1, M_bind, get_, need, mret, M_ret. rewrite El.
    pose proof (Forall2_length _ _ _ Hos) as Len.
    cbn [wire mp_enc] in *. rewrite length_map, Len, map_map in *.
    apply put_objs_writes; [|exact L].
    clear L El Len. revert IH D. induction Hos as [|v o vs os Hv _ IHos]; intros IH D; [constructor|].
    inversion IH; inversion D; subst. constructor; [|auto]. intros. by apply H1.
  - destruct Ho as (l & es & empty & -> & El & _ & Hempty & _ & Hes). apply all2_Forall2 in Hes.
    assert (Hn : Forall (fun e => is_null e.1 = false) es).
    { clear -Hes. induction Hes as [|kv e kvs es [[Hk _] _] _ IH]; constructor; [by rewrite Hk|done]. }
    pose proof (Forall2_length _ _ _ Hes) as Len.
    assert (Hlen : mp_obj_dict_len (es ++ empty) = length es).
    { unfold mp_obj_dict_len. rewrite List.filter_app. fold (used es) (used empty).
      rewrite Hempty, app_nil_r. by rewrite used_all. }
    cbn [py_depth] in D.
    cbn [encode_obj]. unfold writes. unfold mbind at 1, E_bind at 1, dict_table, pure_ at 1.
    unfold mbind at 1, M_bind, get_, need, mret, M_ret. rewrite El, Hlen.
    unfold first_entries. rewrite take_app_length.
    cbn [wire mp_enc] in *. rewrite length_map, concat_wire_kvs in *. rewrite Len in *.
    apply put_objs_writes; [|exact L].
    clear L El Len Hlen Hn Hempty.
    assert (D' : Forall (fun kv : bytes * pyval => (S (py_depth kv.2) <= st)%nat) kvs /\ (1 <= st)%nat).
    { split; [|lia]. assert (max_list (map (fun kv : bytes * pyval => py_depth kv.2) kvs) <= st - 1)%nat as M by lia.
      apply max_list_le in M. rewrite Forall_map in M. eapply Forall_impl; [exact M|]. simpl. lia. }
    destruct D' as [D' D1]. clear D. revert IH D'.
    induction Hes as [|kv e kvs es [[Ek [Hk _]] Hv] _ IHes]; intros IH D'; [constructor|].
    inversion IH; inversion D'; subst. cbn. constructor; [|constructor; [|auto]].
    + intros p m z Lp. rewrite Ek. destruct st; [lia|]. cbn [encode_obj].
      rewrite encode_str_text by done. by apply put_value_writes.
    + intros p m z Lp. apply H1; [done|lia|done].
Qed.
End encode.

Lemma E_run {S A B} (m : E S A) (f : A -> E S B) s a s' : m s = Ok (inl a, s') -> (m ≫= f) s = f a s'.
Proof. unfold mbind, E_bind. by intros ->. Qed.

(** ** Decoding *)

(** The contract of the hash map of the machine: a text that is no key yet gets a place
    of its own. *)
Class MicroPythonLaws (V : Type) `{MV : !MicroPython V} : Prop := {
  mp_map_store_new table k o : Forall (fun e => e.1 <> PyStr k) (used table) ->
    exists table', mp_map_store table (PyStr k) o = Some table' /\ used table' ≡ₚ (PyStr k, o) :: used table
}.

(** Boxes that are there stay as they are. *)
Definition extends (h h' : py_heap) : Prop :=
  (ph_next h <= ph_next h')%positive
  /\ forall k, (k < ph_next h)%positive -> ph_lists h' !! k = ph_lists h !! k /\ ph_dicts h' !! k = ph_dicts h !! k.

(** The same but for one box. *)
Definition extends_but (l : loc) (h h' : py_heap) : Prop :=
  (ph_next h <= ph_next h')%positive
  /\ forall k, (k < ph_next h)%positive -> k <> l ->
       ph_lists h' !! k = ph_lists h !! k /\ ph_dicts h' !! k = ph_dicts h !! k.

Lemma extends_refl h : extends h h.
Proof. split; [lia|done]. Qed.
Lemma extends_but_refl l h : extends_but l h h.
Proof. split; [lia|done]. Qed.
Lemma extends_but_of l h h' : extends h h' -> extends_but l h h'.
Proof. intros [? H]. split; [done|auto]. Qed.
Lemma extends_but_trans l h1 h2 h3 : extends_but l h1 h2 -> extends_but l h2 h3 -> extends_but l h1 h3.
Proof.
  intros [L1 H1] [L2 H2]. split; [lia|]. intros k Hk N.
  destruct (H1 k Hk N) as [<- <-]. apply H2; [lia|done].
Qed.

Section decode.
Context {V : Type} `{MV : !MicroPython V} `{ML : !MicroPythonLaws V} `{MP : MsgPuck} `{L : !MsgPuckLaws MP}.

(** What is shown in the boxes from [lo] on stays shown while they are kept. *)
Lemma shows_kept h h' lo v : forall o, shows h lo v o ->
  (ph_next h <= ph_next h')%positive ->
  (forall k, (lo <= k < ph_next h)%positive -> ph_lists h' !! k = ph_lists h !! k /\ ph_dicts h' !! k = ph_dicts h !! k) ->
  shows h' lo v o.
Proof.
  intros o Ho Hn Hk. revert o Ho.
  induction v as [|b|n|s|vs IH|kvs IH] using pyval_deep_ind; intros o Ho; try done.
  - destruct Ho as (l & os & -> & Hl & El & Hos). exists l, os. split; [done|]. split; [lia|].
    destruct (Hk l Hl) as [-> _]. split; [done|]. rewrite all2_Forall2 in *.
    clear El. revert IH. induction Hos as [|v o vs os Hv _ IHos]; intros IH; [constructor|].
    inversion IH; subst. constructor; auto.
  - destruct Ho as (l & table & es & -> & Hl & El & Hes & Hos). exists l, table, es. split; [done|]. split; [lia|].
    destruct (Hk l Hl) as [_ ->]. split; [done|]. split; [done|]. rewrite all2_Forall2 in *.
    clear El Hes. revert IH. induction Hos as [|kv e kvs es [Ek Hv] _ IHos]; intros IH; [constructor|].
    inversion IH; subst. constructor; auto.
Qed.

Lemma shows_lower h lo lo' v : (lo' <= lo)%positive -> forall o, shows h lo v o -> shows h lo' v o.
Proof.
  intros Hle. induction v as [|b|n|s|vs IH|kvs IH] using pyval_deep_ind; intros o Ho; try done.
  - destruct Ho as (l & os & -> & Hl & El & Hos). exists l, os. split; [done|]. split; [lia|]. split; [done|].
    rewrite all2_Forall2 in *. clear El. revert IH.
    induction Hos as [|v o vs os Hv _ IHos]; intros IH; [constructor|]. inversion IH; subst. constructor; auto.
  - destruct Ho as (l & table & es & -> & Hl & El & Hes & Hos). exists l, table, es. split; [done|]. split; [lia|].
    split; [done|]. split; [done|]. rewrite all2_Forall2 in *. clear El Hes. revert IH.
    induction Hos as [|kv e kvs es [Ek Hv] _ IHos]; intros IH; [constructor|]. inversion IH; subst. constructor; auto.
Qed.

(** In boxes that are new. *)
Lemma shows_extends h h' v o lo : shows h lo v o -> extends h h' -> shows h' lo v o.
Proof. intros H [Hn Hk]. eapply shows_kept; [exact H|done|]. intros k Hk'. apply Hk. lia. Qed.
Lemma shows_but h h' v o l : shows h (Pos.succ l) v o -> extends_but l h h' -> shows h' (Pos.succ l) v o.
Proof. intros H [Hn Hk]. eapply shows_kept; [exact H|done|]. intros k Hk'. apply Hk; lia. Qed.

(** A decoding that succeeds, in new boxes. *)
Definition reads (m : E py_heap (option mp_obj)) (v : pyval) (h : py_heap) : Prop :=
  exists o h', m h = Ok (inl (Some o), h') /\ extends h h' /\ shows h' (ph_next h) v o.

Definition text_fits (s : bytes) : Prop := Z.of_nat (length s) < 2 ^ 32.

(** The values that can be decoded. *)
Fixpoint fits (v : pyval) : Prop :=
  match v with
  | VaNone | VaBool _ => True
  | VaInt n => is_u32 n
  | VaStr s => text_fits s
  | VaList vs => Z.of_nat (length vs) < 2 ^ 32 /\ all2 (fun v _ => fits v) vs vs
  | VaDict kvs => Z.of_nat (length kvs) < 2 ^ 32 /\ NoDup (map fst kvs)
      /\ all2 (fun kv _ => text_fits kv.1 /\ fits kv.2) kvs kvs
  end.

Lemma all2_diag {A} (Q : A -> Prop) l : all2 (fun a _ => Q a) l l <-> Forall Q l.
Proof.
  induction l as [|a l IH]; simpl; [split; [constructor|done]|].
  rewrite Forall_cons, IH. done.
Qed.

Lemma fits_wf v : fits v -> mp_wf (wire v).
Proof.
  induction v as [|b|n|s|vs IH|kvs IH] using pyval_deep_ind; intros H; try done.
  - simpl in *. unfold is_u32 in H. lia.
  - destruct H as [Hn H]. cbn [wire]. apply mp_wf_arr. rewrite length_map. split; [done|].
    apply all2_diag in H. rewrite Forall_map. rewrite Forall_forall in *. auto.
  - destruct H as (Hn & _ & H). cbn [wire]. apply mp_wf_map. rewrite length_map. split; [done|].
    apply all2_diag in H. unfold mp_wf_kvs. rewrite Forall_map. rewrite Forall_forall in *.
    intros kv Hkv. split; [|apply IH]; [| |]; try done; by apply H.
Qed.

(** The items of a list box. *)
Lemma decode_items_reads dec rest l vs : forall done_ os h,
  Forall (fun v => forall r h, reads (dec (mp_enc (wire v) ++ r)) v h) vs ->
  Forall fits (done_ ++ vs) -> Z.of_nat (length (done_ ++ vs)) < 2 ^ 32 ->
  ph_lists h !! l = Some (os ++ replicate (length vs) MP_OBJ_NULL) -> (l < ph_next h)%positive ->
  Forall2 (shows h (Pos.succ l)) done_ os ->
  exists os' h', decode_items dec (length vs) (length done_)
      (mp_enc (wire (VaList (done_ ++ vs))) ++ rest) (PyList l) h = Ok (inl true, h')
    /\ extends_but l h h' /\ ph_lists h' !! l = Some os' /\ Forall2 (shows h' (Pos.succ l)) (done_ ++ vs) os'.
Proof using L.
  induction vs as [|v vs IH]; intros done_ os h Hdec Hf Hlen El Hl Hos.
  { exists os, h. rewrite !app_nil_r in *. split; [done|]. split; [apply extends_but_refl|]. done. }
  inversion Hdec as [|? ? Hv Hvs]; subst.
  pose proof (Forall2_length _ _ _ Hos) as Len.
  assert (Hw : mp_wf (wire (VaList (done_ ++ v :: vs)))).
  { apply fits_wf. simpl. split; [done|]. by apply all2_diag. }
  pose proof (get_value_from_array_enc (map wire (done_ ++ v :: vs)) (length done_) (wire v) rest Hw
    ltac:(rewrite list_lookup_fmap, lookup_app_r, Nat.sub_diag by lia; done)) as Eu.
  match type of Eu with _ = Some (_ ++ ?r) => set (u := r) in Eu end.
  destruct (Hv u h) as (o & h1 & E1 & X1 & S1).
  set (h2 := set_ph_lists (<[l := os ++ o :: replicate (length vs) MP_OBJ_NULL]> (ph_lists h1)) h1).
  assert (X2 : extends_but l h h2).
  { eapply extends_but_trans; [by apply extends_but_of|]. split; [simpl; lia|].
    intros k Hk N. simpl. by rewrite lookup_insert_ne. }
  destruct X1 as [N1 K1].
  destruct (IH (done_ ++ [v]) (os ++ [o]) h2) as (os' & h' & E' & X' & El' & S').
  - exact Hvs.
  - by rewrite <- app_assoc.
  - by rewrite <- app_assoc.
  - simpl. rewrite lookup_insert_eq, <- app_assoc. done.
  - simpl. lia.
  - apply Forall2_app; [|constructor; [|constructor]].
    + eapply Forall2_impl; [exact Hos|]. intros w p Hw'. eapply shows_but; [exact Hw'|done].
    + eapply shows_kept; [eapply shows_lower; [|exact S1]|simpl; lia|]; [lia|].
      intros k Hk. simpl. rewrite lookup_insert_ne by lia. done.
  - exists os', h'. rewrite length_app, <- app_assoc in E'. simpl in E'. rewrite <- app_assoc in S'.
    split; [|split; [|split]]; try done; [|by eapply extends_but_trans].
    cbn [decode_items length]. cbn [wire] in Eu |- *. rewrite Eu.
    unfold mbind at 1, E_bind at 1. rewrite E1.
    unfold mp_obj_list_store, list_items. unfold mbind at 1, E_bind at 1, mbind at 1, E_bind at 1, pure_.
    unfold mbind at 1, M_bind, get_, need, mret, M_ret, modify.
    destruct (K1 l Hl) as [-> _]. rewrite El.
    rewrite Len, insert_app_r_alt, Nat.sub_diag by lia. cbn [replicate insert list_insert].
    rewrite Nat.add_1_r in E'. cbn [wire] in E'. rewrite <- Len. exact E'.
Qed.

(** The entries of a dictionary box. *)
Lemma decode_entries_reads dec rest l kvs : forall done_ es table h,
  Forall (fun kv => (forall r h, dec (mp_enc (VStr kv.1) ++ r) h = Ok (inl (Some (PyStr kv.1)), h))
                    /\ forall r h, reads (dec (mp_enc (wire kv.2) ++ r)) kv.2 h) kvs ->
  Forall (fun kv => text_fits kv.1 /\ fits kv.2) kvs -> NoDup (map fst (kvs ++ done_)) ->
  ph_dicts h !! l = Some table -> used table ≡ₚ es -> (l < ph_next h)%positive ->
  Forall2 (fun kv e => e.1 = PyStr kv.1 /\ shows h (Pos.succ l) kv.2 e.2) done_ es ->
  exists table' es' h', decode_entries dec (length kvs)
      (mp_enc_kvs (map (fun kv => (VStr kv.1, wire kv.2)) kvs) ++ rest) (PyDict l) h = Ok (inl true, h')
    /\ extends_but l h h' /\ ph_dicts h' !! l = Some table' /\ used table' ≡ₚ es'
    /\ Forall2 (fun kv e => e.1 = PyStr kv.1 /\ shows h' (Pos.succ l) kv.2 e.2) (reverse kvs ++ done_) es'.
Proof using L ML.
  induction kvs as [|[k v] kvs IH]; intros done_ es table h Hdec Hf Hnd El Hes Hl Hos.
  { exists table, es, h. split; [done|]. split; [apply extends_but_refl|]. done. }
  inversion Hdec as [|? ? [Hk Hv] Hkvs]; inversion Hf as [|? ? [Fk Fv] Fkvs]; subst. simpl in Hk, Hv, Fk, Fv.
  simpl in Hnd. apply NoDup_cons in Hnd as [Hnew Hnd].
  pose proof (fits_wf v Fv) as Wv.
  destruct (Hv (mp_enc_kvs (map (fun kv => (VStr kv.1, wire kv.2)) kvs) ++ rest) h) as (o & h1 & E1 & [N1 K1] & S1).
  destruct (mp_map_store_new table k o) as (table1 & Et & Hu).
  { rewrite Hes. clear -Hos Hnew. rewrite map_app in Hnew. apply Forall_forall. intros e He Eq.
    apply Hnew. apply elem_of_app. right.
    apply list_elem_of_lookup_1 in He as [i Hi].
    destruct (Forall2_lookup_r _ _ _ _ _ Hos Hi) as (kv & Hkv & Ekv & _).
    rewrite Ekv in Eq. injection Eq as <-. apply list_elem_of_fmap_2 with (f := fst).
    by eapply list_elem_of_lookup_2. }
  set (h2 := set_ph_dicts (<[l := table1]> (ph_dicts h1)) h1).
  assert (X2 : extends_but l h h2).
  { split; [simpl; lia|]. intros j Hj N. simpl. rewrite lookup_insert_ne by done. by apply K1. }
  assert (Snew : shows h2 (Pos.succ l) v o).
  { eapply shows_kept; [eapply shows_lower; [|exact S1]|simpl; lia|]; [lia|].
    intros j Hj. simpl. rewrite lookup_insert_ne by lia. done. }
  destruct (IH ((k, v) :: done_) ((PyStr k, o) :: es) table1 h2) as (table' & es' & h' & E' & X' & El' & Hu' & S').
  - exact Hkvs.
  - exact Fkvs.
  - rewrite map_app. simpl. rewrite <- Permutation_middle, <- map_app. by apply NoDup_cons.
  - simpl. by rewrite lookup_insert_eq.
  - by rewrite Hu, Hes.
  - simpl. lia.
  - constructor; [done|]. eapply Forall2_impl; [exact Hos|]. intros kv e [Ek Hs]. split; [done|].
    eapply shows_but; [exact Hs|done].
  - exists table', es', h'. split; [|split; [by eapply extends_but_trans|split; [done|split; [done|]]]].
    + cbn [decode_entries length map]. rewrite mp_enc_kvs_cons, <- !app_assoc. cbn [fst snd].
      unfold mbind at 1, E_bind at 1. rewrite Hk.
      unfold cc_coder_decode_map_next. rewrite next_enc by exact Fk.
      unfold mbind at 1, E_bind at 1. rewrite E1. rewrite next_enc by done.
      unfold mp_obj_dict_store, dict_table. unfold mbind at 1, E_bind at 1, mbind at 1, E_bind at 1, pure_ at 1.
      unfold mbind at 1, M_bind, get_, need, mret, M_ret.
      destruct (K1 l Hl) as [_ ->]. rewrite El, Et. unfold pure_, modify. exact E'.
    + rewrite reverse_cons, <- app_assoc. exact S'.
Qed.

Lemma shows_dict_rev h lo kvs es :
  Forall2 (fun (kv : bytes * pyval) e => e.1 = PyStr kv.1 /\ shows h lo kv.2 e.2) (reverse kvs) es ->
  Forall2 (fun (kv : bytes * pyval) e => e.1 = PyStr kv.1 /\ shows h lo kv.2 e.2) kvs (reverse es).
Proof. intros H. rewrite <- (reverse_involutive kvs). by apply Forall2_reverse. Qed.

Lemma decode_reads v : forall stack rest h, fits v -> (py_depth v <= stack)%nat ->
  reads (decode_obj stack (mp_enc (wire v) ++ rest)) v h.
Proof using L ML.
  assert (Htype : forall v rest t, fits v ->
    cc_coder_type_of (mp_enc (wire v) ++ rest) = t -> t = match v with
      | VaNone => CC_CODER_NIL | VaBool _ => CC_CODER_BOOL | VaInt _ => CC_CODER_UINT | VaStr _ => CC_CODER_STR
      | VaList _ => CC_CODER_ARRAY | VaDict _ => CC_CODER_MAP end).
  { intros w rest t F <-. unfold cc_coder_type_of. rewrite mp_typeof_enc by by apply fits_wf. by destruct w. }
  induction v as [|b|n|s|vs IH|kvs IH] using pyval_deep_ind; intros [|st] rest h F D; try (cbn in D; lia);
    cbn [decode_obj]; rewrite (Htype _ rest _ F eq_refl).
  - exists PyNone, h. split; [done|]. split; [apply extends_refl|done].
  - exists (PyBool b), h. cbn [wire]. rewrite decode_bool_enc. split; [done|]. split; [apply extends_refl|done].
  - exists (mp_obj_new_int n), h. cbn [wire]. rewrite decode_uint_enc by done.
    split; [done|]. split; [apply extends_refl|done].
  - exists (PyStr s), h. cbn [wire]. rewrite decode_str_enc by exact F. simpl. rewrite take_app_length.
    split; [done|]. split; [apply extends_refl|done].
  - pose proof F as [Hn Hvs]. apply all2_diag in Hvs.
    cbn [py_depth] in D. apply le_S_n, max_list_le in D. rewrite Forall_map in D.
    assert (Hs : Z.to_nat (cc_coder_get_size_of_array (mp_enc (wire (VaList vs)) ++ rest)) = length vs).
    { unfold cc_coder_get_size_of_array. cbn [wire mp_enc]. rewrite <- app_assoc, mp_decode_array_enc;
        rewrite length_map; [apply Nat2Z.id|lia]. }
    rewrite Hs.
    set (l := ph_next h).
    set (h0 := set_ph_next (Pos.succ l) (set_ph_lists (<[l := replicate (length vs) MP_OBJ_NULL]> (ph_lists h)) h)).
    destruct (decode_items_reads (decode_obj st) rest l vs [] [] h0) as (os & h' & E' & [N' K'] & El & S').
    + rewrite Forall_forall in *. intros v Hv r h1. by apply IH; auto.
    + exact Hvs.
    + exact Hn.
    + simpl. by rewrite lookup_insert_eq.
    + simpl. lia.
    + constructor.
    + exists (PyList l), h'. simpl in N'. split; [|split].
      * rewrite (E_run (mp_obj_new_list (replicate (length vs) MP_OBJ_NULL)) _ h (PyList l) h0) by reflexivity.
        by rewrite (E_run _ _ _ _ _ E').
      * split; [lia|]. intros k Hk. destruct (K' k) as [-> ->]; [simpl; lia|lia|].
        simpl. by rewrite lookup_insert_ne by lia.
      * exists l, os. split; [done|]. split; [lia|]. split; [done|]. apply all2_Forall2.
        eapply Forall2_impl; [exact S'|]. intros v o Hv. eapply shows_lower; [|exact Hv]. lia.
  - pose proof F as (Hn & Hnd & Hkvs). apply all2_diag in Hkvs.
    cbn [py_depth] in D.
    assert (D' : Forall (fun kv : bytes * pyval => (py_depth kv.2 <= st)%nat) kvs /\ (1 <= st)%nat).
    { split; [|lia]. assert (max_list (map (fun kv : bytes * pyval => py_depth kv.2) kvs) <= st)%nat as M by lia.
      apply max_list_le in M. by rewrite Forall_map in M. }
    destruct D' as [D' D1].
    unfold cc_coder_decode_map. cbn [wire mp_enc]. rewrite <- app_assoc, length_map, mp_decode_map_enc by lia.
    rewrite Nat2Z.id.
    set (l := ph_next h).
    set (h0 := set_ph_next (Pos.succ l)
                 (set_ph_dicts (<[l := replicate (length kvs) (MP_OBJ_NULL, MP_OBJ_NULL)]> (ph_dicts h)) h)).
    destruct (decode_entries_reads (decode_obj st) rest l kvs [] []
                (replicate (length kvs) (MP_OBJ_NULL, MP_OBJ_NULL)) h0) as (table & es & h' & E' & [N' K'] & El & Hu & S').
    + rewrite Forall_forall in *. intros kv Hkv. destruct (Hkvs kv Hkv) as [Fk Fv]. split.
      * intros r h1. destruct st; [lia|]. cbn [decode_obj].
        pose proof (Htype (VaStr kv.1) r _ Fk eq_refl) as Ht. cbn [wire] in Ht. rewrite Ht, decode_str_enc by exact Fk. simpl.
        by rewrite take_app_length.
      * intros r h1. by apply IH; auto.
    + exact Hkvs.
    + by rewrite app_nil_r.
    + simpl. by rewrite lookup_insert_eq.
    + clear. induction kvs as [|kv kvs IHk]; [done|exact IHk].
    + simpl. lia.
    + constructor.
    + exists (PyDict l), h'. simpl in N'. split; [|split].
      * rewrite (E_run (mp_obj_new_dict (length kvs)) _ h (PyDict l) h0) by reflexivity.
        by rewrite (E_run _ _ _ _ _ E').
      * split; [lia|]. intros k Hk. destruct (K' k) as [-> ->]; [simpl; lia|lia|].
        simpl. by rewrite lookup_insert_ne by lia.
      * exists l, table, (reverse es). rewrite app_nil_r in S'.
        split; [done|]. split; [lia|]. split; [done|]. split; [by rewrite Hu, reverse_Permutation|].
        apply all2_Forall2. apply shows_dict_rev.
        eapply Forall2_impl; [exact S'|]. intros kv e [Ek Hv]. split; [done|]. eapply shows_lower; [|exact Hv]. lia.
Qed.
End decode.

(** ** Tokens *)

Section tokens.
Context {V : Type} `{HP : !Holds V py_heap} `{MV : !MicroPython V} `{ML : !MicroPythonLaws V}.
Context `{P : Platform} (Halloc : forall n, plat_alloc n = true) `{MP : MsgPuck} `{L : !MsgPuckLaws MP}.
Implicit Types s t : rt V.

(** The heap of the machine of a runtime, and the runtime with another one. *)
Definition py_at s (h : py_heap) : Prop := ps_statics (rt_platform s) !! mp_state_ctx = Some (hold h).
Definition with_heap (h : py_heap) s : rt V :=
  set_platform (set_ps_statics (<[mp_state_ctx := hold h]> (ps_statics (rt_platform s))) (rt_platform s)) s.

Lemma run_on_heap {A} (m : E py_heap A) s h a h' : py_at s h -> m h = Ok (inl a, h') ->
  on_heap m s = Ok (inl a, with_heap h' s).
Proof.
  intros Hs Em. unfold on_heap, mbind at 1, E_bind at 1, pure_ at 1, get_platform, gets.
  unfold mbind at 1, E_bind at 1, pure_ at 1, state_as. rewrite Hs. unfold need.
  unfold mbind at 1, M_bind, mret, M_ret. rewrite held_hold. by rewrite Em.
Qed.

Lemma pure_run {A B} (m : M (rt V) A) (f : A -> E (rt V) B) s a s' :
  m s = Ok (a, s') -> (pure_ m ≫= f) s = f a s'.
Proof. intros Em. apply E_run. unfold pure_. by rewrite Em. Qed.

(** The bytes there are for a value: enough for all but a list or a dictionary. *)
Definition room_of (v : pyval) : nat :=
  match v with VaList _ => 200 | VaDict _ => 10000 | _ => length (mp_enc (wire v)) end.

(** The size of a text is one of 32 bits. *)
Definition size_fits (v : pyval) : Prop :=
  match v with VaStr s => Z.of_nat (length (mp_enc (VStr s))) < 2 ^ 32 | _ => True end.

Lemma sends_room h v o : sends h v o -> size_fits v ->
  encoding_room o h = Ok (inl (Some (room_of v)), h).
Proof using L.
  destruct v; intros Ho Hl; cbn in Ho.
  - subst o. cbn. unfold cc_coder_sizeof_nil. rewrite <- mp_sizeof_nil_enc, Nat2Z.id. done.
  - subst o. cbn. unfold cc_coder_sizeof_bool. rewrite <- mp_sizeof_bool_enc, Nat2Z.id. done.
  - destruct Ho as [-> Hn]. cbn. unfold cc_coder_sizeof_uint. rewrite u32_id by done.
    rewrite <- mp_sizeof_uint_enc, Nat2Z.id; [done|]. unfold is_u32 in Hn. lia.
  - destruct Ho as (-> & Hs & Hs'). cbn [size_fits mp_enc] in Hl.
    unfold encoding_room, cc_coder_sizeof_str. rewrite strlen_nul_free_all, <- mp_sizeof_str_enc by done.
    rewrite u32_id by (unfold is_u32; lia). by rewrite Nat2Z.id.
  - by destruct Ho as (? & ? & -> & _).
  - by destruct Ho as (? & ? & ? & -> & _).
Qed.

Lemma length_fresh_buffer o n : length (fresh_buffer o n) = n.
Proof.
  assert (H : length (take n (mpy_junk n) ++ zeroed (n - length (mpy_junk n))) = n).
  { unfold zeroed. rewrite length_app, length_take, length_replicate. lia. }
  unfold fresh_buffer. destruct o; try exact H. apply length_replicate.
Qed.

(** A value as it is encoded and allocated. *)
Lemma encode_allocated s h v o size : py_at s h -> sends h v o -> (py_depth v <= mpy_stack)%nat ->
  (length (mp_enc (wire v)) <= room_of v)%nat -> size_fits v ->
  exists data c, cc_mpy_encode_from_mpy_obj o size s
      = Ok (inl (Some (data, Z.of_nat (length (mp_enc (wire v))))), with_heap h (later c (with_heap h s)))
    /\ take (length (mp_enc (wire v))) data = mp_enc (wire v).
Proof using L Halloc.
  intros Hs Ho D R B. unfold cc_mpy_encode_from_mpy_obj.
  rewrite (E_run _ _ _ _ _ (run_on_heap _ s h _ h Hs (sends_room h v o Ho B))).
  rewrite (pure_run _ _ _ _ _ (run_alloc (with_heap h s) (Halloc _))). cbn [negb].
  assert (Hs' : py_at (later (S (w_calls (rt_world (with_heap h s)))) (with_heap h s)) h).
  { unfold py_at. simpl. by rewrite lookup_insert_eq. }
  assert (Hr : (0 + length (mp_enc (wire v)) <= length (fresh_buffer o (room_of v)))%nat)
    by (rewrite length_fresh_buffer; lia).
  pose proof (encode_sends h v o mpy_stack 0 _ size Ho D Hr) as Hw.
  rewrite (E_run _ _ _ _ _ (run_on_heap _ _ h _ h Hs' Hw)).
  eexists. exists (S (w_calls (rt_world (with_heap h s)))). split; [reflexivity|].
  unfold patched. simpl. by rewrite take_app_length.
Qed.

(** A port of an actor, found by its name, with its queue. *)
Record named_port s (actor : loc) (name : bytes) (d : cc_port_direction_t) (l : loc) (p : cc_port_t)
  (f : cc_fifo_t) (q : aqueue) : Prop := {
  np_name : nul_free name;
  np_found : cc_port_get_from_name actor name (length name) d (rt_world s) = Ok (Some l, rt_world s);
  np_port : w_ports (rt_world s) !! l = Some p;
  np_fifo : port_fifo p = Some f;
  np_queue : repr f q
}.

Lemma run_with_port {A} s actor name d l p f q (absent : A) use : named_port s actor name d l p f q ->
  with_port (PyPtr (CActor actor)) (PyStr name) d absent use s = use l s.
Proof.
  intros [Hn Hf _ _ _]. unfold with_port, actor_arg, str_arg. rewrite cstr_nul_free_all by done.
  rewrite (E_run (mret actor) _ s actor s) by done. rewrite (E_run (mret name) _ s name s) by done.
  rewrite strlen_nul_free_all by done.
  rewrite (pure_run _ _ _ _ _ (run_on_world _ _ _ _ Hf)). by rewrite set_world_id.
Qed.

(** C39: a negative number that MicroPython keeps as a small integer is another number
    for whoever reads it: [-n] is sent as [2 ^ 32 - n]. *)
Theorem negative_ints_change (n : Z) (s : rt V) (h : py_heap) :
  py_at s h -> - 2 ^ 32 <= n < 0 -> (1 <= mpy_stack)%nat ->
  exists data size s',
    cc_mpy_encode_from_mpy_obj (PySmallInt n) 0 s = Ok (inl (Some (data, size)), s')
    /\ forall (t : rt V) (ht : py_heap) (rest : bytes), py_at t ht ->
         cc_mpy_decode_to_mpy_obj (Some (take (Z.to_nat size) data ++ rest)) t
         = Ok (inl (Some (mp_obj_new_int (2 ^ 32 + n))), with_heap ht t).
Proof using L ML Halloc.
  intros Hs Hn D.
  assert (En : u32 n = 2 ^ 32 + n).
  { unfold u32. rewrite <- (Z.mod_add n 1) by lia. rewrite Z.mod_small by lia. lia. }
  assert (Eq : cc_mpy_encode_from_mpy_obj (PySmallInt n) 0 s
               = cc_mpy_encode_from_mpy_obj (PySmallInt (u32 n)) 0 s).
  { unfold cc_mpy_encode_from_mpy_obj. cbn [encoding_room]. rewrite u32_idemp.
    destruct mpy_stack; [lia|]. cbn [encode_obj fresh_buffer]. by rewrite u32_idemp. }
  destruct (encode_allocated s h (VaInt (u32 n)) (PySmallInt (u32 n)) 0 Hs) as (data & c & Ee & Et);
    [by split; [|apply u32_range]|exact D|done|done|].
  rewrite Eq, Ee. do 3 eexists. split; [reflexivity|]. intros t ht rest Ht. rewrite Nat2Z.id, Et.
  unfold cc_mpy_decode_to_mpy_obj. rewrite (pure_run _ _ t _ t eq_refl).
  apply (run_on_heap _ t ht); [done|]. destruct mpy_stack; [lia|].
  cbn [decode_obj wire]. unfold cc_coder_type_of. rewrite mp_typeof_enc.
  2: { simpl. pose proof (u32_range n). unfold is_u32 in *. lia. }
  cbn [mpval_type]. rewrite decode_uint_enc by apply u32_range. by rewrite En.
Qed.

(** C17: a token from one actor in Python to another.  What [write_token] puts in the
    queue of an out-port of an actor is one token, of the size of the encoding of the
    value; and wherever those bytes are the oldest token of the queue of an in-port,
    after whatever way, [peek_token] answers an object of the same value: lists with
    the same items in the same order, dictionaries with the same entries. *)
Theorem python_token_crosses (v : pyval) (o : mp_obj) (s : rt V) (h : py_heap) (actor l : loc) (name : bytes)
  (p : cc_port_t) (f : cc_fifo_t) (q : aqueue) :
  py_at s h -> sends h v o -> fits v -> (py_depth v <= mpy_stack)%nat ->
  (length (mp_enc (wire v)) <= room_of v)%nat -> size_fits v ->
  named_port s actor name CC_PORT_DIRECTION_OUT l p f q ->
  Z.of_nat (length (aq_all q)) < fifo_size f - 1 -> write_pos f + 1 < 2 ^ 32 ->
  exists s' f' b data,
    mpy_port_ccmp_write_token (PyPtr (CActor actor)) (PyStr name) o s = Ok (inl PyNone, s')
    /\ w_ports (rt_world s') = <[l := set_port_fifo (Some f') p]> (w_ports (rt_world s))
    /\ repr f' {| pending := pending q; unread := unread q
         ++ [{| tok_value := Some b; tok_size := Z.of_nat (length (mp_enc (wire v))) |}] |}
    /\ w_mem (rt_world s') !! b = Some data
    /\ forall (t : rt V) (ht : py_heap) (actor2 l2 c : loc) (name2 rest : bytes) (p2 : cc_port_t) (f2 : cc_fifo_t)
         (q2 : aqueue) (tok : cc_token_t) (u : list cc_token_t),
         py_at t ht -> named_port t actor2 name2 CC_PORT_DIRECTION_IN l2 p2 f2 q2 ->
         unread q2 = tok :: u -> tok_value tok = Some c ->
         w_mem (rt_world t) !! c = Some (take (length (mp_enc (wire v))) data ++ rest) ->
         exists t' h' o' f2', mpy_port_ccmp_peek_token (PyPtr (CActor actor2)) (PyStr name2) t = Ok (inl o', t')
           /\ py_at t' h' /\ shows h' (ph_next ht) v o'
           /\ w_ports (rt_world t') = <[l2 := set_port_fifo (Some f2') p2]> (w_ports (rt_world t))
           /\ repr f2' {| pending := pending q2 ++ [tok]; unread := u |}.
Proof using L ML Halloc.
  intros Hs Ho F D R B Hport Hroom Hpos.
  destruct (encode_allocated s h v o 0 Hs Ho D R B) as (data & c & Ee & Et).
  set (s1 := with_heap h (later c (with_heap h s))) in Ee.
  pose proof Hport as [_ _ Hp Hf Hq].
  set (n := Z.of_nat (length (mp_enc (wire v)))) in *.
  set (b := w_next (rt_world s1)).
  set (w2 := set_mem (<[b := data]> (w_mem (rt_world s1))) (set_next (Pos.succ b) (rt_world s1))).
  destruct (cc_fifo_write_room f q (Some b) n (w_mem w2) Hq Hpos Hroom) as (f' & Ew & Hq' & _).
  exists (set_world (with_fifo l p f' w2) s1), f', b, data.
  split; [|split; [done|split; [done|split]]].
  - unfold mpy_port_ccmp_write_token.
    rewrite (run_with_port s actor name _ l p f q _ _ Hport).
    rewrite (E_run _ _ _ _ _ Ee).
    assert (Ea : on_world (adopt (Some data)) s1 = Ok (Some b, set_world w2 s1)) by reflexivity.
    rewrite (pure_run _ _ _ _ _ Ea).
    assert (Eg : write_or_free l (Some b) n w2 = Ok (true, with_fifo l p f' w2)).
    { unfold write_or_free.
      rewrite (bind_Ok _ _ _ _ _ (run_port_write w2 l p f Hp Hf _ _ _ _ Ew)). reflexivity. }
    by rewrite (pure_run _ _ _ _ _ (run_on_world _ (set_world w2 s1) _ _ Eg)).
  - simpl. by rewrite lookup_insert_eq.
  - intros t ht actor2 l2 k name2 rest p2 f2 q2 tok u Ht Hport2 Hu Hk Hm. rewrite Et in Hm.
    pose proof Hport2 as [_ _ Hp2 Hf2 Hq2].
    destruct (cc_fifo_peek_repr f2 q2 tok {| pending := pending q2 ++ [tok]; unread := u |} (rt_world t) Hq2)
      as [Ep Hq2']. { unfold aq_peek. by rewrite Hu. }
    set (f2' := set_tentative_read_pos (tentative_read_pos f2 + 1) f2) in *.
    set (t1 := set_world (with_fifo l2 p2 f2' (rt_world t)) t).
    destruct (decode_reads v mpy_stack rest ht F D) as (o' & h' & Ed & _ & Sh).
    exists (with_heap h' t1), h', o', f2'.
    split; [|split; [|split; [done|split; done]]].
    + unfold mpy_port_ccmp_peek_token.
      rewrite (run_with_port t actor2 name2 _ l2 p2 f2 q2 _ _ Hport2).
      rewrite (pure_run _ _ _ _ _ (run_on_world _ _ _ _ (run_port_peek _ l2 p2 f2 Hp2 Hf2 _ _ Ep))).
      fold t1.
      assert (Eg : token_data tok (rt_world t1) = Ok (Some (mp_enc (wire v) ++ rest), rt_world t1)).
      { unfold token_data. rewrite Hk.
        assert (Em : mem_read k (w_mem (rt_world t1)) = Ok (mp_enc (wire v) ++ rest, w_mem (rt_world t1))).
        { unfold mem_read. exec. by rewrite Hm. }
        rewrite (bind_Ok _ _ _ _ _ (run_on_mem _ _ _ _ Em)). by rewrite set_mem_id. }
      rewrite (pure_run _ _ _ _ _ (run_on_world _ t1 _ _ Eg)). rewrite set_world_id.
      unfold cc_mpy_decode_to_mpy_obj.
      assert (Edec : (buffer ← pure_ (need NullDeref (Some (mp_enc (wire v) ++ rest)));
                      on_heap (decode_obj (MV:=MV) mpy_stack buffer)) t1 = Ok (inl (Some o'), with_heap h' t1)).
      { rewrite (pure_run _ _ t1 _ t1 eq_refl). by apply (run_on_heap _ t1 ht). }
      by rewrite (E_run _ _ _ _ _ Edec).
    + unfold py_at. simpl. by rewrite lookup_insert_eq.
Qed.
End tokens.

(** ** Modules *)

Section modules.
Context {V : Type} `{MV : !MicroPython V} `{P : Platform} (Halloc : forall n, plat_alloc n = true).
Context `{MP : MsgPuck} `{ST : !Storage V} `{SL : !StorageLaws V}.
Implicit Types s : rt V.

Lemma run_module_path type n ext add s :
  cc_actor_mpy_get_path_from_type type n ext add s
  = Ok (Some (module_path type n ext add), later (S (w_calls (rt_world s))) s).
Proof using Halloc.
  unfold cc_actor_mpy_get_path_from_type. by rewrite (bind_Ok _ _ _ _ _ (run_alloc s (Halloc _))).
Qed.

(** The folder of the modules is the same before and after the dots are replaced. *)
Lemma module_path_dir type n ext :
  module_path type n ext true = CC_ACTOR_MODULES_DIR ++ module_path type n ext false.
Proof. reflexivity. Qed.

Lemma module_path_text type n ext rest : nul_free type -> n = length type ->
  module_path (type ++ rest) n ext true = module_path (type ++ [NUL]) (strlen (type ++ [NUL])) ext true.
Proof.
  intros H ->. unfold module_path. rewrite strlen_nul_free, !take_app_length by done. reflexivity.
Qed.

(** C18: the module that the proxy sends for an actor is stored where the runtime looks
    for it: from then on the type of the actor has a module, and what the machine reads
    when it imports it is what was sent.  It holds for any storage that keeps its
    promise. *)
Theorem requested_module_is_found (type r1 data r2 : bytes) s :
  nul_free type -> nul_free (module_path type (length type) (str ".mpy") false) ->
  writable (rt_platform s) (module_path type (length type) (str ".mpy") true) ->
  exists s', cc_actor_store_module (type ++ r1) (length type) (data ++ r2) (length data) s = Ok (tt, s')
    /\ (exists c, cc_actor_mpy_has_module (type ++ [NUL]) s' = Ok (true, later c s'))
    /\ (exists c, mp_reader_new_file (module_path type (length type) (str ".mpy") false) s'
                  = Ok (Some {| rd_buffer := data; rd_cur := 0 |}, later c s')).
Proof using Halloc SL.
  intros Ht Hp Hw.
  set (path := module_path type (length type) (str ".mpy") true) in *.
  assert (E1 : module_path (type ++ r1) (length type) (str ".mpy") true = path).
  { unfold path, module_path. rewrite take_app_length, take_ge by done. reflexivity. }
  assert (E2 : module_path (type ++ [NUL]) (strlen (type ++ [NUL])) (str ".mpy") true = path).
  { rewrite <- (module_path_text type (length type) (str ".mpy") r1) by done. exact E1. }
  destruct (file_written (later (S (w_calls (rt_world s))) s) path data Hw) as (p & c & Ew & Hst).
  exists (set_platform p (later c (later (S (w_calls (rt_world s))) s))).
  set (s' := set_platform p _). split; [|split].
  - unfold cc_actor_store_module. rewrite (bind_Ok _ _ _ _ _ (run_module_path _ _ _ _ s)), E1, take_app_length.
    by rewrite (bind_Ok _ _ _ _ _ Ew).
  - unfold cc_actor_mpy_has_module. rewrite (bind_Ok _ _ _ _ _ (run_module_path _ _ _ _ s')).
    destruct (mp_frozen_stat _); [by eexists|].
    rewrite (bind_Ok _ _ _ _ _ (run_module_path _ _ _ _ _)), E2.
    match goal with |- context [(_ ≫= _) ?st] => destruct (file_there st path data Hst) as [d Ed] end.
    rewrite (bind_Ok _ _ _ _ _ Ed). by eexists.
  - unfold mp_reader_new_file. rewrite (bind_Ok _ _ _ _ _ (run_alloc s' (Halloc _))). cbn [negb].
    rewrite cstr_nul_free_all, <- module_path_dir by done.
    match goal with |- context [(_ ≫= _) ?st] => destruct (file_read st path data Hst) as [d Ed] end.
    rewrite (bind_Ok _ _ _ _ _ Ed). by eexists.
Qed.
End modules.

(** ** A machine *)

(** A machine that imports and calls nothing.  A dictionary is the list of its entries,
    a list and a dictionary have no hash. *)
Definition same_text (a b : mp_obj) : bool :=
  match a, b with PyStr s, PyStr t => bool_decide (s = t) | _, _ => false end.
Definition plain_store (table : list (mp_obj * mp_obj)) (k v : mp_obj) : option (list (mp_obj * mp_obj)) :=
  match k with
  | PyList _ | PyDict _ => None
  | _ => Some ((k, v) :: List.filter (fun e => negb (same_text k e.1)) table)
  end.

#[export] Instance plain_python {V} : MicroPython V := {
  mp_small_int_fits := fun n => (- 2 ^ 62 <=? n) && (n <? 2 ^ 62);
  mp_int_fits := fun n => (- 2 ^ 63 <=? n) && (n <? 2 ^ 63);
  mpy_stack := 10;
  mpy_junk := fun n => replicate n Byte.xff;
  mp_map_store := plain_store;
  mp_import_name := fun _ => raise ImportError;
  mp_load_method_maybe := fun _ _ => mret None;
  mp_call := fun _ _ _ _ => raise TypeError;
  mp_store_attr := fun _ _ _ => raise AttributeError;
  mp_store_global := fun _ _ => mret tt;
  mp_store_name := fun _ _ => mret tt;
  mp_obj_is_true := fun _ => mret true;
  mp_gc := mret tt; mp_start := mret tt; mp_stop := mret tt;
  mp_frozen_stat := fun _ => false
}.

#[export] Instance plain_python_laws {V} : MicroPythonLaws V.
Proof.
  split. intros table k o H. eexists. split; [reflexivity|]. simpl. apply perm_skip.
  induction table as [|[a b] table IH]; [done|]. simpl in H.
  destruct a; simpl in *; try (apply Forall_cons in H as [Ha H]); specialize (IH H); simpl in *; try done; try (by apply perm_skip).
  rewrite bool_decide_false by congruence. simpl. by apply perm_skip.
Qed.

#[export] Instance holds_heap : Holds py_heap py_heap := {| hold := id; held := Some; held_hold := fun _ => eq_refl |}.

(** A dictionary in a box, with a list in another. *)
Definition a_value : pyval := VaDict [(str "a", VaList [VaInt 5; VaNone]); (str "b", VaStr (str "hi"))].
Definition a_heap : py_heap :=
  {| ph_next := 3; ph_lists := {[1%positive := [PySmallInt 5; PyNone]]};
     ph_dicts := {[2%positive := [(PyStr (str "a"), PyList 1); (PyStr (str "b"), PyStr (str "hi"));
                                  (MP_OBJ_NULL, MP_OBJ_NULL)]]} |}.
Definition empty_heap : py_heap := {| ph_next := 1; ph_lists := ∅; ph_dicts := ∅ |}.

#[local] Ltac plain_text := apply (bool_decide_unpack _); reflexivity.

(** A runtime with a machine. *)
Definition python_rt (h : py_heap) (w : world) : rt py_heap :=
  {| rt_world := w; rt_instances := ∅; rt_caps := ∅; rt_objs := ∅; cs_capabilities := []; cs_objects := [];
     rt_platform := set_ps_statics {[mp_state_ctx := h]} no_platform |}.

Lemma in_port_named h x : named_port (python_rt h (set_mem x lib_world)) 12 (str "token") CC_PORT_DIRECTION_IN 22
  in_port loaded_fifo {| pending := []; unread := [{| tok_value := Some 50%positive; tok_size := 1 |};
                                                   {| tok_value := Some 51%positive; tok_size := 1 |}] |}.
Proof.
  split; [plain_text|reflexivity|reflexivity|reflexivity|]. split; [|done]. split; simpl; try lia. intros i Hi N.
  destruct i as [|[|[|[|i]]]]; [|..|lia]; try reflexivity;
    exfalso; [apply (N 0)|apply (N 1)]; (lia || reflexivity).
Qed.

Lemma a_value_sent : sends a_heap a_value (PyDict 2).
Proof.
  exists 2%positive, [(PyStr (str "a"), PyList 1); (PyStr (str "b"), PyStr (str "hi"))], [(MP_OBJ_NULL, MP_OBJ_NULL)].
  split; [done|]. split; [done|]. split; [done|]. split; [done|].
  split; [by apply NoDup_cons; split; [set_solver|apply NoDup_singleton]|].
  split; [|split; [|done]]; (split; [split; [done|split; [plain_text|done]]|]);
    [|split; [done|split; [plain_text|done]]].
  exists 1%positive, [PySmallInt 5; PyNone]. split; [done|]. split; [done|]. split; [done|].
  split; [split; [done|unfold is_u32; lia]|split; done].
Qed.

Lemma python_token_crosses_witness : exists s' b data o' t' h',
  mpy_port_ccmp_write_token (PyPtr (CActor 12)) (PyStr (str "token")) (PyDict 2) (python_rt a_heap lib_world)
    = Ok (inl PyNone, s')
  /\ w_mem (rt_world s') !! b = Some data
  /\ mpy_port_ccmp_peek_token (PyPtr (CActor 12)) (PyStr (str "token"))
       (python_rt empty_heap (set_mem {[50%positive := take (length (mp_enc (wire a_value))) data ++ []]} lib_world))
     = Ok (inl o', t')
  /\ shows (V:=py_heap) h' 1 a_value o'.
Proof.
  destruct (python_token_crosses (P:=quiet_platform) (fun _ => eq_refl) a_value (PyDict 2)
    (python_rt a_heap lib_world) a_heap 12 23 (str "token") out_port (new_fifo 4) {| pending := []; unread := [] |})
    as (s' & f' & b & data & E & _ & _ & D & H).
  - reflexivity.
  - apply a_value_sent.
  - split; [done|]. split; [by apply NoDup_cons; split; [set_solver|apply NoDup_singleton]|].
    repeat split; try done; unfold is_u32; lia.
  - apply Nat.leb_le. vm_compute. reflexivity.
  - apply Nat.leb_le. vm_compute. reflexivity.
  - done.
  - split; [plain_text|reflexivity|reflexivity|reflexivity|by apply new_fifo_repr].
  - simpl. lia.
  - simpl. lia.
  - destruct (H (python_rt empty_heap
                   (set_mem {[50%positive := take (length (mp_enc (wire a_value))) data ++ []]} lib_world))
      empty_heap 12%positive 22%positive 50%positive (str "token") [] in_port loaded_fifo _ _ _
      eq_refl (in_port_named _ _) eq_refl eq_refl) as (t' & h' & o' & f2' & E' & _ & Sh & _).
    { simpl. by rewrite lookup_singleton_eq. }
    exists s', b, data, o', t', h'. exact (conj E (conj D (conj E' Sh))).
Defined.

(** -3 becomes 4294967293. *)
Lemma negative_ints_change_witness : exists data size s',
  cc_mpy_encode_from_mpy_obj (PySmallInt (-3)) 0 (python_rt empty_heap lib_world) = Ok (inl (Some (data, size)), s')
  /\ exists t', cc_mpy_decode_to_mpy_obj (Some (take (Z.to_nat size) data)) (python_rt empty_heap lib_world)
     = Ok (inl (Some (PySmallInt 4294967293)), t').
Proof.
  destruct (negative_ints_change (P:=quiet_platform) (fun _ => eq_refl) (-3) (python_rt empty_heap lib_world) empty_heap)
    as (data & size & s' & E & H); [reflexivity|lia|simpl; lia|].
  exists data, size, s'. split; [exact E|]. rewrite <- (app_nil_r (take _ _)).
  eexists. exact (H (python_rt empty_heap lib_world) empty_heap [] eq_refl).
Defined.

Lemma requested_module_is_found_witness : exists s1 s2,
  cc_actor_store_module (ST:=x86_storage) (str "std.Sum") 7 (str "code") 4 the_rt = Ok (tt, s1)
  /\ cc_actor_mpy_has_module (ST:=x86_storage) (str "std.Sum" ++ [NUL]) s1 = Ok (true, s2)
  /\ ps_files (rt_platform s1) !! str "mpys/actors/std/Sum.mpy" = Some (str "code").
Proof.
  destruct (requested_module_is_found (P:=quiet_platform) (fun _ => eq_refl) (SL:=x86_storage_laws (P:=quiet_platform) (fun _ => eq_refl))
    (str "std.Sum") [] (str "code") [] the_rt) as (s1 & E1 & [c E2] & _).
  - plain_text.
  - plain_text.
  - split; [plain_text|set_solver|]. intros j _. apply lookup_empty.
  - exists s1, (later c s1). split; [exact E1|]. split; [exact E2|].
    vm_compute in E1. injection E1 as <-. vm_compute. reflexivity.
Defined.
