(* ===== verification/JsonProps.v ===== *)
(** The walk over the tokens of a JSON text against the tree they stand for, the tokens
    as jsmn numbers them; and a reader of JSON texts that makes such tokens. *)
From S2P Require Import Prelude CString Common Json.

(** ** Trees *)

(** A value, with the places of its strings in the text; the keys of an object are
    strings. *)
Inductive json :=
  | JPrimitive (first last : Z)
  | JString (first last : Z)
  | JArray (first last : Z) (l : list json)
  | JObject (first last : Z) (l : list ((Z * Z) * json)).

Section json_ind.
Context (P : json -> Prop)
  (Hprim : forall a b, P (JPrimitive a b)) (Hstr : forall a b, P (JString a b))
  (Harr : forall a b l, Forall P l -> P (JArray a b l))
  (Hobj : forall a b l, Forall (fun kv => P kv.2) l -> P (JObject a b l)).

Fixpoint json_deep_ind (t : json) : P t :=
  match t with
  | JPrimitive a b => Hprim a b
  | JString a b => Hstr a b
  | JArray a b l =>
      Harr a b l ((fix go l := match l return Forall P l with
        | [] => Forall_nil_2 P
        | t :: l => Forall_cons_2 P t l (json_deep_ind t) (go l) end) l)
  | JObject a b l =>
      Hobj a b l ((fix go l := match l return Forall (fun kv => P kv.2) l with
        | [] => Forall_nil_2 _
        | kv :: l => Forall_cons_2 _ kv l (json_deep_ind kv.2) (go l) end) l)
  end.
End json_ind.

(** The tokens of a tree, as jsmn numbers them: a value before what is in it, a key
    before its value; the size of an array or an object is the number of its elements or
    keys, that of a key is 1, the value. *)
Definition token_of (type : jsmntype_t) (first last : Z) (n : nat) : jsmntok_t :=
  {| tok_type := type; tok_start := first; tok_end := last; tok_children := n |}.
Definition key_token (k : Z * Z) : jsmntok_t := token_of JSMN_STRING k.1 k.2 1.
Fixpoint flatten (t : json) : list jsmntok_t :=
  match t with
  | JPrimitive a b => [token_of JSMN_PRIMITIVE a b 0]
  | JString a b => [token_of JSMN_STRING a b 0]
  | JArray a b l => token_of JSMN_ARRAY a b (length l) :: concat (map flatten l)
  | JObject a b l =>
      token_of JSMN_OBJECT a b (length l) :: concat (map (fun kv => key_token kv.1 :: flatten kv.2) l)
  end.

(** What an object holds, token by token: the keys among the values. *)
Definition entries (l : list ((Z * Z) * json)) : list (list jsmntok_t) :=
  concat (map (fun kv => [[key_token kv.1]; flatten kv.2]) l).
Lemma flatten_entries l : concat (map (fun kv => key_token kv.1 :: flatten kv.2) l) = concat (entries l).
Proof. unfold entries. induction l as [|kv l IH]; [done|]. cbn. by rewrite IH. Qed.
Lemma length_entries l : length (entries l) = (2 * length l)%nat.
Proof. induction l as [|kv l IH]; [done|]. unfold entries in *. simpl in *. rewrite IH. lia. Qed.

(** ** The skip *)

(** The tokens from a position on. *)
Definition at_pos (tokens : list jsmntok_t) (p : nat) (l : list jsmntok_t) : Prop := exists rest, drop p tokens = l ++ rest.

Lemma at_pos_head tokens p t l : at_pos tokens p (t :: l) -> tokens !! p = Some t.
Proof. intros [r E]. rewrite <- (Nat.add_0_r p), <- lookup_drop, E. done. Qed.
Lemma at_pos_app tokens p l k : at_pos tokens p (l ++ k) -> at_pos tokens p l /\ at_pos tokens (p + length l) k.
Proof.
  intros [r E]. rewrite <- app_assoc in E. split; [by eexists|]. exists r.
  by rewrite <- drop_drop, E, drop_app_length.
Qed.

(** Tokens that are skipped as one. *)
Definition skipped (ts : list jsmntok_t) : Prop := forall fuel tokens p, (length ts <= fuel)%nat ->
  at_pos tokens p ts -> cc_json_skip fuel tokens p = Ok (length ts).

(** The loop over the values in a value. *)
Definition skip_children (fuel : nat) (tokens : list jsmntok_t) (token : nat) : nat -> nat -> outcome nat :=
  fix children (i : nat) (j : nat) : outcome nat :=
    match i with
    | O => Ok j
    | S i => k ← cc_json_skip fuel tokens (token + 1 + j); children i (j + k)%nat
    end.

Lemma skip_children_run fuel tokens p l j : Forall skipped l -> (length (concat l) <= fuel)%nat ->
  at_pos tokens (p + 1 + j) (concat l) ->
  skip_children fuel tokens p (length l) j = Ok (j + length (concat l))%nat.
Proof.
  intros Hl. revert j. induction Hl as [|t l Ht _ IH]; intros j Hf Hp; simpl; [by rewrite Nat.add_0_r|].
  simpl in Hf, Hp. rewrite length_app in *. apply at_pos_app in Hp as [Hp1 Hp2].
  rewrite (Ht fuel tokens _ ltac:(lia) Hp1). simpl. rewrite IH; [f_equal; lia|lia|].
  by rewrite Nat.add_assoc.
Qed.

(** A string, whatever its size, and a primitive take one token. *)
Lemma skips_one t : tok_type t = JSMN_STRING \/ tok_type t = JSMN_PRIMITIVE -> skipped [t].
Proof.
  intros Ht [|fuel] tokens p Hf Hp; [simpl in Hf; lia|]. cbn [cc_json_skip].
  rewrite (at_pos_head _ _ _ _ Hp). by destruct Ht as [-> | ->].
Qed.
Lemma skips_entries l : Forall (fun kv => skipped (flatten kv.2)) l -> Forall skipped (entries l).
Proof.
  induction 1 as [|kv l Hv _ IH]; [constructor|]. unfold entries in *. simpl.
  constructor; [apply skips_one; by left|]. by constructor.
Qed.

(** The values in a value are skipped as the value is entered. *)
Lemma skip_inside fuel tokens p t l : Forall skipped l -> (length (concat l) <= fuel)%nat ->
  at_pos tokens p (t :: concat l) -> skip_children fuel tokens p (length l) 0 = Ok (length (concat l)).
Proof.
  intros Hl Hf Hp. apply (at_pos_app _ _ [t]) in Hp as [_ Hp].
  rewrite skip_children_run; [done|done|done|]. by rewrite Nat.add_0_r.
Qed.

Lemma json_skipped t : skipped (flatten t).
Proof.
  induction t as [a b|a b|a b l IH|a b l IH] using json_deep_ind; try (apply skips_one; auto; fail);
    intros [|fuel] tokens p Hf Hp; try (simpl in Hf; lia);
    cbn [cc_json_skip]; rewrite (at_pos_head _ _ _ _ Hp); cbn [tok_type token_of tok_children];
    fold (skip_children fuel tokens p); cbn [flatten] in Hp, Hf |- *;
    rewrite ?flatten_entries in Hp, Hf |- *; cbn [length] in Hf |- *; apply le_S_n in Hf.
  - assert (Forall skipped (map flatten l)) as Hl by by apply Forall_map.
    pose proof (skip_inside fuel tokens p _ _ Hl Hf Hp) as E. rewrite length_map in E. by rewrite E.
  - rewrite <- length_entries. by rewrite (skip_inside fuel tokens p _ _ (skips_entries l IH) Hf Hp).
Qed.

(** ** The lookup *)

(** The characters of the text at a place. *)
Definition text_at (buffer : bytes) (k : Z * Z) : bytes := take (Z.to_nat (k.2 - k.1)) (drop (Z.to_nat k.1) buffer).
Definition in_text (buffer : bytes) (k : Z * Z) : Prop := 0 <= k.1 <= k.2 /\ k.2 <= Z.of_nat (length buffer).

Lemma key_matches buffer k key rest : in_text buffer k -> nul_free key ->
  bool_decide (tok_type (key_token k) = JSMN_STRING)
    && (Z.of_nat (length key) =? tok_end (key_token k) - tok_start (key_token k))
    && streq_n (drop (Z.to_nat (tok_start (key_token k))) buffer) (key ++ rest) (Z.to_nat (Z.of_nat (length key)))
  = bool_decide (text_at buffer k = key).
Proof.
  intros [Hk Hl] Hn. rewrite bool_decide_true by done. simpl. rewrite Nat2Z.id, streq_n_sym. unfold text_at.
  destruct (Z.eqb_spec (Z.of_nat (length key)) (k.2 - k.1)) as [E|E]; simpl.
  - rewrite <- E, Nat2Z.id. apply eq_true_iff_eq. rewrite bool_decide_eq_true.
    assert (streq_n (key ++ rest) (drop (Z.to_nat k.1) buffer) (length key)
            = streq_n key (drop (Z.to_nat k.1) buffer) (length key)) as ->.
    { apply eq_true_iff_eq. rewrite !streq_n_spec, cstr_app, (cstr_nul_free_all key), <- app_assoc by done.
      by rewrite !take_app_length. }
    rewrite streq_key_iff by done. split.
    + intros [u ->]. apply take_app_length.
    + intros <-. apply prefix_take.
  - symmetry. apply bool_decide_eq_false. intros <-. apply E. rewrite length_take, length_drop. lia.
Qed.

Lemma at_pos_length tokens p l : at_pos tokens p l -> (length l <= length tokens)%nat.
Proof. intros [r E]. apply (f_equal length) in E. rewrite length_drop, length_app in E. lia. Qed.

Lemma dict_value_run buffer tokens l j key rest : Forall (fun kv => in_text buffer kv.1) l -> nul_free key ->
  at_pos tokens j (concat (map (fun kv => key_token kv.1 :: flatten kv.2) l)) ->
  let r := dict_value (length l) buffer tokens j (key ++ rest) (Z.of_nat (length key)) in
  match List.find (fun kv => bool_decide (text_at buffer kv.1 = key)) l with
  | Some kv => exists i, r = Ok (Some i) /\ at_pos tokens i (flatten kv.2)
  | None => r = Ok None
  end.
Proof.
  intros Hl Hn. revert j. induction Hl as [|kv l Hkv _ IH]; intros j Hp; [done|]. cbn [map concat] in Hp.
  apply at_pos_app in Hp as [Hp Hrest]. pose proof (at_pos_head _ _ _ _ Hp) as Et.
  apply (at_pos_app _ _ [_]) in Hp as [_ Hv]. cbn [length] in Hv.
  cbn [length dict_value List.find]. rewrite Et, key_matches by done.
  case_bool_decide.
  - exists (S j). split; [done|]. by rewrite Nat.add_1_r in Hv.
  - rewrite Nat.add_1_r in Hv. rewrite (json_skipped kv.2 _ tokens (S j)).
    + simpl. apply IH. cbn [length] in Hrest. by rewrite Nat.add_succ_r in Hrest.
    + apply at_pos_length in Hv. lia.
    + done.
Qed.

(** C26: the lookup of a key in a JSON object agrees with the tree the tokens stand
    for: wherever the object is among the tokens, the answer is the position of the
    value of the first entry whose name is the key, nothing when no entry has it.
    The walk ends and never leaves the array, whatever the values in between are and
    however deep they go. *)
Theorem json_lookup_finds (buffer rest key : bytes) (tokens : list jsmntok_t) (object : nat) (a b : Z)
  (l : list ((Z * Z) * json)) :
  Forall (fun kv => in_text buffer kv.1) l -> nul_free key ->
  at_pos tokens object (flatten (JObject a b l)) ->
  let r := cc_json_get_dict_value buffer tokens object (key ++ rest) (Z.of_nat (length key)) in
  match List.find (fun kv => bool_decide (text_at buffer kv.1 = key)) l with
  | Some kv => exists i, r = Ok (Some i) /\ at_pos tokens i (flatten kv.2)
  | None => r = Ok None
  end.
Proof.
  intros Hl Hn Hp. unfold cc_json_get_dict_value. rewrite (at_pos_head _ _ _ _ Hp). cbn [flatten] in Hp.
  apply (at_pos_app _ _ [_]) in Hp as [_ Hp]. cbn [length] in Hp. rewrite Nat.add_1_r in Hp.
  by apply dict_value_run.
Qed.

(** *** A reader of JSON

    A small one that numbers its tokens the way jsmn does, for the examples: the tokens
    that are made, and the place of the token that the next value belongs to. *)

(** The text with every ' for a quotation mark. *)
Definition quoted (s : String.string) : bytes := map (fun b => if Byte.eqb b Byte.x27 then Byte.x22 else b) (str s).
Arguments quoted s%_string_scope.

Definition is_open (t : jsmntok_t) : bool := tok_end t =? -1.
(** The last token that is not closed. *)
Fixpoint last_open (n : nat) (tokens : list jsmntok_t) : option nat :=
  match n with
  | O => None
  | S n => match tokens !! n with Some t => if is_open t then Some n else last_open n tokens | None => None end
  end.
Definition adopt (super : option nat) (tokens : list jsmntok_t) : list jsmntok_t :=
  match super with
  | None => tokens
  | Some i => alter (fun t => token_of (tok_type t) (tok_start t) (tok_end t) (S (tok_children t))) i tokens
  end.
Definition close_at (i : nat) (last : Z) (tokens : list jsmntok_t) : list jsmntok_t :=
  alter (fun t => token_of (tok_type t) (tok_start t) last (tok_children t)) i tokens.

(** Characters up to the end of a string, or of a primitive. *)
Fixpoint string_length (text : bytes) : option nat :=
  match text with
  | [] => None
  | b :: text =>
      if Byte.eqb b Byte.x22 then Some 0%nat
      else if Byte.eqb b Byte.x5c then match text with [] => None | _ :: text => (fun n => S (S n)) <$> string_length text end
      else S <$> string_length text
  end.
Definition in_primitive (b : byte) : bool := negb (existsb (Byte.eqb b) (str " ,]}:")).
Fixpoint primitive_length (text : bytes) : nat :=
  match text with b :: text => if in_primitive b then S (primitive_length text) else 0%nat | [] => 0%nat end.

Definition container (tokens : list jsmntok_t) (super : option nat) : bool :=
  match super ≫= (tokens !!.) with
  | Some t => bool_decide (tok_type t = JSMN_OBJECT) || bool_decide (tok_type t = JSMN_ARRAY)
  | None => true
  end.

Fixpoint read_json (fuel : nat) (text : bytes) (pos : nat) (tokens : list jsmntok_t) (super : option nat)
  : option (list jsmntok_t) :=
  match fuel, text with
  | _, [] => if existsb is_open tokens then None else Some tokens
  | O, _ => None
  | S fuel, b :: rest =>
      let at_ := Z.of_nat pos in
      let new t := adopt super tokens ++ [t] in
      if Byte.eqb b Byte.x7b then read_json fuel rest (S pos) (new (token_of JSMN_OBJECT at_ (-1) 0)) (Some (length tokens))
      else if Byte.eqb b Byte.x5b then read_json fuel rest (S pos) (new (token_of JSMN_ARRAY at_ (-1) 0)) (Some (length tokens))
      else if Byte.eqb b Byte.x7d || Byte.eqb b Byte.x5d then
        i ← last_open (length tokens) tokens;
        let closed := close_at i (at_ + 1) tokens in
        read_json fuel rest (S pos) closed (last_open (length closed) closed)
      else if Byte.eqb b Byte.x22 then
        n ← string_length rest;
        read_json fuel (drop (S n) rest) (pos + n + 2) (new (token_of JSMN_STRING (at_ + 1) (at_ + 1 + Z.of_nat n) 0)) super
      else if Byte.eqb b Byte.x3a then read_json fuel rest (S pos) tokens (Some (length tokens - 1)%nat)
      else if Byte.eqb b Byte.x2c then
        read_json fuel rest (S pos) tokens (if container tokens super then super else last_open (length tokens) tokens)
      else if Byte.eqb b Byte.x20 then read_json fuel rest (S pos) tokens super
      else
        let n := primitive_length rest in
        read_json fuel (drop n rest) (pos + n + 1) (new (token_of JSMN_PRIMITIVE at_ (at_ + 1 + Z.of_nat n) 0)) super
  end.

Definition reading_jsmn : Jsmn := {|
  jsmn_parse text n :=
    tokens ← read_json (length text) text 0 [] None;
    if (length tokens <=? n)%nat then Some tokens else None
|}.

(** The item b of a text is found behind an array. *)
Definition a_text : bytes := quoted "{'a': [1, {'b': 2}], 'b': 3}".
Definition a_tree : list ((Z * Z) * json) :=
  [((2, 3), JArray 6 19 [JPrimitive 7 8; JObject 10 18 [((12, 13), JPrimitive 16 17)]]); ((22, 23), JPrimitive 26 27)].
Example a_text_is_read : jsmn_parse (Jsmn:=reading_jsmn) a_text 10 = Some (flatten (JObject 0 28 a_tree)).
Proof. vm_compute. reflexivity. Qed.

Lemma json_lookup_finds_witness : exists tokens i,
  jsmn_parse (Jsmn:=reading_jsmn) a_text 10 = Some tokens
  /\ cc_json_get_dict_value a_text tokens 0 (str "b" ++ [NUL]) 1 = Ok (Some i)
  /\ at_pos tokens i [token_of JSMN_PRIMITIVE 26 27 0].
Proof.
  destruct (json_lookup_finds a_text [NUL] (str "b") (flatten (JObject 0 28 a_tree)) 0 0 28 a_tree) as (i & E & Hi).
  - repeat constructor; simpl; lia.
  - apply (bool_decide_unpack _). vm_compute. exact I.
  - exists []. reflexivity.
  - exists (flatten (JObject 0 28 a_tree)), i. split; [apply a_text_is_read|]. split; [exact E|exact Hi].
Defined.
