(* ===== verification/CommonProps.v ===== *)
(** Properties of the uuids and of the lists keyed by a string. *)
From S2P Require Import Prelude CString Common.

(** ** Uuids *)

Lemma uuid_scan_iff id1 id2 n :
  uuid_scan id1 id2 n = true
  <-> exists i, (i <= n)%nat /\ char_val (nth i id2 NUL) < char_val (nth i id1 NUL).
Proof.
  induction n as [|n IH]; simpl.
  - destruct (Z.ltb_spec (char_val (nth 0 id2 NUL)) (char_val (nth 0 id1 NUL))).
    + split; [by exists 0%nat|done].
    + split; [done|]. intros (i & Hi & Hc). replace i with 0%nat in Hc by lia. lia.
  - destruct (Z.ltb_spec (char_val (nth (S n) id2 NUL)) (char_val (nth (S n) id1 NUL))).
    + split; [intros _; by exists (S n)|done].
    + rewrite IH. split; intros (i & Hi & Hc).
      * exists i. split; [lia|done].
      * destruct (decide (i = S n)) as [->|]; [lia|]. exists i. split; [lia|done].
Qed.

(** What [cc_uuid_is_higher] answers for two identifiers of the same length:
    whether SOME character of the first is above the character of the second at
    its place.  It is no order: two identifiers that differ in opposite
    directions at two places are each higher than the other, so that two runtimes
    which compare the two identifiers of a tunnel both keep the other's. *)
Theorem uuid_is_higher_spec (id1 id2 : bytes) (n : nat) :
  (cc_uuid_is_higher id1 n id2 n = true
   <-> exists i, (i <= n)%nat /\ char_val (nth i id2 NUL) < char_val (nth i id1 NUL))
  /\ forall i j, (i <= n)%nat -> (j <= n)%nat ->
     char_val (nth i id2 NUL) < char_val (nth i id1 NUL) ->
     char_val (nth j id1 NUL) < char_val (nth j id2 NUL) ->
     cc_uuid_is_higher id1 n id2 n = true /\ cc_uuid_is_higher id2 n id1 n = true.
Proof.
  assert (forall a b, cc_uuid_is_higher a n b n = uuid_scan a b n) as E.
  { intros a b. unfold cc_uuid_is_higher. by rewrite !Nat.ltb_irrefl. }
  rewrite !E. split; [apply uuid_scan_iff|]. intros i j Hi Hj H1 H2.
  split; apply uuid_scan_iff; eauto.
Qed.

Lemma uuid_is_higher_spec_witness :
  cc_uuid_is_higher (str "21") 2 (str "12") 2 = true
  /\ cc_uuid_is_higher (str "12") 2 (str "21") 2 = true.
Proof.
  apply (proj2 (uuid_is_higher_spec (str "21") (str "12") 2) 0 1)%nat; [lia|lia| |];
    vm_compute; reflexivity.
Defined.

Lemma hex_digit_mem r : hex_digit r ∈ hex_digits.
Proof.
  unfold hex_digit. apply list_elem_of_In, nth_In.
  pose proof (Z.mod_pos_bound r 16). change (length hex_digits) with 16%nat. lia.
Qed.

Lemma uuid_chars_length rnd : length (uuid_chars rnd) = 36%nat.
Proof. unfold uuid_chars. by rewrite !length_insert, length_map, length_seq. Qed.

Lemma uuid_chars_lookup rnd i : (i < 36)%nat ->
  uuid_chars rnd !! i
  = Some (if bool_decide (i ∈ [8; 13; 18; 23]%nat) then dash else hex_digit (rnd i)).
Proof.
  intros Hi. unfold uuid_chars.
  set (raw := map (fun k => hex_digit (rnd k)) (seq 0 36)).
  assert (length raw = 36%nat) as L by (unfold raw; by rewrite length_map, length_seq).
  assert (raw !! i = Some (hex_digit (rnd i))) as R.
  { unfold raw. change (map ?f ?l) with (f <$> l). rewrite list_lookup_fmap.
    by rewrite lookup_seq_lt by done. }
  rewrite !list_lookup_insert, !length_insert, R, L.
  case_bool_decide as E.
  - repeat (apply elem_of_cons in E as [->|E]; [done|]). by apply elem_of_nil in E.
  - rewrite !not_elem_of_cons in E. destruct E as (? & ? & ? & ? & _).
    by rewrite !decide_False by lia.
Qed.

Lemma uuid_chars_nul_free rnd : nul_free (uuid_chars rnd).
Proof.
  unfold nul_free. intros (i & Hi)%list_elem_of_lookup.
  pose proof (lookup_lt_Some _ _ _ Hi) as L. rewrite uuid_chars_length in L.
  rewrite uuid_chars_lookup in Hi by done. case_bool_decide; [done|]. injection Hi as Hi.
  pose proof (hex_digit_mem (rnd i)) as Hp. rewrite Hi in Hp. revert Hp. apply (bool_decide_unpack _). vm_compute. exact I.
Qed.

(** The format of a generated identifier.  Whatever [rand] answers, after the
    prefix come 36 characters, dashes at the places 8, 13, 18 and 23 and
    hexadecimal digits elsewhere, then the terminator; without a prefix, or with
    one that is at most 13 characters long, the identifier fits the 50-byte
    buffers of the runtime. *)
Theorem gen_uuid_format (prefix : option bytes) (rnd : nat -> Z) :
  let id := cc_gen_uuid prefix rnd in
  exists body, id = cstr (default [] prefix) ++ body ++ [NUL]
    /\ length body = 36%nat /\ nul_free body
    /\ (forall i, (i < 36)%nat ->
        exists c, body !! i = Some c
          /\ (if bool_decide (i ∈ [8; 13; 18; 23]%nat) then c = dash else c ∈ hex_digits))
    /\ ((length (default [] prefix) <= 13)%nat -> (length id <= CC_UUID_BUFFER_SIZE)%nat).
Proof.
  simpl. exists (uuid_chars rnd). split; [done|]. split; [apply uuid_chars_length|].
  assert (forall i, (i < 36)%nat -> exists c, uuid_chars rnd !! i = Some c
    /\ (if bool_decide (i ∈ [8; 13; 18; 23]%nat) then c = dash else c ∈ hex_digits)) as H.
  { intros i Hi. eexists. split; [by apply uuid_chars_lookup|].
    case_bool_decide; [done|apply hex_digit_mem]. }
  split; [|split; [exact H|]].
  - apply uuid_chars_nul_free.
  - intros Hl. unfold cc_gen_uuid. rewrite !length_app, uuid_chars_length. simpl.
    unfold cstr. rewrite length_take. unfold CC_UUID_BUFFER_SIZE. lia.
Qed.

(** ** Lists keyed by a string *)

Abbreviation find_key k l := (List.find (fun i => bool_decide (li_id i = k)) l).

Lemma find_app {A} (p : A -> bool) l1 l2 :
  List.find p (l1 ++ l2) = match List.find p l1 with Some x => Some x | None => List.find p l2 end.
Proof. induction l1 as [|x l1 IH]; simpl; [done|]. by destruct (p x). Qed.

Lemma find_key_None {A} k (l : list (cc_list_t A)) :
  find_key k l = None <-> Forall (fun i => li_id i <> k) l.
Proof.
  induction l as [|i l IH]; simpl; [by split|]. rewrite Forall_cons.
  rewrite <- IH. case_bool_decide as E; [split; [done|]|]; intuition done.
Qed.

(** A list as a table.  When the keys are uuids (no NUL, shorter than the
    buffer), an item added under a key that points into a longer text is found by
    [cc_list_get] and by [cc_list_get_n] with the length of the key, does not hide
    the items that were there and no other key finds it. *)
Theorem list_add_get {A} (l : list (cc_list_t A)) (k rest : bytes) (data : A) (len : Z) (k' rest' : bytes) :
  keys_ok li_id li_id_len l -> key_ok k -> key_ok k' ->
  let item := list_item_n (k ++ rest) (length k) data len in
  let l' := cc__list_add l item in
  keys_ok li_id li_id_len l'
  /\ list_get l' k' = list_get_n l' (k' ++ rest') (length k')
  /\ list_get l' k' = match list_get l k' with
                      | Some i => Some i
                      | None => if bool_decide (k = k') then Some item else None
                      end.
Proof.
  intros Hl Hk Hk' item l'.
  assert (li_id item = k) as Hid by (apply list_item_n_id; by destruct Hk).
  assert (keys_ok li_id li_id_len l') as Hl'.
  { apply Forall_app. split; [done|]. apply Forall_singleton. split; [by rewrite Hid|done]. }
  split; [done|].
  rewrite (cc_list_get_n_find li_id li_id_len) by done.
  rewrite !(cc_list_get_find li_id li_id_len) by done. split; [done|].
  unfold l', cc__list_add. rewrite find_app. cbn [List.find]. rewrite Hid.
  destruct (find_key k' l); [done|]. by case_bool_decide.
Qed.

Definition two_keys : list (cc_list_t nat) :=
  [list_item_n (str "aa") 2 1%nat 8; list_item_n (str "bb") 2 2%nat 8].

Lemma list_add_get_witness :
  list_get (cc__list_add two_keys (list_item_n (str "ccdd") 2 3%nat 8)) (str "cc")
  = Some (list_item_n (str "ccdd") 2 3%nat 8).
Proof.
  assert (keys_ok li_id li_id_len two_keys) as H.
  { unfold two_keys, keys_ok. apply (bool_decide_unpack _). vm_compute. exact I. }
  pose proof (list_add_get two_keys (str "cc") (str "dd") 3%nat 8 (str "cc") [] H) as (_ & _ & E).
  - apply (bool_decide_unpack _). vm_compute. exact I.
  - apply (bool_decide_unpack _). vm_compute. exact I.
  - etransitivity; [exact E|]. vm_compute. reflexivity.
Defined.

(** What [cc_list_remove] removes.  It takes out the first item whose own string
    is a prefix of the given identifier: exactly the item with that key when the
    keys all have its length (uuids), but another item when an earlier key is a
    proper prefix of it, and then the item asked for stays. *)
Theorem list_remove_spec {A} (l1 l2 : list (cc_list_t A)) (i : cc_list_t A) (k : bytes) :
  Forall (fun j => nul_free (li_id j)) (l1 ++ i :: l2) ->
  li_id i `prefix_of` k -> Forall (fun j => ~ li_id j `prefix_of` k) l1 ->
  list_remove (l1 ++ i :: l2) k = l1 ++ l2
  /\ (Forall (fun j => length (li_id j) = length k) (l1 ++ i :: l2) ->
      li_id i = k /\ find_key k l1 = None)
  /\ (li_id i <> k -> forall j, find_key k l2 = Some j ->
      find_key k (list_remove (l1 ++ i :: l2) k) = Some j).
Proof.
  intros Hn Hi Hl1. assert (list_remove (l1 ++ i :: l2) k = l1 ++ l2) as E.
  { clear -Hn Hi Hl1. induction l1 as [|j l1 IH]; simpl in *.
    - apply Forall_cons in Hn as [Hn _]. rewrite strlen_nul_free_all by done.
      by rewrite (proj2 (streq_key_iff (li_id i) k _ Hn eq_refl)).
    - apply Forall_cons in Hn as [Hj Hn]. apply Forall_cons in Hl1 as [Nj Hl1].
      rewrite strlen_nul_free_all by done.
      destruct (streq_n (li_id j) k (length (li_id j))) eqn:T.
      + by apply streq_key_iff in T.
      + by rewrite IH. }
  assert (Forall (fun j => li_id j <> k) l1) as Hl1'.
  { eapply Forall_impl; [exact Hl1|]. intros j Nj Ek. apply Nj. by rewrite Ek. }
  split; [exact E|]. split.
  - intros [_ [L _]%Forall_cons]%Forall_app.
    split; [by apply prefix_same_length|by apply find_key_None].
  - intros Ni j Hj. rewrite E, find_app. by rewrite (proj2 (find_key_None k l1) Hl1').
Qed.

Lemma list_remove_spec_witness :
  list_remove [list_item_n (str "a") 1 1%nat 8; list_item_n (str "ab") 2 2%nat 8] (str "ab")
  = [list_item_n (str "ab") 2 2%nat 8].
Proof.
  apply (list_remove_spec [] [list_item_n (str "ab") 2 2%nat 8] (list_item_n (str "a") 1 1%nat 8)
           (str "ab")).
  - apply (bool_decide_unpack _). vm_compute. exact I.
  - vm_compute. by exists [Byte.x62].
  - constructor.
Defined.
