(* ===== verification/EspProps.v ===== *)
(** The ESP8266 board (cc_platform_esp8266.c): what a client sends to configure it, its
    node comes up with; and the start of a board that has been configured. *)
From S2P Require Import Prelude CString CText Common Json MsgPuck MsgPackRef Coder Fifo Machine Transport ProtoSend.
From S2P Require Import Proto Runtime ActorStore Calvinsys Timer Actor AppManager Node NodeRun Dispatch Socket.
From S2P Require Import X86Platform Api Esp8266 ActorLib Sensors Library CoderSpec MsgSpec Runs Examples.
From S2P Require Import SocketProps StorageProps JsonProps CommonProps.

(** ** The flash keeps the contract of a storage *)

Section flash.
Context {V : Type} `{C : !Code V} `{P : Platform} `{MP : MsgPuck} `{J : Jsmn}.
Context `{DK : Disk} `{GD : !GoodDisk DK}.
Hypothesis Hmem : forall n, plat_alloc n = true.
Implicit Types (s : rt V) (p : platform_state V).

Definition on_flash p (path content : bytes) : Prop := ps_files p !! path = Some content.

(** The flash with one more file. *)
Definition with_file (path content : bytes) (c : nat) s : rt V :=
  set_platform (set_ps_files (<[path := content]> (ps_files (rt_platform s))) (rt_platform s)) (later c s).

Lemma esp_written s path content : exists c,
  esp_file_write path content s = Ok (CC_SUCCESS, with_file path content c s).
Proof using GD.
  eexists. unfold esp_file_write. run_with (run_os_tick s). rewrite disk_ok_true.
  run_with (run_os_tick (later (S (w_calls (rt_world s))) s)).
  rewrite disk_count_all, firstn_all, Nat.eqb_refl. reflexivity.
Qed.

Lemma esp_there s path content : on_flash (rt_platform s) path content ->
  exists c, esp_file_stat path s = Ok (CC_STAT_FILE, later c s).
Proof using GD.
  intros H. eexists. unfold esp_file_stat. run_with (run_os_tick s). rewrite (bind_Ok get_platform _ _ _ _ eq_refl).
  cbn [rt_platform later set_world]. rewrite H, disk_ok_true. reflexivity.
Qed.

Lemma esp_found s path content : on_flash (rt_platform s) path content ->
  exists c, esp_file_read path s = Ok (Some content, later c s).
Proof using Hmem GD.
  intros H. eexists. unfold esp_file_read. run_with (run_os_tick s). rewrite (bind_Ok get_platform _ _ _ _ eq_refl).
  cbn [rt_platform later set_world]. rewrite H, disk_ok_true. rrun1. run_with (run_os_tick (later (S (S (w_calls (rt_world s)))) s)).
  rewrite disk_count_all, Nat.leb_refl. reflexivity.
Qed.

Definition esp_storage_laws : StorageLaws (ST:=esp_storage) V.
Proof using Hmem GD.
  refine {| writable := fun _ _ => True; stored := on_flash : platform_state V -> bytes -> bytes -> Prop |}.
  - intros s path content _. destruct (esp_written s path content) as (c & E). eexists _, c. split; [exact E|].
    apply lookup_insert_eq.
  - exact esp_there.
  - exact esp_found.
Defined.
End flash.

(** ** The request is understood *)

(** Where a value is in the text. *)
Definition span (t : json) : Z * Z :=
  match t with JPrimitive a b | JString a b | JArray a b _ | JObject a b _ => (a, b) end.

(** The first entry of an object with a name has the text [v]. *)
Definition entry_is (text : bytes) (l : list ((Z * Z) * json)) (key v : bytes) : Prop :=
  exists kv, List.find (fun kv => bool_decide (text_at text kv.1 = key)) l = Some kv
    /\ in_text text (span kv.2) /\ text_at text (span kv.2) = v.

Lemma text_at_app text rest k : in_text text k -> text_at (text ++ rest) k = text_at text k.
Proof.
  intros [H1 H2]. unfold text_at. rewrite drop_app_le by lia. rewrite take_app_le; [done|]. rewrite length_drop. lia.
Qed.
Lemma in_text_app text rest k : in_text text k -> in_text (text ++ rest) k.
Proof. intros [H1 H2]. split; [done|]. rewrite length_app. lia. Qed.

Lemma text_at_length text k : in_text text k -> length (text_at text k) = Z.to_nat (k.2 - k.1).
Proof. intros [H1 H2]. unfold text_at. rewrite length_take, length_drop. lia. Qed.

Lemma text_at_nul_free text k : nul_free text -> nul_free (text_at text k).
Proof.
  intros H Hin. apply H. unfold text_at in Hin. rewrite <- (take_drop (Z.to_nat k.1) text), elem_of_app. right.
  rewrite <- (take_drop (Z.to_nat (k.2 - k.1)) (drop _ text)), elem_of_app. by left.
Qed.

Lemma tok_text_at text rest t : in_text text (tok_start t, tok_end t) ->
  exists u, tok_text (text ++ rest) t
    = (text_at text (tok_start t, tok_end t) ++ u, length (text_at text (tok_start t, tok_end t))).
Proof.
  intros H. unfold tok_text. rewrite text_at_length by done. cbn [fst snd].
  exists (drop (Z.to_nat (tok_end t - tok_start t)) (drop (Z.to_nat (tok_start t)) (text ++ rest))).
  f_equal. rewrite <- (text_at_app text rest) by done. unfold text_at. cbn [fst snd]. by rewrite take_drop.
Qed.

Lemma json_field_run text rest tokens a b l key v : Forall (fun kv => in_text text kv.1) l -> nul_free key ->
  at_pos tokens 0 (flatten (JObject a b l)) -> entry_is text l key v ->
  exists u, json_field (text ++ rest) tokens key = Ok (Some (v ++ u, length v)).
Proof.
  intros Hl Hk Hp (kv & Hf & Hs & <-). unfold json_field, cc_json_get_dict_value.
  rewrite (at_pos_head _ _ _ _ Hp). rewrite bool_decide_true by done. cbn [negb tok_children token_of].
  cbn [flatten] in Hp. apply (at_pos_app _ _ [_]) in Hp as [_ Hp]. cbn [length] in Hp. rewrite Nat.add_1_r in Hp.
  assert (Forall (fun kv => in_text (text ++ rest) kv.1) l) as Hl'.
  { eapply Forall_impl; [exact Hl|]. intros x. apply in_text_app. }
  pose proof (dict_value_run (text ++ rest) tokens l 1 key [] Hl' Hk Hp) as H. cbn zeta in H. rewrite app_nil_r in H.
  assert (List.find (fun kv => bool_decide (text_at (text ++ rest) kv.1 = key)) l = Some kv) as Hf'.
  { rewrite <- Hf. clear -Hl. induction Hl as [|x l Hx _ IH]; [done|]. cbn [List.find].
    by rewrite (text_at_app _ _ _ Hx), IH. }
  rewrite Hf' in H. destruct H as (i & -> & Hi). cbn [mbind outcome_bind].
  assert (exists t tl, flatten kv.2 = t :: tl /\ (tok_start t, tok_end t) = span kv.2) as (t & tl & Et & Es)
    by (destruct kv as [k []]; by eexists _, _).
  rewrite Et in Hi. rewrite (at_pos_head _ _ _ _ Hi). rewrite <- Es in Hs |- *.
  destruct (tok_text_at text rest t Hs) as (u & ->). by exists u.
Qed.

(** What a client sends: text before the first brace, then the text of an object with
    the four fields, of which the uris are the text of an array of strings. *)
Record request `{J : Jsmn} (data attrs : bytes) (uris : list bytes) (ssid password : bytes) : Prop := {
  rq_json : exists pre text tokens a b l,
    data = pre ++ text /\ (Byte.x7b ∉ pre) /\ hd NUL text = Byte.x7b
    /\ jsmn_parse text 40 = Some tokens /\ at_pos tokens 0 (flatten (JObject a b l))
    /\ Forall (fun kv => in_text text kv.1) l
    /\ entry_is text l (str "attributes") attrs /\ entry_is text l (str "ssid") ssid
    /\ entry_is text l (str "password") password
    /\ exists array utokens ua ub places,
         entry_is text l (str "uris") array
         /\ jsmn_parse array 10 = Some utokens
         /\ at_pos utokens 0 (flatten (JArray ua ub (map (fun k => JString k.1 k.2) places)))
         /\ Forall (in_text array) places /\ map (text_at array) places = uris;
  rq_text : nul_free data /\ (length data < CC_ESP_BUFFER_SIZE)%nat
}.

Section configure.
Context {V : Type} `{C : !Code V} `{P : Platform} `{MP : MsgPuck} `{L : !MsgPuckLaws MP} `{J : Jsmn}.
Context `{DK : Disk} `{GD : !GoodDisk DK}.
Implicit Types (s : rt V).

Lemma run_encode_uris text rest (places : list (Z * Z)) tokens : Forall (in_text text) places ->
  forall i w, at_pos tokens i (map (fun k => token_of JSMN_STRING k.1 k.2 0) places) ->
  encode_uri_tokens (length places) i (text ++ rest) tokens w
  = Ok (w ++ concat (map mp_enc (map VStr (map (text_at text) places)))).
Proof using L.
  induction 1 as [|k places Hk _ IH]; intros i w Hp; [by rewrite app_nil_r|].
  cbn [map length encode_uri_tokens] in Hp |- *. rewrite (at_pos_head _ _ _ _ Hp).
  destruct (tok_text_at text rest (token_of JSMN_STRING k.1 k.2 0)) as (u & ->); [by destruct k|].
  cbn [tok_start tok_end token_of]. rewrite <- (surjective_pairing k).
  apply (at_pos_app _ _ [_]) in Hp as [_ Hp]. cbn [length] in Hp. rewrite Nat.add_1_r in Hp.
  rewrite IH by done. cbn [concat]. unfold cc_coder_encode_str.
  rewrite enc_str_take by (rewrite length_app; lia). by rewrite take_app_length, <- app_assoc.
Qed.

Lemma run_request_json pre text tokens : nul_free (pre ++ text) -> (length (pre ++ text) < CC_ESP_BUFFER_SIZE)%nat ->
  Byte.x7b ∉ pre -> hd NUL text = Byte.x7b -> jsmn_parse text 40 = Some tokens ->
  exists t, request_json (pre ++ text) = Ok (Some (text ++ NUL :: t, tokens)).
Proof.
  intros Hn Hl Hpre Hhd Hj. unfold request_json. rewrite take_ge by lia.
  set (z := drop (length (pre ++ text)) (zeroed CC_ESP_BUFFER_SIZE)).
  assert (exists t, z = NUL :: t) as [t ->].
  { unfold z, zeroed. rewrite drop_replicate. destruct (CC_ESP_BUFFER_SIZE - _)%nat eqn:E; [lia|]. by eexists. }
  destruct text as [|c text]; simpl in Hhd; [discriminate Hhd|]. subst c. exists t.
  unfold strstr_array, strstr. rewrite cstr_nul_free by done.
  pose proof (find_text_at Byte.x7b [] pre text Hpre) as E. cbn [app] in E.
  change (str "{") with [Byte.x7b]. rewrite E. cbn [mbind outcome_bind]. rewrite <- app_assoc, drop_app_length.
  rewrite bool_decide_true by (rewrite elem_of_app; right; by left).
  assert (nul_free (Byte.x7b :: text)) as Ht by (intros Hin; apply Hn, elem_of_app; by right).
  rewrite strlen_nul_free, take_app_length by done. by rewrite Hj.
Qed.

Lemma run_in_buffer s n b : (length b <= n)%nat -> on_world (in_buffer n b) s = Ok (tt, s).
Proof.
  intros H. erewrite run_on_world; [by rewrite set_world_id|]. unfold in_buffer. by rewrite (proj2 (Nat.leb_le _ _)).
Qed.

(** The identifier that is made. *)
Definition made_id s : bytes := uuid_chars (fun i => plat_rand (w_calls (rt_world s) + i)).
Lemma made_id_ok s : key_ok (made_id s) /\ length (made_id s) = 36%nat.
Proof.
  pose proof (uuid_chars_length (fun i => plat_rand (w_calls (rt_world s) + i))) as Hl.
  split; [|done]. split; [apply uuid_chars_nul_free|]. unfold made_id. rewrite Hl. unfold CC_UUID_BUFFER_SIZE. lia.
Qed.

Lemma run_write_config s attrs u1 array u2 utokens ua ub places : 
  let value := config_value (made_id s) (Some attrs) (map (text_at array) places) in
  jsmn_parse array 10 = Some utokens ->
  at_pos utokens 0 (flatten (JArray ua ub (map (fun k => JString k.1 k.2) places))) ->
  Forall (in_text array) places -> (length (mp_enc (smap value)) <= CC_ESP_BUFFER_SIZE)%nat ->
  exists c, cc_platform_esp_write_calvin_config (attrs ++ u1) (length attrs) (array ++ u2) (length array) s
    = Ok (CC_SUCCESS, with_file CC_STATE_FILE (mp_enc (smap value)) c s).
Proof using L GD.
  intros value Hj Hp Hin Hl. unfold cc_platform_esp_write_calvin_config.
  set (s1 := later (36 + w_calls (rt_world s)) s).
  rewrite (bind_Ok _ _ s (made_id s ++ [NUL]) s1) by (apply run_on_world; reflexivity).
  destruct (made_id_ok s) as [[Hnf Hlen] _].
  rewrite (strnlen_text (made_id s) []) by (done || lia).
  rewrite !kv_str_entry by (keys || (rewrite length_app; lia)). rewrite !take_app_length.
  set (w := (cc_coder_encode_map [] 3 ++ _) ++ _).
  assert (w ++ mp_enc_kvs [(VStr (str "proxy_uris"), VArr (map VStr (map (text_at array) places)))] = mp_enc (smap value)) as Ew.
  { unfold value, w. rewrite <- !app_assoc, <- !mp_enc_kvs_app. exact (map_open [] (skvs value)). }
  rewrite (bind_Ok _ _ _ _ _ (run_in_buffer s1 CC_ESP_BUFFER_SIZE w ltac:(rewrite <- Ew, length_app in Hl; lia))).
  rewrite Hj. cbn [flatten] in Hp. rewrite map_map, length_map in Hp.
  assert (concat (map (fun x => flatten (JString x.1 x.2)) places) = map (fun k => token_of JSMN_STRING k.1 k.2 0) places) as Ec.
  { clear. induction places as [|k l IH]; [done|]. simpl. f_equal. exact IH. }
  rewrite Ec in Hp. pose proof (at_pos_head _ _ _ _ Hp) as Et. destruct utokens as [|t0 utokens]; [done|].
  cbn in Et. injection Et as ->. cbn iota. cbn [tok_type tok_children token_of]. rewrite bool_decide_true by done.
  apply (at_pos_app _ _ [_]) in Hp as [_ Hp].
  rewrite (run_encode_uris array u2 places _ Hin 1) by exact Hp. rewrite (bind_Ok (lift_outcome (Ok _)) _ s1 _ s1 eq_refl).
  assert (cc_coder_encode_kv_array w (str "proxy_uris") (Z.of_nat (length places)) ++ concat (map mp_enc (map VStr (map (text_at array) places)))
    = mp_enc (smap value)) as ->.
  { rewrite <- Ew. replace (length places) with (length (map VStr (map (text_at array) places))) by by rewrite !length_map.
    by rewrite kv_array_open by keys. }
  rewrite (bind_Ok _ _ _ _ _ (run_in_buffer s1 _ _ Hl)).
  destruct (esp_written s1 CC_STATE_FILE (mp_enc (smap value))) as (c & E). exists c. exact E.
Qed.

(** The two fields of the file of the network. *)
Definition wifi_value (ssid password : bytes) : list (bytes * mpval) :=
  [(str "ssid", VStr ssid); (str "password", VStr password)].

Lemma run_write_wifi s ssid u1 password u2 :
  (length (mp_enc (smap (wifi_value ssid password))) <= CC_ESP_BUFFER_SIZE)%nat ->
  exists c, cc_platform_esp_write_wifi_config (ssid ++ u1) (length ssid) (password ++ u2) (length password) s
    = Ok (CC_SUCCESS, with_file CC_WIFI_CONFIG_FILE (mp_enc (smap (wifi_value ssid password))) c s).
Proof using L GD.
  intros Hl. unfold cc_platform_esp_write_wifi_config, wifi_config.
  rewrite !kv_str_entry by (keys || (rewrite length_app; lia)). rewrite !take_app_length.
  assert ((cc_coder_encode_map [] 2 ++ mp_enc_kvs [(VStr (str "ssid"), VStr ssid)]) ++ mp_enc_kvs [(VStr (str "password"), VStr password)]
    = mp_enc (smap (wifi_value ssid password))) as ->.
  { rewrite <- !app_assoc, <- !mp_enc_kvs_app. exact (map_open [] (skvs (wifi_value ssid password))). }
  rewrite (bind_Ok _ _ _ _ _ (run_in_buffer s _ _ Hl)). apply esp_written.
Qed.

(** What fits the buffers. *)
Record fits (attrs : bytes) (uris : list bytes) (ssid password : bytes) : Prop := {
  ft_config id : length id = 36%nat ->
    (length (mp_enc (smap (config_value id (Some attrs) uris))) <= CC_ESP_BUFFER_SIZE)%nat;
  ft_wifi : (length (mp_enc (smap (wifi_value ssid password))) <= CC_ESP_BUFFER_SIZE)%nat
}.

Lemma run_configure s data attrs uris ssid password :
  request data attrs uris ssid password -> fits attrs uris ssid password ->
  exists c1 c2, configure_from data s = Ok (Some true,
    with_file CC_WIFI_CONFIG_FILE (mp_enc (smap (wifi_value ssid password))) c2
      (with_file CC_STATE_FILE (mp_enc (smap (config_value (made_id s) (Some attrs) uris))) c1 s)).
Proof using L GD.
  intros [(pre & text & tokens & a & b & l & -> & Hpre & Hhd & Hj & Hp & Hl & Ha & Hs & Hw & array & utokens & ua & ub & places
    & Hu & Huj & Hup & Hui & <-) [Hn Hlen]] [Hf1 Hf2].
  unfold configure_from. destruct (run_request_json pre text tokens Hn Hlen Hpre Hhd Hj) as (z & ->).
  rewrite (bind_Ok (lift_outcome (Ok _)) _ s _ s eq_refl). cbv iota beta.
  destruct (json_field_run text (NUL :: z) tokens a b l (str "attributes") attrs) as (u1 & ->); [done|keys|done..|].
  rewrite (bind_Ok (lift_outcome (Ok _)) _ s _ s eq_refl). cbv iota beta.
  destruct (json_field_run text (NUL :: z) tokens a b l (str "uris") array) as (u2 & ->); [done|keys|done..|].
  rewrite (bind_Ok (lift_outcome (Ok _)) _ s _ s eq_refl). cbv iota beta.
  destruct (json_field_run text (NUL :: z) tokens a b l (str "ssid") ssid) as (u3 & ->); [done|keys|done..|].
  rewrite (bind_Ok (lift_outcome (Ok _)) _ s _ s eq_refl). cbv iota beta.
  destruct (json_field_run text (NUL :: z) tokens a b l (str "password") password) as (u4 & ->); [done|keys|done..|].
  rewrite (bind_Ok (lift_outcome (Ok _)) _ s _ s eq_refl). cbv iota beta.
  destruct (run_write_config s attrs u1 array u2 utokens ua ub places Huj Hup Hui) as (c1 & E1).
  { apply Hf1, made_id_ok. }
  run_with E1. rewrite bool_decide_true by done. set (s1 := with_file _ _ _ _).
  destruct (run_write_wifi s1 ssid u3 password u4 Hf2) as (c2 & E2). run_with E2. exists c1, c2. by rewrite bool_decide_true.
Qed.
End configure.

(** ** The board is configured *)

Section wf.
Context `{MP : MsgPuck} `{L : !MsgPuckLaws MP}.

Lemma wifi_wf ssid password : Z.of_nat (length ssid) < 2 ^ 32 -> Z.of_nat (length password) < 2 ^ 32 ->
  mp_wf (smap (wifi_value ssid password)).
Proof. intros H1 H2. apply mp_wf_map. split; [done|]. by repeat constructor. Qed.

Lemma config_wf id attrs uris : length id = 36%nat -> (length attrs <= CC_MAX_ATTRIBUTES_LEN)%nat ->
  Forall (fun u => nul_free u /\ (length u <= CC_MAX_URI_LEN)%nat) uris ->
  (length (mp_enc (smap (config_value id (Some attrs) uris))) <= CC_ESP_BUFFER_SIZE)%nat ->
  mp_wf (smap (config_value id (Some attrs) uris)).
Proof using L.
  intros Hid Ha Hu Hl. assert (length uris <= CC_ESP_BUFFER_SIZE)%nat as Hn.
  { cbn [mp_enc config_value map fst snd length concat] in Hl. rewrite !length_app in Hl.
    pose proof (concat_enc_length (map VStr uris)). rewrite length_map in *. lia. }
  unfold CC_ESP_BUFFER_SIZE, CC_MAX_ATTRIBUTES_LEN in *. apply mp_wf_map. split; [done|]. unfold mp_wf_kvs, config_value.
  cbn [map fst snd]. rewrite !Forall_cons. cbn [fst snd]. split_and!; [reflexivity| |reflexivity| |reflexivity| |by constructor].
  - cbn [mp_wf]. lia.
  - cbn [mp_wf]. lia.
  - apply mp_wf_arr. rewrite length_map. split; [lia|]. rewrite Forall_map. eapply Forall_impl; [exact Hu|].
    intros u [_ Hlu]. unfold CC_MAX_URI_LEN in Hlu. simpl. lia.
Qed.

Lemma entry_short text l key v : entry_is text l key v -> (length v <= length text)%nat.
Proof. intros (kv & _ & _ & <-). unfold text_at. rewrite length_take, length_drop. lia. Qed.

Lemma request_wifi_wf `{J : Jsmn} data attrs uris ssid password : request data attrs uris ssid password ->
  mp_wf (smap (wifi_value ssid password)).
Proof.
  intros [(pre & text & tokens & a & b & l & -> & _ & _ & _ & _ & _ & _ & Hs & Hw & _) [_ Hl]].
  apply entry_short in Hs, Hw. rewrite length_app in Hl. unfold CC_ESP_BUFFER_SIZE in Hl. apply wifi_wf; lia.
Qed.
End wf.

Section board.
Context {V : Type} `{C : !Code V} `{P : Platform} `{MP : MsgPuck} `{L : !MsgPuckLaws MP} `{J : Jsmn}.
Context `{SK : Sockets} `{DK : Disk} `{GD : !GoodDisk DK} `{ES : Esp} `{HK : !Holds V cc_transport_socket_client_t}.
Hypothesis Hmem : forall n, plat_alloc n = true.
Implicit Types (s : rt V).

(** The client is answered and closed. *)
Lemma run_serve_client s fd data attrs uris ssid password : os_recv (w_calls (rt_world s)) = Some data ->
  request data attrs uris ssid password -> fits attrs uris ssid password ->
  exists id s1, serve_client fd s = Ok (true, s1) /\ key_ok id /\ length id = 36%nat
    /\ on_flash (rt_platform s1) CC_STATE_FILE (mp_enc (smap (config_value id (Some attrs) uris)))
    /\ on_flash (rt_platform s1) CC_WIFI_CONFIG_FILE (mp_enc (smap (wifi_value ssid password))).
Proof using L GD.
  intros Hr Hq Hf. unfold serve_client. run_with (run_os_tick s). rewrite Hr.
  destruct (run_configure (later (S (w_calls (rt_world s))) s) data attrs uris ssid password Hq Hf) as (c1 & c2 & E).
  set (s1 := later _ s) in *. run_with E. set (s2 := with_file CC_WIFI_CONFIG_FILE _ _ _).
  rewrite (bind_Ok _ _ s2 tt (later (S c2) s2)) by (run_with (run_os_tick s2); reflexivity).
  unfold close_fd. erewrite bind_Ok; [|by run_with (run_os_tick (later (S c2) s2))].
  exists (made_id s1). eexists. split; [reflexivity|]. destruct (made_id_ok s1) as [Hk Hl]. do 2 (split; [done|]).
  split; unfold on_flash; simpl.
  - rewrite lookup_insert_ne by done. apply lookup_insert_eq.
  - apply lookup_insert_eq.
Qed.

Lemma run_get_config s clients data attrs uris ssid password : let n := w_calls (rt_world s) in
  0 <= os_socket n -> esp_bind (n + 1) = true -> 0 <= esp_accept (n + 2) -> os_recv (n + 3) = Some data ->
  request data attrs uris ssid password -> fits attrs uris ssid password ->
  exists id s1, cc_platform_esp_get_config (S clients) s = Ok (CC_SUCCESS, s1) /\ key_ok id /\ length id = 36%nat
    /\ on_flash (rt_platform s1) CC_STATE_FILE (mp_enc (smap (config_value id (Some attrs) uris)))
    /\ on_flash (rt_platform s1) CC_WIFI_CONFIG_FILE (mp_enc (smap (wifi_value ssid password))).
Proof using L GD.
  intros n Hs Hb Ha Hr Hq Hf. unfold cc_platform_esp_get_config. run_with (run_open_socket s Hs).
  rewrite (proj2 (Z.leb_le _ _)) by done. set (s1 := with_open _ s). run_with (run_os_tick s1).
  change (w_calls (rt_world s1)) with (S n). rewrite <- Nat.add_1_r, Hb. cbn [serve_config].
  set (s2 := later _ s1). run_with (run_os_tick s2). change (w_calls (rt_world s2)) with (S (n + 1)).
  replace (S (n + 1)) with (n + 2)%nat by lia. rewrite (proj2 (Z.ltb_ge _ _)) by done.
  rewrite (bind_Ok (upd_platform _) _ _ tt _ eq_refl). set (s3 := set_platform _ _).
  destruct (run_serve_client s3 (esp_accept (n + 2)) data attrs uris ssid password) as (id & s4 & E & H); [|done|done|].
  { rewrite <- Hr. f_equal. change (w_calls (rt_world s3)) with (S (n + 2)). lia. }
  exists id, s4. split; [|exact H]. run_with E. done.
Qed.

(** C15: a board is configured by the first client that sends it a request.  Whatever
    the text of the object is, and whatever its fields are in it, the board stores what
    they say, so that a node that is set up from that flash has the attributes and the
    uris of the request and the identifier that the board made, and the file of the
    network has the name and the password.  The request fits the buffer of the board with
    its terminator, what is stored fits the buffers it is put together in, and the
    attributes and the uris fit the buffers of a node. *)
Theorem board_is_configured (clients : nat) (data attrs : bytes) (uris : list bytes) (ssid password : bytes) s :
  let n := w_calls (rt_world s) in
  0 <= os_socket n -> esp_bind (n + 1) = true -> 0 <= esp_accept (n + 2) -> os_recv (n + 3) = Some data ->
  request data attrs uris ssid password -> fits attrs uris ssid password ->
  nul_free attrs /\ (length attrs <= CC_MAX_ATTRIBUTES_LEN)%nat ->
  Forall (fun u => nul_free u /\ (length u <= CC_MAX_URI_LEN)%nat) uris ->
  exists id s1, cc_platform_esp_get_config (S clients) s = Ok (CC_SUCCESS, s1) /\ length id = 36%nat
    /\ forall s2, ps_files (rt_platform s2) = ps_files (rt_platform s1) ->
      (forall id', configured id' None [] (w_node (rt_world s2)) ->
         exists i a u c,
           let node := set_node_config a u (set_node_id i (w_node (rt_world s2))) in
           cc_node_setup (ST:=esp_storage) s2 = Ok (CC_SUCCESS, set_world (set_node node (set_calls c (rt_world s2))) s2)
           /\ configured id (Some attrs) uris node)
      /\ exists file c r1 r2,
           esp_file_read CC_WIFI_CONFIG_FILE s2 = Ok (Some file, later c s2)
           /\ cc_coder_decode_string_from_map file (str "ssid") = Some (ssid ++ r1, length ssid)
           /\ cc_coder_decode_string_from_map file (str "password") = Some (password ++ r2, length password).
Proof using L GD Hmem.
  intros n Hs Hb Ha Hr Hq Hf Hattrs Huris.
  destruct (run_get_config s clients data attrs uris ssid password Hs Hb Ha Hr Hq Hf) as (id & s1 & E & Hk & Hl & F1 & F2).
  exists id, s1. split; [exact E|]. split; [exact Hl|]. intros s2 Ef. unfold on_flash in F1, F2. rewrite <- Ef in F1, F2. split.
  - intros id' Hc. pose proof (ft_config _ _ _ _ Hf id Hl) as Hfit.
    apply (setup_configured (SL:=esp_storage_laws Hmem) Hmem id id' (Some attrs) None uris []); try done.
    apply config_wf; [done|apply Hattrs|done|done].
  - destruct (esp_found Hmem s2 CC_WIFI_CONFIG_FILE _ F2) as (c & E2).
    pose proof (request_wifi_wf _ _ _ _ _ Hq) as Hw. eexists _, c. rewrite <- (app_nil_r (mp_enc _)) in E2.
    unfold wifi_value in *. do 2 eexists. split; [exact E2|]. split.
    + by erewrite (str_field (str "ssid")); [|keys|keys|exact Hw|reflexivity].
    + by erewrite (str_field (str "password")); [|keys|keys|exact Hw|reflexivity].
Qed.

Lemma run_heap_free content w : exists w1 w2, heap_buffer content w = Ok (w_next w, w1)
  /\ on_mem (mem_free (w_next w)) w1 = Ok (tt, w2) /\ w_mem w2 !! w_next w = None.
Proof using.
  do 2 eexists. split; [reflexivity|]. unfold on_mem, zoom, mem_free. rewrite (bind_Ok _ _ _ _ _ eq_refl). simpl.
  rewrite lookup_insert_eq. split; [reflexivity|]. apply lookup_delete_eq.
Qed.
(** A name that is not empty is read out of its buffer, so that the buffer has to live. *)
Lemma copy_freed size l off len w : w_mem w !! l = None -> copy_name size l off (S len) w = Ub UseAfterFree.
Proof using.
  intros H. unfold copy_name. cbn [Nat.eqb]. do 2 apply bind_Ub. unfold on_mem, zoom, mem_read.
  rewrite (bind_Ok _ _ _ _ _ eq_refl). by rewrite H.
Qed.
Lemma copy_nothing size l off w : (0 < size)%nat -> copy_name size l off 0 w = Ok (tt, w).
Proof using.
  intros H. unfold copy_name. rewrite (bind_Ok _ _ _ [] w) by done.
  rewrite (strncpy_nul_Some _ [] []); [done|keys|done|]. unfold zeroed. by rewrite length_replicate.
Qed.

(** The file is freed before the names are copied. *)
Lemma station_mode_frees s ssid password :
  on_flash (rt_platform s) CC_WIFI_CONFIG_FILE (mp_enc (smap (wifi_value ssid password))) ->
  mp_wf (smap (wifi_value ssid password)) -> (0 < sdk_ssid_size)%nat -> ssid <> [] \/ password <> [] ->
  cc_platform_esp_start_station_mode s = Ub UseAfterFree.
Proof using L GD Hmem.
  intros Hw Hwf Hsize Hne. destruct (esp_found Hmem s CC_WIFI_CONFIG_FILE _ Hw) as (c & E).
  unfold cc_platform_esp_start_station_mode. cbn [cc_platform_file_read esp_storage]. run_with E. cbv iota.
  set (content := mp_enc _). destruct (run_heap_free content (rt_world (later c s))) as (w1 & w2 & E1 & E2 & Hgone).
  run_with (run_on_world _ (later c s) _ w1 E1).
  assert (exists u1, cc_coder_decode_string_from_map content (str "ssid") = Some (ssid ++ u1, length ssid)) as [u1 ->].
  { unfold content. rewrite <- (app_nil_r (mp_enc _)). eexists. unfold wifi_value in *.
    erewrite (str_field (str "ssid")); [done|keys|keys|exact Hwf|reflexivity]. }
  assert (exists u2, cc_coder_decode_string_from_map content (str "password") = Some (password ++ u2, length password)) as [u2 ->].
  { unfold content. rewrite <- (app_nil_r (mp_enc _)). eexists. unfold wifi_value in *.
    erewrite (str_field (str "password")); [done|keys|keys|exact Hwf|reflexivity]. }
  cbv iota beta. set (s1 := set_world w1 (later c s)). run_with (run_on_world _ s1 tt w2 E2).
  set (s2 := set_world w2 s1). assert (w_mem (rt_world s2) !! w_next (rt_world (later c s)) = None) as Hg by exact Hgone.
  destruct ssid as [|x ssid].
  - run_with (run_on_world _ s2 tt w2 (copy_nothing sdk_ssid_size (w_next (rt_world (later c s)))
      (length content - length ([] ++ u1))%nat w2 Hsize)). change (set_world w2 s2) with s2.
    destruct password as [|y password]; [by destruct Hne|]. apply bind_Ub. unfold on_world, zoom.
    cbn [length]. by rewrite (copy_freed _ _ _ _ _ Hg).
  - apply bind_Ub. unfold on_world, zoom. cbn [length]. by rewrite (copy_freed _ _ _ _ _ Hg).
Qed.

(** C35: a board that has been configured cannot start.  Whatever runtime it was to run,
    the task of a board on whose flash there is the configuration of a network with a
    name or a password reads the file into a buffer, frees the buffer, and then copies the
    name and the password, which point into it: it reads freed memory. *)
Theorem configured_board_uses_freed `{HT : !Holds V cc_calvinsys_timer_t} (capabilities : list cap_desc)
  (types : list (cc_actor_builtin_type_t (V:=V))) (clients fuel : nat) (ssid password : bytes) s :
  spiffs_mount (w_calls (rt_world s)) = true ->
  on_flash (rt_platform s) CC_WIFI_CONFIG_FILE (mp_enc (smap (wifi_value ssid password))) ->
  Z.of_nat (length ssid) < 2 ^ 32 -> Z.of_nat (length password) < 2 ^ 32 ->
  (0 < sdk_ssid_size)%nat -> ssid <> [] \/ password <> [] ->
  calvin_task capabilities types clients fuel s = Ub UseAfterFree.
Proof using L GD Hmem.
  intros Hm Hw Hls Hlp Hsize Hne. pose proof (wifi_wf ssid password Hls Hlp) as Hwf. unfold calvin_task.
  set (s1 := later (S (w_calls (rt_world s))) s).
  rewrite (bind_Ok _ _ s CC_SUCCESS s1).
  2: { unfold mount_flash. run_with (run_os_tick s). by rewrite Hm. }
  rewrite bool_decide_true by done. destruct (esp_there s1 CC_WIFI_CONFIG_FILE _ Hw) as (c & E).
  rewrite (bind_Ok _ _ s1 CC_SUCCESS (later c s1)) by (cbn [cc_platform_file_stat esp_storage]; by run_with E).
  rewrite bool_decide_true by done. cbn [negb].
  unfold mbind at 1, M_bind. by rewrite (station_mode_frees (later c s1) ssid password).
Qed.
End board.

(** *** A client *)

Definition array_text : bytes := quoted "['calvinip://10.0.0.1:5000']".
Definition request_text : bytes :=
  quoted "{'attributes':{},'uris':['calvinip://10.0.0.1:5000'],'ssid':'net','password':'secret'}".
Definition request_fields : list ((Z * Z) * json) :=
  [((2, 12), JObject 14 16 []); ((18, 22), JArray 24 52 [JString 26 50]); ((54, 58), JString 61 64);
   ((67, 75), JString 78 84)].

#[local] Existing Instance reading_jsmn.

#[local] Instance one_client : Sockets := {
  os_socket := fun n => 3 + Z.of_nat n; os_connect := fun _ _ _ => false; os_send := fun _ b => Z.of_nat (length b);
  os_recv := fun _ => Some (str "POST / HTTP/1.0" ++ CRLF ++ CRLF ++ request_text);
  os_select := fun _ _ fds => Some fds; os_stack := fun _ => []; os_word := fun _ => 0
}.
#[local] Instance a_board : Esp := {
  esp_bind := fun _ => true; esp_accept := fun _ => 7; spiffs_mount := fun _ => true; spiffs_format := fun _ => true;
  sdk_status := fun _ => STATION_GOT_IP; sdk_ssid_size := 32; sdk_password_size := 64; sdk_adc := fun _ => 512;
  ds18b20_scan := fun _ _ => 1; ds18b20_read := fun _ _ => f32 20; esp_garbage := fun _ => f32 0
}.

Lemma the_request : request (str "POST / HTTP/1.0" ++ CRLF ++ CRLF ++ request_text) (str "{}") [str "calvinip://10.0.0.1:5000"]
  (str "net") (str "secret").
Proof.
  assert (forall key k v, List.find (fun kv => bool_decide (text_at request_text kv.1 = key)) request_fields = Some (k, v) ->
    in_text request_text (span v) -> entry_is request_text request_fields key (text_at request_text (span v))) as Hf.
  { intros key k v H1 H2. by exists (k, v). }
  split; [|split; [keys|unfold CC_ESP_BUFFER_SIZE; simpl; lia]].
  exists (str "POST / HTTP/1.0" ++ CRLF ++ CRLF), request_text, (flatten (JObject 0 86 request_fields)), 0, 86, request_fields.
  split; [reflexivity|]. split; [keys|]. split; [reflexivity|]. split; [vm_compute; reflexivity|]. split; [by exists []|].
  split; [repeat constructor; simpl; lia|].
  split; [apply (Hf (str "attributes") (2, 12) (JObject 14 16 [])); [vm_compute; reflexivity|split; simpl; lia]|].
  split; [apply (Hf (str "ssid") (54, 58) (JString 61 64)); [vm_compute; reflexivity|split; simpl; lia]|].
  split; [apply (Hf (str "password") (67, 75) (JString 78 84)); [vm_compute; reflexivity|split; simpl; lia]|].
  exists array_text, (flatten (JArray 0 28 [JString 2 26])), 0, 28, [(2, 26)].
  split; [apply (Hf (str "uris") (18, 22) (JArray 24 52 [JString 26 50])); [vm_compute; reflexivity|split; simpl; lia]|].
  split; [vm_compute; reflexivity|]. split; [by exists []|]. split; [repeat constructor; simpl; lia|reflexivity].
Qed.

Lemma the_request_fits : fits (str "{}") [str "calvinip://10.0.0.1:5000"] (str "net") (str "secret").
Proof.
  split; [|apply Nat.leb_le; vm_compute; reflexivity]. intros id H.
  do 36 (destruct id as [|? id]; [discriminate H|]). destruct id; [|discriminate H].
  apply Nat.leb_le. vm_compute. reflexivity.
Qed.

Lemma board_is_configured_witness : exists id s1 i a u c,
  let blank := node_rt blank_node (rt_platform s1) in
  let node := set_node_config a u (set_node_id i blank_node) in
  cc_platform_esp_get_config 1 (node_rt blank_node no_platform) = Ok (CC_SUCCESS, s1)
  /\ cc_node_setup (ST:=esp_storage) blank = Ok (CC_SUCCESS, set_world (set_node node (set_calls c (rt_world blank))) blank)
  /\ configured id (Some (str "{}")) [str "calvinip://10.0.0.1:5000"] node.
Proof.
  destruct (board_is_configured (P:=quiet_platform) (fun _ => eq_refl) 0 (str "POST / HTTP/1.0" ++ CRLF ++ CRLF ++ request_text)
    (str "{}") [str "calvinip://10.0.0.1:5000"] (str "net") (str "secret") (node_rt blank_node no_platform))
    as (id & s1 & E & _ & H).
  - simpl. lia.
  - reflexivity.
  - simpl. lia.
  - reflexivity.
  - exact the_request.
  - exact the_request_fits.
  - split; [keys|unfold CC_MAX_ATTRIBUTES_LEN; simpl; lia].
  - constructor; [|constructor]. split; [keys|unfold CC_MAX_URI_LEN; simpl; lia].
  - destruct (H (node_rt blank_node (rt_platform s1)) eq_refl) as [Hn _].
    destruct (Hn []) as (i & a & u & c & E2 & Hc).
    + split; simpl; [|reflexivity|reflexivity|constructor].
      split; [split; [keys|unfold CC_UUID_BUFFER_SIZE; simpl; lia]|]. split; [reflexivity|]. by exists (zeroed 49).
    + exists id, s1, i, a, u, c. split; [exact E|]. split; [exact E2|exact Hc].
Defined.

(** The flash of a board that has been configured. *)
Definition configured_flash : platform_state (lib_state esp_state) :=
  set_ps_files {[CC_WIFI_CONFIG_FILE := mp_enc (smap (wifi_value (str "net") (str "secret")))]} no_platform.
Definition board_rt : rt (lib_state esp_state) :=
  {| rt_world := the_world; rt_instances := ∅; rt_caps := ∅; rt_objs := ∅; cs_capabilities := []; cs_objects := [];
     rt_platform := configured_flash |}.

Lemma configured_board_uses_freed_witness :
  calvin_task (C:=objects_code) esp_capabilities (esp_types []) 1 1 board_rt
  = Ub UseAfterFree.
Proof.
  apply (configured_board_uses_freed (P:=quiet_platform) (fun _ => eq_refl) _ _ 1 1 (str "net") (str "secret")).
  - reflexivity.
  - reflexivity.
  - simpl. lia.
  - simpl. lia.
  - apply Nat.ltb_lt. reflexivity.
  - left. discriminate.
Defined.
