(* ===== verification/TunnelProps.v ===== *)
(** Properties of the tunnels: two requests that cross, and the references. *)
From S2P Require Import Prelude CString Common MsgPuck MsgPackRef Coder Fifo Machine Transport.
From S2P Require Import ProtoSend Link CommonProps MsgSpec Runs Examples.

Section crossing.
Context `{P : Platform} `{MP : MsgPuck}.

(** A tunnel known under the identifier [s], connected. *)
Definition known_as (s : bytes) (t : cc_tunnel_t) : Prop :=
  in_id s (tunnel_id t) /\ tunnel_state t = CC_TUNNEL_ENABLED.

(** The request of the peer on a tunnel this runtime has asked for too. *)
Lemma run_crossing_request w l x own given rest peer peer_len :
  cc_tunnel_get_from_peerid_and_type peer peer_len CC_TUNNEL_TYPE_TOKEN w = Ok (Some l, w) ->
  w_tunnels w !! l = Some x -> tunnel_state x <> CC_TUNNEL_ENABLED ->
  in_id own (tunnel_id x) -> key_ok given -> length given = length own ->
  exists x', cc_tunnel_handle_tunnel_new_request peer peer_len (given ++ rest) (length given) w
    = Ok (CC_SUCCESS, set_tunnels (<[l := x']> (w_tunnels w)) w)
    /\ known_as (if cc_uuid_is_higher (given ++ rest) (length given) (tunnel_id x) (length own)
                 then given else own) x'.
Proof.
  intros Hg Hx Sx Hown Hgiven Hlen. unfold cc_tunnel_handle_tunnel_new_request. run_with Hg. run1.
  rewrite bool_decide_false, (in_id_len own) by done.
  destruct (cc_uuid_is_higher _ _ _ _).
  - destruct Hown as (Ho & Lid & t & Et). cbn [when].
    assert (strncpy (tunnel_id x) (given ++ rest) (length given) = Some (given ++ NUL :: t)) as Es.
    { unfold strncpy. rewrite decide_True by (rewrite Et, length_app; lia). unfold strncpy_bytes.
      destruct Hgiven as [Hg0 _]. rewrite cstr_app, take_app_length, Nat.sub_diag by done. simpl.
      by rewrite app_nil_r, Et, drop_app_exact. }
    rewrite Es. set (x1 := set_tunnel_id (given ++ NUL :: t) x).
    set (w1 := set_tunnels (<[l := x1]> (w_tunnels w)) w).
    rewrite (bind_Ok _ _ w tt w1) by by apply run_upd_tunnel.
    assert (w_tunnels w1 !! l = Some x1) as Hx1 by apply lookup_insert_eq.
    rewrite (bind_Ok _ _ _ _ _ (run_upd_tunnel w1 l x1 _ Hx1)). exists (set_tunnel_state CC_TUNNEL_ENABLED x1).
    split; [unfold w1; simpl; by rewrite insert_insert_eq|]. split; [|done]. split; [done|]. split; [|by exists t].
    simpl. rewrite <- Lid, Et, !length_app. simpl. lia.
  - cbn [when]. rewrite (bind_Ok _ _ w tt w) by done. rewrite (bind_Ok _ _ _ _ _ (run_upd_tunnel w l x _ Hx)).
    by exists (set_tunnel_state CC_TUNNEL_ENABLED x).
Qed.

(** Some character of [a] is above that of [b] at its place. *)
Definition above (a b : bytes) : Prop :=
  exists i, (i < length a)%nat /\ char_val (nth i b NUL) < char_val (nth i a NUL).

Lemma above_higher a b ra rb : length a = length b -> above a b ->
  cc_uuid_is_higher (a ++ ra) (length a) (b ++ rb) (length b) = true.
Proof.
  intros Hl (i & Hi & H). rewrite <- Hl. unfold cc_uuid_is_higher. rewrite Nat.ltb_irrefl.
  apply uuid_scan_iff. exists i. split; [lia|]. by rewrite !app_nth1 by lia.
Qed.

Lemma char_val_inj b c : char_val b = char_val c -> b = c.
Proof.
  pose proof (byte_val_range b). pose proof (byte_val_range c). unfold char_val. intros E.
  apply byte_val_inj. destruct (Z.ltb_spec (byte_val b) 128), (Z.ltb_spec (byte_val c) 128); lia.
Qed.

Lemma not_above_eq a b : length a = length b -> ~ above a b -> ~ above b a -> a = b.
Proof.
  intros Hl H1 H2. apply (nth_ext _ _ NUL NUL); [done|]. intros i Hi. apply char_val_inj.
  destruct (Z.lt_trichotomy (char_val (nth i a NUL)) (char_val (nth i b NUL))) as [|[|]]; [|done|].
  - destruct H2. exists i. split; [lia|done].
  - destruct H1. by exists i.
Qed.

(** C33: two requests for a tunnel that cross.  Two runtimes have each asked the
    other for a tunnel and get the other's request while their own is pending:
    both tunnels become connected, and both runtimes know the tunnel under one
    identifier exactly when the two comparisons of the identifiers do not both
    hold.  When the identifiers differ in opposite directions at two places they
    do both hold, and each runtime adopts the identifier the other has given up. *)
Theorem tunnel_requests_cross (wa wb : world) (la lb : loc) (xa xb : cc_tunnel_t)
  (a b ra rb pa pb : bytes) (na nb : nat) :
  cc_tunnel_get_from_peerid_and_type pa na CC_TUNNEL_TYPE_TOKEN wa = Ok (Some la, wa) ->
  cc_tunnel_get_from_peerid_and_type pb nb CC_TUNNEL_TYPE_TOKEN wb = Ok (Some lb, wb) ->
  w_tunnels wa !! la = Some xa -> w_tunnels wb !! lb = Some xb ->
  tunnel_state xa <> CC_TUNNEL_ENABLED -> tunnel_state xb <> CC_TUNNEL_ENABLED ->
  in_id a (tunnel_id xa) -> in_id b (tunnel_id xb) -> length a = length b -> a <> b ->
  let b_wins := cc_uuid_is_higher (b ++ rb) (length b) (tunnel_id xa) (length a) in
  let a_wins := cc_uuid_is_higher (a ++ ra) (length a) (tunnel_id xb) (length b) in
  exists xa' xb' ia ib,
    cc_tunnel_handle_tunnel_new_request pa na (b ++ rb) (length b) wa
    = Ok (CC_SUCCESS, set_tunnels (<[la := xa']> (w_tunnels wa)) wa)
    /\ cc_tunnel_handle_tunnel_new_request pb nb (a ++ ra) (length a) wb
       = Ok (CC_SUCCESS, set_tunnels (<[lb := xb']> (w_tunnels wb)) wb)
    /\ known_as ia xa' /\ known_as ib xb'
    /\ (ia = ib <-> ~ (a_wins = true /\ b_wins = true))
    /\ (above a b -> above b a -> ia = b /\ ib = a).
Proof.
  intros Ga Gb Xa Xb Sa Sb Ia Ib Hl Hne b_wins a_wins.
  destruct (run_crossing_request wa la xa a b rb pa na Ga Xa Sa Ia (proj1 Ib) (eq_sym Hl)) as (xa' & Ea & Ka).
  destruct (run_crossing_request wb lb xb b a ra pb nb Gb Xb Sb Ib (proj1 Ia) Hl) as (xb' & Eb & Kb).
  fold b_wins in Ka. fold a_wins in Kb. exists xa', xb'. eexists _, _.
  split; [exact Ea|]. split; [exact Eb|]. split; [exact Ka|]. split; [exact Kb|].
  destruct Ia as (_ & _ & ta & Ta), Ib as (_ & _ & tb & Tb).
  assert (above a b -> a_wins = true) as Ha by (intros H; unfold a_wins; rewrite Tb; by apply above_higher).
  assert (above b a -> b_wins = true) as Hb by (intros H; unfold b_wins; rewrite Ta; by apply above_higher).
  split; [|intros H1 H2; by rewrite Ha, Hb].
  destruct a_wins, b_wins; try (split; [|done]; intros; intuition congruence).
  - split; [intros <-|intros []]; done.
  - split; [done|]. intros _. exfalso. apply Hne, not_above_eq; [done| |]; intros H.
    + by specialize (Ha H).
    + by specialize (Hb H).
Qed.
End crossing.

(** A runtime that waits for the reply to its own request. *)
Definition requesting_tunnel (id : bytes) : cc_tunnel_t :=
  {| tunnel_id := id50 id; tunnel_link := Some 1%positive; tunnel_state := CC_TUNNEL_PENDING;
     tunnel_ref_count := 1; tunnel_type := CC_TUNNEL_TYPE_TOKEN |}.
Definition requesting_world (id : bytes) : world :=
  set_tunnels (<[2%positive := requesting_tunnel id]> (w_tunnels the_world)) the_world.

Lemma tunnel_requests_cross_witness :
  exists xa' xb',
    cc_tunnel_handle_tunnel_new_request (str "peer") 4 (str "12") 2 (requesting_world (str "21"))
    = Ok (CC_SUCCESS, set_tunnels (<[2%positive := xa']> (w_tunnels (requesting_world (str "21"))))
                        (requesting_world (str "21")))
    /\ cc_tunnel_handle_tunnel_new_request (str "peer") 4 (str "21") 2 (requesting_world (str "12"))
       = Ok (CC_SUCCESS, set_tunnels (<[2%positive := xb']> (w_tunnels (requesting_world (str "12"))))
                           (requesting_world (str "12")))
    /\ known_as (str "12") xa' /\ known_as (str "21") xb'.
Proof.
  destruct (tunnel_requests_cross (requesting_world (str "21")) (requesting_world (str "12")) 2 2
    (requesting_tunnel (str "21")) (requesting_tunnel (str "12")) (str "21") (str "12") [] []
    (str "peer") (str "peer") 4 4) as (xa' & xb' & ia & ib & Ea & Eb & Ka & Kb & _ & X);
    try reflexivity; try discriminate.
  - apply in_id_id50, (bool_decide_unpack _). vm_compute. exact I.
  - apply in_id_id50, (bool_decide_unpack _). vm_compute. exact I.
  - destruct X as [-> ->].
    + exists 0%nat. split; [apply Nat.ltb_lt; reflexivity|vm_compute; reflexivity].
    + exists 1%nat. split; [apply Nat.ltb_lt; reflexivity|vm_compute; reflexivity].
    + exists xa', xb'. repeat (split; [assumption|]). assumption.
Defined.
