(* ===== verification/LookupProps.v ===== *)
(** Properties of the lookup of a port by its identifier: the index by which every
    message about a port reaches it; of the attempts to connect a port, and their end;
    and of what a peer asks of a port. *)
From S2P Require Import Prelude CString Common MsgPuck MsgPackRef Coder Fifo Machine Transport ProtoSend.
From S2P Require Import Link FifoInit Port FifoSpec MsgSpec Examples Runs PortProps.
From S2P Require Import Disconnect Proto Quiet Inert.

(** The test of [cc_list_get_n] on an identifier array: the identifiers agree. *)
Lemma id_test s id k rest : in_id s id ->
  bool_decide (strnlen id CC_UUID_BUFFER_SIZE = length k) && streq_n id (k ++ rest) (length k)
  = bool_decide (s = k).
Proof.
  intros (Hs & _ & t & ->). rewrite strnlen_key_arr by done. destruct Hs as [Hs _].
  apply eq_true_iff_eq. rewrite andb_true_iff, !bool_decide_eq_true, streq_n_spec, cstr_nul_free by done.
  rewrite <- (cstr_nul_free_all s Hs) at 2. rewrite <- streq_n_spec. split.
  - intros [El E]. apply streq_key_iff in E; [|done..]. by eapply prefix_app_same_length.
  - intros ->. split; [done|]. apply streq_key_iff; [done..|by apply prefix_app_r].
Qed.

Lemma get_n_ids {I} (item : I -> bytes) l k rest :
  Forall (fun i => exists s, in_id s (item i)) l ->
  cc_list_get_n item l (k ++ rest) (length k) = List.find (fun i => bool_decide (cstr (item i) = k)) l.
Proof.
  induction 1 as [|i l [s Hs] _ IH]; cbn [cc_list_get_n List.find]; [done|].
  rewrite (id_test s) by done. rewrite IH. destruct Hs as ([Hn _] & _ & t & E).
  by rewrite E, cstr_nul_free.
Qed.

(** The ports of the runtime in the order they are searched. *)
Definition ports_of (w : world) (a : loc) : list loc :=
  match w_actors w !! a with Some x => actor_in_ports x ++ actor_out_ports x | None => [] end.
Definition all_ports (w : world) : list loc := concat (map (ports_of w) (node_actors (w_node w))).

Definition searchable (w : world) (l : loc) : Prop :=
  exists p s, w_ports w !! l = Some p /\ in_id s (port_id p).

Lemma searchable_live w l : searchable w l -> port_live w l = true.
Proof. intros (p & s & E & _). unfold port_live. rewrite bool_decide_true by eauto. done. Qed.

Lemma run_port_in w ports k rest : Forall (searchable w) ports ->
  port_in ports (k ++ rest) (length k) w
  = Ok (List.find (fun l => bool_decide (cstr (port_key w l) = k)) ports, w).
Proof.
  intros H. unfold port_in. rewrite (bind_Ok _ _ _ w w) by done.
  rewrite walk_live by (eapply Forall_impl; [exact H|apply searchable_live]).
  rewrite get_n_ids; [done|]. eapply Forall_impl; [exact H|]. intros l (p & s & E & Hs). exists s.
  unfold port_key. by rewrite E.
Qed.

Lemma list_find_app {A} (f : A -> bool) l1 l2 :
  List.find f (l1 ++ l2) = match List.find f l1 with Some x => Some x | None => List.find f l2 end.
Proof. induction l1 as [|x l1 IH]; simpl; [done|]. by destruct (f x). Qed.

Lemma run_find_port w actors k rest :
  Forall (fun a => is_Some (w_actors w !! a)) actors ->
  Forall (searchable w) (concat (map (ports_of w) actors)) ->
  find_port (k ++ rest) (length k) actors w
  = Ok (List.find (fun l => bool_decide (cstr (port_key w l) = k)) (concat (map (ports_of w) actors)), w).
Proof.
  intros Ha Hp. induction Ha as [|a actors [x Hx] _ IH]; [done|]. cbn [find_port map concat] in *.
  assert (ports_of w a = actor_in_ports x ++ actor_out_ports x) as Ep by (unfold ports_of; by rewrite Hx).
  rewrite Ep in *. apply Forall_app in Hp as [[H1 H2]%Forall_app H3].
  rewrite !list_find_app. run1. run_with (run_port_in w (actor_in_ports x) k rest H1).
  destruct (List.find _ (actor_in_ports x)); [done|].
  run_with (run_port_in w (actor_out_ports x) k rest H2).
  destruct (List.find _ (actor_out_ports x)); [done|]. by apply IH.
Qed.

(** The lookup of a port.  Given an identifier inside a longer message,
    [cc_port_get] answers the first port, in the order of the actors and with
    in-ports before out-ports, whose identifier is exactly that one, no longer and
    no shorter, and NULL when there is none; when identifiers are unique it is the
    port.  Nothing changes. *)
Theorem port_get_finds (w : world) (k rest : bytes) :
  Forall (fun a => is_Some (w_actors w !! a)) (node_actors (w_node w)) ->
  Forall (searchable w) (all_ports w) ->
  exists r, cc_port_get (k ++ rest) (length k) w = Ok (r, w)
    /\ match r with
       | Some l => l ∈ all_ports w /\ cstr (port_key w l) = k
           /\ (NoDup (map (fun l => cstr (port_key w l)) (all_ports w)) ->
               forall l', l' ∈ all_ports w -> cstr (port_key w l') = k -> l' = l)
       | None => forall l, l ∈ all_ports w -> cstr (port_key w l) <> k
       end.
Proof.
  intros Ha Hp. eexists. split.
  { unfold cc_port_get. run1. by apply run_find_port. }
  fold (all_ports w). clear Ha Hp. induction (all_ports w) as [|l ls IH]; cbn [List.find].
  { intros l Hl. by apply elem_of_nil in Hl. }
  case_bool_decide as E.
  - split; [by apply list_elem_of_here|]. split; [done|]. intros N l' Hl' E'.
    apply elem_of_cons in Hl' as [->|Hl']; [done|]. simpl in N. apply NoDup_cons in N as [N _].
    exfalso. apply N. rewrite E, <- E'. apply list_elem_of_In, List.in_map_iff. exists l'.
    split; [done|]. by apply list_elem_of_In.
  - destruct (List.find _ ls) as [l0|].
    + destruct IH as (I1 & I2 & I3). split; [by apply list_elem_of_further|]. split; [done|].
      intros N l' Hl' E'. apply elem_of_cons in Hl' as [->|Hl']; [done|]. simpl in N.
      apply NoDup_cons in N as [_ N]. by apply I3.
    + intros l' Hl'. apply elem_of_cons in Hl' as [->|Hl']; [done|]. by apply IH.
Qed.

Lemma port_get_finds_witness :
  exists r, cc_port_get (str "in-port" ++ str "more") 7 the_world = Ok (r, the_world)
    /\ r = Some 21%positive.
Proof.
  destruct (port_get_finds the_world (str "in-port") (str "more")) as (r & E & H).
  - repeat constructor; eexists; reflexivity.
  - repeat constructor; eexists _, _; (split; [reflexivity|]);
      apply in_id_id50, (bool_decide_unpack _); vm_compute; exact I.
  - exists r. split; [exact E|]. destruct r as [l|].
    + destruct H as (Hl & Hk & _). change (all_ports the_world) with [20%positive; 21%positive] in Hl.
      apply elem_of_cons in Hl as [->|Hl]; [by vm_compute in Hk|].
      by apply list_elem_of_singleton in Hl as ->.
    + exfalso. apply (H 21%positive); [|reflexivity]. change (all_ports the_world) with [20%positive; 21%positive].
      by apply list_elem_of_further, list_elem_of_here.
Defined.

(** * Properties of the attempts to connect a port, and of what a peer runtime asks of
    it: to disconnect it. *)

Section peer.
Context `{P : Platform} `{MP : MsgPuck}.

(** ** The end of the attempts *)

(** The calls that try to connect a port, one after another. *)
Fixpoint attempts (n : nat) (l : loc) : W unit :=
  match n with O => mret tt | S n => cc_port_connect l ;; attempts n l end.

(** The attempts counted by the port [l], which nothing but an attempt and a
    connection changes. *)
Definition tried (l : loc) (w : world) : option Z := port_retries <$> w_ports w !! l.
Definition kept (l : loc) (w w' : world) : Prop := tried l w' = tried l w.

#[local] Instance kept_preorder l : PreOrder (kept l).
Proof. split; [done|]. intros x y z H1 H2. unfold kept in *. congruence. Qed.

Lemma kept_put l k w (x y : cc_port_t) : w_ports w !! k = Some x -> port_retries y = port_retries x ->
  kept l w (set_ports (<[k := y]> (w_ports w)) w).
Proof.
  intros Hx E. unfold kept, tried. simpl. destruct (decide (k = l)) as [<-|].
  - rewrite lookup_insert_eq, Hx. simpl. by rewrite E.
  - by rewrite lookup_insert_ne.
Qed.

#[local] Instance kept_inert l : Inert (kept l).
Proof. split; try done; [apply _|]. intros. by eapply kept_put. Qed.

Section kept.
Context (l : loc).
Abbreviation KEPT m := (along (kept l) m).

Lemma kept_upd_port k f : (forall x, port_retries (f x) = port_retries x) -> KEPT (upd_port k f).
Proof. intros H w a w' (x & Hx & ->)%upd_port_inv. by eapply kept_put. Qed.
Lemma kept_upd_tunnel t f : KEPT (upd_tunnel t f).
Proof. by intros w a w' (x & Hx & ->)%upd_tunnel_inv. Qed.
Lemma kept_put_tunnel t x : KEPT (put_tunnel t x).
Proof. by apply along_modify. Qed.
Lemma kept_free_tunnel t : KEPT (free_tunnel t).
Proof. by intros w a w' (x & Hx & ->)%free_tunnel_inv. Qed.
Hint Extern 2 (along _ (upd_port _ _)) => apply kept_upd_port; done : frame.
Hint Resolve kept_upd_tunnel kept_put_tunnel kept_free_tunnel : frame.

Lemma kept_tunnel_free t b : KEPT (cc_tunnel_free t b).
Proof. unfold cc_tunnel_free. framed. Qed.
Hint Resolve kept_tunnel_free : frame.
Lemma kept_add_ref t : KEPT (cc_tunnel_add_ref t).
Proof. unfold cc_tunnel_add_ref. framed. Qed.
Lemma kept_remove_ref t : KEPT (cc_tunnel_remove_ref t).
Proof. unfold cc_tunnel_remove_ref. framed. Qed.
Lemma kept_create a b c d e : KEPT (cc_tunnel_create a b c d e).
Proof. unfold cc_tunnel_create. framed. Qed.
Hint Resolve kept_add_ref kept_remove_ref kept_create : frame.
Lemma kept_drop p : KEPT (drop_tunnel p).
Proof. unfold drop_tunnel. framed. Qed.
Hint Resolve kept_drop : frame.
Lemma kept_drop_if_any p : KEPT (drop_tunnel_if_any p).
Proof. unfold drop_tunnel_if_any. framed. Qed.
Lemma kept_get_tunnel p : KEPT (cc_port_get_tunnel p).
Proof. unfold cc_port_get_tunnel. framed. Qed.
Lemma kept_pending p : KEPT (cc_port_connect_with_pending_tunnel p).
Proof. unfold cc_port_connect_with_pending_tunnel. framed. Qed.
Hint Resolve kept_drop_if_any kept_get_tunnel kept_pending : frame.
Lemma kept_remote p : KEPT (cc_port_connect_remote p).
Proof. unfold cc_port_connect_remote. framed. Qed.

End kept.

(** ** A connected port stays so *)

Definition same_ports (w w' : world) : Prop := w_ports w' = w_ports w.
#[local] Instance same_ports_preorder : PreOrder same_ports.
Proof. split; [done|]. intros x y z H1 H2. unfold same_ports in *. congruence. Qed.

Lemma get_port_inv k w p w' : get_port k w = Ok (p, w') -> w' = w /\ w_ports w !! k = Some p.
Proof.
  intros (w2 & w3 & E2 & E)%bind_inv. injection E2 as <- <-. destruct (w_ports w !! k); [|done].
  by injection E as -> <-.
Qed.
Lemma same_get_actor a : along same_ports (get_actor a).
Proof.
  intros w x w' (w2 & w3 & E2 & E)%bind_inv. injection E2 as <- <-. destruct (w_actors w !! a); [|done].
  by injection E as _ <-.
Qed.
Lemma same_ports_state ls : along same_ports (ports_state ls).
Proof.
  induction ls as [|k ls IH]; cbn [ports_state]; [by apply along_ret; apply _|].
  apply along_bind; [apply _| |].
  - by intros w p w' [-> _]%get_port_inv.
  - intros p. repeat case_match; try (apply along_ret; apply _). exact IH.
Qed.
Lemma same_state_changed a : along same_ports (cc_actor_port_state_changed a).
Proof.
  unfold cc_actor_port_state_changed, cc_actor_set_state, upd_actor.
  apply along_bind; [apply _|apply same_get_actor|]. intros x.
  apply along_bind; [apply _|apply same_ports_state|]. intros s.
  apply along_bind; [apply _|case_match; [apply same_ports_state|apply along_ret; apply _]|]. intros s'.
  apply along_bind; [apply _|apply same_get_actor|]. intros y. by apply along_modify.
Qed.

Section enabled.
Context (l : loc).
Definition enabled (w : world) : Prop :=
  exists p, w_ports w !! l = Some p /\ port_state p = CC_PORT_ENABLED.
Definition stays_enabled (w w' : world) : Prop := enabled w -> enabled w'.
#[local] Instance stays_preorder : PreOrder stays_enabled.
Proof. split; [by intros w H|]. intros x y z H1 H2 H. by apply H2, H1. Qed.

Lemma set_enabled k w a w' : cc_port_set_state k CC_PORT_ENABLED w = Ok (a, w') ->
  (enabled w \/ k = l) -> enabled w'.
Proof.
  intros (x & Hx & E)%set_state_inv H. pose proof (same_state_changed _ _ _ _ E) as S.
  unfold same_ports in S. unfold enabled. rewrite S. simpl. destruct (decide (k = l)) as [->|N].
  - rewrite lookup_insert_eq. by eexists.
  - destruct H as [(p & Hp & Ep)|]; [|done]. exists p. by rewrite lookup_insert_ne.
Qed.
Lemma stays_upd_port k f : (forall x, port_state (f x) = port_state x) ->
  along stays_enabled (upd_port k f).
Proof.
  intros H w a w' (x & Hx & ->)%upd_port_inv (p & Hp & Ep). unfold enabled. simpl.
  destruct (decide (k = l)) as [->|N].
  - simplify_eq. rewrite lookup_insert_eq. eexists. split; [done|]. by rewrite H.
  - rewrite lookup_insert_ne by done. eauto.
Qed.
Lemma stays_peer_to_self k : along stays_enabled (set_peer_to_self k).
Proof.
  unfold set_peer_to_self. apply along_bind; [apply _| |].
  - intros w n w' E. by injection E as _ <-.
  - intros n. by apply stays_upd_port.
Qed.
Lemma stays_set_enabled k : along stays_enabled (cc_port_set_state k CC_PORT_ENABLED).
Proof. intros w a w' E H. eapply set_enabled; [exact E|by left]. Qed.

(** The connection to a port of this runtime connects, or leaves the attempts. *)
Lemma connect_local_inv w r w' : cc_port_connect_local l w = Ok (r, w') ->
  (r = CC_SUCCESS /\ enabled w') \/ (r <> CC_SUCCESS /\ kept l w w').
Proof.
  intros (p & w1 & [-> Hp]%get_port_inv & E)%bind_inv. apply bind_inv in E as (peer & w1 & E1 & E).
  destruct peer as [peer|].
  - left. repeat (apply bind_inv in E as ([] & ? & ? & E)). injection E as <- ->. split; [done|].
    eapply stays_set_enabled; [eassumption|]. eapply stays_peer_to_self; [eassumption|].
    eapply (stays_upd_port peer (set_port_peer_port (Some l))); [done|eassumption|].
    eapply set_enabled; [eassumption|by right].
  - right. injection E as <- ->. split; [done|]. by apply (fr_port_get (R := kept l)) in E1.
Qed.

(** One attempt. *)
Lemma connect_inv w p w' : cc_port_connect l w = Ok (tt, w') -> w_ports w !! l = Some p ->
  0 <= port_retries p <= 5 ->
  (port_state p = CC_PORT_ENABLED /\ w' = w)
  \/ (port_state p <> CC_PORT_ENABLED /\
      (enabled w'
       \/ exists p', w_ports w' !! l = Some p'
            /\ port_retries p' = Z.min 5 (port_retries p + 1)
            /\ (port_retries p = 5 -> port_state p' = CC_PORT_DO_DELETE))).
Proof.
  intros (q & w1 & [-> Hq]%get_port_inv & E)%bind_inv Hp R. assert (q = p) as -> by congruence. clear Hq.
  case_bool_decide as S; [left; by injection E as <-|]. right. split; [done|].
  destruct (Z.eqb_spec (port_retries p) 5) as [R5|R5].
  - right. apply set_state_inv in E as (x & Hx & E). assert (x = p) as -> by congruence.
    apply same_state_changed in E. unfold same_ports in E. rewrite E. simpl.
    rewrite lookup_insert_eq. eexists. split; [done|]. simpl. split; [lia|done].
  - apply bind_inv in E as ([] & w1 & (x & Hx & ->)%upd_port_inv & E). assert (x = p) as -> by congruence.
    set (w1 := set_ports _ w) in E.
    assert (tried l w1 = Some (port_retries p + 1)) as T.
    { unfold tried, w1. simpl. rewrite lookup_insert_eq. simpl. f_equal. rewrite u8_id; [done|]. unfold is_u8. lia. }
    apply bind_inv in E as (r & w2 & [[-> En]|[Nr K]]%connect_local_inv & E).
    { left. rewrite bool_decide_true in E by done. by injection E as <-. }
    right. rewrite bool_decide_false in E by done. apply kept_remote with (l := l) in E.
    unfold kept in *. rewrite <- K, <- E in T. unfold tried in T.
    destruct (w_ports w' !! l) as [p'|] eqn:Hp'; [|done]. injection T as T. exists p'. split; [done|].
    split; [lia|]. intros; lia.
Qed.

(** Any number of attempts. *)
Lemma attempts_enabled n w w' : attempts n l w = Ok (tt, w') -> enabled w -> w' = w.
Proof.
  revert w. induction n as [|n IH]; intros w E H; [by injection E as <-|].
  apply bind_inv in E as ([] & w1 & (q & w2 & [-> Hq]%get_port_inv & E1)%bind_inv & E).
  destruct H as (p & Hp & Ep). assert (q = p) as -> by congruence. rewrite bool_decide_true in E1 by done.
  injection E1 as <-. apply IH; [done|by exists p].
Qed.
Lemma attempts_inv n w p w' : attempts n l w = Ok (tt, w') -> w_ports w !! l = Some p ->
  0 <= port_retries p <= 5 ->
  enabled w'
  \/ exists p', w_ports w' !! l = Some p'
       /\ port_retries p' = Z.min 5 (port_retries p + Z.of_nat n)
       /\ (6 <= port_retries p + Z.of_nat n \/ port_retries p = 5 /\ port_state p = CC_PORT_DO_DELETE ->
           port_state p' = CC_PORT_DO_DELETE).
Proof.
  revert w p. induction n as [|n IH]; intros w p E Hp R.
  { right. injection E as <-. exists p. split; [done|]. split; [lia|]. intros [?|[_ ?]]; [lia|done]. }
  apply bind_inv in E as ([] & w1 & E1 & E).
  destruct (connect_inv w p w1 E1 Hp R) as [[S ->]|[S [En|(p1 & Hp1 & R1 & D1)]]].
  - left. assert (enabled w) as H by by exists p. by rewrite (attempts_enabled n w w' E H).
  - left. by rewrite (attempts_enabled n w1 w' E En).
  - destruct (IH w1 p1 E Hp1 ltac:(lia)) as [?|(p' & Hp' & R' & D')]; [by left|]. right. exists p'.
    split; [done|]. split; [lia|]. intros H. apply D'.
    destruct (Z.eq_dec (port_retries p) 5) as [R5|]; [right|left]; [|lia].
    split; [lia|by apply D1].
Qed.
End enabled.

(** ** A peer that is nowhere to be found *)

(** The ports are found by their identifiers, and none of them is [k]. *)
Record elsewhere (k : bytes) (w : world) : Prop := {
  listed_actors : Forall (fun a => is_Some (w_actors w !! a)) (node_actors (w_node w));
  listed_ports : Forall (searchable w) (all_ports w);
  not_listed : Forall (fun l => cstr (port_key w l) <> k) (all_ports w)
}.

(** Worlds with the same lists of ports and the same identifiers. *)
Record lists_alike (w w' : world) : Prop := {
  la_node : node_actors (w_node w') = node_actors (w_node w);
  la_actors a : is_Some (w_actors w !! a) -> is_Some (w_actors w' !! a);
  la_ports a : ports_of w' a = ports_of w a;
  la_ids l : port_id <$> w_ports w' !! l = port_id <$> w_ports w !! l
}.

Lemma lists_alike_all w w' : lists_alike w w' -> all_ports w' = all_ports w.
Proof.
  intros H. unfold all_ports. rewrite (la_node _ _ H). f_equal. apply map_ext. apply (la_ports _ _ H).
Qed.

Lemma elsewhere_alike k w w' : lists_alike w w' -> elsewhere k w -> elsewhere k w'.
Proof.
  intros H [H1 H2 H3]. split; rewrite ?(lists_alike_all _ _ H), ?(la_node _ _ H).
  - eapply Forall_impl; [exact H1|]. apply (la_actors _ _ H).
  - eapply Forall_impl; [exact H2|]. intros l (p & s & Hp & Hs). pose proof (la_ids _ _ H l) as E.
    rewrite Hp in E. apply fmap_Some in E as (p' & Hp' & Ep). exists p', s. by rewrite <- Ep.
  - eapply Forall_impl; [exact H3|]. intros l. unfold port_key. by rewrite (la_ids _ _ H).
Qed.

Lemma run_port_get_none k rest w : elsewhere k w -> cc_port_get (k ++ rest) (length k) w = Ok (None, w).
Proof.
  intros [H1 H2 H3]. unfold cc_port_get. run1. rewrite run_find_port by done. do 2 f_equal.
  fold (all_ports w). clear H1 H2. induction H3 as [|l ls Hl _ IH]; cbn [List.find]; [done|].
  by rewrite bool_decide_false.
Qed.

Lemma alike_put w l p p' : w_ports w !! l = Some p -> port_id p' = port_id p ->
  lists_alike w (set_ports (<[l := p']> (w_ports w)) w).
Proof.
  intros Hp E. split; try done. intros k. simpl. destruct (decide (l = k)) as [<-|].
  - rewrite lookup_insert_eq, Hp. simpl. by rewrite E.
  - by rewrite lookup_insert_ne.
Qed.
Lemma alike_refreshed w a : lists_alike w (refreshed a w).
Proof.
  split; try done; simpl.
  - intros b H. by apply lookup_alter_is_Some.
  - intros b. unfold ports_of. simpl. destruct (decide (a = b)) as [<-|].
    + rewrite lookup_alter_eq. by destruct (w_actors w !! a).
    + by rewrite lookup_alter_ne.
Qed.

(** The lookup of a port in the storage, as [cc_proto_send_get_port] writes it. *)
Definition lookup_text (start peer id tid peer_port u : bytes) : bytes :=
  let '(key, key_len) := storage_key (str "port-") peer_port in
  let w := tunnel_data_to_from start peer id tid in
  let w := cc_coder_encode_kv_map w (str "value") 3 in
  let w := cc_coder_encode_kv_str w (str "cmd") (str "GET") 3 in
  let w := cc_coder_encode_kv_str w (str "key") key (strnlen key key_len) in
  kv_uuid w (str "msg_uuid") u.

(** The storage can be asked for the port: its route is alive, and the message fits. *)
Definition can_ask (peer_port : bytes) (w : world) : Prop :=
  exists client k x t y,
    node_transport_client (w_node w) = Some client /\ node_proxy_link (w_node w) = Some k
    /\ w_links w !! k = Some x /\ node_storage_tunnel (w_node w) = Some t /\ w_tunnels w !! t = Some y
    /\ forall u, length u = CC_UUID_BUFFER_SIZE ->
        (length (lookup_text (message_start client) (link_peer_id x) (node_id (w_node w)) (tunnel_id y)
                   peer_port u) <= 1000)%nat.

(** What asking leaves: a message pending perhaps, and at most one more sent. *)
Definition asked (w w' : world) : Prop := exists pm n more, (length more <= 1)%nat /\
  w' = set_sent (w_sent w ++ more) (set_calls n (set_node (set_node_pending_msgs pm (w_node w)) w)).

Lemma run_alloc_any w : cc_platform_mem_alloc w = Ok (plat_alloc (w_calls w), set_calls (S (w_calls w)) w).
Proof. done. Qed.
Lemma run_list_add_any {A} (h : list (cc_list_t A)) u n d z w : exists o c,
  cc_list_add_n h u n d z w = Ok (o, set_calls c w).
Proof.
  unfold cc_list_add_n. run_with (run_alloc_any w). destruct (plat_alloc _); cbn [negb]; [|by do 2 eexists].
  run_with (run_alloc_any (set_calls (S (w_calls w)) w)). destruct (plat_alloc _); by do 2 eexists.
Qed.
Lemma run_add_pending u h d w : exists r pm c, cc_node_add_pending_msg u h d w
  = Ok (r, set_calls c (set_node (set_node_pending_msgs pm (w_node w)) w)).
Proof.
  assert (forall c, set_calls c w = set_calls c (set_node (set_node_pending_msgs (node_pending_msgs (w_node w))
    (w_node w)) w)) as E by (by destruct w as [[]]).
  unfold cc_node_add_pending_msg. run_with (run_alloc_any w). destruct (plat_alloc _); cbn [negb].
  - run1. edestruct (run_list_add_any (node_pending_msgs (w_node w)) u (uuid_len u)) as (o & c & Er).
    run_with Er. destruct o as [pm|].
    + by do 3 eexists.
    + eexists CC_FAIL, _, c. by rewrite <- E.
  - eexists CC_FAIL, _, _. by rewrite <- E.
Qed.

Lemma run_remove_pending u w : exists pm, cc_node_remove_pending_msg u w
  = Ok (tt, set_node (set_node_pending_msgs pm (w_node w)) w).
Proof.
  unfold cc_node_remove_pending_msg. run1. case_match; [by eexists|].
  exists (node_pending_msgs (w_node w)). by destruct w as [[]].
Qed.
Lemma run_transport_send client b w : exists r f, cc_transport_send (Some client) b w
  = Ok (r, set_sent (w_sent w ++ [f]) (set_calls (S (w_calls w)) w)).
Proof. by do 2 eexists. Qed.

Lemma run_request cap text u h d w client : node_transport_client (w_node w) = Some client ->
  (length text <= cap)%nat -> exists r w', send_request cap text u h d w = Ok (r, w') /\ asked w w'.
Proof.
  intros Hc Hl. unfold send_request, in_buffer. rewrite (proj2 (Nat.leb_le _ _)) by done.
  rewrite (bind_Ok _ _ _ tt w) by done. destruct (run_add_pending u h d w) as (r & pm & c & E).
  run_with E. set (w1 := set_calls c _). case_bool_decide.
  - run1. change (node_transport_client (w_node w1)) with (node_transport_client (w_node w)). rewrite Hc.
    destruct (run_transport_send client text w1) as (s & f & Es). run_with Es.
    set (w2 := set_sent _ _). case_bool_decide.
    + do 2 eexists. split; [done|]. by exists pm, (S c), [f].
    + destruct (run_remove_pending u w2) as (pm' & Er). run_with Er. do 2 eexists. split; [done|].
      by exists pm', (S c), [f].
  - exists CC_FAIL. eexists. split; [done|]. exists pm, c, []. split; [simpl; lia|].
    by rewrite app_nil_r.
Qed.

Lemma run_send_get_port pp h d w : can_ask pp w ->
  exists r w', cc_proto_send_get_port pp h d w = Ok (r, w') /\ asked w w'.
Proof.
  intros (client & k & x & t & y & Hc & Hk & Hx & Ht & Hy & F). unfold cc_proto_send_get_port.
  unfold lookup_text in F. destruct (storage_key (str "port-") pp) as [key len].
  unfold gen_msg_uuid, gen_uuid_buffer.
  set (u := cc_gen_uuid (Some (str "MSGID_")) (fun i => plat_rand (w_calls w + i))).
  set (w1 := set_calls (36 + w_calls w) w).
  set (id := u ++ drop (length u) (zeroed CC_UUID_BUFFER_SIZE)).
  rewrite (bind_Ok _ _ _ id w1) by done.
  unfold storage_route. rewrite (bind_Ok _ _ _ (client, link_peer_id x, node_id (w_node w), tunnel_id y) w1).
  2: { run1. change (w_node w1) with (w_node w). unfold deref. rewrite Hc, Hk, Ht. cbn [need].
       rewrite (bind_Ok _ _ _ client w1), (bind_Ok _ _ _ k w1) by done. run1.
       rewrite (bind_Ok _ _ _ t w1) by done. by run1. }
  specialize (F id eq_refl).
  destruct (run_request _ _ id h d w1 client Hc F) as (r & w' & E & (pm & c & more & Hm & ->)).
  do 2 eexists. split; [exact E|]. by exists pm, c, more.
Qed.

(** A port in search of its peer: no tunnel, no peer runtime, a peer [k] that is not of
    this runtime, and a storage to ask. *)
Record searching (k : bytes) (l : loc) (w : world) : Prop := {
  sg_wired : wired w;
  sg_elsewhere : elsewhere k w;
  sg_port : exists p, w_ports w !! l = Some p /\ in_id k (port_peer_port_id p)
    /\ port_tunnel p = None /\ uuid_len (port_peer_id p) = 0%nat /\ port_state p <> CC_PORT_ENABLED
    /\ can_ask (port_peer_port_id p) w
}.

(** The port changes in what does not matter. *)
Lemma searching_put k l w p p' : searching k l w -> w_ports w !! l = Some p ->
  port_id p' = port_id p -> port_actor p' = port_actor p -> port_peer_port_id p' = port_peer_port_id p ->
  port_tunnel p' = None -> uuid_len (port_peer_id p') = 0%nat -> port_state p' <> CC_PORT_ENABLED ->
  searching k l (set_ports (<[l := p']> (w_ports w)) w).
Proof.
  intros [Hw He (q & Hq & Hk & _ & _ & _ & Ha)] Hp Ei Ea Ep Et Eu Es. assert (q = p) as -> by congruence.
  split.
  - by apply (wired_put_port w l p p').
  - eapply elsewhere_alike; [by eapply alike_put|done].
  - exists p'. split; [apply lookup_insert_eq|]. rewrite Ep. by repeat (split; [done|]).
Qed.
Lemma searching_refreshed k l w a : searching k l w -> searching k l (refreshed a w).
Proof.
  intros [Hw He Hp]. split; [by apply wired_refreshed| |exact Hp].
  eapply elsewhere_alike; [apply alike_refreshed|done].
Qed.
Lemma searching_asked k l w w' : searching k l w -> asked w w' -> searching k l w'.
Proof. intros [[] [] Hp] (pm & n & more & _ & ->). by repeat split. Qed.

(** The port is put in a state. *)
Lemma run_state k l w s : searching k l w -> s <> CC_PORT_ENABLED -> exists w',
  cc_port_set_state l s w = Ok (tt, w') /\ searching k l w' /\ w_sent w' = w_sent w.
Proof.
  intros H Hs. destruct (sg_port _ _ _ H) as (p & Hp & _ & Et & Eu & _).
  rewrite (run_set_state w l s p (sg_wired _ _ _ H) Hp). eexists. split; [done|]. split; [|done].
  apply searching_refreshed, (searching_put k l w p); try done; unfold in_state;
    rewrite bool_decide_false by done; done.
Qed.

(** The lookup of the peer ends, with at most one message. *)
Lemma run_peer_lookup k l w : searching k l w -> exists w',
  cc_port_do_peer_lookup l w = Ok (tt, w') /\ searching k l w'
  /\ (length (w_sent w') <= S (length (w_sent w)))%nat.
Proof.
  intros H. destruct (sg_port _ _ _ H) as (p & Hp & _ & _ & _ & _ & Ha). unfold cc_port_do_peer_lookup. run1.
  destruct (run_send_get_port _ H_port_get_peer_port_reply (MD_port_id l) w Ha) as (r & w1 & E1 & A).
  run_with E1. pose proof (searching_asked _ _ _ _ H A) as H1.
  destruct (run_state k l w1 (if bool_decide (r = CC_SUCCESS) then CC_PORT_PENDING_LOOKUP
    else CC_PORT_DISCONNECTED) H1) as (w2 & E2 & H2 & S2); [by case_bool_decide|]. exists w2.
  split; [by case_bool_decide|]. split; [done|]. destruct A as (pm & n & more & Hm & ->).
  rewrite S2. simpl. rewrite length_app. lia.
Qed.

(** One attempt ends, with at most one message for each attempt counted. *)
Lemma connect_searching k l w : searching k l w -> exists w',
  cc_port_connect l w = Ok (tt, w') /\ searching k l w'
  /\ (tried l w = Some 5 /\ w_sent w' = w_sent w
      \/ tried l w <> Some 5 /\ (length (w_sent w') <= S (length (w_sent w)))%nat).
Proof.
  intros H. destruct (sg_port _ _ _ H) as (p & Hp & Hk & Et & Eu & Es & Ha). unfold cc_port_connect.
  run1. rewrite bool_decide_false by done. destruct (Z.eqb_spec (port_retries p) 5) as [R|R].
  { destruct (run_state k l w CC_PORT_DO_DELETE H) as (w' & E & H' & Es'); [done|]. exists w'.
    split; [done|]. split; [done|]. left. split; [|done]. unfold tried. rewrite Hp. simpl. by f_equal. }
  run_with (run_upd_port w l p (set_port_retries (u8 (port_retries p + 1))) Hp).
  set (p1 := set_port_retries _ p). set (w1 := set_ports _ w).
  assert (searching k l w1) as H1 by by apply (searching_put k l w p).
  assert (w_ports w1 !! l = Some p1) as Hp1 by apply lookup_insert_eq.
  rewrite (bind_Ok _ _ _ CC_FAIL w1).
  2: { unfold cc_port_connect_local. run1. change (port_peer_port_id p1) with (port_peer_port_id p).
       rewrite (in_id_len k) by done. destruct Hk as (_ & _ & rest & ->).
       by run_with (run_port_get_none k (NUL :: rest) w1 (sg_elsewhere _ _ _ H1)). }
  rewrite bool_decide_false by done. unfold cc_port_connect_remote. run1.
  change (port_tunnel p1) with (port_tunnel p). change (port_peer_id p1) with (port_peer_id p).
  rewrite Et, Eu. cbn [Nat.ltb Nat.leb when]. rewrite (bind_Ok _ _ _ tt w1) by done.
  run1. change (port_tunnel p1) with (port_tunnel p). rewrite Et.
  rewrite (bind_Ok _ _ _ CC_FAIL w1) by done. rewrite bool_decide_false by done.
  unfold clear_peer_id. run_with (run_upd_port w1 l p1 (set_port_peer_id (zeroed CC_UUID_BUFFER_SIZE)) Hp1).
  set (p2 := set_port_peer_id _ p1). set (w2 := set_ports _ w1).
  assert (searching k l w2) as H2 by (by apply (searching_put k l w1 p1)).
  destruct (run_state k l w2 CC_PORT_DISCONNECTED H2) as (w3 & E3 & H3 & S3); [done|]. run_with E3.
  destruct (run_peer_lookup k l w3 H3) as (w4 & E4 & H4 & S4). exists w4. split; [done|]. split; [done|]. right.
  split; [|by rewrite S3 in S4]. unfold tried. rewrite Hp. simpl. intros E. by injection E.
Qed.

Lemma attempts_searching n k l w p : searching k l w -> w_ports w !! l = Some p ->
  0 <= port_retries p <= 5 -> exists w' p', attempts n l w = Ok (tt, w')
  /\ w_ports w' !! l = Some p' /\ port_state p' <> CC_PORT_ENABLED
  /\ Z.of_nat (length (w_sent w')) + port_retries p <= Z.of_nat (length (w_sent w)) + port_retries p'.
Proof.
  revert w p. induction n as [|n IH]; intros w p H Hp R.
  { exists w, p. destruct (sg_port _ _ _ H) as (q & Hq & _ & _ & _ & S & _). simplify_eq.
    repeat (split; [done|]). done. }
  destruct (connect_searching k l w H) as (w1 & E & H1 & S1).
  destruct (sg_port _ _ _ H1) as (p1 & Hp1 & _ & _ & _ & N1 & _).
  assert (port_retries p1 = Z.min 5 (port_retries p + 1)) as R1.
  { destruct (sg_port _ _ _ H) as (q & Hq & _ & _ & _ & N & _). simplify_eq.
    destruct (connect_inv l w p w1 E Hp R) as [[? _]|[_ [(q & Hq' & ?)|(q & Hq' & ? & _)]]]; by simplify_eq. }
  destruct (IH w1 p1 H1 Hp1 ltac:(lia)) as (w' & p' & E' & Hp' & N' & S'). exists w', p'.
  split; [cbn [attempts]; by run_with E|]. split; [done|]. split; [done|].
  unfold tried in S1. rewrite Hp in S1. destruct S1 as [[T S1]|[T S1]]; simpl in T.
  - injection T as T. rewrite S1 in S'. lia.
  - assert (port_retries p <> 5) by congruence. lia.
Qed.

(** C30: a port gives up.  However often [cc_port_connect] is called for a port that has
    been tried at most five times, whatever the platform answers, the port ends connected
    or with every call counted, up to five; and from the sixth attempt on it is in the
    state DO_DELETE.  For a port without tunnel and peer runtime, whose peer is not of
    this runtime, all calls end, with at most one message sent for each attempt that is
    counted: six calls, five lookups, and the deletion is asked for. *)
Theorem connect_gives_up (w : world) (l : loc) (p : cc_port_t) (n : nat) :
  w_ports w !! l = Some p -> 0 <= port_retries p <= 5 ->
  let gave_up w' := exists p', w_ports w' !! l = Some p'
       /\ port_retries p' = Z.min 5 (port_retries p + Z.of_nat n)
       /\ (6 <= port_retries p + Z.of_nat n -> port_state p' = CC_PORT_DO_DELETE) in
  (forall w', attempts n l w = Ok (tt, w') -> enabled l w' \/ gave_up w')
  /\ (forall k, searching k l w -> exists w', attempts n l w = Ok (tt, w') /\ gave_up w' /\ ~ enabled l w'
        /\ Z.of_nat (length (w_sent w'))
           <= Z.of_nat (length (w_sent w)) + Z.min (Z.of_nat n) (5 - port_retries p)).
Proof.
  intros Hp R gave_up. assert (forall w', attempts n l w = Ok (tt, w') -> enabled l w' \/ gave_up w') as H.
  { intros w' E. destruct (attempts_inv l n w p w' E Hp R) as [?|(p' & ? & ? & D)]; [by left|].
    right. exists p'. auto. }
  split; [exact H|]. intros k S.
  destruct (attempts_searching n k l w p S Hp R) as (w' & p' & E & Hp' & N & B). exists w'. split; [done|].
  assert (~ enabled l w') as N' by (intros (q & Hq & ?); by simplify_eq).
  destruct (H w' E) as [?|G]; [done|]. split; [done|]. split; [done|].
  destruct G as (q & Hq & Rq & _). simplify_eq. lia.
Qed.

(** ** A request to disconnect *)

(** A reference of a tunnel is given back while others remain. *)
Definition unref (t : option loc) (w : world) : world :=
  match t with
  | Some l => set_tunnels (alter (fun x => set_tunnel_ref_count (tunnel_ref_count x - 1) x) l (w_tunnels w)) w
  | None => w
  end.
Definition shared (t : option loc) (w : world) : Prop :=
  forall l, t = Some l -> exists x, w_tunnels w !! l = Some x /\ 1 < tunnel_ref_count x < 256.

Lemma run_remove_ref w l x : w_tunnels w !! l = Some x -> 1 < tunnel_ref_count x < 256 ->
  cc_tunnel_remove_ref (Some l) w = Ok (tt, unref (Some l) w).
Proof.
  intros E C. unfold cc_tunnel_remove_ref. run1. rewrite u8_id by (unfold is_u8; lia).
  destruct (Z.eqb_spec (tunnel_ref_count x - 1) 0); [lia|]. cbn [when].
  unfold unref. rewrite (bind_Ok _ _ _ tt (set_tunnels (<[l := set_tunnel_ref_count (tunnel_ref_count x - 1) x]>
    (w_tunnels w)) w)) by done. cbv [mret M_ret]. do 3 f_equal. apply map_eq. intros k.
  destruct (decide (l = k)) as [<-|]; [by rewrite lookup_insert_eq, lookup_alter_eq, E|].
  by rewrite lookup_insert_ne, lookup_alter_ne.
Qed.

Lemma run_drop_tunnel w l p : w_ports w !! l = Some p -> shared (port_tunnel p) w ->
  drop_tunnel_if_any l w
  = Ok (tt, unref (port_tunnel p) (set_ports (<[l := set_port_tunnel None p]> (w_ports w)) w)).
Proof.
  intros E S. unfold drop_tunnel_if_any. run1. destruct (port_tunnel p) as [t|] eqn:Et.
  - destruct (S t eq_refl) as (x & Ex & C). unfold drop_tunnel. run1. rewrite Et.
    run_with (run_remove_ref w t x Ex C). by rewrite (run_upd_port (unref (Some t) w) l p).
  - assert (set_port_tunnel None p = p) as -> by (destruct p; simpl in *; by subst).
    by rewrite insert_id, set_ports_id.
Qed.

(** C29: the peer disconnects.  [cc_port_handle_disconnect] of a known port, with no
    tunnel or one that others use too, leaves the port DISCONNECTED, without peer
    runtime and without tunnel, one reference of which is given back; the tokens
    sent and not acknowledged are again the next to be sent, in their order; the
    actor is in the state its ports impose, and nothing is sent or freed. *)
Theorem handle_disconnect_spec (w : world) (l : loc) (p : cc_port_t) (f : cc_fifo_t) (q : aqueue)
  (id : bytes) (n : nat) :
  wired w -> cc_port_get id n w = Ok (Some l, w) -> w_ports w !! l = Some p ->
  port_fifo p = Some f -> repr f q -> shared (port_tunnel p) w ->
  exists w' p' f', cc_port_handle_disconnect id n w = Ok (CC_SUCCESS, w')
    /\ w_ports w' = <[l := p']> (w_ports w)
    /\ port_state p' = CC_PORT_DISCONNECTED /\ port_tunnel p' = None
    /\ port_peer_id p' = zeroed CC_UUID_BUFFER_SIZE
    /\ port_fifo p' = Some f' /\ repr f' (aq_cancel q)
    /\ w_tunnels w' = w_tunnels (unref (port_tunnel p) w)
    /\ follows w' (port_actor p)
    /\ w_sent w' = w_sent w /\ w_mem w' = w_mem w /\ w_calls w' = w_calls w /\ w_node w' = w_node w.
Proof.
  intros H Hg E F R S. unfold cc_port_handle_disconnect. run_with Hg. run_with (run_get_fifo w l p f E F).
  run_with (run_put_fifo w l p (cc_fifo_cancel f) E).
  set (p1 := set_port_fifo _ p). set (w1 := set_ports _ w).
  assert (w_ports w1 !! l = Some p1) as E1 by apply lookup_insert_eq.
  assert (wired w1) as H1 by by apply (wired_put_port w l p p1).
  run_with (run_set_state w1 l CC_PORT_DISCONNECTED p1 H1 E1).
  set (p2 := in_state _ p1). set (w2 := refreshed _ _).
  assert (w_ports w2 !! l = Some p2) as E2 by apply lookup_insert_eq.
  run_with (run_clear_peer_id w2 l p2 E2). set (p3 := set_port_peer_id _ p2). set (w3 := set_ports _ w2).
  assert (w_ports w3 !! l = Some p3) as E3 by apply lookup_insert_eq.
  run_with (run_drop_tunnel w3 l p3 E3 S). set (w4 := unref _ _).
  exists w4, (set_port_tunnel None p3), (cc_fifo_cancel f).
  assert (w_ports w4 = <[l := set_port_tunnel None p3]> (w_ports w)) as Ew.
  { unfold w4, unref. destruct (port_tunnel p3); simpl; by rewrite !insert_insert_eq. }
  assert (follows (set_ports (<[l := set_port_tunnel None p3]> (w_ports w3)) w3) (port_actor p)) as Hf.
  { apply (follows_set_fifo w3 l p3); [done|done|]. apply (follows_set_fifo w2 l p2); [done|done|].
    apply follows_refreshed. }
  split; [done|]. split; [done|]. split; [done|]. split; [done|]. split; [done|]. split; [done|].
  split; [by apply cc_fifo_cancel_repr|]. unfold w4, unref.
  change (port_tunnel p3) with (port_tunnel p). destruct (port_tunnel p); repeat split; done.
Qed.
End peer.

(** The peer of the port is a port of nobody here. *)
Definition lone_port : cc_port_t :=
  a_port (str "out-port") (str "token") (str "other-port") CC_PORT_DIRECTION_OUT CC_PORT_DISCONNECTED 10.
Definition lone_world : world :=
  set_ports (<[20%positive := lone_port]> (w_ports the_world)) the_world.

Lemma ref_str_short s n : Z.of_nat n < 2 ^ 8 -> (length (ref_encode_str s (Z.of_nat n)) <= 2 + length s)%nat.
Proof.
  intros H. unfold ref_encode_str, ref_str_head. rewrite length_app, length_take.
  repeat case_match; simpl; lia.
Qed.

Lemma lone_world_asks : can_ask (port_peer_port_id lone_port) lone_world.
Proof.
  exists the_client, 1%positive. eexists _, 2%positive, _. repeat (split; [reflexivity|]). intros u Hu.
  unfold lookup_text. destruct (storage_key _ _) as [key len] eqn:Ek.
  unfold kv_uuid at 1, cc_coder_encode_kv_str at 1. rewrite length_app.
  change mp_encode_str with ref_encode_str.
  pose proof (strnlen_le u CC_UUID_BUFFER_SIZE) as L. unfold CC_UUID_BUFFER_SIZE in *.
  pose proof (ref_str_short u (uuid_len u)) as B. unfold uuid_len, CC_UUID_BUFFER_SIZE in *.
  rewrite Hu in B. specialize (B ltac:(lia)).
  injection Ek as <- <-. 
  match goal with |- (length ?x + _ <= _)%nat => let n := eval vm_compute in (length x) in
    assert (length x = n) as -> by (vm_compute; reflexivity) end. lia.
Qed.

Lemma lone_world_searching : searching (str "other-port") 20 lone_world.
Proof.
  split.
  - eapply (wired_put_port the_world 20); [apply the_world_wired|reflexivity|reflexivity].
  - split.
    + repeat constructor; eexists; reflexivity.
    + repeat constructor; eexists _, _; (split; [reflexivity|]);
        apply in_id_id50, (bool_decide_unpack _); vm_compute; exact I.
    + repeat constructor; by vm_compute.
  - exists lone_port. split; [reflexivity|]. split.
    { apply in_id_id50, (bool_decide_unpack _). vm_compute. exact I. }
    repeat (split; [done|]). apply lone_world_asks.
Qed.

Lemma connect_gives_up_witness :
  exists w' p', attempts 6 20 lone_world = Ok (tt, w') /\ w_ports w' !! 20%positive = Some p'
    /\ port_state p' = CC_PORT_DO_DELETE /\ (length (w_sent w') <= 5)%nat.
Proof.
  destruct (connect_gives_up lone_world 20 lone_port 6 eq_refl) as [_ G]; [by split|].
  destruct (G (str "other-port") lone_world_searching) as (w' & E & (p' & Hp' & _ & D) & _ & S).
  exists w', p'. split; [exact E|]. split; [exact Hp'|]. split; [by apply D|].
  change (length (w_sent lone_world)) with 0%nat in S. change (port_retries lone_port) with 0 in S. lia.
Defined.

Lemma handle_disconnect_spec_witness :
  exists w' p' f', cc_port_handle_disconnect (str "out-port") 8 connected_world = Ok (CC_SUCCESS, w')
    /\ w_ports w' = <[20%positive := p']> (w_ports connected_world)
    /\ port_fifo p' = Some f' /\ repr f' {| pending := []; unread := [a_token] |}.
Proof.
  destruct (handle_disconnect_spec connected_world 20 local_out_port sent_fifo
    {| pending := []; unread := [a_token] |} (str "out-port") 8 connected_world_wired)
    as (w' & p' & f' & E & W & _ & _ & _ & F & R & _); try reflexivity.
  - apply sent_fifo_repr.
  - intros l Hl. discriminate.
  - exists w', p', f'. repeat (split; [assumption|]). exact R.
Defined.
