(* ===== verification/AndroidProps.v ===== *)
(** The pipes between an Android application and its runtime (cc_platform_android.c,
    cc_jni_api.c): what goes up, and what goes down. *)
From S2P Require Import Prelude CString CText Common Json MsgPuck MsgPackRef Coder Fifo Machine Transport ProtoSend.
From S2P Require Import Port Proto Runtime ActorStore Calvinsys Timer Actor AppManager Node NodeRun Dispatch.
From S2P Require Import Socket X86Platform Api Android ActorLib Sensors Library AndroidDevices.
From S2P Require Import CoderSpec MsgSpec TransportSpec Runs Examples SocketProps StorageProps.

(** What [framed] makes of a buffer with room for the head. *)
Lemma framed_headed cmd body : framed cmd (headed body) = downstream_message cmd body.
Proof.
  unfold framed, downstream_message. f_equal.
  unfold cc_transport_set_length_prefix. rewrite take_app_le, firstn_all2 by done. f_equal.
  unfold headed. rewrite length_app. unfold CC_TRANSPORT_LEN_PREFIX_SIZE, PLATFORM_ANDROID_COMMAND_SIZE.
  change (length (zeroed 6)) with 6%nat. lia.
Qed.

Lemma length_downstream cmd body : length cmd = 2%nat -> length (downstream_message cmd body) = (6 + length body)%nat.
Proof. intros H. unfold downstream_message. by rewrite !length_app, H. Qed.

Lemma downstream_len cmd body rest : Z.of_nat (length body) + 2 < 2 ^ 32 ->
  cc_transport_get_message_len (downstream_message cmd body ++ rest) = 2 + Z.of_nat (length body).
Proof.
  intros H. unfold downstream_message. rewrite <- app_assoc.
  rewrite get_message_len_prefix; [done|]. unfold is_u32, PLATFORM_ANDROID_COMMAND_SIZE. lia.
Qed.

Lemma copy_to_length buffer i data b : copy_to buffer i data = Some b -> length b = length buffer.
Proof.
  unfold copy_to. destruct (_ <=? _)%nat eqn:E; [|done]. intros [= <-]. apply Nat.leb_le in E.
  rewrite !length_app, length_take, length_drop. lia.
Qed.

Section pipes.
Context {V : Type} `{C : !Code V} `{P : Platform} `{MP : MsgPuck} `{L : !MsgPuckLaws MP} `{J : Jsmn}.
Context `{SK : Sockets} `{AN : Android} `{ST : !Storage V}.
Context `{HP : !Holds V node_platform} `{HE : !Holds V platform_android_external_state_t}.
(** The pipes have room, and take what is written to them. *)
Hypothesis Hpipe : forall n k, pipe_write n k = Z.of_nat k.
Implicit Types (s : rt V).

Definition has_android s (a : cc_platform_android_t) : Prop :=
  ps_statics (rt_platform s) !! 0%nat = Some (hold (PlatformAt a)).

(** What the upstream pipe holds. *)
Definition upstream s (b : bytes) : Prop := exists a, has_android s a /\ an_upstream a = b.
Definition downstream s (b : bytes) : Prop := exists a, has_android s a /\ an_downstream a = b.

Lemma run_get_android s a : has_android s a -> get_android s = Ok (a, s).
Proof.
  intros H. unfold get_android. rewrite (bind_Ok get_platform _ s (rt_platform s) s eq_refl).
  unfold state_as. rewrite H. exec. rewrite held_hold. reflexivity.
Qed.

Definition with_android (a : cc_platform_android_t) s : rt V :=
  set_platform (set_ps_statics (<[0%nat := hold (PlatformAt a)]> (ps_statics (rt_platform s))) (rt_platform s)) s.
Lemma with_android_has a s : has_android (with_android a s) a.
Proof. apply lookup_insert_eq. Qed.

Lemma run_put_upstream s a b : has_android s a ->
  put_upstream b s = Ok (tt, with_android {| an_upstream := b; an_downstream := an_downstream a; an_looper := an_looper a |} s).
Proof. intros H. unfold put_upstream. by run_with (run_get_android s a H). Qed.
Lemma run_put_downstream s a b : has_android s a ->
  put_downstream b s = Ok (tt, with_android {| an_upstream := an_upstream a; an_downstream := b; an_looper := an_looper a |} s).
Proof. intros H. unfold put_downstream. by run_with (run_get_android s a H). Qed.

(** A step that leaves the objects alone and the upstream pipe with [b]. *)
Definition up_step {A} (m : R V A) s (x : A) (b : bytes) : Prop :=
  exists s', m s = Ok (x, s') /\ upstream s' b /\ cs_objects s' = cs_objects s.

Lemma run_write_upstream s b data : upstream s b ->
  up_step (write_upstream data) s (Z.of_nat (length data)) (b ++ data).
Proof using Hpipe.
  intros (a & H & <-). unfold up_step, write_upstream. run_with (run_get_android s a H).
  run_with (run_os_tick s). rewrite Hpipe. set (s1 := later _ s). assert (has_android s1 a) as H1 by exact H.
  run_with (run_put_upstream s1 a (an_upstream a ++ take (Z.to_nat (Z.of_nat (length data))) data) H1).
  eexists. split; [reflexivity|]. split; [|done]. eexists. split; [apply with_android_has|].
  cbn [an_upstream]. by rewrite Nat2Z.id, firstn_all.
Qed.

(** ** From an object to the application *)

Definition external_body (id data : bytes) : list (bytes * mpval) := [(str "id", VStr id); (str "payload", VBin data)].

(** The message fits the array it is put together in, and the one it is read into. *)
Definition external_fits (id data : bytes) : Prop :=
  let n := length (mp_enc (smap (external_body id data))) in
  (6 + n <= 100 + length data)%nat /\ (6 + n + 3 <= CC_TRANSPORT_RX_BUFFER_SIZE)%nat.

Definition external_frame (id data : bytes) : bytes :=
  downstream_message PLATFORM_ANDROID_EXTERNAL_CALVINSYS_PAYLOAD (mp_enc (smap (external_body id data))).

(** The object [obj] has the identifier [id]. *)
Definition has_id s (obj : loc) (id : bytes) : Prop :=
  li_id <$> List.find (fun i => bool_decide (li_data i = obj)) (cs_objects s) = Some id.

Lemma run_external_msg s cmd body size b : length cmd = 2%nat -> (6 + length body <= size)%nat -> upstream s b ->
  up_step (external_msg cmd body size) s (Z.of_nat (6 + length body)) (b ++ downstream_message cmd body).
Proof using Hpipe.
  intros Hc Hf Hu. unfold up_step, external_msg.
  assert (on_world (in_buffer size (headed body)) s = Ok (tt, s)) as E.
  { erewrite run_on_world; [by rewrite set_world_id|]. unfold in_buffer, headed.
    rewrite length_app. change (length (zeroed 6)) with 6%nat. by rewrite (proj2 (Nat.leb_le _ _)) by exact Hf. }
  run_with E. unfold send_upstream_platform_message. rewrite framed_headed, <- (length_downstream cmd body Hc).
  by apply run_write_upstream.
Qed.

Lemma run_external_write s obj id data b : has_id s obj id -> nul_free id -> external_fits id data -> upstream s b ->
  up_step (platform_external_write obj (Some data)) s CC_SUCCESS (b ++ external_frame id data).
Proof using L Hpipe.
  intros Hi Hn [Hf _] Hu. unfold up_step, platform_external_write.
  rewrite (bind_Ok (need NullDeref (Some data)) _ s data s eq_refl).
  rewrite (bind_Ok (obj_id obj) _ s id s) by (unfold obj_id; rrun1; by rewrite Hi).
  rewrite strlen_nul_free_all by done. rewrite kv_str_lit, kv_bin_entry by keys. set (w := (_ ++ _) ++ _).
  assert (w = mp_enc (smap (external_body id data))) as ->.
  { unfold w. rewrite <- app_assoc, <- mp_enc_kvs_app. exact (map_open [] (skvs (external_body id data))). }
  destruct (run_external_msg s PLATFORM_ANDROID_EXTERNAL_CALVINSYS_PAYLOAD _ _ b eq_refl Hf Hu) as (s' & E & H).
  exists s'. run_with E. split; [|exact H].
  by replace (0 <? Z.of_nat _) with true by (symmetry; apply Z.ltb_lt; lia).
Qed.

(** ** The application reads *)

Lemma run_read_pipe (pipe : bytes) n (s : rt V) : pipe <> [] -> read_pipe pipe n s = Ok ((take n pipe, drop n pipe), s).
Proof. intros H. unfold read_pipe. by rewrite bool_decide_false. Qed.

Lemma run_read_upstream s cmd body rest size : length cmd = 2%nat -> (6 + length body <= size)%nat ->
  Z.of_nat (length body) + 2 < 2 ^ 32 ->
  upstream s (downstream_message cmd body ++ rest) ->
  up_step (read_upstream size) s (Some (downstream_message cmd body)) rest.
Proof.
  intros Hc Hf Hb (a & H & Ha). unfold up_step, read_upstream. run_with (run_get_android s a H). rewrite Ha.
  set (n := Z.of_nat PLATFORM_ANDROID_COMMAND_SIZE + Z.of_nat (length body)).
  assert (n = 2 + Z.of_nat (length body)) as En by done.
  unfold downstream_message. fold n. rewrite <- !app_assoc. unfold CC_TRANSPORT_LEN_PREFIX_SIZE.
  rewrite (bind_Ok _ _ s _ _ (run_read_pipe (length_prefix n ++ cmd ++ body ++ rest) 4 s ltac:(done))).
  change (take 4 (length_prefix n ++ cmd ++ body ++ rest)) with (length_prefix n).
  change (drop 4 (length_prefix n ++ cmd ++ body ++ rest)) with (cmd ++ body ++ rest). cbn iota.
  rewrite (bind_Ok _ _ s _ _ (run_put_upstream s a _ H)).
  match goal with |- context [with_android ?x s] => set (a1 := x); set (s1 := with_android a1 s) end.
  rewrite (proj2 (Nat.ltb_ge (length (length_prefix n)) 4)) by done. cbn [negb].
  assert (cc_transport_get_message_len (length_prefix n) = n) as ->.
  { rewrite <- (app_nil_r (length_prefix n)). apply get_message_len_prefix. unfold is_u32. lia. }
  rewrite (proj2 (Z.leb_le n _)) by lia. rewrite (proj2 (Z.eqb_neq n 0)) by lia. cbn [negb].
  assert (length (cmd ++ body) = Z.to_nat n) as El by (rewrite length_app; lia).
  rewrite (bind_Ok _ _ s1 _ _ (run_read_pipe (cmd ++ body ++ rest) (Z.to_nat n) s1 ltac:(by destruct cmd))).
  rewrite app_assoc, take_app_le, drop_app_le by lia. rewrite <- El, firstn_all, drop_all. cbn iota.
  rewrite (bind_Ok _ _ s1 _ _ (run_put_upstream s1 a1 _ (with_android_has a1 s))).
  rewrite El, Z2Nat.id, Z.eqb_refl by lia. eexists. split; [reflexivity|]. split; [|done].
  eexists. split; [apply with_android_has|done].
Qed.

Lemma run_readUpstreamData s cmd body rest : length cmd = 2%nat ->
  (6 + length body + 3 <= CC_TRANSPORT_RX_BUFFER_SIZE)%nat -> upstream s (downstream_message cmd body ++ rest) ->
  up_step readUpstreamData s (Some (downstream_message cmd body ++ zeroed 3)) rest.
Proof.
  intros Hc Hf Hu. assert (Z.of_nat (length body) + 2 < 2 ^ 32) as Hb by (unfold CC_TRANSPORT_RX_BUFFER_SIZE in Hf; lia).
  destruct (run_read_upstream s cmd body rest CC_TRANSPORT_RX_BUFFER_SIZE Hc ltac:(lia) Hb Hu) as (s' & E & Hs).
  exists s'. split; [|exact Hs]. unfold readUpstreamData. run_with E. cbn iota.
  rewrite downstream_len by done. pose proof (length_downstream cmd body Hc) as Hl. unfold zeroed.
  rewrite length_app, length_replicate, Hl.
  rewrite (proj2 (Nat.leb_le _ _)) by (unfold CC_TRANSPORT_RX_BUFFER_SIZE in *; lia).
  rewrite take_app_ge, take_replicate, Hl by lia.
  replace (_ `min` _)%nat with 3%nat by (unfold CC_TRANSPORT_RX_BUFFER_SIZE in *; lia). reflexivity.
Qed.
(** ** Many writes and reads *)

(** The objects write one after the other, and the application reads as often. *)
Fixpoint write_all (writes : list (loc * bytes)) : R V (list cc_result_t) :=
  match writes with
  | [] => mret []
  | (obj, data) :: writes => r ← platform_external_write obj (Some data); rs ← write_all writes; mret (r :: rs)
  end.
Fixpoint read_all (n : nat) : R V (list (option bytes)) :=
  match n with
  | O => mret []
  | S n => a ← readUpstreamData; l ← read_all n; mret (a :: l)
  end.

(** What the application gets is the message of the object, and three bytes. *)
Definition tells (id data : bytes) (answer : option bytes) : Prop := exists body r1 r2,
  answer = Some (downstream_message PLATFORM_ANDROID_EXTERNAL_CALVINSYS_PAYLOAD body ++ zeroed 3)
  /\ cc_coder_decode_string_from_map body (str "id") = Some (id ++ r1, length id)
  /\ cc_coder_decode_bin_from_map body (str "payload") = Some (data ++ r2, length data).

Lemma external_frame_tells id data : Z.of_nat (length id) < 2 ^ 32 -> Z.of_nat (length data) < 2 ^ 32 ->
  tells id data (Some (external_frame id data ++ zeroed 3)).
Proof using L.
  intros Hi Hd. unfold external_frame, tells. set (body := mp_enc (smap (external_body id data))).
  assert (mp_wf (smap (external_body id data))) as Hwf by (repeat constructor; simpl; lia).
  exists body. do 2 eexists. split; [reflexivity|]. unfold body. rewrite <- (app_nil_r (mp_enc _)). split.
  - by erewrite (str_field (str "id")); [|keys|keys|exact Hwf|reflexivity].
  - by erewrite (bin_field (str "payload")); [|keys|keys|exact Hwf|reflexivity].
Qed.

(** An object with its identifier, and data that fit the buffers. *)
Definition can_tell s (w : loc * bytes) (id : bytes) : Prop :=
  has_id s w.1 id /\ nul_free id /\ external_fits id w.2 /\ Z.of_nat (length id) < 2 ^ 32 /\ Z.of_nat (length w.2) < 2 ^ 32.

Lemma run_write_all writes ids : forall s b, Forall2 (can_tell s) writes ids -> upstream s b ->
  up_step (write_all writes) s (map (fun _ => CC_SUCCESS) writes)
    (b ++ concat (zip_with (fun w id => external_frame id w.2) writes ids)).
Proof using L Hpipe.
  revert ids. induction writes as [|[obj data] writes IH]; intros ids s b H Hu; inversion H as [|? id ? ids' H1 H2]; subst.
  - exists s. by rewrite app_nil_r.
  - destruct H1 as (Hi & Hn & Hf & _). destruct (run_external_write s obj id data b Hi Hn Hf Hu) as (s1 & E1 & Hu1 & Eo).
    assert (Forall2 (can_tell s1) writes ids') as H2'.
    { eapply Forall2_impl; [exact H2|]. intros w i. unfold can_tell, has_id. by rewrite Eo. }
    destruct (IH ids' s1 _ H2' Hu1) as (s2 & E2 & Hu2 & Eo2). exists s2. cbn [write_all]. run_with E1. run_with E2.
    split; [done|]. cbn [zip_with concat]. rewrite app_assoc. split; [exact Hu2|]. by rewrite Eo2.
Qed.

Lemma run_read_all frames : forall s, Forall (fun f => exists body,
    f = downstream_message PLATFORM_ANDROID_EXTERNAL_CALVINSYS_PAYLOAD body
    /\ (6 + length body + 3 <= CC_TRANSPORT_RX_BUFFER_SIZE)%nat) frames -> upstream s (concat frames) ->
  up_step (read_all (length frames)) s (map (fun f => Some (f ++ zeroed 3)) frames) [].
Proof.
  induction frames as [|f frames IH]; intros s Hf Hu; [by exists s|].
  apply Forall_cons in Hf as [(body & -> & Hl) Hf]. cbn [concat] in Hu.
  destruct (run_readUpstreamData s PLATFORM_ANDROID_EXTERNAL_CALVINSYS_PAYLOAD body _ eq_refl Hl Hu) as (s1 & E1 & Hu1 & Eo).
  destruct (IH s1 Hf Hu1) as (s2 & E2 & Hu2 & Eo2). exists s2. cbn [length read_all map]. run_with E1. run_with E2.
  split; [done|]. split; [done|]. by rewrite Eo2.
Qed.

(** C16: what the objects of an application write, it reads.  Whatever the objects write, in
    any order, as many calls of [readUpstreamData] answer one message for each write, in that
    order, with the identifier of the object and the data, and leave the pipe empty; each
    array that is answered ends with three bytes that are not of the message. *)
Theorem external_writes_are_read (writes : list (loc * bytes)) (ids : list bytes) s :
  upstream s [] -> Forall2 (can_tell s) writes ids ->
  exists s1 s2 answers,
    write_all writes s = Ok (map (fun _ => CC_SUCCESS) writes, s1)
    /\ read_all (length writes) s1 = Ok (answers, s2)
    /\ upstream s2 [] /\ length answers = length writes
    /\ forall i w id a, writes !! i = Some w -> ids !! i = Some id -> answers !! i = Some a -> tells id w.2 a.
Proof using L Hpipe.
  intros Hu H. destruct (run_write_all writes ids s [] H Hu) as (s1 & E1 & Hu1 & _).
  set (frames := zip_with (fun w id => external_frame id w.2) writes ids) in *.
  assert (length frames = length writes) as Hl by (unfold frames; rewrite length_zip_with, (Forall2_length _ _ _ H); lia).
  destruct (run_read_all frames s1) as (s2 & E2 & Hu2 & _); [|exact Hu1|].
  { unfold frames. clear -H. induction H as [|w id writes ids Hw _ IH]; constructor; [|exact IH].
    destruct Hw as (_ & _ & [_ Hf] & _). eexists. split; [reflexivity|exact Hf]. }
  exists s1, s2, (map (fun f => Some (f ++ zeroed 3)) frames). split; [exact E1|]. rewrite <- Hl. split; [exact E2|].
  split; [exact Hu2|]. split; [by rewrite length_map|]. intros i w id a Hw Hi Ha.
  pose proof (Forall2_lookup_lr _ _ _ _ _ _ H Hw Hi) as (_ & _ & _ & H1 & H2).
  rewrite list_lookup_fmap in Ha. unfold frames in Ha. rewrite lookup_zip_with, Hw in Ha. cbn in Ha. rewrite Hi in Ha.
  cbn in Ha. injection Ha as <-. by apply external_frame_tells.
Qed.

(** ** From the application to the runtime *)

Lemma run_send_downstream s data b : downstream s b -> exists r s',
  send_downstream_platform_message data s = Ok (r, s') /\ downstream s' (b ++ data).
Proof using Hpipe.
  intros (a & H & <-). unfold send_downstream_platform_message. run_with (run_get_android s a H).
  run_with (run_os_tick s). rewrite Hpipe. set (s1 := later _ s). assert (has_android s1 a) as H1 by exact H.
  run_with (run_put_downstream s1 a (an_downstream a ++ take (Z.to_nat (Z.of_nat (length data))) data) H1).
  do 2 eexists. split; [reflexivity|]. eexists. split; [apply with_android_has|].
  cbn [an_downstream]. by rewrite Nat2Z.id, firstn_all.
Qed.

(** C36: no message of the application can be handled.  Whatever command and data it sends,
    with other messages behind it or not, [handle_platform_call] writes what follows the
    length prefix past its array, which has no room for the prefix. *)
Theorem platform_messages_overflow (cmd data : bytes) s : downstream s [] ->
  length cmd = PLATFORM_ANDROID_COMMAND_SIZE -> Z.of_nat (length data) + 2 < 2 ^ 32 ->
  exists s1, send_command cmd data s = Ok (tt, s1) /\ downstream s1 (downstream_message cmd data)
    /\ forall s2 more, downstream s2 (downstream_message cmd data ++ more) -> handle_platform_call s2 = Ub BufferOverflow.
Proof using Hpipe.
  intros Hd Hc Hb. unfold send_command.
  destruct (run_send_downstream s (downstream_message cmd data) [] Hd) as (r & s1 & E & Hs1).
  exists s1. split; [by run_with E|]. split; [exact Hs1|]. intros s2 more (a & H & Ha). unfold handle_platform_call.
  destruct (run_uninit s2 4) as (g & Eg & _). run_with Eg. run_with (run_get_android s2 a H). rewrite Ha.
  pose proof (downstream_len cmd data [] Hb) as Hl. rewrite app_nil_r in Hl. unfold downstream_message in *.
  set (n := Z.of_nat PLATFORM_ANDROID_COMMAND_SIZE + Z.of_nat (length data)) in *. rewrite <- !app_assoc.
  rewrite (bind_Ok _ _ s2 _ _ (run_read_pipe (length_prefix n ++ cmd ++ data ++ more) 4 s2 ltac:(done))).
  change (take 4 (length_prefix n ++ cmd ++ data ++ more)) with (length_prefix n).
  change (drop 4 (length_prefix n ++ cmd ++ data ++ more)) with (cmd ++ data ++ more). cbn iota.
  rewrite (bind_Ok _ _ s2 _ _ (run_put_downstream s2 a _ H)). set (s3 := with_android _ s2).
  assert (cc_transport_get_message_len (length_prefix n ++ drop (length (length_prefix n)) g) = n) as ->.
  { apply get_message_len_prefix. unfold is_u32, n, PLATFORM_ANDROID_COMMAND_SIZE. lia. }
  destruct (run_uninit s3 (Z.to_nat n)) as (buffer & Eb & Hlb). run_with Eb.
  destruct (copy_to buffer 0 _) as [buffer2|] eqn:E2; [|done]. apply copy_to_length in E2.
  rewrite (bind_Ok (need _ (Some buffer2)) _ s3 _ s3 eq_refl).
  assert (cmd ++ data ++ more <> []) as Hne by by destruct cmd.
  rewrite (bind_Ok _ _ s3 _ _ (run_read_pipe (cmd ++ data ++ more) (Z.to_nat n) s3 Hne)). cbn iota.
  rewrite (bind_Ok _ _ s3 _ _ (run_put_downstream s3 _ _ (with_android_has _ s2))).
  assert (copy_to buffer2 4 (take (Z.to_nat n) (cmd ++ data ++ more)) = None) as ->; [|done].
  unfold copy_to. rewrite (proj2 (Nat.leb_gt _ _)); [done|]. rewrite length_take, !length_app. unfold n. lia.
Qed.
End pipes.

(** *** An application *)

#[local] Instance an_android : Android := {
  pipe_ok := fun _ => true; pipe_write := fun _ k => Z.of_nat k; looper_add := fun _ => true;
  looper_poll := fun _ _ => ALOOPER_POLL_TIMEOUT; sensor_list := fun _ => []; create_queue := fun _ => true;
  default_sensor := fun _ _ => true; sensor_event := fun _ => None
}.
#[local] Instance no_sockets : Sockets := {
  os_socket := fun _ => -1; os_connect := fun _ _ _ => false; os_send := fun _ _ => -1; os_recv := fun _ => None;
  os_select := fun _ _ _ => None; os_stack := fun _ => []; os_word := fun _ => 0
}.

(** Two objects of applications. *)
Definition app_obj : cc_calvinsys_obj_t (lib_state android_state) :=
  {| obj_methods := Some external_code; obj_state := Some (hold {| ex_data := None |}); obj_actor := 1%positive;
     obj_capability := 30%positive |}.
Definition app_rt : rt (lib_state android_state) :=
  {| rt_world := the_world; rt_instances := ∅; rt_caps := ∅;
     rt_objs := {[20%positive := app_obj; 21%positive := app_obj]}; cs_capabilities := [];
     cs_objects := [list_item_n (str "first") 5 20%positive 0; list_item_n (str "second") 6 21%positive 0];
     rt_platform := set_ps_statics
       {[0%nat := hold (PlatformAt {| an_upstream := []; an_downstream := []; an_looper := [] |})]} no_platform |}.

Lemma external_writes_are_read_witness : exists s1 s2 answers,
  write_all (MP:=ref_msgpuck) [(21%positive, [Byte.x01]); (20%positive, [Byte.xc3; Byte.x02])] app_rt
  = Ok ([CC_SUCCESS; CC_SUCCESS], s1)
  /\ read_all 2 s1 = Ok (answers, s2) /\ length answers = 2%nat.
Proof.
  destruct (external_writes_are_read (MP:=ref_msgpuck) (AN:=an_android) (fun _ _ => eq_refl)
    [(21%positive, [Byte.x01]); (20%positive, [Byte.xc3; Byte.x02])] [str "second"; str "first"] app_rt)
    as (s1 & s2 & answers & E1 & E2 & _ & Hl & _).
  - by eexists.
  - repeat constructor; try (keys || (simpl; lia)); apply Nat.leb_le; vm_compute; reflexivity.
  - exists s1, s2, answers. split; [exact E1|]. split; [exact E2|exact Hl].
Defined.

Lemma platform_messages_overflow_witness : exists s1,
  send_command PLATFORM_ANDROID_CONNECT_REPLY [] app_rt = Ok (tt, s1)
  /\ handle_platform_call (C:=objects_code) (P:=quiet_platform) s1 = Ub BufferOverflow.
Proof.
  destruct (platform_messages_overflow (AN:=an_android) (C:=objects_code) (P:=quiet_platform) (fun _ _ => eq_refl) PLATFORM_ANDROID_CONNECT_REPLY [] app_rt)
    as (s1 & E & H1 & H).
  - by eexists.
  - reflexivity.
  - simpl. lia.
  - exists s1. split; [exact E|]. apply (H s1 []). by rewrite app_nil_r.
Defined.
