(* ===== verification/NrfProps.v ===== *)
(** The transport of the nRF52 board (cc_transport_lwip.c): what it makes of a frame that
    arrives whole. *)
From S2P Require Import Prelude CString CText Common Json MsgPuck MsgPackRef Coder Fifo Machine Transport ProtoSend.
From S2P Require Import Port Proto Runtime Socket Calvinsys Timer Actor AppManager Node NodeRun Dispatch Android Nrf52.
From S2P Require Import Runs Examples SocketProps.

(** A peer with the address 00:1a:7D:da:71:13. *)
Example link_local_example :
  cc_transport_lwip_convert_mac_to_link_local (in_array 40 (str "00:1a:7D:da:71:13"))
  = str "fe80::021a:7dff:feda:7113".
Proof. reflexivity. Qed.

Section lwip.
Context {V : Type} `{C : !Code V} `{P : Platform} `{MP : MsgPuck} `{J : Jsmn} `{LW : Lwip}.
Context `{HL : !Holds V cc_transport_lwip_client_t} `{NS : NrfSdk} `{HB : !Holds V (list nrf_call)}.
Implicit Types (s : rt V).

(** The client has received [data], and perhaps more. *)
Definition has_received (data : bytes) s : Prop := exists mac more,
  ps_client_state (rt_platform s) = Some (hold {| lw_mac := mac; lw_rx := data ++ more |}).

Lemma run_get_lwip s st : ps_client_state (rt_platform s) = Some (hold st) -> get_lwip s = Ok (st, s).
Proof.
  intros H. unfold get_lwip. rewrite (bind_Ok get_platform _ s (rt_platform s) s eq_refl).
  unfold state_as. rewrite H. exec. rewrite held_hold. reflexivity.
Qed.

Lemma on_world_keeps {A} data (m : W A) : keeps (has_received data) (on_world m).
Proof.
  intros s a s' E H. unfold on_world, zoom in E. destruct (m (rt_world s)) as [[a' w]|]; [|done]. by injection E as <- <-.
Qed.

Lemma set_client_state_keeps data x : keeps (has_received data) (set_client_state x).
Proof.
  unfold set_client_state. apply keeps_bind; [apply on_world_keeps|]. intros node.
  destruct (node_transport_client node); [apply on_world_keeps|apply keeps_ret].
Qed.

Lemma nrf_sdk_keeps data c : keeps (has_received data) (nrf_sdk c).
Proof.
  unfold nrf_sdk, get_nrf_calls, get_platform. apply keeps_bind; [apply on_world_keeps|]. intros n.
  apply keeps_bind; [|intros l; apply keeps_bind; [by apply keeps_modify|intros _; apply keeps_ret]].
  apply keeps_bind; [apply keeps_gets|]. intros p. destruct (ps_statics p !! nrf_calls); [|apply keeps_ret].
  apply keeps_bind; [apply keeps_need|]. intros x. apply keeps_need.
Qed.

Lemma checked_keeps data c : keeps (has_received data) (checked c).
Proof.
  apply keeps_bind; [apply nrf_sdk_keeps|]. intros [] s a s' E; [by injection E as _ <-|done].
Qed.

(** No callback takes anything out of the buffer. *)
Lemma run_event_keeps data e : keeps (has_received data) (run_event e).
Proof.
  destruct e; try apply set_client_state_keeps; try apply checked_keeps; cbn [run_event];
    try (destruct ok; apply set_client_state_keeps);
    try (apply keeps_bind; [apply checked_keeps|]; intros _; apply set_client_state_keeps).
  - intros s [] s' E H. unfold cc_transport_lwip_data_handler in E. destruct ok; [|by injection E as <-].
    pose proof H as (m & more & Hs). rewrite (bind_Ok _ _ s _ _ (run_get_lwip s _ Hs)) in E. cbn [lw_rx lw_mac] in E.
    destruct (_ <? _)%nat; injection E as <-; [done|]. exists m, (more ++ payload). cbn. by rewrite app_assoc.
  - intros s [] s' E (m & more & Hs). unfold cc_platform_nrf_on_ipv6_medium_evt in E.
    rewrite (bind_Ok _ _ s _ _ (run_get_lwip s _ Hs)) in E. cbn [lw_rx lw_mac] in E.
    destruct (copy_to m 0 (cstr mac)) as [m'|]; [|done]. injection E as <-. by exists m', more.
Qed.

Lemma run_events_keep data l : keeps (has_received data) (run_events l).
Proof.
  induction l as [|e l IH]; [apply keeps_ret|]. apply keeps_bind; [apply run_event_keeps|]. intros _. exact IH.
Qed.

Lemma wait_event_keeps data : keeps (has_received data) wait_event.
Proof.
  unfold wait_event. apply keeps_bind; [apply on_world_keeps|]. intros n.
  destruct (sd_app_evt_wait n); [|apply keeps_ret]. apply keeps_bind; [apply run_events_keep|]. intros _. apply keeps_ret.
Qed.

Fixpoint wait_events (n : nat) : R V unit :=
  match n with O => mret tt | S n => _ ← wait_event; wait_events n end.

Lemma wait_events_keep data n : keeps (has_received data) (wait_events n).
Proof.
  induction n as [|n IH]; [apply keeps_ret|]. apply keeps_bind; [apply wait_event_keeps|]. intros _. exact IH.
Qed.

(** C37: a frame that arrives in one piece is never received.  Once more than four bytes are in
    the buffer of the client, a read of the four bytes of a length prefix, with which the
    receipt of every message starts, fails and leaves the buffer as it is, whatever the board
    waits for before it. *)
Theorem lwip_frame_stays (waits n : nat) (segment mac : bytes) s s0 s1 :
  ps_client_state (rt_platform s) = Some (hold {| lw_mac := mac; lw_rx := [] |}) ->
  (CC_TRANSPORT_LEN_PREFIX_SIZE < length segment <= CC_TRANSPORT_RX_BUFFER_SIZE)%nat ->
  cc_transport_lwip_data_handler segment true s = Ok (tt, s0) -> wait_events n s0 = Ok (tt, s1) ->
  cc_transport_lwip_recv waits CC_TRANSPORT_LEN_PREFIX_SIZE s1 = Ok (None, s1).
Proof.
  intros Hs [Hl Hr] E1 E2. unfold cc_transport_lwip_data_handler in E1.
  rewrite (bind_Ok _ _ s _ _ (run_get_lwip s _ Hs)) in E1. cbn [lw_rx lw_mac] in E1.
  replace (_ <? _)%nat with false in E1 by (symmetry; apply Nat.ltb_ge; cbn [length]; lia).
  assert (has_received segment s0) as H2 by (injection E1 as <-; exists mac, []; by rewrite app_nil_r).
  destruct (wait_events_keep segment n _ _ _ E2 H2) as (m & more & H1).
  unfold cc_transport_lwip_recv, cc_transport_lwip_wait_for_data.
  assert (cc_transport_lwip_has_data s1 = Ok (true, s1)) as Ed.
  { unfold cc_transport_lwip_has_data. rewrite (bind_Ok _ _ s1 _ _ (run_get_lwip s1 _ H1)). cbn [lw_rx].
    rewrite bool_decide_false; [done|]. destruct segment; [simpl in Hl; lia|done]. }
  assert (wait_until waits cc_transport_lwip_has_data s1 = Ok (tt, s1)) as Ew.
  { destruct waits; cbn [wait_until]; by run_with Ed. }
  run_with Ew. rewrite (bind_Ok _ _ s1 _ _ (run_get_lwip s1 _ H1)). cbn [lw_rx].
  rewrite (proj2 (Nat.ltb_lt _ _)); [done|]. rewrite length_app. lia.
Qed.
End lwip.

(** *** A board *)

#[local] Instance a_board : Lwip := {
  sd_app_evt_wait := fun _ => Some [E_interface_up; E_data [Byte.x01] true]; tcp_sndbuf := fun _ => 100;
  tcp_write := fun _ _ => true; tcp_connect_ip6 := fun _ _ => true; ip6addr_aton := fun _ => true; sd_temp_get := fun _ => 80
}.
#[local] Instance a_sdk : NrfSdk := {
  sdk_ok := fun _ _ => true; ipv6_medium_eui48_get := fun _ => str "abcdef";
  sd_rand_application_vector_get := fun n => if (n =? 9)%nat then None else Some 7
}.
(** What the two void pointers hold. *)
Abbreviation lwip_val := (cc_transport_lwip_client_t + list nrf_call)%type.
#[local, refine] Instance holds_lwip : Holds lwip_val cc_transport_lwip_client_t :=
  {| hold := inl; held v := match v with inl x => Some x | _ => None end |}.
Proof. done. Defined.
#[local, refine] Instance holds_nrf_calls : Holds lwip_val (list nrf_call) :=
  {| hold := inr; held v := match v with inr x => Some x | _ => None end |}.
Proof. done. Defined.

Definition lwip_rt : rt lwip_val :=
  {| rt_world := the_world; rt_instances := ∅; rt_caps := ∅; rt_objs := ∅; cs_capabilities := []; cs_objects := [];
     rt_platform := set_ps_client_state (Some (inl {| lw_mac := zeroed 40; lw_rx := [] |})) no_platform |}.

(** A board that starts. *)
Example board_boots : match nrf_init 3 lwip_rt with Ok (_, s) => ps_statics (rt_platform s) !! nrf_calls | Ub _ => None end
  = Some (inr [ipv6_medium_init; ipv6_medium_eui48_set (str "abcde" ++ [NUL]); ipv6_medium_eui64_get; nrf_mem_init;
               lwip_init; nrf_driver_init; app_timer_create m_lwip_timer true; app_timer_start m_lwip_timer 100;
               app_timer_create m_calvin_connect_timer false; ipv6_medium_connectable_mode_enter; srand 7]).
Proof. vm_compute. reflexivity. Qed.

Lemma lwip_frame_stays_witness : exists s0 s1,
  cc_transport_lwip_data_handler (length_prefix 2 ++ [Byte.x80; Byte.x80]) true lwip_rt = Ok (tt, s0)
  /\ wait_events 3 s0 = Ok (tt, s1)
  /\ cc_transport_lwip_recv 0 CC_TRANSPORT_LEN_PREFIX_SIZE s1 = Ok (None, s1).
Proof.
  eexists _, _. split; [vm_compute; reflexivity|]. split; [vm_compute; reflexivity|].
  eapply (lwip_frame_stays 0 3 (length_prefix 2 ++ [Byte.x80; Byte.x80]) (zeroed 40) lwip_rt).
  - reflexivity.
  - unfold CC_TRANSPORT_LEN_PREFIX_SIZE, CC_TRANSPORT_RX_BUFFER_SIZE. simpl. lia.
  - vm_compute. reflexivity.
  - vm_compute. reflexivity.
Defined.
