(* ===== verification/QueueState.v ===== *)
(** The state of a port on the wire and back: [cc_port_serialize_port] writes the
    queue of a port, [cc_fifo_init] builds a queue from what is written. *)
From S2P Require Import Prelude CString Common MsgPuck MsgPackRef Coder Fifo Machine Transport ProtoSend.
From S2P Require Import Link FifoInit Port CoderSpec FifoSpec MsgSpec TokenMsg Runs Examples PortProps.

(** A string in an array: a key or a name. *)
Definition in_arr (s a : bytes) : Prop := key_ok s /\ exists t, a = s ++ NUL :: t.

Lemma in_id_arr s id : in_id s id -> in_arr s id.
Proof. intros (H & _ & t & E). split; eauto. Qed.

(** A token on the wire. *)
Definition token_val (v : mpval) : mpval := smap [(str "type", VStr (str "Token")); (str "data", v)].

(** The queue on the wire. *)
Definition queue_kvs (reader : bytes) (n wp tp rp : Z) (vs : list mpval) : list (bytes * mpval) :=
  [ (str "queuetype", VStr (str "fanout_fifo")); (str "write_pos", VUint wp);
    (str "readers", VArr [VStr reader]); (str "N", VUint n);
    (str "tentative_read_pos", smap [(reader, VUint tp)]); (str "read_pos", smap [(reader, VUint rp)]);
    (str "fifo", VArr (map token_val vs)) ].

(** The whole port. *)
Definition port_kvs (state : option Z) (id name : bytes) (queue : list (bytes * mpval)) (direction : bytes)
  : list (bytes * mpval) :=
  match state with Some s => [(str "constrained_state", VUint s)] | None => [] end
  ++ [ (str "id", VStr id); (str "name", VStr name); (str "queue", smap queue);
       (str "properties", smap [(str "nbr_peers", VUint 1); (str "direction", VStr direction);
                                (str "routing", VStr (str "default"))]) ].

Section queue_state.
Context `{P : Platform} `{MP : MsgPuck} `{L : !MsgPuckLaws MP}.

(** ** Writing *)

Abbreviation entry k v := (mp_enc_kvs [(VStr k, v)]).

Lemma encode_key_arr w s a : in_arr s a -> encode_key w a = w ++ mp_enc (VStr s).
Proof using L.
  intros [[Hs Ls] [t ->]]. unfold encode_key. rewrite strlen_nul_free by done.
  by rewrite enc_str_take, take_app_length by (rewrite length_app; lia).
Qed.

Lemma kv_uuid_arr w k s a : nul_free k -> in_arr s a -> kv_uuid w k a = w ++ entry k (VStr s).
Proof using L.
  intros Hk [Hs [t ->]]. unfold kv_uuid, uuid_len. rewrite strnlen_key_arr by done.
  rewrite kv_str_entry, take_app_length; [done|done|]. rewrite length_app. lia.
Qed.

Lemma kv_uint_arr w s a n : in_arr s a -> cc_coder_encode_kv_uint w a n = w ++ entry s (VUint n).
Proof using L.
  intros H. unfold cc_coder_encode_kv_uint. rewrite (encode_key_arr _ s) by done.
  by rewrite entry_eq, app_assoc.
Qed.

Lemma kv_map_arr w s a l : in_arr s a ->
  cc_coder_encode_kv_map w a (Z.of_nat (length l)) ++ mp_enc_kvs l = w ++ entry s (VMap l).
Proof using L.
  intros H. unfold cc_coder_encode_kv_map. rewrite (encode_key_arr _ s), entry_eq by done.
  cbn [mp_enc]. fold (mp_enc_kvs l). by rewrite <- !app_assoc.
Qed.

Lemma encode_uuid_arr w s a : in_arr s a ->
  cc_coder_encode_str w a (uuid_len a) = w ++ mp_enc (VStr s).
Proof using L.
  intros [Hs [t ->]]. unfold cc_coder_encode_str, uuid_len. rewrite strnlen_key_arr by done.
  by rewrite enc_str_take, take_app_length by (rewrite length_app; lia).
Qed.

Lemma token_encode_val w t v m : token_holds m t v ->
  cc_token_encode w t false m = Ok (w ++ mp_enc (token_val v), m).
Proof using L.
  intros H. unfold cc_token_encode.
  assert (w ++ mp_enc (token_val v)
    = cc_coder_encode_kv_str (cc_coder_encode_map w 2) (str "type") (str "Token") 5 ++ entry (str "data") v) as E.
  { rewrite (kv_str_lit _ _ (str "Token")) by keys. rewrite <- app_assoc, <- mp_enc_kvs_app. simpl app.
    symmetry. apply (map_open w (skvs [(str "type", VStr (str "Token")); (str "data", v)])). }
  rewrite E. destruct H as [[Hs ->]|(l & Hl & Hm & Hs)].
  - rewrite Hs. cbn [Z.eqb negb]. by rewrite kv_nil_entry by keys.
  - rewrite Hs. destruct (Z.eqb_spec (Z.of_nat (length (mp_enc v))) 0) as [Z|_].
    { pose proof (enc_nonempty v). lia. }
    cbn [negb]. rewrite Hl, (bind_Ok _ _ _ (mp_enc v) m).
    + by rewrite Nat2Z.id, kv_value_entry by keys.
    + unfold mem_read. exec. unfold get_. by rewrite Hm.
Qed.

Lemma run_encode_tokens w ts vs b : Forall2 (token_holds (w_mem w)) ts vs ->
  encode_tokens b ts w = Ok (b ++ concat (map mp_enc (map token_val vs)), w).
Proof using L.
  intros H. revert b. induction H as [|t v ts vs Ht _ IH]; intros b; simpl; [by rewrite app_nil_r|].
  assert (on_mem (cc_token_encode b t false) w = Ok (b ++ mp_enc (token_val v), w)) as E.
  { unfold on_mem, zoom. rewrite (token_encode_val b t v) by done. by destruct w. }
  run_with E. rewrite IH. by rewrite <- app_assoc.
Qed.

(** Flat forms: an encoder appends, a map is its header and its entries. *)
Lemma flat_map w k n : nul_free k ->
  cc_coder_encode_kv_map w k n = w ++ mp_enc (VStr k) ++ mp_encode_map n.
Proof. intros H. unfold cc_coder_encode_kv_map. by rewrite encode_key_entry, app_assoc. Qed.
Lemma flat_array w k n : nul_free k ->
  cc_coder_encode_kv_array w k n = w ++ mp_enc (VStr k) ++ mp_encode_array n.
Proof. intros H. unfold cc_coder_encode_kv_array. by rewrite encode_key_entry, app_assoc. Qed.
Lemma flat_map_arr w s a n : in_arr s a ->
  cc_coder_encode_kv_map w a n = w ++ mp_enc (VStr s) ++ mp_encode_map n.
Proof using L. intros H. unfold cc_coder_encode_kv_map. by rewrite (encode_key_arr _ s), app_assoc. Qed.
Lemma flat_vmap l : mp_enc (VMap l) = mp_encode_map (Z.of_nat (length l)) ++ mp_enc_kvs l.
Proof. done. Qed.
Lemma flat_varr l : mp_enc (VArr l) = mp_encode_array (Z.of_nat (length l)) ++ concat (map mp_enc l).
Proof. done. Qed.
Lemma flat_kvs k v l : mp_enc_kvs ((VStr k, v) :: l) = mp_enc (VStr k) ++ mp_enc v ++ mp_enc_kvs l.
Proof. apply mp_enc_kvs_cons. Qed.

(** The position an in-port or an out-port stores as its read position. *)
Definition stored_read_pos (d : cc_port_direction_t) (f : cc_fifo_t) : Z :=
  match d with CC_PORT_DIRECTION_IN => tentative_read_pos f | CC_PORT_DIRECTION_OUT => read_pos f end.
Definition direction_str (d : cc_port_direction_t) : bytes :=
  match d with CC_PORT_DIRECTION_IN => str "in" | CC_PORT_DIRECTION_OUT => str "out" end.

Lemma run_serialize_port w l p f b with_state id nm reader vs :
  w_ports w !! l = Some p -> port_fifo p = Some f -> 0 <= fifo_size f ->
  length (tokens f) = Z.to_nat (fifo_size f) -> Forall2 (token_holds (w_mem w)) (tokens f) vs ->
  in_arr id (port_id p) -> in_arr nm (port_name p) -> in_arr reader (reader_name p) ->
  cc_port_serialize_port b l with_state w
  = Ok (b ++ mp_enc (VStr nm) ++ mp_enc (smap (port_kvs
          (if with_state : bool then Some (port_state_val (port_state p)) else None) id nm
          (queue_kvs reader (fifo_size f) (write_pos f) (tentative_read_pos f)
             (stored_read_pos (port_direction p) f) vs) (direction_str (port_direction p)))), w).
Proof using L.
  intros Hp Hf Hn Hlen Hvs Hid Hnm Hr. unfold cc_port_serialize_port. run1.
  rewrite (bind_Ok _ _ w f w) by (unfold deref, need; by rewrite Hf).
  rewrite take_ge by lia. erewrite bind_Ok; [|by apply run_encode_tokens].
  assert (Z.of_nat (length vs) = fifo_size f) as En.
  { rewrite <- (Forall2_length _ _ _ Hvs), Hlen. lia. }
  do 2 f_equal. rewrite (flat_map_arr b nm), (encode_uuid_arr _ reader (reader_name p)),
    (kv_uuid_arr _ (str "id") id (port_id p)), (kv_uuid_arr _ (str "name") nm (port_name p)),
    !(kv_uint_arr _ reader (reader_name p)) by (done || keys).
  rewrite !flat_map, flat_array, (flat_array _ (str "readers")) by keys.
  rewrite !kv_uint_entry, (kv_str_lit _ _ (str "fanout_fifo")), (kv_str_lit _ _ (str "default")) by keys.
  assert (forall X, match port_direction p with
      | CC_PORT_DIRECTION_IN => cc_coder_encode_kv_str X (str "direction") (str "in") 2
      | CC_PORT_DIRECTION_OUT => cc_coder_encode_kv_str X (str "direction") (str "out") 3
    end = X ++ entry (str "direction") (VStr (direction_str (port_direction p)))) as Ed.
  { intros X. destruct (port_direction p); unfold direction_str; apply kv_str_lit; keys. }
  rewrite Ed. fold (stored_read_pos (port_direction p) f).
  unfold port_kvs, queue_kvs. set (ts := map token_val vs).
  assert (Z.of_nat (length ts) = fifo_size f) as Ets by (unfold ts; by rewrite length_map).
  destruct with_state; cbn [app]; unfold skvs; cbn [map fst snd].
  all: rewrite !flat_vmap, !flat_kvs, !flat_vmap, !flat_kvs, !flat_vmap, !flat_kvs, !flat_varr, !mp_enc_kvs_nil, Ets.
  all: cbn [concat map length]; rewrite ?app_nil_r, <- !app_assoc; reflexivity.
Qed.

(** ** Reading *)

(** A key matters up to its terminator. *)
Lemma scan_str_keys_cstr {A} k k' (found : bytes -> A) : cstr k = cstr k' -> forall n r,
  scan_str_keys n r k found = scan_str_keys n r k' found.
Proof.
  intros E. induction n as [|n IH]; intros r; simpl; [done|].
  destruct (cc_coder_decode_str r) as [[tmp len]|]; [|apply IH].
  assert (streq_n tmp k len = streq_n tmp k' len) as ->; [|by rewrite IH].
  apply eq_true_iff_eq. by rewrite !streq_n_spec, E.
Qed.

Lemma decode_uint_key r k : nul_free k ->
  cc_coder_decode_uint_from_map r (k ++ [NUL]) = cc_coder_decode_uint_from_map r k.
Proof.
  intros H. unfold cc_coder_decode_uint_from_map, in_map. destruct (is_type r MP_MAP); [|done].
  destruct (mp_decode_map r) as [n r']. apply scan_str_keys_cstr. by rewrite cstr_nul_free, cstr_nul_free_all.
Qed.

Context (Halloc : forall n, plat_alloc n = true).

Lemma run_alloc_ok data w : alloc_buffer data w = Ok (Some (w_next w), with_copy data w).
Proof using Halloc. by rewrite run_alloc_buffer, Halloc. Qed.

Lemma run_mem_alloc_ok w : cc_platform_mem_alloc w = Ok (true, set_calls (S (w_calls w)) w).
Proof using Halloc.
  cbv [cc_platform_mem_alloc mbind M_bind mret M_ret tick get_ put_]. simpl. by rewrite Halloc.
Qed.

(** The slots from [i] on filled with the encoded values, each in a new buffer. *)
Fixpoint filled (vs : list mpval) (i : nat) (f : cc_fifo_t) (w : world) : cc_fifo_t * world :=
  match vs with
  | [] => (f, w)
  | v :: vs =>
      filled vs (S i)
        (set_token i {| tok_value := Some (w_next w); tok_size := Z.of_nat (length (mp_enc v)) |} f)
        (with_copy (mp_enc v) w)
  end.

Definition nonempty (f : cc_fifo_t) : bool :=
  negb (read_pos f =? tentative_read_pos f) || negb (write_pos f =? read_pos f).

Lemma token_data v rest : mp_wf v ->
  exists r, cc_coder_get_value_from_map (mp_enc (token_val v) ++ rest) (str "data") = Some (mp_enc v ++ r).
Proof using L.
  intros Hv. assert (mp_wf (token_val v)) as Hw by (unfold token_val; simpl; repeat split; done).
  eexists. unfold token_val in *. read_val (str "data"). reflexivity.
Qed.

Lemma run_set_slot f i t l n w : tokens f !! i = Some t -> tok_value t = None ->
  set_slot_data f i (Some l) n w = Ok (set_token i {| tok_value := Some l; tok_size := n |} f, w).
Proof.
  intros E Et. unfold set_slot_data. rewrite (bind_Ok _ _ w t w) by (unfold need; by rewrite E).
  rewrite (bind_Ok _ _ w {| tok_value := Some l; tok_size := n |} w); [done|].
  unfold on_mem, zoom, cc_token_set_data. rewrite Et. cbv [mbind M_bind mret M_ret]. by destruct w.
Qed.

Lemma run_init_tokens all rest : mp_wf (VArr (map token_val all)) -> Forall mp_wf all ->
  forall vs i f w, drop i all = vs ->
  (forall j, (i <= j < length all)%nat -> exists t, tokens f !! j = Some t /\ tok_value t = None) ->
  init_tokens (mp_enc (VArr (map token_val all)) ++ rest) (length vs) i f w
  = let r := if nonempty f then filled vs i f w else (f, w) in Ok ((CC_SUCCESS, r.1), r.2).
Proof using L Halloc.
  intros Hw Hwf. induction vs as [|v vs IH]; intros i f w Hd Hf.
  { simpl. by destruct (nonempty f). }
  assert (all !! i = Some v) as Hi.
  { rewrite <- (Nat.add_0_r i), <- lookup_drop, Hd. done. }
  assert (drop (S i) all = vs) as Hd'.
  { rewrite (drop_S _ _ _ Hi) in Hd. by injection Hd. }
  pose proof (lookup_lt_Some _ _ _ Hi) as Li.
  cbn [length init_tokens]. rewrite (get_value_from_array_enc _ i (token_val v)) by (done || by rewrite list_lookup_fmap, Hi).
  pose proof (Forall_lookup_1 _ _ _ _ Hwf Hi) as Hv.
  destruct (token_data v (concat (map mp_enc (drop (S i) (map token_val all))) ++ rest) Hv) as [r ->].
  fold (nonempty f). rewrite get_size_of_value_enc, take_app_length by done.
  destruct (nonempty f) eqn:Hne.
  - run_with (run_alloc_ok (mp_enc v) w). destruct (Hf i ltac:(lia)) as (t & Et & Ev).
    run_with (run_set_slot f i t (w_next w) (Z.of_nat (length (mp_enc v))) (with_copy (mp_enc v) w) Et Ev).
    rewrite (IH (S i)).
    + change (nonempty (set_token i ?t f)) with (nonempty f). by rewrite Hne.
    + done.
    + intros j Hj. simpl. rewrite list_lookup_insert_ne by lia. apply Hf. lia.
  - rewrite (IH (S i)) by (done || (intros j Hj; apply Hf; lia)). by rewrite Hne.
Qed.

Lemma filled_spec vs : forall i f w, (i + length vs <= length (tokens f))%nat ->
  let f' := (filled vs i f w).1 in let w' := (filled vs i f w).2 in
  (fifo_size f' = fifo_size f /\ write_pos f' = write_pos f /\ read_pos f' = read_pos f
   /\ tentative_read_pos f' = tentative_read_pos f)
  /\ (forall j, (j < i)%nat -> tokens f' !! j = tokens f !! j)
  /\ (forall l, (l < w_next w)%positive -> w_mem w' !! l = w_mem w !! l)
  /\ (forall k v, vs !! k = Some v -> exists l, (w_next w <= l)%positive
        /\ tokens f' !! (i + k)%nat = Some {| tok_value := Some l; tok_size := Z.of_nat (length (mp_enc v)) |}
        /\ w_mem w' !! l = Some (mp_enc v)).
Proof.
  induction vs as [|v vs IH]; intros i f w Hl; simpl; [done|]. simpl in Hl.
  destruct (IH (S i) (set_token i {| tok_value := Some (w_next w); tok_size := Z.of_nat (length (mp_enc v)) |} f)
    (with_copy (mp_enc v) w)) as (Hp & Ht & Hm & Hv).
  { simpl. rewrite length_insert. lia. }
  split; [exact Hp|]. simpl in Ht, Hm, Hv. split; [|split].
  - intros j Hj. rewrite Ht by lia. by rewrite list_lookup_insert_ne by lia.
  - intros l Hlt. rewrite Hm by lia. by rewrite lookup_insert_ne by lia.
  - intros [|k] u Hk; simpl in Hk.
    + simplify_eq. exists (w_next w). split; [lia|]. rewrite Nat.add_0_r, Ht, Hm by lia.
      split; [apply list_lookup_insert_eq; lia|apply lookup_insert_eq].
    + destruct (Hv k u Hk) as (l & Ll & Et & Em). exists l. split; [lia|].
      rewrite <- Nat.add_succ_comm. done.
Qed.

(** A queue that was stored and read back: the positions, and the values in the
    slots of the tokens that remain, each in a buffer from the address [base] on. *)
Definition restores (f : cc_fifo_t) (rp : Z) (vs : list mpval) (base : loc) (f' : cc_fifo_t) (m : mem) : Prop :=
  fifo_size f' = fifo_size f /\ write_pos f' = write_pos f
  /\ tentative_read_pos f' = tentative_read_pos f /\ read_pos f' = rp
  /\ forall i v, rp <= i < write_pos f -> vs !! Z.to_nat (i mod fifo_size f) = Some v ->
      exists l, (base <= l)%positive
        /\ slot f' i = {| tok_value := Some l; tok_size := Z.of_nat (length (mp_enc v)) |}
        /\ m !! l = Some (mp_enc v).

(** Only buffers are new, at the addresses that were given out. *)
Definition grown (w w' : world) : Prop :=
  exists m n c, w' = set_mem m (set_next n (set_calls c w)) /\ (w_next w <= n)%positive
    /\ forall l, (l < w_next w \/ n <= l)%positive -> m !! l = w_mem w !! l.

Lemma grown_trans w1 w2 w3 : grown w1 w2 -> grown w2 w3 -> grown w1 w3.
Proof.
  intros (m & n & c & -> & Hn & Hm) (m' & n' & c' & -> & Hn' & Hm'). simpl in *.
  exists m', n', c'. split; [reflexivity|]. split; [lia|]. intros l Hl. rewrite Hm' by lia. apply Hm. lia.
Qed.

Lemma grown_refl w : grown w w.
Proof. exists (w_mem w), (w_next w), (w_calls w). split; [by destruct w|]. split; [lia|done]. Qed.

Lemma grown_calls c w : grown w (set_calls c w).
Proof. exists (w_mem w), (w_next w), c. split; [by destruct w|]. split; [lia|done]. Qed.

Lemma grown_copy d w : grown w (with_copy d w).
Proof.
  eexists _, _, _. split; [reflexivity|]. split; [lia|]. intros l Hl. apply lookup_insert_ne. lia.
Qed.

Lemma grown_filled vs : forall i f w, grown w (filled vs i f w).2.
Proof.
  induction vs as [|v vs IH]; intros i f w; simpl.
  - apply grown_refl.
  - eapply grown_trans; [apply (grown_copy (mp_enc v))|apply IH].
Qed.

(** The queue [cc_fifo_init] works on. *)
Definition at_positions (n wp tp rp : Z) : cc_fifo_t :=
  set_read_pos rp (set_tentative_read_pos tp (set_write_pos wp (new_fifo n))).

Lemma queue_kvs_wf reader n wp tp rp vs : key_ok reader -> is_u32 n -> is_u32 wp -> is_u32 tp -> is_u32 rp ->
  Z.of_nat (length vs) = n -> Forall mp_wf vs ->
  mp_wf (smap (queue_kvs reader n wp tp rp vs)).
Proof.
  intros [_ Hr] Hn Hw Ht Hrp Hl Hvs. unfold CC_UUID_BUFFER_SIZE in Hr. unfold is_u32 in *.
  assert (mp_wf (VArr (map token_val vs))) as Ha.
  { apply mp_wf_arr. rewrite length_map. split; [lia|]. apply Forall_map. eapply Forall_impl; [exact Hvs|].
    intros v Hv. unfold token_val. simpl. repeat split; done. }
  unfold queue_kvs. simpl in *. repeat split; try done; try lia; apply Ha.
Qed.

Lemma reader_of reader rest : key_ok reader ->
  exists r, cc_coder_decode_string_from_array (mp_enc (VArr [VStr reader]) ++ rest) 0 = Some (reader ++ r, length reader).
Proof using L.
  intros [_ H]. unfold CC_UUID_BUFFER_SIZE in H. unfold cc_coder_decode_string_from_array. rewrite flat_varr, <- app_assoc.
  rewrite mp_decode_array_enc by (simpl; lia). simpl. rewrite app_nil_r. eexists. apply decode_str_enc. lia.
Qed.

Lemma position_of reader n rest : key_ok reader -> is_u32 n ->
  cc_coder_decode_uint_from_map (mp_enc (smap [(reader, VUint n)]) ++ rest) (reader ++ [NUL]) = Some n.
Proof using L.
  intros [Hr Lr] Hn. unfold CC_UUID_BUFFER_SIZE in Lr. rewrite decode_uint_key by done.
  eapply (uint_field reader [(reader, VUint n)] rest); try done.
  - constructor; [|constructor]. split; [done|by left].
  - unfold is_u32 in Hn. simpl. repeat split; lia.
  - simpl. by rewrite decide_True.
Qed.

Lemma restored_slots n wp tp rp vs w : 0 < n < 2 ^ 32 -> Z.of_nat (length vs) = n -> 0 <= rp ->
  let f := at_positions n wp tp rp in
  let r := if nonempty f then filled vs 0 f w else (f, w) in
  restores f rp vs (w_next w) r.1 (w_mem r.2).
Proof.
  intros Hn Hl Hrp f. destruct (nonempty f) eqn:Hne; cbv zeta.
  - destruct (filled_spec vs 0 f w) as ((P1 & P2 & P3 & P4) & _ & _ & Hv).
    { simpl. rewrite length_replicate. lia. }
    repeat (split; [assumption|]). intros i v Hi Ev. destruct (Hv _ _ Ev) as (l & Ll & Et & Em).
    exists l. split; [done|]. split; [|done]. unfold slot. rewrite P1. simpl in Et |- *. by rewrite list_lookup_total_alt, Et.
  - repeat split; try done. intros i v Hi. exfalso. unfold nonempty in Hne. simpl in Hne.
    apply orb_false_iff in Hne as [_ Hw]. simpl in Hi. rewrite negb_false_iff, Z.eqb_eq in Hw. lia.
Qed.

Lemma run_fifo_init reader n wp tp rp vs r0 props w :
  key_ok reader -> 0 < n -> is_u32 n -> is_u32 wp -> is_u32 tp -> is_u32 rp ->
  Z.of_nat (length vs) = n -> Forall mp_wf vs ->
  exists f' w', cc_fifo_init (Some (mp_enc (smap (queue_kvs reader n wp tp rp vs)) ++ r0)) props w
                = Ok (Some f', w')
    /\ restores (at_positions n wp tp rp) rp vs (w_next w) f' (w_mem w') /\ grown w w'.
Proof using L Halloc.
  intros Hr Hn0 Hn Hwp Htp Hrp Hl Hvs.
  pose proof (queue_kvs_wf reader n wp tp rp vs Hr Hn Hwp Htp Hrp Hl Hvs) as Hw.
  assert (mp_wf (VArr (map token_val vs))) as Ha by (unfold queue_kvs in Hw; simpl in Hw |- *; tauto).
  pose proof Hr as [Hr1 _].
  unfold cc_fifo_init. run_with (run_mem_alloc_ok w). cbn [negb]. unfold queue_kvs in *.
  read_str (str "queuetype"). rewrite value_test_eq by keys. cbn [negb].
  read_uint (str "N"). run_with (run_mem_alloc_ok (set_calls (S (w_calls w)) w)). cbn [negb].
  unfold init_positions. read_uint (str "write_pos"). read_val (str "tentative_read_pos").
  read_val (str "readers"). edestruct reader_of as [r1 ->]; [exact Hr|].
  unfold strncpy_bytes. rewrite cstr_app, take_app_length, Nat.sub_diag by done.
  cbn [replicate]. rewrite app_nil_r. set (w1 := set_calls _ _).
  run_with (run_alloc_ok (reader ++ [NUL]) w1). rewrite position_of by done. cbn [default from_option id].
  read_val (str "read_pos"). rewrite position_of by done. cbn [default from_option id].
  read_val (str "fifo").
  fold (at_positions n wp tp rp). set (f := at_positions n wp tp rp). set (w2 := with_copy _ w1).
  assert (cc_coder_get_size_of_array (mp_enc (VArr (map token_val vs)) ++ mp_enc_kvs (skvs []) ++ r0) = n) as ->.
  { unfold cc_coder_get_size_of_array. rewrite flat_varr, <- app_assoc, mp_decode_array_enc, length_map.
    - done.
    - rewrite length_map. unfold is_u32 in Hn. lia. }
  assert (Z.to_nat n = length vs) as -> by lia.
  pose proof (run_init_tokens vs (mp_enc_kvs (skvs []) ++ r0) Ha Hvs vs 0 f w2 eq_refl) as E.
  cbv zeta in E. set (r := if nonempty f then filled vs 0 f w2 else (f, w2)) in *.
  assert (forall l, (l < w_next w2)%positive -> w_mem r.2 !! l = w_mem w2 !! l) as Hm.
  { intros l Hll. unfold r. destruct (nonempty f); [|done].
    apply (filled_spec vs 0 f w2); [simpl; rewrite length_replicate; lia|done]. }
  pose proof (restored_slots n wp tp rp vs w2 ltac:(unfold is_u32 in Hn; lia) Hl ltac:(unfold is_u32 in Hrp; lia)) as R.
  cbv zeta in R. fold f r in R. erewrite bind_Ok.
  2: { rewrite (bind_Ok _ _ _ _ _ (E ltac:(intros j Hj; exists no_token; split; [|done]; apply lookup_replicate_2; lia))).
       reflexivity. }
  assert (mem_free (w_next w1) (w_mem r.2) = Ok (tt, delete (w_next w1) (w_mem r.2))) as Ef.
  { unfold mem_free. exec. unfold get_. rewrite Hm by (simpl; lia). simpl. by rewrite lookup_insert_eq. }
  cbv beta iota. run_with (run_on_mem _ r.2 _ _ Ef). eexists _, _. split; [reflexivity|].
  split.
  2: { assert (grown w2 r.2) as Hg by (unfold r; destruct (nonempty f); [apply grown_filled|apply grown_refl]).
       assert (grown w r.2) as (m & nx & c & Er & Hnx & Hlow).
       { apply (grown_trans w w1); [exact (grown_calls _ w)|]. by apply (grown_trans w1 w2); [apply grown_copy|]. }
       assert (w_next w < nx)%positive as Hlt.
       { destruct Hg as (m' & nx' & c' & Er' & Hnx' & _). rewrite Er in Er'. apply (f_equal w_next) in Er'.
         simpl in Er', Hnx'. lia. }
       rewrite Er. eexists _, nx, c. split; [reflexivity|]. split; [done|]. intros l Hll. simpl.
       rewrite lookup_delete_ne by (simpl; lia). by apply Hlow. }
  destruct R as (R1 & R2 & R3 & R4 & R5). repeat (split; [assumption|]).
  intros i v Hi Ev. destruct (R5 i v Hi Ev) as (l & Ll & El & Em). simpl in Ll. exists l. split; [lia|].
  split; [done|]. simpl. rewrite lookup_delete_ne; [done|]. simpl. lia.
Qed.

Lemma port_kvs_wf state id nm queue d : (forall s, state = Some s -> is_u32 s) -> key_ok id -> key_ok nm ->
  mp_wf (smap queue) -> mp_wf (smap (port_kvs state id nm queue (direction_str d))).
Proof.
  intros Hs [_ Hi] [_ Hn] Hq. unfold CC_UUID_BUFFER_SIZE in *. simpl in Hq.
  destruct state as [s|]; [specialize (Hs s eq_refl); unfold is_u32 in Hs|]; destruct d; unfold port_kvs; simpl;
    repeat split; try lia; apply Hq.
Qed.

Lemma queue_field state id nm queue d rest : mp_wf (smap (port_kvs state id nm queue d)) ->
  exists r, cc_coder_get_value_from_map (mp_enc (smap (port_kvs state id nm queue d)) ++ rest) (str "queue")
            = Some (mp_enc (smap queue) ++ r).
Proof using L.
  intros Hw. destruct state as [s|]; unfold port_kvs in *; cbn [app] in *; eexists; read_val (str "queue"); reflexivity.
Qed.

(** C7: the state of a queue survives a migration.  When allocations succeed,
    what [cc_port_serialize_port] writes of a port is its name and a map from
    which, on any runtime and whatever follows it, [cc_fifo_init] builds a queue
    of the same size and write position that holds, slot by slot, in buffers of
    its own, the values of the tokens that remain.  For an out-port these are all
    tokens not acknowledged; for an in-port, those not read yet: the tokens read
    and not committed are not restored. *)
Theorem queue_state_roundtrip (w w2 : world) (l : loc) (p : cc_port_t) (f : cc_fifo_t)
  (with_state : bool) (id nm reader : bytes) (vs : list mpval) (props rest : bytes) :
  w_ports w !! l = Some p -> port_fifo p = Some f -> fifo_ok f ->
  Forall2 (token_holds (w_mem w)) (tokens f) vs -> Forall mp_wf vs ->
  is_u32 (port_state_val (port_state p)) ->
  in_arr id (port_id p) -> in_arr nm (port_name p) -> in_arr reader (reader_name p) ->
  exists obj q f' w',
    cc_port_serialize_port [] l with_state w = Ok (mp_enc (VStr nm) ++ obj, w)
    /\ cc_coder_get_value_from_map (obj ++ rest) (str "queue") = Some q
    /\ cc_fifo_init (Some q) props w2 = Ok (Some f', w')
    /\ restores f (match port_direction p with
                   | CC_PORT_DIRECTION_IN => tentative_read_pos f
                   | CC_PORT_DIRECTION_OUT => read_pos f
                   end) vs (w_next w2) f' (w_mem w').
Proof using L Halloc.
  intros Hp Hf Hok Hvs Hwf Hst Hid Hnm Hr. pose proof (ok_size f Hok). pose proof (ok_tokens f Hok).
  pose proof (ok_pos f Hok). fold (stored_read_pos (port_direction p) f).
  pose proof (run_serialize_port w l p f [] with_state id nm reader vs Hp Hf ltac:(lia) ltac:(lia) Hvs Hid Hnm Hr) as Es.
  assert (Z.of_nat (length vs) = fifo_size f) as Hl by (rewrite <- (Forall2_length _ _ _ Hvs); lia).
  assert (is_u32 (stored_read_pos (port_direction p) f)) as Hrp.
  { unfold is_u32, stored_read_pos. destruct (port_direction p); lia. }
  set (queue := queue_kvs _ _ _ _ _ _) in Es.
  assert (mp_wf (smap queue)) as Hq.
  { apply queue_kvs_wf; try done; try (by destruct Hr); unfold is_u32; lia. }
  edestruct (queue_field (if with_state then Some (port_state_val (port_state p)) else None) id nm queue
    (direction_str (port_direction p)) rest) as [r Er].
  { apply port_kvs_wf; [|apply Hid|apply Hnm|done]. intros s. destruct with_state; [|done]. by intros [= <-]. }
  destruct (run_fifo_init reader (fifo_size f) (write_pos f) (tentative_read_pos f)
    (stored_read_pos (port_direction p) f) vs r props w2) as (f' & w' & Ei & R & _); try done;
    try (by destruct Hr); try (unfold is_u32; lia).
  eexists _, _, f', w'. split; [exact Es|]. split; [exact Er|]. split; [exact Ei|]. exact R.
Qed.
End queue_state.

(** The out-port of the example with a token. *)
Definition loaded_queue : cc_fifo_t :=
  set_write_pos 1 (set_token 0 {| tok_value := Some 50%positive; tok_size := 3 |} (new_fifo 4)).
Definition loaded_port : cc_port_t := set_port_fifo (Some loaded_queue)
  (a_port (str "out-port") (str "token") (str "in-port") CC_PORT_DIRECTION_OUT CC_PORT_DISCONNECTED 10).
Definition loaded_world : world :=
  set_mem {[50%positive := mp_enc (VUint 300)]} (set_ports {[20%positive := loaded_port]} the_world).

Lemma loaded_queue_ok : fifo_ok loaded_queue.
Proof.
  split; [simpl; lia|done|simpl; lia|simpl; lia|].
  intros i Hi N. destruct i as [|[|[|[|i]]]]; try done.
  exfalso. apply (N 0); [simpl; lia|done].
Qed.

Lemma queue_state_roundtrip_witness :
  exists obj q f' w',
    cc_port_serialize_port [] 20 true loaded_world = Ok (mp_enc (VStr (str "token")) ++ obj, loaded_world)
    /\ cc_coder_get_value_from_map (obj ++ []) (str "queue") = Some q
    /\ cc_fifo_init (Some q) [] the_world = Ok (Some f', w')
    /\ exists l, slot f' 0 = {| tok_value := Some l; tok_size := 3 |} /\ w_mem w' !! l = Some (mp_enc (VUint 300)).
Proof.
  destruct (queue_state_roundtrip (P:=quiet_platform) (fun _ => eq_refl) loaded_world the_world 20 loaded_port loaded_queue true
    (str "out-port") (str "token") (str "in-port") [VUint 300; VNil; VNil; VNil] [] [])
    as (obj & q & f' & w' & Es & Eq & Ei & R); try reflexivity.
  - apply loaded_queue_ok.
  - apply Forall2_cons. split.
    + right. exists 50%positive. split; [reflexivity|]. split; reflexivity.
    + repeat (apply Forall2_cons; split; [left; split; reflexivity|]). constructor.
  - repeat constructor; simpl; lia.
  - unfold is_u32. simpl. lia.
  - apply in_id_arr, in_id_id50, (bool_decide_unpack _). vm_compute. exact I.
  - split; [apply (bool_decide_unpack _); vm_compute; exact I|]. eexists. reflexivity.
  - apply in_id_arr, in_id_id50, (bool_decide_unpack _). vm_compute. exact I.
  - exists obj, q, f', w'. repeat (split; [assumption|]). destruct R as (_ & _ & _ & _ & R).
    destruct (R 0 (VUint 300)) as (l & _ & El & Em); [simpl; lia|reflexivity|]. by exists l.
Defined.
