(* ===== verification/PortWake.v ===== *)
(** A port that sleeps and wakes: what is written of a port, its queue and its previous
    connection (cc_port.c), and the ports that [cc_actor_create_ports] makes of it
    (cc_actor.c), each with its tunnel counted and its tokens in new buffers. *)
From S2P Require Import Prelude CString Common MsgPuck MsgPackRef Coder Fifo Machine Transport ProtoSend.
From S2P Require Import Link FifoInit Port CoderSpec FifoSpec MsgSpec Runtime Calvinsys Actor TokenMsg.
From S2P Require Import Runs Examples PortProps QueueState.

(** ** What is written of a port *)

Record port_image := {
  pi_id : bytes;
  pi_name : bytes;
  pi_peer : bytes;           (* the runtime of the peer, empty when it is not known *)
  pi_peer_port : bytes;
  pi_direction : cc_port_direction_t;
  pi_state : cc_port_state_t;
  pi_size : Z;
  pi_write : Z;
  pi_tentative : Z;
  pi_read : Z;
  pi_values : list mpval     (* of all the slots *)
}.

Record image_ok (x : port_image) : Prop := {
  io_id : key_ok (pi_id x);
  io_name : key_ok (pi_name x) /\ (length (pi_name x) < CC_MAX_PORT_NAME_LENGTH)%nat;
  io_peer : key_ok (pi_peer x);
  io_peer_port : key_ok (pi_peer_port x);
  io_state : is_u32 (port_state_val (pi_state x)) /\ port_state_of (port_state_val (pi_state x)) = pi_state x;
  io_size : 0 < pi_size x /\ is_u32 (pi_size x);
  io_write : is_u32 (pi_write x);
  io_tentative : is_u32 (pi_tentative x);
  io_read : is_u32 (pi_read x);
  io_values : Z.of_nat (length (pi_values x)) = pi_size x /\ Forall mp_wf (pi_values x)
}.

(** The reader that the positions of the queue are written for. *)
Definition pi_reader (x : port_image) : bytes :=
  match pi_direction x with CC_PORT_DIRECTION_IN => pi_id x | CC_PORT_DIRECTION_OUT => pi_peer_port x end.
Definition image_kvs (x : port_image) : list (bytes * mpval) :=
  port_kvs (Some (port_state_val (pi_state x))) (pi_id x) (pi_name x)
    (queue_kvs (pi_reader x) (pi_size x) (pi_write x) (pi_tentative x) (pi_read x) (pi_values x))
    (direction_str (pi_direction x)).
(** The entries of a port among the ports, and among the previous connections. *)
Definition port_entry (x : port_image) : bytes * mpval := (pi_name x, smap (image_kvs x)).
Definition prev_entry (x : port_image) : bytes * mpval :=
  (pi_id x, VArr [VArr [if decide (pi_peer x = []) then VNil else VStr (pi_peer x); VStr (pi_peer_port x)]]).
Definition prev_kvs (ins outs : list port_image) : list (bytes * mpval) :=
  [(str "inports", smap (map prev_entry ins)); (str "outports", smap (map prev_entry outs))].

Section images.
Context `{P : Platform} `{MP : MsgPuck} `{L : !MsgPuckLaws MP}.

Lemma reader_ok x : image_ok x -> key_ok (pi_reader x).
Proof. intros H. unfold pi_reader. destruct (pi_direction x); apply H. Qed.

Lemma image_wf x : image_ok x -> mp_wf (smap (image_kvs x)).
Proof.
  intros H. pose proof (reader_ok x H). destruct H. apply port_kvs_wf; [|done|by destruct io_name0|].
  - by intros s [= <-]; destruct io_state0.
  - destruct io_values0. apply queue_kvs_wf; tauto.
Qed.

(** ** The description of a port is read *)

Lemma description_read x rest : image_ok x -> exists r1 r2 r3,
  port_description (mp_enc (smap (image_kvs x)) ++ rest)
  = Some ((pi_id x ++ r1, length (pi_id x)), (pi_name x ++ r2, length (pi_name x)), r3).
Proof using L.
  intros H. pose proof (image_wf x H) as Hw. unfold port_description, image_kvs, port_kvs in *. cbn [app] in *.
  read_str (str "id"). cbn [mbind option_bind]. read_str (str "name"). cbn [mbind option_bind].
  read_val (str "properties"). cbn [mbind option_bind].
  set (props := [(str "nbr_peers", VUint 1); (str "direction", VStr (direction_str (pi_direction x)));
                 (str "routing", VStr (str "default"))]) in *.
  assert (mp_wf (smap props)) as Hp.
  { eapply (assoc_wf (str "properties")); [exact Hw|reflexivity]. }
  read_str (str "routing"). cbn [mbind option_bind]. rewrite value_test_eq by keys. cbn [negb andb].
  assert (is_u32 1) as H1 by (unfold is_u32; lia). read_uint (str "nbr_peers"). cbn. eauto.
Qed.

Lemma queue_read x rest : image_ok x -> exists r,
  cc_coder_get_value_from_map (mp_enc (smap (image_kvs x)) ++ rest) (str "queue")
  = Some (mp_enc (smap (queue_kvs (pi_reader x) (pi_size x) (pi_write x) (pi_tentative x) (pi_read x) (pi_values x))) ++ r).
Proof using L. intros H. apply queue_field. by apply image_wf. Qed.

Lemma state_read x rest : image_ok x ->
  cc_coder_has_key (mp_enc (smap (image_kvs x)) ++ rest) (str "constrained_state") = true
  /\ cc_coder_decode_uint_from_map (mp_enc (smap (image_kvs x)) ++ rest) (str "constrained_state")
     = Some (port_state_val (pi_state x)).
Proof using L.
  intros H. pose proof (image_wf x H) as Hw. destruct H. destruct io_state0 as [Hs _].
  unfold image_kvs, port_kvs in *. cbn [app] in *. split.
  - rewrite has_key_assoc by (done || keys). reflexivity.
  - read_uint (str "constrained_state"). done.
Qed.

(** ** The previous connections are read *)

(** Ports of which no two identifiers begin alike. *)
Definition ids_apart (xs : list port_image) : Prop :=
  NoDup (map pi_id xs) /\ forall x y, x ∈ xs -> y ∈ xs -> pi_id x = pi_id y \/ apart (pi_id x) (pi_id y).

(** Only the bytes before the length of a key are compared. *)
Lemma scan_value_prefix key rest : nul_free key -> forall n r,
  scan_value n r (key ++ rest) (length key) = scan_value n r key (length key).
Proof.
  intros Hk. induction n as [|n IH]; intros r; simpl; [done|].
  destruct (cc_coder_decode_str r) as [[tmp len]|]; [|done].
  rewrite streq_n_app by done. by rewrite IH.
Qed.

Lemma get_value_n key rest kvs tl : nul_free key -> clear_for key kvs -> mp_wf (smap kvs) ->
  cc_coder_get_value_from_map_n (mp_enc (smap kvs) ++ tl) (key ++ rest) (length key)
  = (fun vr => mp_enc vr.1 ++ vr.2) <$> assoc_at key kvs tl.
Proof using L.
  intros Hk Hc Hw. rewrite <- get_value_from_map_assoc by done.
  unfold cc_coder_get_value_from_map, cc_coder_get_value_from_map_n, in_map.
  destruct (is_type _ _); [|done]. destruct (mp_decode_map _) as [n r].
  rewrite strlen_nul_free_all by done. by apply scan_value_prefix.
Qed.

Lemma prev_entry_wf x : image_ok x -> mp_wf (VStr (pi_id x)) /\ mp_wf (prev_entry x).2.
Proof.
  intros []. unfold key_ok, CC_UUID_BUFFER_SIZE in *. split; [simpl; lia|].
  unfold prev_entry. simpl. destruct (decide _); simpl; repeat split; lia.
Qed.

Lemma prev_wf xs : Forall image_ok xs -> Z.of_nat (length xs) < 2 ^ 32 -> mp_wf (smap (map prev_entry xs)).
Proof.
  intros H Hn. apply mp_wf_map. rewrite !length_map. split; [done|]. unfold mp_wf_kvs. rewrite map_map, Forall_map.
  eapply Forall_impl; [exact H|]. intros x Hx. by apply prev_entry_wf.
Qed.

Lemma prev_clear xs x : Forall image_ok xs -> ids_apart xs -> x ∈ xs -> clear_for (pi_id x) (map prev_entry xs).
Proof.
  intros Hok [_ Ha] Hx. unfold clear_for. rewrite Forall_map, Forall_forall. intros y Hy. simpl.
  rewrite Forall_forall in Hok. destruct (Hok y Hy). split; [by destruct io_id0|].
  destruct (Ha x y Hx Hy) as [->|?]; auto.
Qed.

Lemma prev_assoc xs x tl : NoDup (map pi_id xs) -> x ∈ xs ->
  exists r, assoc_at (pi_id x) (map prev_entry xs) tl = Some ((prev_entry x).2, r).
Proof.
  induction xs as [|y xs IH]; intros Hn Hx; [by apply elem_of_nil in Hx|].
  cbn [map] in Hn. apply NoDup_cons in Hn as [Hy Hn]. cbn [map assoc_at]. unfold prev_entry at 1.
  apply elem_of_cons in Hx as [->|Hx].
  - rewrite decide_True by done. by eexists.
  - rewrite decide_False; [by apply IH|]. intros E. apply Hy. rewrite E.
    apply list_elem_of_fmap. by exists x.
Qed.

(** The peer of a port, as the pointers into the message. *)
Definition peer_read (x : port_image) (r : bytes * bytes) : option msg_str * msg_str :=
  (if decide (pi_peer x = []) then None else Some (pi_peer x ++ r.1, length (pi_peer x)),
   (pi_peer_port x ++ r.2, length (pi_peer_port x))).

Lemma peer_of_pair x tl : image_ok x ->
  exists r, (obj_peer ← cc_coder_get_value_from_array (mp_enc (prev_entry x).2 ++ tl) 0;
   tmp_value ← cc_coder_get_value_from_array obj_peer 0;
   peer_id ← (if bool_decide (cc_coder_type_of tmp_value = CC_CODER_STR)
              then Some <$> cc_coder_decode_str tmp_value else Some None);
   peer_port_id ← cc_coder_decode_string_from_array obj_peer 1;
   Some (peer_id, peer_port_id)) = Some (peer_read x r).
Proof using L.
  intros Hx. pose proof (prev_entry_wf x Hx) as [_ Hw]. unfold prev_entry in Hw |- *. cbn [snd] in *.
  set (pv := if decide (pi_peer x = []) then VNil else VStr (pi_peer x)) in *.
  assert (mp_wf (VArr [pv; VStr (pi_peer_port x)])) as Hp by (apply mp_wf_arr in Hw as [_ Hw]; by inversion Hw).
  assert (mp_wf pv /\ mp_wf (VStr (pi_peer_port x))) as [Hv1 Hv2].
  { apply mp_wf_arr in Hp as [_ Hp]. by inversion Hp as [|? ? ? Hq]; inversion Hq. }
  rewrite (get_value_from_array_enc [VArr [pv; VStr (pi_peer_port x)]] 0 (VArr [pv; VStr (pi_peer_port x)])) by done.
  cbn [mbind option_bind]. set (t1 := concat _ ++ tl).
  rewrite (get_value_from_array_enc [pv; VStr (pi_peer_port x)] 0 pv) by done. cbn [mbind option_bind].
  set (t2 := concat _ ++ t1).
  destruct (decode_string_from_array_enc [pv; VStr (pi_peer_port x)] 1 (pi_peer_port x) t1) as (r2 & ->); [done..|].
  unfold cc_coder_type_of. rewrite mp_typeof_enc by done. unfold peer_read. unfold pv in *.
  destruct (decide (pi_peer x = [])) as [E|E]; cbn [mpval_type].
  - rewrite bool_decide_false by done. cbn [mbind option_bind]. by exists ([], r2).
  - rewrite bool_decide_true by done. rewrite decode_str_enc by done. cbn. by exists (t2, r2).
Qed.

Lemma peer_of_prev_read ins outs x r0 rest :
  let xs := match pi_direction x with CC_PORT_DIRECTION_IN => ins | CC_PORT_DIRECTION_OUT => outs end in
  Forall image_ok ins -> Forall image_ok outs -> Z.of_nat (length ins) < 2 ^ 32 -> Z.of_nat (length outs) < 2 ^ 32 ->
  ids_apart xs -> x ∈ xs ->
  exists r, peer_of_prev (mp_enc (smap (prev_kvs ins outs)) ++ rest) (pi_direction x) (pi_id x ++ r0, length (pi_id x))
            = Some (peer_read x r).
Proof using L.
  intros xs Hi Ho Hni Hno Ha Hx. unfold peer_of_prev.
  assert (mp_wf (smap (prev_kvs ins outs))) as Hw.
  { apply mp_wf_map. split; [done|]. unfold mp_wf_kvs, prev_kvs. cbn [map fst snd].
    repeat (apply Forall_cons; split); [split; [reflexivity|by apply prev_wf]..|constructor]. }
  assert (Forall image_ok xs /\ mp_wf (smap (map prev_entry xs)) /\ image_ok x) as (Hxs & Hxw & Hxo).
  { assert (Forall image_ok xs) as Hxs by (by subst xs; destruct (pi_direction x)).
    split; [done|]. split; [by subst xs; destruct (pi_direction x); apply prev_wf|].
    rewrite Forall_forall in Hxs. by apply Hxs. }
  assert (exists tl, cc_coder_get_value_from_map (mp_enc (smap (prev_kvs ins outs)) ++ rest)
      (match pi_direction x with CC_PORT_DIRECTION_IN => str "inports" | CC_PORT_DIRECTION_OUT => str "outports" end)
      = Some (mp_enc (smap (map prev_entry xs)) ++ tl)) as (tl & ->).
  { subst xs. unfold prev_kvs in *. destruct (pi_direction x); eexists.
    - read_val (str "inports"). reflexivity.
    - read_val (str "outports"). reflexivity. }
  cbn [mbind option_bind fst snd].
  assert (nul_free (pi_id x)) as Hn by (by destruct Hxo as [[? _]]).
  rewrite get_value_n by (done || by apply prev_clear). destruct Ha as [Hnd _].
  destruct (prev_assoc xs x tl Hnd Hx) as (r & ->). cbn [fmap option_fmap option_map mbind option_bind fst snd].
  destruct (peer_of_pair x r Hxo) as (r' & E). exists r'. exact E.
Qed.

(** ** A port is made of its image *)

(** One reference more. *)
Definition bump (t : cc_tunnel_t) : cc_tunnel_t := set_tunnel_ref_count (u8 (tunnel_ref_count t + 1)) t.
Definition bumped (used : list loc) (ts : gmap loc cc_tunnel_t) : gmap loc cc_tunnel_t :=
  foldl (fun ts l => alter bump l ts) ts used.

(** What waking does to a world: new ports and buffers, and a reference to each
    tunnel that is used; nothing is sent. *)
Definition woken (used : list loc) (w w' : world) : Prop :=
  exists ports m n c, w' = set_tunnels (bumped used (w_tunnels w)) (set_ports ports (set_mem m (set_next n (set_calls c w))))
    /\ (w_next w <= n)%positive
    /\ forall l, (l < w_next w \/ n <= l)%positive -> ports !! l = w_ports w !! l /\ m !! l = w_mem w !! l.

Lemma woken_refl w : woken [] w w.
Proof. exists (w_ports w), (w_mem w), (w_next w), (w_calls w). split; [by destruct w|]. split; [lia|done]. Qed.

Lemma woken_trans u1 u2 w1 w2 w3 : woken u1 w1 w2 -> woken u2 w2 w3 -> woken (u1 ++ u2) w1 w3.
Proof.
  intros (p & m & n & c & -> & Hn & Hm) (p' & m' & n' & c' & -> & Hn' & Hm'). simpl in *.
  exists p', m', n', c'. unfold bumped. rewrite foldl_app. split; [reflexivity|]. split; [lia|].
  intros l Hl. destruct (Hm' l) as [-> ->]; [lia|]. apply Hm. lia.
Qed.

Lemma woken_grown w w' : grown w w' -> woken [] w w'.
Proof.
  intros (m & n & c & -> & Hn & Hm). exists (w_ports w), m, n, c. split; [by destruct w|]. split; [done|].
  intros l Hl. split; [done|]. by apply Hm.
Qed.

(** The tunnel that a port gets: none unless the port is enabled, else the one to its
    peer, which is another runtime. *)
Definition route (w : world) (x : port_image) (t : option loc) : Prop :=
  match t with
  | None => pi_state x <> CC_PORT_ENABLED
  | Some l => pi_state x = CC_PORT_ENABLED /\ pi_peer x <> []
      /\ streq_n (pi_peer x) (node_id (w_node w)) (length (pi_peer x)) = false
      /\ cc_tunnel_get_from_peerid_and_type (pi_peer x) (length (pi_peer x)) CC_TUNNEL_TYPE_TOKEN w = Ok (Some l, w)
      /\ is_Some (w_tunnels w !! l)
  end.

Lemma find_bumped used w peer n rest tunnels type r : nul_free peer -> n = length peer ->
  find_peer_tunnel peer n type tunnels w = Ok (r, w) ->
  forall w', w_links w' = w_links w -> w_tunnels w' = bumped used (w_tunnels w) ->
  find_peer_tunnel (peer ++ rest) n type tunnels w' = Ok (r, w').
Proof.
  intros Hp -> H w' Hl Ht. revert H. induction tunnels as [|l tunnels IH]; cbn [find_peer_tunnel]; intros H.
  { unfold mret, M_ret in *. by injection H as <-. }
  apply bind_inv in H as (t & s & E & H).
  assert (w_tunnels w !! l = Some t /\ s = w) as [Et ->].
  { revert E. unfold get_tunnel. exec. unfold get_. destruct (w_tunnels w !! l); [|done]. by intros [= -> ->]. }
  assert (exists t', w_tunnels w' !! l = Some t' /\ tunnel_link t' = tunnel_link t /\ tunnel_type t' = tunnel_type t)
    as (t' & Et' & El & Ey).
  { rewrite Ht. clear -Et. revert t Et. generalize (w_tunnels w) as ts. unfold bumped. induction used as [|u used IH]; intros ts t Et.
    - by exists t.
    - cbn [foldl]. destruct (decide (u = l)) as [->|N].
      + destruct (IH (alter bump l ts) (bump t)) as (t' & ? & ? & ?); [by rewrite lookup_alter_eq, Et|]. by exists t'.
      + apply (IH (alter bump u ts) t). by rewrite lookup_alter_ne. }
  run_with (run_get_tunnel w' l t' Et'). rewrite El, Ey. destruct (tunnel_link t) as [k|]; [|done].
  case_bool_decide; [|by apply IH]. apply bind_inv in H as (x & s & E' & H).
  assert (w_links w !! k = Some x /\ s = w) as [Ex ->].
  { revert E'. unfold get_link. exec. unfold get_. destruct (w_links w !! k); [|done]. by intros [= -> ->]. }
  assert (w_links w' !! k = Some x) as Ex' by by rewrite Hl. run_with (run_get_link w' k x Ex').
  rewrite streq_n_sym, streq_n_app, streq_n_sym by done.
  destruct (streq_n _ _ _); [unfold mret, M_ret in *; by injection H as <-|by apply IH].
Qed.

(** The port of an image, in an actor. *)
Definition made (x : port_image) (actor : loc) (f : option cc_fifo_t) (s : cc_port_state_t) (t : option loc) : cc_port_t :=
  {| port_id := in_array CC_UUID_BUFFER_SIZE (pi_id x); port_name := in_array CC_MAX_PORT_NAME_LENGTH (pi_name x);
     port_peer_port_id := in_array CC_UUID_BUFFER_SIZE (pi_peer_port x);
     port_peer_id := in_array CC_UUID_BUFFER_SIZE (pi_peer x); port_direction := pi_direction x;
     port_peer_port := None; port_tunnel := t; port_state := s; port_fifo := f; port_retries := 0;
     port_actor := actor |}.

Lemma run_copy_field n s rest w : nul_free s -> (length s < n)%nat ->
  copy_field n (s ++ rest, length s) w = Ok (in_array n s, w).
Proof. intros Hs L'. unfold copy_field. cbn [fst snd]. by rewrite strncpy_nul_zeroed. Qed.

(** The stored state: the tunnel of an enabled port is found and counted. *)
Lemma run_port_restore x actor f t rest w w0 : image_ok x ->
  route w0 x t -> w_node w = w_node w0 -> w_links w = w_links w0 -> w_tunnels w = w_tunnels w0 ->
  forall l, w_ports w !! l = Some (made x actor f CC_PORT_DISCONNECTED None) ->
  port_restore l (mp_enc (smap (image_kvs x)) ++ rest)
    (match (peer_read x ([], [])).1 with Some s => s.2 | None => 0%nat end) w
  = Ok (true, set_tunnels (bumped (option_list t) (w_tunnels w))
                (set_ports (<[l := made x actor f (pi_state x) t]> (w_ports w)) w)).
Proof using L.
  intros Hx Hr En El Et l Hl. destruct (state_read x rest Hx) as [E1 E2]. unfold port_restore. rewrite E1, E2.
  destruct (io_state x Hx) as [_ ->]. run_with (run_upd_port w l _ (set_port_state (pi_state x)) Hl).
  set (p1 := set_port_state (pi_state x) _). set (w1 := set_ports (<[l := p1]> (w_ports w)) w).
  assert (w_ports w1 !! l = Some p1) as Hl1 by apply lookup_insert_eq.
  destruct t as [t|]; cbn [route] in Hr.
  - destruct Hr as (Es & Hpe & Hn & Hf & (tn & Htn)). rewrite Es, bool_decide_true by done. cbn [when].
    destruct (io_peer x Hx) as [Hpn Hpl].
    unfold mbind at 1. unfold M_bind at 1.
    assert ((p ← get_port l;
       node ← get_node;
       if streq_n (port_peer_id p) (node_id node) (uuid_len (port_peer_id p))
       then _ ← cc_port_connect_local l; mret tt
       else
         t ← cc_tunnel_get_from_peerid_and_type (port_peer_id p)
               (match (peer_read x ([], [])).1 with Some s => s.2 | None => 0%nat end) CC_TUNNEL_TYPE_TOKEN;
         upd_port l (set_port_tunnel t) ;;
         match t with
         | Some t => cc_tunnel_add_ref (Some t)
         | None => cc_port_set_state l CC_PORT_DISCONNECTED
         end) w1
      = Ok (tt, set_tunnels (bumped [t] (w_tunnels w))
                (set_ports (<[l := made x actor f (pi_state x) (Some t)]> (w_ports w)) w))) as ->; [|by rewrite Es].
    run_with (run_get_port w1 l p1 Hl1). run_with (run_get_node w1). cbn [made set_port_state port_peer_id p1].
    assert (uuid_len (in_array CC_UUID_BUFFER_SIZE (pi_peer x)) = length (pi_peer x)) as ->.
    { rewrite in_array_nul by done. by apply strnlen_key_arr. }
    unfold in_array at 1. rewrite streq_n_app by done. change (w_node w1) with (w_node w). rewrite En, Hn.
    unfold peer_read. rewrite decide_False by done. cbn [fst snd].
    assert (cc_tunnel_get_from_peerid_and_type (in_array CC_UUID_BUFFER_SIZE (pi_peer x)) (length (pi_peer x))
              CC_TUNNEL_TYPE_TOKEN w1 = Ok (Some t, w1)) as Ef.
    { unfold cc_tunnel_get_from_peerid_and_type in *. run_with (run_get_node w1).
      rewrite (bind_Ok _ _ _ _ _ (run_get_node w0)) in Hf. change (w_node w1) with (w_node w). rewrite En.
      by apply (find_bumped [] w0 _ _ _ _ _ _ Hpn eq_refl Hf). }
    run_with Ef. run_with (run_upd_port w1 l p1 (set_port_tunnel (Some t)) Hl1). unfold cc_tunnel_add_ref.
    set (w2 := set_ports _ w1). assert (w_tunnels w2 !! t = Some tn) as Ht2 by (change (w_tunnels w2) with (w_tunnels w); by rewrite Et).
    rewrite (run_upd_tunnel w2 t tn _ Ht2). unfold bumped. cbn [foldl]. do 2 f_equal.
    assert (alter bump t (w_tunnels w) = <[t := bump tn]> (w_tunnels w)) as ->.
    { apply map_eq. intros i. destruct (decide (i = t)) as [->|].
      - rewrite lookup_alter_eq, lookup_insert_eq, Et, Htn. done.
      - by rewrite lookup_alter_ne, lookup_insert_ne. }
    unfold w2, w1. cbn. rewrite insert_insert_eq. unfold p1, made, set_port_state, set_port_tunnel. cbn. by rewrite Es.
  - rewrite bool_decide_false by done. cbn [when]. rewrite (bind_Ok (mret tt) _ _ _ _ eq_refl).
    unfold bumped. cbn [option_list foldl]. done.
Qed.

Context (Halloc : forall n, plat_alloc n = true).

Lemma run_port_create x actor t rest prev w : image_ok x -> route w x t ->
  cc_coder_type_of prev <> CC_CODER_NIL ->
  (forall r, exists r', peer_of_prev prev (pi_direction x) (pi_id x ++ r, length (pi_id x)) = Some (peer_read x r')) ->
  exists f w', cc_port_create actor (mp_enc (smap (image_kvs x)) ++ rest) prev (pi_direction x) None w
      = Ok (Some (w_next w), w')
    /\ woken (option_list t) w w' /\ (w_next w < w_next w')%positive
    /\ w_ports w' !! w_next w = Some (made x actor (Some f) (pi_state x) t)
    /\ restores (at_positions (pi_size x) (pi_write x) (pi_tentative x) (pi_read x)) (pi_read x) (pi_values x)
         (w_next w) f (w_mem w').
Proof using L Halloc.
  intros Hx Hr Hprev Hpeer. unfold cc_port_create.
  destruct (description_read x rest Hx) as (r1 & r2 & props & ->). destruct (queue_read x rest Hx) as (r3 & ->).
  destruct (Hpeer r1) as ([r4 r5] & Ep). rewrite bool_decide_false by done. cbn [negb].
  rewrite (bind_Ok _ _ w (Some (peer_read x (r4, r5))) w) by by rewrite Ep.
  destruct (io_id x Hx) as [Hi1 Hi2], (io_name x Hx) as [[Hn1 _] Hn2], (io_peer_port x Hx) as [Hq1 Hq2], (io_peer x Hx) as [Hp1 Hp2].
  unfold peer_read at 1. cbn [fst snd]. run_with (run_malloc Halloc w). cbn [negb]. set (w1 := set_calls _ w).
  run_with (run_copy_field CC_UUID_BUFFER_SIZE (pi_id x) r1 w1 Hi1 Hi2).
  run_with (run_copy_field CC_MAX_PORT_NAME_LENGTH (pi_name x) r2 w1 Hn1 Hn2).
  run_with (run_copy_field CC_UUID_BUFFER_SIZE (pi_peer_port x) r5 w1 Hq1 Hq2).
  rewrite (bind_Ok _ _ w1 (in_array CC_UUID_BUFFER_SIZE (pi_peer x)) w1).
  2: { destruct (decide (pi_peer x = [])) as [->|]; [done|]. by apply run_copy_field. }
  set (l := w_next w). set (w2 := set_next (Pos.succ l) w1). rewrite (bind_Ok fresh_loc _ w1 l w2 eq_refl).
  fold (made x actor None CC_PORT_DISCONNECTED None).
  set (w3 := set_ports (<[l := made x actor None CC_PORT_DISCONNECTED None]> (w_ports w2)) w2).
  rewrite (bind_Ok (put_port _ _) _ w2 tt w3 eq_refl).
  destruct (run_fifo_init Halloc (pi_reader x) (pi_size x) (pi_write x) (pi_tentative x) (pi_read x) (pi_values x) r3 props w3)
    as (f & w4 & Ef & Hres & (m & n & c & -> & Hn & Hm)); try apply Hx; [by apply reader_ok|].
  set (w4 := set_mem _ _) in *. run_with Ef.
  assert (w_ports w4 !! l = Some (made x actor None CC_PORT_DISCONNECTED None)) as Hl4 by apply lookup_insert_eq.
  run_with (run_upd_port w4 l _ (set_port_fifo (Some f)) Hl4). set (w5 := set_ports _ w4).
  assert (w_ports w5 !! l = Some (made x actor (Some f) CC_PORT_DISCONNECTED None)) as Hl5 by apply lookup_insert_eq.
  pose proof (run_port_restore x actor (Some f) t rest w5 w Hx Hr eq_refl eq_refl eq_refl l Hl5) as Er.
  assert (match (if decide (pi_peer x = []) then None else Some (pi_peer x ++ r4, length (pi_peer x))) with
          | Some s => s.2 | None => 0%nat end
          = match (peer_read x ([], [])).1 with Some s => s.2 | None => 0%nat end) as ->.
  { unfold peer_read. by destruct (decide _). }
  run_with Er. eexists f, _. split; [reflexivity|]. split; [|split; [|split]].
  - eexists _, m, n, c. split; [reflexivity|]. split; [simpl in Hn; lia|]. intros k Hk. split.
    + simpl in Hn |- *. rewrite !lookup_insert_ne by (unfold l in *; lia). done.
    + rewrite Hm; [done|simpl; unfold l; lia].
  - simpl. simpl in Hn. unfold l. lia.
  - apply lookup_insert_eq.
  - destruct Hres as (R1 & R2 & R3 & R4 & R5). repeat (split; [assumption|]).
    intros i v Hi Ev. destruct (R5 i v Hi Ev) as (k & Lk & Ek & Em). exists k. split; [simpl in Lk; unfold l in *; lia|].
    by split.
Qed.

(** ** All the ports *)

(** The addresses that are in use were given out. *)
Definition fresh (w : world) : Prop :=
  forall l, is_Some (w_ports w !! l) \/ is_Some (w_mem w !! l) -> (l < w_next w)%positive.

(** The port at an address is that of the image, with the tunnel and the queue. *)
Definition port_made (w : world) (actor : loc) (x : port_image) (t : option loc) (l : loc) : Prop :=
  exists f, w_ports w !! l = Some (made x actor (Some f) (pi_state x) t)
    /\ restores (at_positions (pi_size x) (pi_write x) (pi_tentative x) (pi_read x)) (pi_read x) (pi_values x)
         1%positive f (w_mem w).

Lemma woken_next used w w' : woken used w w' -> (w_next w <= w_next w')%positive.
Proof. by intros (p & m & n & c & -> & Hn & _). Qed.

Lemma woken_fresh used w w' : woken used w w' -> fresh w -> fresh w'.
Proof.
  intros (p & m & n & c & -> & Hn & Hm) Hf l. simpl. intros Hl. destruct (decide (l < n)%positive) as [|N]; [done|].
  destruct (Hm l) as [Ep Em]; [lia|]. rewrite Ep, Em in Hl. apply Hf in Hl. lia.
Qed.

Lemma woken_made used w w' actor x t l : woken used w w' -> fresh w -> port_made w actor x t l -> port_made w' actor x t l.
Proof.
  intros (p & m & n & c & -> & Hn & Hm) Hf (f & Hp & R1 & R2 & R3 & R4 & R5). exists f. simpl.
  assert (l < w_next w)%positive as Hl by (apply Hf; left; by eexists).
  destruct (Hm l ltac:(by left)) as [-> _]. split; [done|]. repeat (split; [assumption|]). intros i v Hi Ev.
  destruct (R5 i v Hi Ev) as (b & Lb & Es & Eb). exists b. split; [done|]. split; [done|].
  assert (b < w_next w)%positive as Hb by (apply Hf; right; by eexists). by destruct (Hm b ltac:(by left)) as [_ ->].
Qed.

Lemma woken_actors used a w w' : woken used w w' -> woken used (set_actors a w) (set_actors a w').
Proof. intros (p & m & n & c & -> & Hn & Hm). by exists p, m, n, c. Qed.

Lemma bumped_is_Some used ts l : is_Some (ts !! l) -> is_Some (bumped used ts !! l).
Proof.
  unfold bumped. revert ts. induction used as [|u used IH]; intros ts H; [done|]. simpl. apply IH.
  destruct (decide (u = l)) as [->|]; [rewrite lookup_alter_eq|by rewrite lookup_alter_ne]. destruct H as [? ->]. by eexists.
Qed.

(** The same routes lead on, whatever was woken and whatever the actors are. *)
Lemma route_woken used a w w' x t : image_ok x -> woken used (set_actors a w) w' -> route w x t -> route w' x t.
Proof.
  intros Hx (p & m & n & c & -> & _) H. destruct t as [t|]; [|done]. destruct H as (H1 & H2 & H3 & H4 & H5).
  split; [done|]. split; [done|]. split; [done|]. split; [|by apply bumped_is_Some].
  unfold cc_tunnel_get_from_peerid_and_type in *. rewrite (bind_Ok _ _ _ _ _ (run_get_node w)) in H4.
  rewrite (bind_Ok _ _ _ _ _ (run_get_node _)).
  destruct (io_peer x Hx) as [Hp _]. rewrite <- (app_nil_r (pi_peer x)) at 1.
  by apply (find_bumped used w _ _ [] _ _ _ Hp eq_refl H4).
Qed.

Lemma routes_woken used a w w' xs ts : Forall image_ok xs -> woken used (set_actors a w) w' ->
  Forall2 (route w) xs ts -> Forall2 (route w') xs ts.
Proof.
  intros Hok Hw H. revert Hok. induction H as [|x t xs ts Hr _ IH]; intros Hok; [constructor|].
  apply Forall_cons in Hok as [Hx Hok]. constructor; [by eapply route_woken|by apply IH].
Qed.

Lemma iter_next_kvs l rest : mp_wf_kvs l -> Nat.iter (2 * length l) mp_next (mp_enc_kvs l ++ rest) = rest.
Proof using L.
  induction l as [|[k v] l IH]; [done|]. unfold mp_wf_kvs. rewrite Forall_cons. intros [[Hk Hv] Hl].
  replace (2 * length ((k, v) :: l))%nat with (S (S (2 * length l))) by (simpl; lia).
  rewrite !Nat.iter_succ_r, mp_enc_kvs_cons, <- !app_assoc, !next_enc by done. by apply IH.
Qed.

Lemma run_list_add_obj h l w : cc_list_add h l w = Ok (Some (h ++ [l]), set_calls (S (w_calls w)) w).
Proof using Halloc.
  unfold cc_list_add. by run_with (run_malloc Halloc w).
Qed.

Lemma run_create_ports (actor : loc) (d : cc_port_direction_t) (prev rest : bytes) (xs : list port_image) :
  cc_coder_type_of prev <> CC_CODER_NIL -> Forall image_ok xs ->
  Forall (fun x => pi_direction x = d
    /\ forall r, exists r', peer_of_prev prev d (pi_id x ++ r, length (pi_id x)) = Some (peer_read x r')) xs ->
  forall ts w a, Forall2 (route w) xs ts -> w_actors w !! actor = Some a -> fresh w ->
  exists ls w', create_ports (length xs) actor (mp_enc_kvs (skvs (map port_entry xs)) ++ rest) prev d None w
      = Ok (CC_SUCCESS, w')
    /\ woken (omap id ts) (set_actors (<[actor := set_actor_ports d (actor_ports d a ++ ls) a]> (w_actors w)) w) w'
    /\ Forall3 (port_made w' actor) xs ts ls.
Proof using L Halloc.
  intros Hprev Hok. induction Hok as [|x xs Hx Hok IH]; intros Hd ts w a Hr Ha Hf.
  { inversion Hr; subst. exists [], w. split; [done|]. split; [|constructor].
    rewrite app_nil_r. assert (set_actor_ports d (actor_ports d a) a = a) as -> by by destruct a, d.
    rewrite insert_id by done. rewrite set_actors_id. apply woken_refl. }
  apply Forall_cons in Hd as [[Hdx Hpx] Hd]. inversion Hr as [|? t ? ts' Hrx Hrs]; subst.
  pose proof (image_wf x Hx) as Hwx. pose proof (io_name x Hx) as [[Hn1 Hn2] _]. unfold CC_UUID_BUFFER_SIZE in Hn2.
  set (tl := mp_enc_kvs (skvs (map port_entry xs)) ++ rest).
  assert (mp_enc_kvs (skvs (map port_entry (x :: xs))) ++ rest = mp_enc (VStr (pi_name x)) ++ mp_enc (smap (image_kvs x)) ++ tl)
    as -> by (unfold tl; cbn [map port_entry fst snd]; by rewrite mp_enc_kvs_cons, <- !app_assoc).
  cbn [length create_ports]. unfold cc_coder_decode_map_next. rewrite next_enc by (simpl; lia).
  destruct (run_port_create x actor t tl prev w Hx Hrx Hprev Hpx) as (f & w1 & E & Hwk & Hnx & Hp1 & Hq1).
  run_with E.
  assert (w_actors w1 !! actor = Some a) as Ha1 by by destruct Hwk as (p & m & n & c & -> & _).
  run_with (run_get_actor w1 actor a Ha1). run_with (run_list_add_obj (actor_ports (pi_direction x) a) (w_next w) w1).
  set (w2 := set_calls _ w1). assert (w_actors w2 !! actor = Some a) as Ha2 by done.
  set (a2 := set_actor_ports (pi_direction x) (actor_ports (pi_direction x) a ++ [w_next w]) a).
  run_with (run_upd_actor w2 actor a (set_actor_ports (pi_direction x) (actor_ports (pi_direction x) a ++ [w_next w])) Ha2).
  fold a2. set (w3 := set_actors _ w2).
  assert (woken (option_list t) (set_actors (<[actor := a2]> (w_actors w)) w) w3) as Hwk3.
  { assert (w3 = set_calls (S (w_calls w1)) (set_actors (<[actor := a2]> (w_actors w1)) w1)) as -> by done.
    assert (w_actors w1 = w_actors w) as -> by by destruct Hwk as (p & m & n & c & -> & _).
    destruct (woken_actors _ (<[actor := a2]> (w_actors w)) _ _ Hwk) as (p & m & n & c & -> & Hn & Hm).
    by exists p, m, n, (S (w_calls w1)). }
  assert (fresh w3) as Hf3 by (apply (woken_fresh _ _ _ Hwk3); exact Hf).
  unfold cc_coder_decode_map. apply mp_wf_map in Hwx as Hwm. destruct Hwm as [Hlen Hkvs].
  rewrite flat_vmap, <- app_assoc, mp_decode_map_enc by lia. rewrite Nat2Z.id. rewrite iter_next_kvs by done.
  destruct (IH Hd ts' w3 a2) as (ls & w4 & E4 & Hwk4 & Hm4).
  { by eapply routes_woken. }
  { apply lookup_insert_eq. }
  { done. }
  exists (w_next w :: ls), w4. fold tl in E4. rewrite E4. split; [done|]. split.
  - assert (set_actor_ports (pi_direction x) (actor_ports (pi_direction x) a2 ++ ls) a2
            = set_actor_ports (pi_direction x) (actor_ports (pi_direction x) a ++ w_next w :: ls) a) as Ea.
    { unfold a2. destruct a, (pi_direction x); simpl; by rewrite <- app_assoc. }
    rewrite Ea in Hwk4. set (a4 := set_actor_ports (pi_direction x) (actor_ports (pi_direction x) a ++ w_next w :: ls) a) in *.
    change (omap id (t :: ts')) with (match t with Some l => l :: omap id ts' | None => omap id ts' end).
    assert (match t with Some l => l :: omap id ts' | None => omap id ts' end = option_list t ++ omap id ts') as -> by by destruct t.
    eapply woken_trans; [|exact Hwk4].
    assert (<[actor := a4]> (w_actors w3) = <[actor := a4]> (w_actors w)) as ->.
    { destruct Hwk as (p & m & n & c & -> & _). simpl. by rewrite insert_insert_eq. }
    destruct (woken_actors _ (<[actor := a4]> (w_actors w)) _ _ Hwk3) as (p & m & n & c & E3 & Hn & Hm).
    rewrite E3. by exists p, m, n, c.
  - constructor; [|exact Hm4]. eapply woken_made; [exact Hwk4|done|]. exists f.
    split; [exact Hp1|]. destruct Hq1 as (R1 & R2 & R3 & R4 & R5). repeat (split; [assumption|]).
    intros i v Hi Ev. destruct (R5 i v Hi Ev) as (b & _ & Es & Eb). exists b. split; [lia|]. by split.
Qed.

(** ** The ports are written *)

(** The port at an address has the image. *)
Definition port_shows (w : world) (x : port_image) (l : loc) : Prop :=
  exists p f, w_ports w !! l = Some p /\ port_fifo p = Some f /\ fifo_ok f
    /\ in_arr (pi_id x) (port_id p) /\ in_arr (pi_name x) (port_name p)
    /\ in_arr (pi_peer x) (port_peer_id p) /\ in_arr (pi_peer_port x) (port_peer_port_id p)
    /\ port_direction p = pi_direction x /\ port_state p = pi_state x
    /\ fifo_size f = pi_size x /\ write_pos f = pi_write x /\ tentative_read_pos f = pi_tentative x
    /\ stored_read_pos (port_direction p) f = pi_read x
    /\ Forall2 (token_holds (w_mem w)) (tokens f) (pi_values x).

Lemma run_encode_ports w xs ls b : Forall2 (port_shows w) xs ls ->
  encode_ports b ls true w = Ok (b ++ mp_enc_kvs (skvs (map port_entry xs)), w).
Proof using L.
  intros H. revert b. induction H as [|x l xs ls Hx _ IH]; intros b.
  { simpl. by rewrite mp_enc_kvs_nil, app_nil_r. }
  destruct Hx as (p & f & Hp & Hf & Hok & Hid & Hnm & Hpe & Hpp & Hd & Hs & E1 & E2 & E3 & E4 & Hv).
  pose proof (ok_size f Hok). pose proof (ok_tokens f Hok). cbn [encode_ports].
  assert (in_arr (pi_reader x) (reader_name p)) as Hr by (unfold pi_reader, reader_name; rewrite Hd; by destruct (pi_direction x)).
  rewrite (bind_Ok _ _ w (b ++ mp_enc_kvs (skvs [port_entry x])) w).
  - rewrite IH. cbn [map]. by rewrite <- app_assoc, <- mp_enc_kvs_app.
  - rewrite (run_serialize_port w l p f b true (pi_id x) (pi_name x) (pi_reader x) (pi_values x)) by (done || lia).
    do 2 f_equal. unfold port_entry, image_kvs. cbn [map fst snd]. rewrite entry_eq.
    by rewrite Hs, E1, E2, E3, E4, Hd.
Qed.

Lemma strlen_arr s a : in_arr s a -> uuid_len a = length s.
Proof. intros [Hk [t ->]]. by apply strnlen_key_arr. Qed.

Lemma run_encode_prev w xs ls b : Forall2 (port_shows w) xs ls ->
  encode_prev_connections b ls w = Ok (b ++ mp_enc_kvs (skvs (map prev_entry xs)), w).
Proof using L.
  intros H. revert b. induction H as [|x l xs ls Hx _ IH]; intros b.
  { simpl. by rewrite mp_enc_kvs_nil, app_nil_r. }
  destruct Hx as (p & f & Hp & Hf & Hok & Hid & Hnm & Hpe & Hpp & Hd & Hs & E1 & E2 & E3 & E4 & Hv).
  cbn [encode_prev_connections]. rewrite (bind_Ok _ _ w (b ++ mp_enc_kvs (skvs [prev_entry x])) w).
  - rewrite IH. cbn [map]. by rewrite <- app_assoc, <- mp_enc_kvs_app.
  - unfold cc_port_serialize_prev_connections. run_with (run_get_port w l p Hp). cbv zeta. unfold mret, M_ret. do 2 f_equal.
    rewrite (encode_uuid_arr _ (pi_id x) (port_id p)), (encode_uuid_arr _ (pi_peer_port x) (port_peer_port_id p)) by done.
    rewrite (strlen_arr (pi_peer x)) by done. unfold prev_entry. cbn [map fst snd].
    rewrite entry_eq, flat_varr. cbn [map concat length]. rewrite flat_varr.
    cbn [map concat length]. unfold cc_coder_encode_array.
    destruct (decide (pi_peer x = [])) as [E|E].
    + rewrite E. cbn [length Nat.eqb]. unfold cc_coder_encode_nil. cbn [mp_enc]. by rewrite ?app_nil_r, <- !app_assoc.
    + assert ((length (pi_peer x) =? 0)%nat = false) as -> by (apply Nat.eqb_neq; by destruct (pi_peer x)).
      rewrite <- (strlen_arr (pi_peer x) (port_peer_id p)) by done. rewrite (encode_uuid_arr _ (pi_peer x) (port_peer_id p)) by done.
      by rewrite ?app_nil_r, <- !app_assoc.
Qed.

(** ** Both lists of ports *)

Record images_ok (d : cc_port_direction_t) (xs : list port_image) : Prop := {
  is_ok : Forall image_ok xs;
  is_direction : Forall (fun x => pi_direction x = d) xs;
  is_apart : ids_apart xs;
  is_count : Z.of_nat (length xs) < 2 ^ 32
}.

Lemma run_actor_create_ports (actor : loc) (d : cc_port_direction_t) (ins outs : list port_image) (r1 r2 : bytes) :
  images_ok CC_PORT_DIRECTION_IN ins -> images_ok CC_PORT_DIRECTION_OUT outs ->
  let xs := match d with CC_PORT_DIRECTION_IN => ins | CC_PORT_DIRECTION_OUT => outs end in
  forall ts w a, Forall2 (route w) xs ts -> w_actors w !! actor = Some a -> fresh w ->
  exists ls w', cc_actor_create_ports actor (mp_enc (smap (map port_entry xs)) ++ r1)
        (mp_enc (smap (prev_kvs ins outs)) ++ r2) d None w = Ok (CC_SUCCESS, w')
    /\ woken (omap id ts) (set_actors (<[actor := set_actor_ports d (actor_ports d a ++ ls) a]> (w_actors w)) w) w'
    /\ Forall3 (port_made w' actor) xs ts ls.
Proof using L Halloc.
  intros Hi Ho xs ts w a Hr Ha Hf. unfold cc_actor_create_ports, cc_coder_decode_map.
  assert (images_ok d xs) as [Hok Hd Hap Hn] by (by destruct d).
  destruct (Hi) as [Hi1 Hi2 Hi3 Hi4], (Ho) as [Ho1 Ho2 Ho3 Ho4].
  rewrite flat_vmap, <- app_assoc, !length_map, mp_decode_map_enc by lia. rewrite Nat2Z.id.
  apply run_create_ports; try done.
  - assert (mp_wf (smap (prev_kvs ins outs))) as Hw.
    { apply mp_wf_map. split; [done|]. unfold mp_wf_kvs, prev_kvs. cbn [map fst snd].
      repeat (apply Forall_cons; split); [split; [reflexivity|by apply prev_wf]..|constructor]. }
    unfold cc_coder_type_of. by rewrite mp_typeof_enc.
  - rewrite Forall_forall in Hd |- *. intros x Hx. split; [by apply Hd|]. intros r.
    rewrite <- (Hd x Hx). apply peer_of_prev_read; try done; rewrite (Hd x Hx).
    + by destruct d.
    + by destruct d.
Qed.
End images.
