(* ===== verification/ActorWake.v ===== *)
(** An actor that sleeps and wakes (cc_actor.c): what [cc_actor_serialize] writes of an
    actor that is connected over tunnels, and the actor that [cc_actor_create] makes of
    it, without a message.  What the code of the type keeps of its own state is the
    interface [KeepsState].  Last comes the property, and the identity
    actor on which it is instantiated. *)
From S2P Require Import Prelude CString Common MsgPuck MsgPackRef Coder Fifo Machine Transport ProtoSend.
From S2P Require Import Link FifoInit Port Runtime Calvinsys ActorLib Library Actor.
From S2P Require Import CoderSpec FifoSpec MsgSpec Examples TokenMsg Runs.
From S2P Require Import PortProps AttributeProps QueueState PortWake.

(** ** The actor on the wire *)

Definition ports_kvs (ins outs : list port_image) : list (bytes * mpval) :=
  [(str "inports", smap (map port_entry ins)); (str "outports", smap (map port_entry outs))].
Definition state_kvs (ins outs : list port_image) (managed private : list (bytes * mpval)) : list (bytes * mpval) :=
  [(str "security", smap [(str "_subject_attributes", VNil)]); (str "custom", VMap []);
   (str "managed", smap managed); (str "private", smap (private ++ ports_kvs ins outs))].
Definition actor_kvs (type : bytes) (state : Z) (ins outs : list port_image) (managed private : list (bytes * mpval))
  : list (bytes * mpval) :=
  [(str "constrained_state", VUint state); (str "actor_type", VStr type);
   (str "prev_connections", smap (prev_kvs ins outs));
   (str "actor_state", smap (state_kvs ins outs managed private))].

Section writing.
Context `{P : Platform} `{MP : MsgPuck} `{L : !MsgPuckLaws MP}.

Lemma list_count {A} (l : list A) : Z.of_nat (length l) < 2 ^ 32 -> cc_list_count l = Z.of_nat (length l).
Proof. intros H. unfold cc_list_count. apply u32_id. unfold is_u32. lia. Qed.

Lemma run_encode_actor w a type ins outs mkvs pkvs buffer :
  (exists t, actor_type a = type ++ NUL :: t) -> nul_free type ->
  Forall2 (port_shows w) ins (actor_in_ports a) -> Forall2 (port_shows w) outs (actor_out_ports a) ->
  actor_private_attributes a = map attribute pkvs ->
  Forall attribute_ok pkvs -> Forall attribute_ok mkvs ->
  Z.of_nat (length ins) < 2 ^ 32 -> Z.of_nat (length outs) < 2 ^ 32 ->
  Z.of_nat (length pkvs) + 2 < 2 ^ 32 -> Z.of_nat (length mkvs) < 2 ^ 32 ->
  encode_actor a (map with_data (map attribute mkvs)) buffer true w
  = Ok (buffer ++ mp_enc_kvs (skvs [(str "state",
          smap (actor_kvs type (actor_state_val (actor_state a)) ins outs mkvs pkvs))]), w).
Proof using L.
  intros (tt & Ht) Htn Hi Ho Hp Hpo Hmo Hni Hno Hnp Hnm. unfold encode_actor.
  pose proof (Forall2_length _ _ _ Hi) as Li. pose proof (Forall2_length _ _ _ Ho) as Lo.
  rewrite Hp, Ht, strlen_nul_free by done. rewrite !map_map, !list_count by (rewrite ?length_map; lia).
  rewrite !length_map, <- Li, <- Lo. rewrite u32_id by (unfold is_u32; lia).
  rewrite (bind_Ok _ _ _ _ _ (run_encode_prev w ins _ _ Hi)), (bind_Ok _ _ _ _ _ (run_encode_prev w outs _ _ Ho)).
  rewrite !encode_attributes_entries by done.
  rewrite (bind_Ok _ _ _ _ _ (run_encode_ports w ins _ _ Hi)), (run_encode_ports w outs _ _ Ho).
  do 2 f_equal. rewrite !flat_map by keys.
  rewrite kv_uint_entry, kv_str_entry, take_app_length, kv_nil_entry by (keys || (rewrite length_app; lia)).
  unfold actor_kvs, state_kvs, ports_kvs, prev_kvs. rewrite map_app. cbn [map fst snd].
  rewrite !entry_eq, !flat_vmap, !flat_kvs, !flat_vmap, !flat_kvs, !flat_vmap, !mp_enc_kvs_app, !flat_kvs, !flat_vmap.
  rewrite !length_app, !length_map. cbn [length]. rewrite ?app_nil_r, <- !app_assoc.
  replace (Z.of_nat (length pkvs + 2)) with (Z.of_nat (length pkvs) + 2) by lia. reflexivity.
Qed.
End writing.

(** ** The private part is read *)

(** The attributes of an actor that has been created: they have an identifier and a
    name, and none of those that the runtime adds. *)
Record own_attributes (id name : bytes) (kvs : list (bytes * mpval)) : Prop := {
  oa_private : Forall private_attribute kvs;
  oa_others : Forall (fun kv => apart (str "_calvinsys") kv.1 /\ apart (str "_replication_data") kv.1) kvs;
  oa_once : NoDup (map fst kvs);
  oa_id : assoc (str "_id") kvs = Some (VStr id);
  oa_name : assoc (str "_name") kvs = Some (VStr name);
  oa_count : Z.of_nat (length kvs) + 3 < 2 ^ 32
}.

(** With the objects of the actor, of which there are none. *)
Definition no_objects : bytes * mpval := (str "_calvinsys", VMap []).

Lemma no_objects_ok : private_attribute no_objects.
Proof.
  split; [split|reflexivity]; simpl; try (keys || (right; keys) || (split_and!; lia)). intros [E|E]; discriminate E.
Qed.

Lemma apart_hd a b : a <> [] -> b <> [] -> hd NUL a <> hd NUL b -> apart a b.
Proof.
  intros Ha Hb H. split; intros [t E]; destruct a, b; simplify_eq/=.
Qed.

Section reading.
Context `{P : Platform} `{MP : MsgPuck} `{L : !MsgPuckLaws MP}.
Implicit Types (kvs : list (bytes * mpval)) (w : world).

Lemma assoc_at_app key l1 l2 rest :
  assoc_at key (l1 ++ l2) rest
  = match assoc_at key l1 (mp_enc_kvs (skvs l2) ++ rest) with Some r => Some r | None => assoc_at key l2 rest end.
Proof.
  induction l1 as [|[k v] l1 IH]; [done|]. cbn [app assoc_at]. case_decide; [|exact IH].
  by rewrite map_app, mp_enc_kvs_app, <- app_assoc.
Qed.

Lemma assoc_at_None key kvs rest : Forall (fun kv => kv.1 <> key) kvs -> assoc_at key kvs rest = None.
Proof. induction 1 as [|[k v] kvs Hk _ IH]; [done|]. cbn [assoc_at]. by rewrite decide_False. Qed.

(** The entries before the ports: the attributes, and the objects. *)
Definition before_ports kvs : list (bytes * mpval) := kvs ++ [no_objects].

Section private.
Context (id name : bytes) (kvs : list (bytes * mpval)) (Hown : own_attributes id name kvs).
Context (ins outs : list port_image) (rest : bytes).
Context (Hins : images_ok CC_PORT_DIRECTION_IN ins) (Houts : images_ok CC_PORT_DIRECTION_OUT outs).
Abbreviation private := (before_ports kvs ++ ports_kvs ins outs).
Abbreviation obj_private := (mp_enc (smap private) ++ rest).

Lemma before_private : Forall private_attribute (before_ports kvs).
Proof using Hown. apply Forall_app. split; [apply Hown|]. constructor; [apply no_objects_ok|constructor]. Qed.
Lemma before_ok : Forall attribute_ok (before_ports kvs).
Proof using Hown. eapply Forall_impl; [apply before_private|]. by intros ? [? _]. Qed.

Lemma images_wf d xs : images_ok d xs -> mp_wf (smap (map port_entry xs)).
Proof.
  intros [Hok _ _ Hn]. apply mp_wf_map. rewrite !length_map. split; [done|]. unfold mp_wf_kvs.
  rewrite map_map, Forall_map. eapply Forall_impl; [exact Hok|]. intros x Hx. unfold port_entry. cbn [fst snd].
  destruct (io_name x Hx) as [[_ Hl] _]. unfold CC_UUID_BUFFER_SIZE in Hl. split; [cbn [mp_wf]; lia|by apply image_wf].
Qed.

Lemma private_wf : mp_wf (smap private).
Proof using Hown Hins Houts.
  apply mp_wf_map. unfold before_ports. rewrite length_map, !length_app. pose proof (oa_count _ _ _ Hown).
  split; [cbn [length ports_kvs]; lia|]. fold (before_ports kvs).
  unfold mp_wf_kvs. rewrite map_app, Forall_app. split.
  - rewrite Forall_map. eapply Forall_impl; [apply before_ok|]. intros [k v] Hk. cbn [fst snd].
    pose proof (pa_key _ Hk) as [_ Hl]. pose proof (pa_value _ Hk). unfold CC_UUID_BUFFER_SIZE in Hl. simpl in *.
    split; [lia|done].
  - cbn [ports_kvs map fst snd]. repeat (apply Forall_cons; split); [split; [reflexivity|]..|constructor];
      by eapply images_wf.
Qed.

(** A key is clear of the private part when it is clear of the attributes, and of the
    three entries that are added. *)
Lemma private_clear key : Forall (fun kv => kv.1 = key \/ apart key kv.1) kvs ->
  clear_for key (no_objects :: ports_kvs ins outs) -> clear_for key private.
Proof using Hown.
  intros Hk Hc. unfold clear_for, before_ports. rewrite <- app_assoc. apply Forall_app. split; [|exact Hc].
  pose proof (oa_private _ _ _ Hown) as Hp. rewrite Forall_forall in *. intros kv Hkv. split; [|by apply Hk].
  by destruct (Hp kv Hkv) as [[[? _]] _].
Qed.

Lemma ports_clear key : hd NUL key <> Byte.x5f -> key <> [] -> Forall (fun kv => kv.1 = key \/ apart key kv.1) kvs.
Proof using Hown.
  intros Hk Hn. eapply Forall_impl; [apply (oa_private _ _ _ Hown)|]. intros kv [Ho Hu]. right.
  apply apart_hd; [done| |congruence]. intros E. rewrite E in Hu. done.
Qed.

Lemma ports_read :
  (exists r, cc_coder_get_value_from_map obj_private (str "inports") = Some (mp_enc (smap (map port_entry ins)) ++ r))
  /\ exists r, cc_coder_get_value_from_map obj_private (str "outports") = Some (mp_enc (smap (map port_entry outs)) ++ r).
Proof using Hown Hins Houts L.
  pose proof private_wf as Hw. split.
  - rewrite get_value_from_map_assoc; [|keys|apply private_clear; [by apply ports_clear|keys]|done].
    rewrite assoc_at_app, assoc_at_None; [eexists; reflexivity|].
    eapply Forall_impl; [apply before_private|]. intros kv [_ Hu] E. by rewrite E in Hu.
  - rewrite get_value_from_map_assoc; [|keys|apply private_clear; [by apply ports_clear|keys]|done].
    rewrite assoc_at_app, assoc_at_None; [eexists; reflexivity|].
    eapply Forall_impl; [apply before_private|]. intros kv [_ Hu] E. by rewrite E in Hu.
Qed.

Lemma objects_read :
  cc_coder_has_key obj_private (str "_calvinsys") = true
  /\ exists r, cc_coder_get_value_from_map obj_private (str "_calvinsys") = Some (mp_enc (VMap []) ++ r).
Proof using Hown Hins Houts L.
  pose proof private_wf as Hw.
  assert (Forall (fun kv => kv.1 = str "_calvinsys" \/ apart (str "_calvinsys") kv.1) kvs) as Hc.
  { eapply Forall_impl; [apply (oa_others _ _ _ Hown)|]. intros kv [? _]. by right. }
  assert (exists r, assoc_at (str "_calvinsys") private rest = Some (VMap [], r)) as (r & E).
  { unfold before_ports. rewrite <- app_assoc, assoc_at_app, assoc_at_None.
    - cbn [app assoc_at no_objects]. rewrite decide_True by done. eauto.
    - eapply Forall_impl; [apply (oa_others _ _ _ Hown)|]. intros kv [[N _] _] E. apply N. by rewrite E. }
  split.
  - rewrite has_key_assoc; [|keys|apply private_clear; [done|keys]|done].
    by rewrite <- (assoc_at_assoc _ _ rest), E.
  - exists r. rewrite get_value_from_map_assoc; [|keys|apply private_clear; [done|keys]|done]. by rewrite E.
Qed.

Lemma no_replication : forall m, is_replication_master obj_private m = false.
Proof using Hown Hins Houts L.
  pose proof private_wf as Hw. intros m. unfold is_replication_master.
  rewrite get_value_from_map_assoc; [|keys|apply private_clear; [|keys]|done].
  - rewrite assoc_at_None; [done|]. unfold before_ports. rewrite !Forall_app. split_and!.
    + eapply Forall_impl; [apply (oa_others _ _ _ Hown)|]. intros kv [_ [N _]] E. apply N. by rewrite E.
    + constructor; [done|constructor].
    + constructor; [done|constructor; [done|constructor]].
  - eapply Forall_impl; [apply (oa_others _ _ _ Hown)|]. intros kv [_ ?]. by right.
Qed.

Lemma id_read : exists r, cc_coder_decode_string_from_map obj_private (str "_id") = Some (id ++ r, length id).
Proof using Hown Hins Houts L.
  pose proof private_wf as Hw.
  assert (Forall (fun kv => kv.1 = str "_id" \/ apart (str "_id") kv.1) kvs) as Hc.
  { eapply Forall_impl; [apply (oa_private _ _ _ Hown)|]. intros kv [Ho _]. apply Ho. }
  rewrite decode_string_from_map_assoc; [|keys|apply private_clear; [done|keys]|done].
  unfold before_ports. rewrite <- app_assoc, assoc_at_app.
  set (r1 := mp_enc_kvs _ ++ rest). pose proof (assoc_at_assoc (str "_id") kvs r1) as E. rewrite (oa_id _ _ _ Hown) in E.
  destruct (assoc_at _ kvs r1) as [[v r]|]; simplify_eq/=. eauto.
Qed.

(** ** The private attributes and the ports are taken over *)

Definition upd_id (o : option mpval) (a : cc_actor_t) : cc_actor_t :=
  match o with Some (VStr s) => set_actor_id (Some (s ++ [NUL])) a | _ => a end.
Definition upd_name (o : option mpval) (a : cc_actor_t) : cc_actor_t :=
  match o with Some (VStr s) => set_actor_name (Some (s ++ [NUL])) a | _ => a end.

Lemma assoc_cons key k v l : assoc key ((k, v) :: l) = if decide (k = key) then Some v else assoc key l.
Proof.
  unfold assoc. cbn [List.find fst]. case_decide; [by rewrite bool_decide_true|by rewrite bool_decide_false].
Qed.
Lemma assoc_absent key (l : list (bytes * mpval)) : key ∉ map fst l -> assoc key l = None.
Proof.
  induction l as [|[k v] l IH]; [done|]. cbn [map fst]. rewrite not_elem_of_cons. intros [? ?].
  rewrite assoc_cons, decide_False by done. by apply IH.
Qed.

(** Each name is noted once. *)
Lemma foldl_note l a : NoDup (map fst l) ->
  foldl note a l = upd_name (assoc (str "_name") l) (upd_id (assoc (str "_id") l) a).
Proof.
  revert a. induction l as [|[k v] l IH]; intros a Hn; [done|]. cbn [map fst] in Hn. apply NoDup_cons in Hn as [Hk Hn].
  cbn [foldl]. rewrite IH, !assoc_cons by done. unfold note, note_as. cbn [fst snd].
  destruct (decide (k = str "_id")) as [->|N1].
  - rewrite (assoc_absent (str "_id")) by done. rewrite (decide_False (P := str "_id" = str "_name")) by done.
    by destruct v.
  - destruct (decide (k = str "_name")) as [->|N2].
    + rewrite (assoc_absent (str "_name")) by done. destruct v; try done. cbn [upd_name].
      by destruct (assoc (str "_id") l) as [[]|].
    + by destruct v.
Qed.

Definition named (a : cc_actor_t) : cc_actor_t :=
  set_actor_name (Some (name ++ [NUL])) (set_actor_id (Some (id ++ [NUL])) a).

Lemma note_private a : foldl note a (before_ports kvs) = named a.
Proof using Hown.
  unfold before_ports. rewrite foldl_app, (foldl_note kvs) by apply Hown.
  by rewrite (oa_id _ _ _ Hown), (oa_name _ _ _ Hown).
Qed.

Context (Halloc : forall n, plat_alloc n = true).

Lemma run_private_attributes actor w a : w_actors w !! actor = Some a -> actor_private_attributes a = [] ->
  exists c, get_private_attributes actor obj_private w
    = Ok (true, set_actors (<[actor := set_actor_private_attributes (map attribute (before_ports kvs)) (named a)]> (w_actors w))
                  (set_calls c w)).
Proof using Hown Hins Houts L Halloc.
  intros Ha Hp. unfold get_private_attributes. run_with (run_get_actor w actor a Ha). rewrite Hp.
  pose proof private_wf as Hw. apply mp_wf_map in Hw as [Hlen _]. rewrite length_map in Hlen.
  destruct (get_attributes_run Halloc true actor (before_ports kvs) 2 (mp_enc_kvs (skvs (ports_kvs ins outs)) ++ rest) [] w a
    before_ok (fun _ => before_private) Ha) as (c & E).
  rewrite note_private in E. set (w1 := set_actors _ _) in E. exists c.
  rewrite (bind_Ok _ _ w (CC_SUCCESS, map attribute (before_ports kvs)) w1).
  - assert (w_actors w1 !! actor = Some (named a)) as Ha1 by apply lookup_insert_eq.
    run_with (run_upd_actor w1 actor (named a) (set_actor_private_attributes (map attribute (before_ports kvs))) Ha1).
    unfold w1. simpl. rewrite insert_insert_eq. reflexivity.
  - unfold cc_actor_get_attributes, cc_coder_decode_map. rewrite flat_vmap, <- app_assoc, length_map.
    rewrite mp_decode_map_enc by lia. rewrite Nat2Z.id, length_app, map_app, mp_enc_kvs_app, <- app_assoc.
    change (length (ports_kvs ins outs)) with 2%nat. rewrite E. cbn [ports_kvs map fst snd].
    pose proof (images_wf _ _ Hins). pose proof (images_wf _ _ Houts).
    cbn [get_attributes]. rewrite mp_enc_kvs_cons, <- !app_assoc, decode_str_enc by done.
    unfold cc_coder_decode_map_next. rewrite !next_enc by done. cbn [andb].
    rewrite mp_enc_kvs_cons, <- !app_assoc, decode_str_enc, !next_enc by done. reflexivity.
Qed.

Lemma run_all_ports actor w a r0 tins touts : w_actors w !! actor = Some a ->
  actor_in_ports a = [] -> actor_out_ports a = [] -> fresh w ->
  Forall2 (route w) ins tins -> Forall2 (route w) outs touts ->
  exists lins louts w', create_all_ports actor obj_private (mp_enc (smap (prev_kvs ins outs)) ++ r0) None w = Ok (true, w')
    /\ woken (omap (fun t => t) (tins ++ touts))
         (set_actors (<[actor := set_actor_out_ports louts (set_actor_in_ports lins a)]> (w_actors w)) w) w'
    /\ Forall3 (port_made w' actor) ins tins lins /\ Forall3 (port_made w' actor) outs touts louts /\ fresh w'.
Proof using Hown Hins Houts L Halloc.
  intros Ha Hai Hao Hf Hri Hro. unfold create_all_ports. destruct ports_read as [(r1 & ->) (r2 & ->)].
  destruct (run_actor_create_ports Halloc actor CC_PORT_DIRECTION_IN ins outs r1 r0 Hins Houts tins w a Hri Ha Hf)
    as (lins & w1 & E1 & Hw1 & Hm1). run_with E1. cbn [bool_decide]. rewrite bool_decide_true by done. cbn [negb].
  cbn [set_actor_ports actor_ports] in Hw1. rewrite Hai in Hw1. cbn [app] in Hw1. set (a1 := set_actor_in_ports lins a) in *.
  assert (w_actors w1 !! actor = Some a1) as Ha1.
  { destruct Hw1 as (p & m & n & c & -> & _). apply lookup_insert_eq. }
  assert (fresh w1) as Hf1 by (by apply (woken_fresh _ _ _ Hw1)).
  assert (Forall2 (route w1) outs touts) as Hro1 by (eapply routes_woken; [apply Houts|exact Hw1|exact Hro]).
  destruct (run_actor_create_ports Halloc actor CC_PORT_DIRECTION_OUT ins outs r2 r0 Hins Houts touts w1 a1 Hro1 Ha1 Hf1)
    as (louts & w2 & E2 & Hw2 & Hm2). run_with E2. rewrite bool_decide_true by done.
  exists lins, louts, w2. split; [done|]. cbn [set_actor_ports actor_ports] in Hw2.
  assert (actor_out_ports a1 = []) as Hao1 by done. rewrite Hao1 in Hw2. cbn [app] in Hw2.
  assert (woken (omap (fun t => t) touts) (set_actors (<[actor := set_actor_out_ports louts a1]> (w_actors w1)) w1) w2) as Hw2' by exact Hw2.
  split; [|split; [|split]].
  - rewrite omap_app. eapply woken_trans; [|exact Hw2'].
    destruct (woken_actors _ (<[actor := set_actor_out_ports louts a1]> (w_actors w)) _ _ Hw1) as (p & m & n & c & E3 & Hn & Hm).
    assert (w_actors w1 = <[actor := a1]> (w_actors w)) as -> by by destruct Hw1 as (? & ? & ? & ? & -> & _).
    rewrite insert_insert_eq, E3. by exists p, m, n, c.
  - eapply Forall3_impl; [exact Hm1|]. intros x t l Hl. by eapply woken_made; [exact Hw2'|exact Hf1|].
  - exact Hm2.
  - by apply (woken_fresh _ _ _ Hw2').
Qed.
End private.
End reading.

(** ** What the code of a type promises *)

(** Of the states it [keeps], the code writes managed attributes and nothing else, and
    takes the state back from them; it changes no state but that of the actor. *)
Class KeepsState {V} `{MP : MsgPuck} (t : cc_actor_type_t V) (keeps : V -> Prop)
  (managed : V -> list (bytes * mpval)) : Prop := {
  ks_ok v : keeps v -> Forall attribute_ok (managed v)
    /\ Forall (fun kv => kv.1 <> str "_id" /\ kv.1 <> str "_name") (managed v)
    /\ Z.of_nat (length (managed v)) < 2 ^ 32;
  ks_written v actor (s : rt V) i : keeps v -> rt_instances s !! actor = Some i -> inst_state i = Some v ->
    exists c, match at_get_managed_attributes t with Some get => get actor | None => mret (Some []) end s
      = Ok (Some (map with_data (map attribute (managed v))), later c s);
  ks_restored v actor (s : rt V) i : keeps v -> rt_instances s !! actor = Some i ->
    exists c, at_set_state t actor (map attribute (managed v)) s
      = Ok (CC_SUCCESS, set_instances (<[actor := {| inst_type := inst_type i; inst_state := Some v |}]> (rt_instances s))
                          (later c s));
  ks_arrives : at_did_migrate t = None
}.

Section waking.
Context {V : Type} `{C : !Code V} `{P : Platform} `{MP : MsgPuck} `{L : !MsgPuckLaws MP}.
Context (Halloc : forall n, plat_alloc n = true).
Implicit Types (s : rt V) (w : world).

(** The runtime with other instances and another world. *)
Definition with_both (instances : gmap loc (cc_instance_t V)) (w : world) s : rt V :=
  set_instances instances (set_world w s).

Lemma run_world {A} (m : W A) a w w' I s : m w = Ok (a, w') -> on_world m (with_both I w s) = Ok (a, with_both I w' s).
Proof. intros E. exact (run_on_world m (with_both I w s) a w' E). Qed.

(** ** Creation *)

Lemma type_index_prefix {A} (types : list (cc_list_t A)) type rest n : nul_free type -> n = length type ->
  type_index types (type ++ rest) n = type_index types type n.
Proof.
  intros Hn ->. induction types as [|t types IH]; [done|]. cbn [type_index].
  by rewrite IH, streq_n_sym, streq_n_app, streq_n_sym.
Qed.

Definition blank_actor (type : bytes) : cc_actor_t :=
  {| actor_type := type ++ [NUL]; actor_id := None; actor_name := None;
     actor_state_was := CC_STATE_WAS_ACTOR; actor_state := CC_ACTOR_PENDING; actor_in_ports := [];
     actor_out_ports := []; actor_private_attributes := []; actor_managed_attributes := [] |}.

Lemma run_from_type type rest i s : nul_free type -> type_index actor_types type (length type) = Some i ->
  let l := w_next (rt_world s) in
  exists c, cc_actor_create_from_type (type ++ rest) (length type) s
    = Ok (Some l, with_both (<[l := {| inst_type := i; inst_state := None |}]> (rt_instances s))
                    (set_actors (<[l := blank_actor type]> (w_actors (rt_world s)))
                       (set_next (Pos.succ l) (set_calls c (rt_world s)))) s).
Proof using Halloc.
  intros Hn Hi l. eexists. unfold cc_actor_create_from_type. rrun1. cbn [negb]. rrun1. cbn [negb].
  rewrite type_index_prefix, Hi, strncpy_bytes_all by done. reflexivity.
Qed.

(** ** The state of an actor that has been created *)

Section one_actor.
Context (t : cc_actor_type_t V) (keeps : V -> Prop) (managed : V -> list (bytes * mpval)) `{K : !KeepsState t keeps managed}.
Context (type : bytes) (index : nat) (v : V) (id name : bytes) (kvs : list (bytes * mpval)) (ins outs : list port_image).
Context (Hv : keeps v) (Htype : nul_free type /\ Z.of_nat (length type) < 2 ^ 32).
Context (Hindex : type_index actor_types type (length type) = Some index).
Context (Hcode : exists item, actor_types !! index = Some item /\ li_data item = t).
Context (Hown : own_attributes id name kvs).
Context (Hins : images_ok CC_PORT_DIRECTION_IN ins) (Houts : images_ok CC_PORT_DIRECTION_OUT outs).

Lemma run_type_of I w s actor st : I !! actor = Some {| inst_type := index; inst_state := st |} ->
  type_of actor (with_both I w s) = Ok (t, with_both I w s).
Proof using Hcode.
  intros E. destruct Hcode as (item & Ei & Et). unfold type_of.
  rewrite (bind_Ok _ _ _ _ _ (run_get_instance (with_both I w s) actor _ E)).
  unfold type_code. cbn [inst_type]. rewrite Ei. cbn. by rewrite Et.
Qed.

Lemma note_managed a l : Forall (fun kv => kv.1 <> str "_id" /\ kv.1 <> str "_name") l -> foldl note a l = a.
Proof.
  induction 1 as [|[k u] l [H1 H2] _ IH]; [done|]. cbn [foldl fst] in *. rewrite <- IH at 2. f_equal.
  unfold note, note_as. cbn [fst snd]. by destruct u; rewrite ?decide_False.
Qed.

Lemma managed_wf : mp_wf (smap (managed v)).
Proof using K Hv.
  clear Htype. destruct (ks_ok v Hv) as (Hok & _ & Hn). apply mp_wf_map. rewrite length_map. split; [done|].
  unfold mp_wf_kvs. rewrite Forall_map. eapply Forall_impl; [exact Hok|]. intros [k u] Hk.
  destruct (pa_key _ Hk) as [_ Hl]. pose proof (pa_value _ Hk). unfold CC_UUID_BUFFER_SIZE in Hl. cbn [fst snd] in *. split; [cbn [mp_wf]; lia|done].
Qed.

Lemma run_managed actor w a rest : w_actors w !! actor = Some a -> actor_managed_attributes a = [] ->
  exists c, get_managed_attributes actor (mp_enc (smap (managed v)) ++ rest) w
    = Ok (true, set_actors (<[actor := set_actor_managed_attributes (map attribute (managed v)) a]> (w_actors w)) (set_calls c w)).
Proof using K Hv L Halloc.
  clear Htype. intros Ha Hm. destruct (ks_ok v Hv) as (Hok & Hnid & Hn). unfold get_managed_attributes.
  run_with (run_get_actor w actor a Ha). rewrite Hm.
  destruct (get_attributes_run Halloc false actor (managed v) 0 rest [] w a Hok ltac:(done) Ha) as (c & E).
  rewrite note_managed in E by done. rewrite insert_id in E by done. set (w1 := set_actors _ _) in E. exists c.
  rewrite (bind_Ok _ _ w (CC_SUCCESS, map attribute (managed v)) w1).
  - assert (w_actors w1 !! actor = Some a) as Ha1 by done.
    run_with (run_upd_actor w1 actor a (set_actor_managed_attributes (map attribute (managed v))) Ha1). reflexivity.
  - unfold cc_actor_get_attributes, cc_coder_decode_map. rewrite flat_vmap, <- app_assoc, length_map.
    rewrite mp_decode_map_enc by lia. rewrite Nat2Z.id. rewrite Nat.add_0_r in E. exact E.
Qed.

(** The state of the code is restored; the actor is no shadow. *)
Lemma run_init_state actor I w s a obj rest : w_actors w !! actor = Some a ->
  I !! actor = Some {| inst_type := index; inst_state := None |} ->
  actor_managed_attributes a = map attribute (managed v) -> actor_state a = CC_ACTOR_PENDING ->
  exists c, init_state actor obj (mp_enc (smap (managed v)) ++ rest) (with_both I w s)
    = Ok (true, with_both (<[actor := {| inst_type := index; inst_state := Some v |}]> I)
                  (set_actors (<[actor := set_actor_state_was CC_STATE_WAS_ACTOR a]> (w_actors w)) (set_calls c w)) s).
Proof using K Hv Hcode L.
  intros Ha HI Hm Hs. destruct (ks_ok v Hv) as (Hok & _ & _). unfold init_state.
  rewrite (bind_Ok _ _ _ _ _ (run_type_of I w s actor None HI)).
  assert (Forall (fun kv => kv.1 <> str "_shadow_args") (managed v)) as Hne.
  { eapply Forall_impl; [exact Hok|]. intros kv [_ [N _] _ _ _ _] E. apply N. by rewrite E. }
  rewrite has_key_assoc; [|keys| |exact managed_wf].
  2: { unfold clear_for. eapply Forall_impl; [exact Hok|]. intros kv [[? _] ? _ _ _ _]. split; [done|by right]. }
  rewrite assoc_absent.
  2: { rewrite list_elem_of_fmap. intros (kv & E & Hin). rewrite Forall_forall in Hne. by apply (Hne kv Hin). }
  set (a1 := set_actor_state_was CC_STATE_WAS_ACTOR a).
  rewrite (bind_Ok _ _ _ _ _ (run_world _ _ _ _ I s (run_upd_actor w actor a (set_actor_state_was CC_STATE_WAS_ACTOR) Ha))).
  fold a1. set (w1 := set_actors _ w). assert (w_actors w1 !! actor = Some a1) as Ha1 by apply lookup_insert_eq.
  rewrite (bind_Ok _ _ _ _ _ (run_world _ _ _ _ I s (run_get_actor w1 actor a1 Ha1))).
  rewrite bool_decide_false by (unfold a1; destruct a; simpl in *; congruence).
  assert (actor_managed_attributes a1 = map attribute (managed v)) as Hm1 by by destruct a.
  rewrite Hm1. destruct (ks_restored v actor (with_both I w1 s) _ Hv HI) as (c & E). run_with E.
  rewrite bool_decide_true by done. rewrite (ks_arrives (t:=t) (keeps:=keeps) (managed:=managed)). exists c. reflexivity.
Qed.

(** ** The description is read *)

Section description.
Context (state : Z) (Hstate : is_u32 state) (rest : bytes).
Abbreviation whole := (actor_kvs type state ins outs (managed v) (before_ports kvs)).

Lemma prev_connections_wf : mp_wf (smap (prev_kvs ins outs)).
Proof using Hins Houts.
  destruct Hins as [? ? ? ?], Houts as [? ? ? ?]. apply mp_wf_map. split; [done|]. unfold mp_wf_kvs, prev_kvs.
  cbn [map fst snd]. repeat (apply Forall_cons; split); [split; [reflexivity|by apply prev_wf]..|constructor].
Qed.

Lemma state_wf : mp_wf (smap (state_kvs ins outs (managed v) (before_ports kvs))).
Proof using Hown Hins Houts K Hv.
  pose proof managed_wf. pose proof (private_wf id name kvs Hown ins outs Hins Houts).
  apply mp_wf_map. split; [done|]. unfold mp_wf_kvs, state_kvs. cbn [map fst snd].
  repeat (apply Forall_cons; split); [split; [reflexivity|]..|constructor]; try done.
Qed.

Lemma whole_wf : mp_wf (smap whole).
Proof using Hown Hins Houts K Hv Htype Hstate.
  pose proof prev_connections_wf. pose proof state_wf.
  apply mp_wf_map. split; [done|]. unfold mp_wf_kvs, actor_kvs. cbn [map fst snd].
  repeat (apply Forall_cons; split); [split; [reflexivity|]..|constructor]; try done.
  - unfold is_u32 in Hstate. cbn [mp_wf snd]. lia.
  - cbn [mp_wf snd]. by destruct Htype.
Qed.

(** The actor with everything but its connections. *)
Definition filled_actor (lins louts : list loc) : cc_actor_t :=
  {| actor_type := type ++ [NUL]; actor_id := Some (id ++ [NUL]); actor_name := Some (name ++ [NUL]);
     actor_state_was := CC_STATE_WAS_ACTOR; actor_state := CC_ACTOR_PENDING; actor_in_ports := lins;
     actor_out_ports := louts; actor_private_attributes := map attribute (before_ports kvs);
     actor_managed_attributes := map attribute (managed v) |}.

Lemma woken_again used A A' c c' w w' : woken used (set_actors A (set_calls c w)) w' ->
  woken used (set_actors A' w) (set_actors A' (set_calls c' w')).
Proof. intros (p & m & n & d & -> & Hn & Hm). by exists p, m, n, c'. Qed.

Lemma run_fill_actor actor I w s tins touts :
  w_actors w !! actor = Some (blank_actor type) -> I !! actor = Some {| inst_type := index; inst_state := None |} ->
  fresh w -> Forall2 (route w) ins tins -> Forall2 (route w) outs touts -> node_transport_client (w_node w) = None ->
  exists lins louts w', fill_actor actor (mp_enc (smap whole) ++ rest) (with_both I w s)
      = Ok (true, with_both (<[actor := {| inst_type := index; inst_state := Some v |}]> I) w' s)
    /\ woken (omap (fun t => t) (tins ++ touts)) (set_actors (<[actor := filled_actor lins louts]> (w_actors w)) w) w'
    /\ Forall3 (port_made w' actor) ins tins lins /\ Forall3 (port_made w' actor) outs touts louts /\ fresh w'.
Proof using Halloc L K Hv Htype Hcode Hown Hins Houts Hstate.
  intros Ha HI Hf Hri Hro Hcl. pose proof whole_wf as Hww. pose proof state_wf as Hsw. unfold fill_actor, actor_kvs, state_kvs in *.
  read_val (str "actor_state"). cbv iota. read_val (str "private"). cbv iota. set (tl := mp_enc_kvs (skvs []) ++ mp_enc_kvs (skvs []) ++ rest).
  set (obj_private := mp_enc (smap (before_ports kvs ++ ports_kvs ins outs)) ++ tl).
  set (s0 := with_both I w s).
  assert (restore_objects actor obj_private s0 = Ok (true, s0)) as Eo.
  { unfold restore_objects.
    destruct (objects_read id name kvs Hown ins outs tl Hins Houts) as [E1 (r & E2)].
    unfold obj_private. rewrite E1, E2. unfold cc_calvinsys_deserialize, cc_coder_decode_map.
    rewrite flat_vmap, <- app_assoc, mp_decode_map_enc by (simpl; lia). done. }
  run_with Eo. destruct (id_read id name kvs Hown ins outs tl Hins Houts) as (r1 & Ei).
  unfold obj_private at 1. rewrite Ei. cbv iota.
  destruct (run_private_attributes id name kvs Hown ins outs tl Hins Houts Halloc
    actor w (blank_actor type) Ha eq_refl) as (c1 & E1).
  rewrite (bind_Ok _ _ _ _ _ (run_world _ _ _ _ I s E1)). set (a1 := set_actor_private_attributes _ _) in *.
  set (w1 := set_actors _ _) in *. clear E1. read_val (str "prev_connections"). cbv iota.
  match goal with |- context [mp_enc (smap (prev_kvs ins outs)) ++ ?r] => set (r0 := r) end.
  unfold cc_coder_type_of. rewrite mp_typeof_enc by exact prev_connections_wf. cbn [mpval_type].
  rewrite bool_decide_false by done. cbv iota.
  unfold obj_private at 1. rewrite (no_replication id name kvs Hown ins outs tl Hins Houts). cbn [negb].
  assert (w_actors w1 !! actor = Some a1) as Ha1 by apply lookup_insert_eq.
  assert (woken [] (set_actors (w_actors w1) w) w1) as Hw1 by (by exists (w_ports w), (w_mem w), (w_next w), c1).
  destruct (run_all_ports id name kvs Hown ins outs tl Hins Houts Halloc actor w1 a1
    r0 tins touts
    Ha1 eq_refl eq_refl) as (lins & louts & w2 & E2 & Hw2 & Hm1 & Hm2 & Hf2); [exact Hf| | |].
  { eapply routes_woken; [apply Hins|exact Hw1|exact Hri]. }
  { eapply routes_woken; [apply Houts|exact Hw1|exact Hro]. }
  rewrite (bind_Ok _ _ _ _ _ (run_world _ _ _ _ I s E2)). cbv iota.
  read_val (str "managed"). cbv iota. set (a2 := set_actor_out_ports louts (set_actor_in_ports lins a1)) in *.
  assert (w_actors w2 !! actor = Some a2) as Ha2.
  { destruct Hw2 as (p & m & n & c & -> & _). simpl. apply lookup_insert_eq. }
  edestruct (run_managed actor w2 a2) as (c3 & E3); [exact Ha2|reflexivity|].
  rewrite (bind_Ok _ _ _ _ _ (run_world _ _ _ _ I s E3)). clear E3. cbv iota.
  set (a3 := set_actor_managed_attributes _ a2). set (w3 := set_actors _ _).
  assert (w_actors w3 !! actor = Some a3) as Ha3 by apply lookup_insert_eq.
  rewrite (bind_Ok _ _ _ _ _ (run_world _ _ _ _ I s (run_get_actor w3 actor a3 Ha3))).
  rewrite !bool_decide_true by (by eexists). cbv iota.
  edestruct (run_init_state actor I w3 s a3) as (c4 & E4); [exact Ha3|exact HI|reflexivity|reflexivity|].
  rewrite (bind_Ok _ _ _ _ _ E4). clear E4. cbv iota. set (w4 := set_actors _ _).
  rewrite (bind_Ok _ _ _ _ _ (run_world _ _ _ _ _ s (run_get_node w4))).
  assert (node_transport_client (w_node w4) = None) as ->.
  { destruct Hw2 as (p & m & n & c & -> & _). exact Hcl. }
  exists lins, louts, w4. split; [reflexivity|].
  assert (woken (omap (fun t => t) (tins ++ touts)) (set_actors (<[actor := filled_actor lins louts]> (w_actors w)) w) w4) as Hw4.
  { pose proof (woken_again _ _ (<[actor := filled_actor lins louts]> (w_actors w)) _ c4 w w2 Hw2) as H.
    assert (w4 = set_actors (<[actor := filled_actor lins louts]> (w_actors w)) (set_calls c4 w2)) as ->; [|exact H].
    unfold w4, w3. destruct Hw2 as (p & m & n & c & -> & _). simpl. unfold w1. simpl. rewrite !insert_insert_eq. reflexivity. }
  split; [exact Hw4|]. split; [|split].
  - eapply Forall3_impl; [exact Hm1|]. intros x y z (f & Hx & Hq). by exists f.
  - eapply Forall3_impl; [exact Hm2|]. intros x y z (f & Hx & Hq). by exists f.
  - exact Hf2.
Qed.

End description.

(** ** What was written is forgotten *)

Lemma run_drop_calvinsys :
  (l ← drop_attribute (str "_calvinsys") (map attribute (before_ports kvs));
   l ← drop_attribute (str "inports") l;
   drop_attribute (str "outports") l) = Ok (map attribute kvs).
Proof using Hown.
  assert (forall l, Forall attribute_ok l -> keys_ok li_id li_id_len (map (attribute (MP:=MP)) l)) as Hkeys.
  { intros l Hl. unfold keys_ok. rewrite Forall_map. eapply Forall_impl; [exact Hl|]. intros [k u] Hk.
    destruct (pa_key _ Hk) as [Hn Hlen]. simpl in *. rewrite firstn_all, cstr_nul_free_all by done. by split. }
  assert (Forall attribute_ok (before_ports kvs)) as Hbok by (by eapply before_ok).
  assert (Forall attribute_ok kvs) as Hok by (by unfold before_ports in Hbok; apply Forall_app in Hbok as [? _]).
  assert (forall kv, attribute_ok kv -> li_id (attribute (MP:=MP) kv) = kv.1) as Hli.
  { intros [k u] Hk. destruct (pa_key _ Hk) as [Hn _]. simpl in *. by rewrite firstn_all, cstr_nul_free_all. }
  assert (forall k, hd NUL k <> Byte.x5f -> k <> [] -> key_ok k ->
    list_get (map (attribute (MP:=MP)) kvs) k = None) as Habsent.
  { intros k Hk Hne Hkk. rewrite cc_list_get_find by (done || by apply Hkeys).
    destruct (List.find _ _) as [x|] eqn:E; [|done]. apply List.find_some in E as [Hin Hx].
    apply bool_decide_eq_true in Hx. apply list_elem_of_In, list_elem_of_fmap in Hin as (kv & -> & Hin).
    pose proof (oa_private _ _ _ Hown) as Hp. rewrite Forall_forall in Hp. destruct (Hp kv Hin) as [Ha Hu].
    rewrite Hli in Hx by done. congruence. }
  assert (drop_attribute (str "_calvinsys") (map attribute (before_ports kvs)) = Ok (map attribute kvs)) as ->.
  { unfold drop_attribute. rewrite cc_list_get_find by (keys || by apply Hkeys).
    assert (forall A (f : cc_list_t bytes -> bool) (l : list A) g x, Forall (fun y => f (g y) = false) l ->
      f x = true -> List.find f (map g l ++ [x]) = Some x) as Hfind.
    { intros A f l g x. induction 1 as [|y l Hy _ IH]; intros Hx; cbn [map app List.find]; [by rewrite Hx|].
      rewrite Hy. by apply IH. }
    unfold before_ports. rewrite map_app. cbn [map].
    assert (Forall (fun kv => ~ kv.1 `prefix_of` str "_calvinsys") kvs) as Hnp.
    { eapply Forall_impl; [apply (oa_others _ _ _ Hown)|]. intros kv [[_ N] _]. exact N. }
    assert (Forall (fun kv => kv.1 <> str "_calvinsys") kvs) as Hne.
    { eapply Forall_impl; [exact Hnp|]. intros kv N E. apply N. by rewrite E. }
    pose proof Hok as Hok'. rewrite Forall_forall in Hok', Hnp, Hne.
    rewrite Hfind; [|rewrite Forall_forall|reflexivity].
    2: { intros kv Hkv. apply bool_decide_eq_false. rewrite Hli by by apply Hok'. by apply Hne. }
    assert (forall kv, kv ∈ kvs -> streq_n (li_id (attribute (MP:=MP) kv)) (str "_calvinsys") (strlen (li_id (attribute (MP:=MP) kv))) = false) as Hs.
    { intros kv Hkv. rewrite Hli by by apply Hok'. destruct (pa_key _ (Hok' kv Hkv)) as [Hn _].
      rewrite strlen_nul_free_all by done. apply not_true_is_false. rewrite streq_key_iff by done. by apply Hnp. }
    rewrite Hfind; [|by rewrite Forall_forall|reflexivity]. rewrite bool_decide_true by done. f_equal.
    clear -Hs. induction kvs as [|kv l IH]; [reflexivity|]. cbn [map app cc_list_remove].
    rewrite Hs by (by left). f_equal. apply IH. intros x Hx. apply Hs. by right. }
  cbn [mbind outcome_bind].
  assert (drop_attribute (str "inports") (map attribute kvs) = Ok (map attribute kvs)) as ->
    by (unfold drop_attribute; by rewrite Habsent by (done || keys)).
  cbn [mbind outcome_bind]. unfold drop_attribute. by rewrite Habsent by (done || keys).
Qed.

Definition woken_actor (lins louts : list loc) : cc_actor_t :=
  {| actor_type := type ++ [NUL]; actor_id := Some (id ++ [NUL]); actor_name := Some (name ++ [NUL]);
     actor_state_was := CC_STATE_WAS_ACTOR; actor_state := CC_ACTOR_ENABLED; actor_in_ports := lins;
     actor_out_ports := louts; actor_private_attributes := map attribute kvs; actor_managed_attributes := [] |}.

Lemma run_drop_written actor w lins louts : w_actors w !! actor = Some (filled_actor lins louts) ->
  drop_written_attributes true actor w
  = Ok (tt, set_actors (<[actor := set_actor_state CC_ACTOR_PENDING (woken_actor lins louts)]> (w_actors w)) w).
Proof using Hown.
  intros Ha. unfold drop_written_attributes. run_with (run_get_actor w actor _ Ha). cbn [negb orb actor_state filled_actor].
  rewrite bool_decide_false by done. cbn [negb when].
  rewrite (bind_Ok _ _ _ _ _ (run_upd_actor w actor _ (set_actor_managed_attributes []) Ha)).
  set (w1 := set_actors _ w). set (a1 := set_actor_managed_attributes [] _) in *.
  assert (w_actors w1 !! actor = Some a1) as Ha1 by apply lookup_insert_eq.
  run_with (run_get_actor w1 actor a1 Ha1). change (actor_private_attributes a1) with (map (attribute (MP:=MP)) (before_ports kvs)).
  rewrite run_drop_calvinsys. rewrite (bind_Ok (lift_outcome (Ok _)) _ w1 _ w1 eq_refl).
  rewrite (run_upd_actor w1 actor a1 _ Ha1). unfold w1. simpl. rewrite insert_insert_eq. reflexivity.
Qed.

(** ** Connection: there is nothing to do *)

Lemma run_connect_ports w ls : Forall (fun l => exists p, w_ports w !! l = Some p /\ port_state p = CC_PORT_ENABLED) ls ->
  connect_ports ls w = Ok (false, w).
Proof.
  induction 1 as [|l ls (p & Hp & Hs) _ IH]; [done|]. cbn [connect_ports]. run_with (run_get_port w l p Hp).
  rewrite Hs, bool_decide_true by done. cbn [negb]. rewrite (bind_Ok (mret false) _ w _ w eq_refl). by run_with IH.
Qed.

Lemma made_enabled w0 w actor xs (ts : list loc) ls : Forall2 (route w0) xs (map Some ts) ->
  Forall3 (port_made w actor) xs (map Some ts) ls ->
  Forall (fun l => exists p, w_ports w !! l = Some p /\ port_state p = CC_PORT_ENABLED) ls.
Proof.
  intros Hr Hm. remember (map Some ts) as os eqn:Eo. revert ts Eo Hr.
  induction Hm as [|x o l xs os ls Hx _ IH]; intros ts Eo Hr; [constructor|].
  destruct ts as [|t0 ts]; [done|]. cbn [map] in Eo. injection Eo as -> ->. inversion Hr as [|? ? ? ? Hx' Hr']; subst.
  constructor; [|by eapply IH]. destruct Hx as (f & Hp & _). eexists. split; [exact Hp|]. simpl. by destruct Hx' as [? _].
Qed.

Lemma run_actor_connect actor w a : w_actors w !! actor = Some a ->
  Forall (fun l => exists p, w_ports w !! l = Some p /\ port_state p = CC_PORT_ENABLED) (actor_in_ports a) ->
  Forall (fun l => exists p, w_ports w !! l = Some p /\ port_state p = CC_PORT_ENABLED) (actor_out_ports a) ->
  cc_actor_connect_ports actor w
  = Ok (tt, set_actors (<[actor := set_actor_state CC_ACTOR_ENABLED a]> (w_actors w)) w).
Proof.
  intros Ha Hi Ho. unfold cc_actor_connect_ports. run_with (run_get_actor w actor a Ha).
  run_with (run_connect_ports w _ Hi). run_with (run_get_actor w actor a Ha). run_with (run_connect_ports w _ Ho).
  cbn [orb]. unfold cc_actor_set_state. by rewrite (run_upd_actor w actor a _ Ha).
Qed.

(** ** The actor is made, and serialised *)

Lemma woken_node used node w w' : woken used w w' -> woken used (set_node node w) (set_node node w').
Proof using. intros (p & m & n & c & -> & Hn & Hm). by exists p, m, n, c. Qed.

Lemma port_made_world w w' actor x o l : w_ports w' = w_ports w -> w_mem w' = w_mem w ->
  port_made w actor x o l -> port_made w' actor x o l.
Proof using. intros Ep Em (f & Hp & Hr). exists f. by rewrite Ep, Em. Qed.

(** The node has one actor more. *)
Definition joins (l : loc) (node : cc_node_t) : cc_node_t := set_node_actors (node_actors node ++ [l]) node.

(** The world that an actor is woken in, but for its ports. *)
Definition rejoined (l : loc) (a : cc_actor_t) (w : world) : world :=
  set_node (joins l (w_node w)) (set_actors (<[l := a]> (w_actors w)) w).

Section create.
Context (state : Z) (Hstate : is_u32 state).

Lemma run_actor_create rest s ti to : let w := rt_world s in let l := w_next w in
  fresh w -> Forall2 (route w) ins (map Some ti) -> Forall2 (route w) outs (map Some to) ->
  node_transport_client (w_node w) = None ->
  exists lins louts w',
    cc_actor_create (mp_enc (smap [(str "state", smap (actor_kvs type state ins outs (managed v) (before_ports kvs)))]) ++ rest) s
    = Ok (Some l, with_both (<[l := {| inst_type := index; inst_state := Some v |}]> (rt_instances s)) w' s)
    /\ woken (ti ++ to) (rejoined l (woken_actor lins louts) w) w'
    /\ Forall3 (port_made w' l) ins (map Some ti) lins /\ Forall3 (port_made w' l) outs (map Some to) louts.
Proof using Halloc L K Hv Htype Hindex Hcode Hown Hins Houts Hstate.
  intros w l Hf Hri Hro Hcl. unfold cc_actor_create.
  pose proof (whole_wf state Hstate) as Hww.
  assert (mp_wf (smap [(str "state", smap (actor_kvs type state ins outs (managed v) (before_ports kvs)))])) as Hw1.
  { apply mp_wf_map. split; [done|]. unfold mp_wf_kvs. cbn [map fst snd]. repeat (apply Forall_cons; split); [split; [reflexivity|exact Hww]|constructor]. }
  read_val (str "state"). cbv iota. assert (clear_for (str "actor_type") (actor_kvs type state ins outs (managed v) (before_ports kvs))) as Hc by keys. erewrite (str_field (str "actor_type")); [|keys|exact Hc|exact Hww|reflexivity]. cbv iota beta.
  match goal with |- context [mp_enc (smap (actor_kvs _ _ _ _ _ _)) ++ ?r] => set (r0 := r) end.
  match goal with |- context [cc_actor_create_from_type (type ++ ?r)] => set (r1 := r) end.
  destruct (run_from_type type r1 index s (proj1 Htype) Hindex) as (c & E).
  rewrite (bind_Ok _ _ _ _ _ E). clear E. cbv iota. fold w l. set (wA := set_actors _ _).
  assert (woken [] (set_actors (<[l := blank_actor type]> (w_actors w)) w) wA) as HwA.
  { exists (w_ports w), (w_mem w), (Pos.succ l), c. split; [by destruct w|]. split; [simpl; unfold l; lia|done]. }
  assert (w_actors wA !! l = Some (blank_actor type)) as HA by apply lookup_insert_eq.
  destruct (run_fill_actor state Hstate r0 l (<[l := {| inst_type := index; inst_state := None |}]> (rt_instances s))
    wA s (map Some ti) (map Some to) HA (lookup_insert_eq _ _ _)) as (lins & louts & w1 & E1 & Hwk1 & Hm1 & Hm2 & _).
  { by apply (woken_fresh _ _ _ HwA). }
  { eapply routes_woken; [apply Hins|exact HwA|exact Hri]. }
  { eapply routes_woken; [apply Houts|exact HwA|exact Hro]. }
  { exact Hcl. }
  rewrite (bind_Ok _ _ _ _ _ E1). clear E1. rewrite insert_insert_eq. set (I := <[l := _]> (rt_instances s)).
  assert (w_actors w1 = <[l := filled_actor lins louts]> (w_actors w)) as E1.
  { destruct Hwk1 as (p & m & n & c1 & -> & _). simpl. by rewrite insert_insert_eq. }
  assert (w_node w1 = w_node w) as E2 by by destruct Hwk1 as (p & m & n & c1 & -> & _).
  assert (w_actors w1 !! l = Some (filled_actor lins louts)) as Ha1 by by rewrite E1, lookup_insert_eq.
  rewrite (bind_Ok _ _ _ _ _ (run_world _ _ _ _ I s (run_drop_written l w1 lins louts Ha1))). clear Ha1.
  set (a2 := set_actor_state CC_ACTOR_PENDING (woken_actor lins louts)). set (w2 := set_actors _ w1).
  assert (w_actors w2 !! l = Some a2) as Ha2 by apply lookup_insert_eq.
  rewrite (bind_Ok _ _ (with_both I w2 s) true (with_both I (set_node (joins l (w_node w2)) (set_calls (S (w_calls w2)) w2)) s)).
  2: { rewrite (bind_Ok _ _ _ _ _ (run_world _ _ _ _ I s (run_get_node w2))).
       rewrite (bind_Ok _ _ _ _ _ (run_world _ _ _ _ I s (run_list_add_obj Halloc (node_actors (w_node w2)) l w2))).
       cbv iota. by rewrite (bind_Ok _ _ _ _ _ (run_world _ _ _ _ I s (run_upd_node (set_calls (S (w_calls w2)) w2) _))). }
  set (w3 := set_node _ _). assert (w_actors w3 !! l = Some a2) as Ha3 by exact Ha2. cbv iota.
  rewrite (bind_Ok _ _ _ _ _ (run_world _ _ _ _ I s (run_get_actor w3 l a2 Ha3))).
  cbn [a2 set_actor_state actor_state]. rewrite bool_decide_false by done. cbn [negb when].
  assert (Forall3 (port_made w3 l) ins (map Some ti) lins) as Hi3.
  { eapply Forall3_impl; [exact Hm1|]. intros x o k. by apply port_made_world. }
  assert (Forall3 (port_made w3 l) outs (map Some to) louts) as Ho3.
  { eapply Forall3_impl; [exact Hm2|]. intros x o k. by apply port_made_world. }
  rewrite (bind_Ok _ _ _ _ _ (run_world _ _ _ _ I s
    (run_actor_connect l w3 a2 Ha3 (made_enabled _ _ _ _ _ _ Hri Hi3) (made_enabled _ _ _ _ _ _ Hro Ho3)))).
  set (w4 := set_actors _ w3). exists lins, louts, w4. split; [reflexivity|]. split; [|split].
  - assert (w4 = set_calls (S (w_calls w1)) (set_node (joins l (w_node w)) (set_actors (<[l := woken_actor lins louts]> (w_actors w)) w1))) as ->.
    { unfold w4, w3, w2. simpl. rewrite E1, E2, !insert_insert_eq. unfold a2, set_actor_state. reflexivity. }
    assert (omap (fun t => t) (map Some ti ++ map Some to) = ti ++ to) as Eo.
    { rewrite <- map_app. clear. induction (ti ++ to) as [|k ks IH]; [done|]. simpl. by f_equal. }
    rewrite Eo in Hwk1. apply (woken_actors _ (<[l := woken_actor lins louts]> (w_actors w))) in Hwk1.
    apply (woken_node _ (joins l (w_node w))) in Hwk1.
    assert (woken [] (rejoined l (woken_actor lins louts) w)
      (set_node (joins l (w_node w)) (set_actors (<[l := woken_actor lins louts]> (w_actors w)) (set_actors (<[l := filled_actor lins louts]> (w_actors wA)) wA)))) as H0.
    { exists (w_ports w), (w_mem w), (Pos.succ l), c. split; [by destruct w|]. split; [simpl; unfold l; lia|done]. }
    destruct (woken_trans _ _ _ _ _ H0 Hwk1) as (p & m & n & c4 & E4 & Hn & Hm). rewrite E4. by exists p, m, n, (S (w_calls w1)).
  - eapply Forall3_impl; [exact Hi3|]. intros x o k. by apply port_made_world.
  - eapply Forall3_impl; [exact Ho3|]. intros x o k. by apply port_made_world.
Qed.
End create.

(** The actor that runs: its instance, its attributes and its ports, and no objects. *)
Record runs_as s (actor : loc) (state : cc_actor_state_t) : Prop := {
  ra_actor : exists a, w_actors (rt_world s) !! actor = Some a
    /\ (exists tl, actor_type a = type ++ NUL :: tl) /\ actor_state a = state
    /\ actor_private_attributes a = map attribute kvs
    /\ Forall2 (port_shows (rt_world s)) ins (actor_in_ports a)
    /\ Forall2 (port_shows (rt_world s)) outs (actor_out_ports a);
  ra_instance : rt_instances s !! actor = Some {| inst_type := index; inst_state := Some v |};
  ra_objects : Forall (fun item => exists o, rt_objs s !! li_data item = Some o /\ obj_actor o <> actor) (cs_objects s)
}.

Lemma run_no_objects (objects : list (cc_list_t loc)) actor s :
  Forall (fun item => exists o, rt_objs s !! li_data item = Some o /\ obj_actor o <> actor) objects ->
  cc_calvinsys_get_number_of_attributes objects actor s = Ok (0%nat, s).
Proof using.
  induction 1 as [|item objects (o & Eo & Ha) _ IH]; [done|]. cbn [cc_calvinsys_get_number_of_attributes].
  rewrite (bind_Ok _ _ _ _ _ (run_get_obj s _ o Eo)), (bind_Ok _ _ _ _ _ IH).
  by rewrite bool_decide_false by congruence.
Qed.

Lemma run_own_objects s actor :
  Forall (fun item => exists o, rt_objs s !! li_data item = Some o /\ obj_actor o <> actor) (cs_objects s) ->
  exists c, cc_calvinsys_get_attributes actor (map attribute kvs) s = Ok (Some (map attribute (before_ports kvs)), later c s).
Proof using Halloc.
  intros Hobj. unfold cc_calvinsys_get_attributes. rewrite (bind_Ok get_ _ s s s eq_refl).
  rewrite (bind_Ok _ _ s 0%nat s (run_no_objects _ _ s Hobj)).
  rewrite (bind_Ok _ _ _ _ _ (run_alloc s (Halloc _))). cbn [negb Nat.eqb].
  rewrite (bind_Ok (mret _) _ _ _ _ eq_refl). rewrite run_list_add_n by exact Halloc.
  unfold before_ports. rewrite map_app. cbn [map]. eexists.
  assert (mp_enc (VMap []) = cc_coder_encode_map [] 0) as E by apply app_nil_r.
  unfold attribute at 3. unfold no_objects. cbn [fst snd]. rewrite E. reflexivity.
Qed.

Lemma run_actor_serialize s actor st B : runs_as s actor st ->
  exists s', cc_actor_serialize actor (cc_coder_encode_map B 1) true s
    = Ok (Some (B ++ mp_enc (smap [(str "state",
          smap (actor_kvs type (actor_state_val st) ins outs (managed v) (before_ports kvs)))])), s').
Proof using Halloc L K Hv Htype Hcode Hown Hins Houts.
  intros [(a & Ha & Hty & Hst & Hp & Hi & Ho) HI Hobj]. unfold cc_actor_serialize. set (w := rt_world s) in *.
  rewrite (bind_Ok _ _ _ _ _ (run_on_world _ _ _ _ (run_get_actor w actor a Ha))). fold w.
  assert (set_world w s = s) as -> by by destruct s.
  assert (actor_private_attributes a <> []) as Hne.
  { rewrite Hp. destruct kvs; [|done]. destruct Hown as [_ _ _ Hid _ _]. done. }
  destruct (actor_private_attributes a) as [|h tl] eqn:Ep; [done|]. clear Hne.
  assert (type_of actor s = Ok (t, s)) as Et.
  { pose proof (run_type_of (rt_instances s) w s actor (Some v) HI) as E.
    unfold with_both in E. assert (set_instances (rt_instances s) (set_world w s) = s) as Es by (by destruct s).
    by rewrite Es in E. }
  rewrite (bind_Ok _ _ _ _ _ Et). destruct (ks_written v actor s _ Hv HI eq_refl) as (c & E). run_with E. cbv iota.
  clear E. set (s1 := later c s).
  rewrite (bind_Ok _ _ _ _ _ (run_on_world _ s1 _ _ (run_get_actor (rt_world s1) actor a Ha))).
  rewrite Ep, Hp. assert (set_world (rt_world s1) s1 = s1) as -> by done.
  destruct (run_own_objects s1 actor Hobj) as (c1 & E1). rewrite (bind_Ok _ _ _ _ _ E1). clear E1. cbv iota.
  set (s2 := later c1 s1).
  assert (w_actors (rt_world s2) !! actor = Some a) as Ha2 by exact Ha.
  rewrite (bind_Ok _ _ _ _ _ (run_on_world _ s2 _ _ (run_upd_actor _ actor a (set_actor_private_attributes (map attribute (before_ports kvs))) Ha2))).
  set (a3 := set_actor_private_attributes _ a). set (s3 := set_world _ s2).
  assert (w_actors (rt_world s3) !! actor = Some a3) as Ha3 by apply lookup_insert_eq.
  rewrite (bind_Ok _ _ _ _ _ (run_on_world _ s3 _ _ (run_get_actor (rt_world s3) actor a3 Ha3))).
  assert (set_world (rt_world s3) s3 = s3) as -> by done.
  destruct (ks_ok v Hv) as (Hmo & _ & Hmn). pose proof (oa_count _ _ _ Hown) as Hc.
  assert (Z.of_nat (length (before_ports kvs)) + 2 < 2 ^ 32) as Hbn by (unfold before_ports; rewrite length_app; simpl length; lia).
  rewrite (bind_Ok _ _ _ _ _ (run_on_world _ s3 _ _ (run_encode_actor (rt_world s3) a3 type ins outs (managed v) (before_ports kvs)
    (cc_coder_encode_map B 1) Hty (proj1 Htype) Hi Ho eq_refl (before_ok _ _ _ Hown) Hmo
    (is_count _ _ Hins) (is_count _ _ Houts) Hbn Hmn))).
  eexists. unfold mret, M_ret. do 3 f_equal. change (actor_state a3) with (actor_state a). rewrite Hst.
  set (kv := [(str "state", _)]). exact (map_open B (skvs kv)).
Qed.
End one_actor.
End waking.

(** * A runtime stops and an actor wakes in the next one: what cc_actor_serialize writes
    is an actor that cc_actor_create makes again, with its state, its attributes, its
    ports, their tokens and their tunnels.  std.Identity is a type to which this
    applies. *)

(** ** std.Identity keeps its state *)

Section identity.
Context {V : Type} `{C : !Code V} `{P : Platform} `{MP : MsgPuck} `{L : !MsgPuckLaws MP}.
Context `{H : !Holds V cc_actor_identity_state_t}.

Definition identity_state (v : V) : Prop := exists st, v = hold st.
Definition identity_managed (v : V) : list (bytes * mpval) :=
  match held v with
  | Some st => [(str "dump", VBool (id_dump st)); (str "last", VNil)]
  | None => []
  end.

Context (Halloc : forall n, plat_alloc n = true).

Lemma run_add_value (s : rt V) attributes key value : exists c,
  add_value attributes key value s
  = Ok (Some (attributes ++ [list_item_n key (length key) (Some value) (Z.of_nat (length value))]), later c s).
Proof using Halloc. unfold add_value. rrun1. cbn [negb]. rewrite run_list_add_n by exact Halloc. by eexists. Qed.

#[export] Instance identity_keeps : KeepsState cc_actor_identity_setup identity_state identity_managed.
Proof using L Halloc.
  split.
  - intros v (st & ->). unfold identity_managed. rewrite held_hold. split; [|split; [|done]].
    + constructor; [|constructor; [|constructor]]; split; simpl; keys || done || (intros [E|E]; discriminate E) || (right; keys).
    + by repeat constructor.
  - intros v actor s i (st & ->) Hi Hs. unfold identity_managed. rewrite held_hold.
    cbn [at_get_managed_attributes cc_actor_identity_setup]. unfold cc_actor_identity_get_attributes.
    rrun1. rewrite Hs, (bind_Ok _ _ _ _ _ (run_get_inst_state s actor i st Hi Hs)).
    destruct (run_add_value s [] (str "dump") (cc_coder_encode_bool [] (id_dump st))) as (c & E). run_with E. cbv iota.
    edestruct (run_add_value (later c s)) as (c' & ->). exists c'. reflexivity.
  - intros v actor s i (st & ->) Hi. unfold identity_managed. rewrite held_hold.
    cbn [at_set_state cc_actor_identity_setup]. unfold cc_actor_identity_set_state, cc_actor_identity_init.
    change (list_get _ _) with (Some (attribute (str "dump", VBool (id_dump st)))). cbv iota.
    cbn [attribute list_item_n li_data snd]. rewrite <- (app_nil_r (mp_enc _)), decode_bool_enc. cbv iota.
    rrun1. cbn [negb]. unfold put_inst_state.
    set (s1 := later _ s). assert (rt_instances s1 !! actor = Some i) as Hi1 by exact Hi.
    exists (S (w_calls (rt_world s))). erewrite bind_Ok; [|by rewrite (bind_Ok _ _ _ _ _ (run_get_instance s1 actor i Hi1))].
    by destruct st.
  - done.
Qed.
End identity.

(** ** An actor sleeps and wakes *)

Section wakes.
Context {V : Type} `{C : !Code V} `{P : Platform} `{MP : MsgPuck} `{L : !MsgPuckLaws MP}.
Implicit Types (s : rt V).

(** C13: What cc_actor_serialize writes of an actor without calvinsys objects, whose
    type keeps its state in managed attributes, is taken up by cc_actor_create on any
    node that has TOKEN tunnels to the runtimes of the peers: the new actor has the
    state, the type, the identifier, the name and the private attributes of the old
    one, its ports in their order, each with the identifiers, the state, the positions
    and the unread tokens of the old one and with its tunnel, and it is enabled.  Each
    tunnel is referred to once more for each port it serves, and no message is sent. *)
Theorem actor_wakes (t : cc_actor_type_t V) (keeps : V -> Prop) (managed : V -> list (bytes * mpval))
  `{K : !KeepsState t keeps managed} (type : bytes) (index : nat) (v : V) (id name : bytes)
  (kvs : list (bytes * mpval)) (ins outs : list port_image)
  (Halloc : forall n, plat_alloc n = true)
  (Hv : keeps v) (Htype : nul_free type /\ Z.of_nat (length type) < 2 ^ 32)
  (Hindex : type_index actor_types type (length type) = Some index)
  (Hcode : exists item, actor_types !! index = Some item /\ li_data item = t)
  (Hown : own_attributes id name kvs)
  (Hins : images_ok CC_PORT_DIRECTION_IN ins) (Houts : images_ok CC_PORT_DIRECTION_OUT outs)
  s1 actor st s2 B ti to rest :
  let w := rt_world s2 in let l := w_next w in
  runs_as type index v kvs ins outs s1 actor st ->
  fresh w -> Forall2 (route w) ins (map Some ti) -> Forall2 (route w) outs (map Some to) ->
  node_transport_client (w_node w) = None ->
  exists b s1' lins louts w',
    cc_actor_serialize actor (cc_coder_encode_map B 1) true s1 = Ok (Some (B ++ b), s1')
    /\ cc_actor_create (b ++ rest) s2
       = Ok (Some l, with_both (<[l := {| inst_type := index; inst_state := Some v |}]> (rt_instances s2)) w' s2)
    /\ woken (ti ++ to) (rejoined l (woken_actor type id name kvs lins louts) w) w'
    /\ Forall3 (port_made w' l) ins (map Some ti) lins /\ Forall3 (port_made w' l) outs (map Some to) louts
    /\ w_sent w' = w_sent w.
Proof.
  intros w l Hr Hf Hi Ho Hc. 
  edestruct (run_actor_serialize Halloc t keeps managed type index v id name kvs ins outs Hv Htype Hcode Hown Hins Houts s1 actor st B Hr)
    as (s1' & E1).
  edestruct (run_actor_create Halloc t keeps managed type index v id name kvs ins outs Hv Htype Hindex Hcode Hown Hins Houts
    (actor_state_val st)) as (lins & louts & w' & E2 & Hw & H); [by destruct st|exact Hf|exact Hi|exact Ho|exact Hc|].
  eexists _, s1', lins, louts, w'. split; [exact E1|]. split; [exact E2|]. destruct H as [H1 H2].
  repeat (split; [assumption|]). by destruct Hw as (? & ? & ? & ? & -> & _).
Qed.
End wakes.

(** *** On a concrete runtime *)

Definition wake_in : port_image :=
  {| pi_id := str "in-1"; pi_name := str "token"; pi_peer := str "peer"; pi_peer_port := str "out-9";
     pi_direction := CC_PORT_DIRECTION_IN; pi_state := CC_PORT_ENABLED; pi_size := 4; pi_write := 1; pi_tentative := 0;
     pi_read := 0; pi_values := [VUint 300; VNil; VNil; VNil] |}.
Definition wake_out : port_image :=
  {| pi_id := str "out-1"; pi_name := str "token"; pi_peer := str "peer"; pi_peer_port := str "in-9";
     pi_direction := CC_PORT_DIRECTION_OUT; pi_state := CC_PORT_ENABLED; pi_size := 4; pi_write := 0; pi_tentative := 0;
     pi_read := 0; pi_values := [VNil; VNil; VNil; VNil] |}.
Definition wake_kvs : list (bytes * mpval) := [(str "_id", VStr (str "actor-c")); (str "_name", VStr (str "copy"))].

Definition asleep : rt (lib_state unit) :=
  {| rt_world := set_mem {[50%positive := mp_enc (VUint 300)]}
       (set_actors {[12%positive := {|
            actor_type := str "std.Identity" ++ [NUL]; actor_id := Some (str "actor-c"); actor_name := Some (str "copy");
            actor_state_was := CC_STATE_WAS_ACTOR; actor_state := CC_ACTOR_ENABLED; actor_in_ports := [20%positive];
            actor_out_ports := [21%positive]; actor_private_attributes := map attribute wake_kvs;
            actor_managed_attributes := [] |}]}
       (set_ports (<[20%positive := set_port_fifo (Some loaded_queue) (made wake_in 12%positive None CC_PORT_ENABLED None)]>
                   {[21%positive := set_port_fifo (Some (new_fifo 4)) (made wake_out 12%positive None CC_PORT_ENABLED None)]})
          the_world));
     rt_instances := {[12%positive := {| inst_type := 0; inst_state := Some (hold {| id_dump := true |}) |}]};
     rt_caps := ∅; rt_objs := ∅; cs_capabilities := []; cs_objects := []; rt_platform := no_platform |}.

(** The next runtime: no actors, no client yet, and a tunnel for tokens to the peer. *)
Definition restarted : rt (lib_state unit) :=
  {| rt_world := set_node (set_node_transport_client None (set_node_tunnels [2; 3; 4]%positive (set_node_actors [] the_node)))
       (set_tunnels (<[4%positive := a_tunnel (str "tokens-id") CC_TUNNEL_TYPE_TOKEN]> (w_tunnels the_world))
       (set_actors ∅ (set_ports ∅ the_world)));
     rt_instances := ∅; rt_caps := ∅; rt_objs := ∅; cs_capabilities := []; cs_objects := []; rt_platform := no_platform |}.

Lemma wake_own : own_attributes (str "actor-c") (str "copy") wake_kvs.
Proof.
  assert (forall k s, key_ok k -> k <> str "_shadow_args" /\ (k = str "_id" \/ k = str "_name") -> nul_free s -> (length s < 50)%nat ->
    private_attribute (k, VStr s)) as H.
  { intros k s Hk [Hs Hn] Hf Hl. split; [|by destruct Hn as [-> | ->]].
    split; simpl; [done| | | |by eauto|lia]; destruct Hn as [-> | ->]; keys || (by left) || (right; keys). }
  split; try reflexivity.
  - unfold wake_kvs. rewrite !Forall_cons. split; [|split; [|constructor]]; apply H; try keys; try (simpl; lia); (split; [done|auto]).
  - unfold wake_kvs. rewrite !Forall_cons. split; [|split; [|constructor]]; split; keys.
  - apply (bool_decide_unpack _). vm_compute. exact I.
Qed.

Lemma wake_image_ok x : x = wake_in \/ x = wake_out -> image_ok x.
Proof.
  intros [-> | ->]; split; simpl; try keys; try (split; [keys|simpl; lia]); try (split; [unfold is_u32; lia|done]);
    try (unfold is_u32; lia); (split; [done|]); repeat constructor; simpl; lia.
Qed.

Lemma wake_images_ok x : x = wake_in \/ x = wake_out -> images_ok (pi_direction x) [x].
Proof.
  intros Hx. split; [constructor; [by apply wake_image_ok|constructor]|by repeat constructor| |simpl; lia].
  split; [apply NoDup_singleton|]. intros y z Hy Hz. apply list_elem_of_singleton in Hy as ->, Hz as ->. by left.
Qed.

Lemma wake_route x : x = wake_in \/ x = wake_out -> route (rt_world restarted) x (Some 4%positive).
Proof. intros [-> | ->]; (split; [reflexivity|]); (split; [done|]); split_and!; try reflexivity; by eexists. Qed.

Lemma in_arr_array n s : key_ok s -> (length s < n)%nat -> in_arr s (in_array n s).
Proof. intros H Hl. split; [done|]. rewrite in_array_nul by done. by eexists. Qed.

Lemma made_shows w x actor l f : image_ok x -> w_ports w !! l = Some (set_port_fifo (Some f) (made x actor None (pi_state x) None)) ->
  fifo_ok f -> fifo_size f = pi_size x -> write_pos f = pi_write x -> tentative_read_pos f = pi_tentative x ->
  stored_read_pos (pi_direction x) f = pi_read x -> Forall2 (token_holds (w_mem w)) (tokens f) (pi_values x) ->
  port_shows w x l.
Proof.
  intros Hx Hl Hf. destruct (io_name x Hx). intros. eexists _, f. split; [exact Hl|]. split; [done|]. split; [done|].
  split_and!; try done; apply in_arr_array; try done; try apply Hx; apply (io_id x Hx).
Qed.

Lemma asleep_runs : runs_as (str "std.Identity") 0 (hold {| id_dump := true |}) wake_kvs [wake_in] [wake_out]
  asleep 12%positive CC_ACTOR_ENABLED.
Proof.
  split; [|reflexivity|constructor]. eexists. split; [reflexivity|]. split; [by exists []|]. split; [done|]. split; [done|]. split.
  - constructor; [|constructor]. eapply made_shows; [apply wake_image_ok; by left|reflexivity|apply loaded_queue_ok|try done..].
    constructor; [right; exists 50%positive; split_and!; reflexivity|]. repeat (constructor; [by left|]). constructor.
  - constructor; [|constructor]. eapply made_shows; [apply wake_image_ok; by right|reflexivity|apply (new_fifo_repr 4); lia|try done..].
    repeat (constructor; [by left|]). constructor.
Qed.

Lemma actor_wakes_witness : exists b s1' lin lout w',
  cc_actor_serialize 12%positive (cc_coder_encode_map [] 1) true asleep = Ok (Some b, s1')
  /\ cc_actor_create b restarted
     = Ok (Some 100%positive, with_both {[100%positive := {| inst_type := 0; inst_state := Some (hold {| id_dump := true |}) |}]} w' restarted)
  /\ w_actors w' = {[100%positive := woken_actor (str "std.Identity") (str "actor-c") (str "copy") wake_kvs [lin] [lout]]}
  /\ tunnel_ref_count <$> w_tunnels w' !! 4%positive = Some 3
  /\ port_made w' 100%positive wake_in (Some 4%positive) lin
  /\ w_sent w' = [].
Proof.
  destruct (actor_wakes (P:=quiet_platform) cc_actor_identity_setup identity_state identity_managed
    (K:=identity_keeps (P:=quiet_platform) (fun _ => eq_refl))
    (str "std.Identity") 0 (hold {| id_dump := true |}) (str "actor-c") (str "copy") wake_kvs [wake_in] [wake_out]
    (fun _ => eq_refl) ltac:(by eexists) ltac:(split; [keys|simpl; lia]) ltac:(vm_compute; reflexivity)
    ltac:(eexists; split; reflexivity) wake_own
    (wake_images_ok _ (or_introl eq_refl)) (wake_images_ok _ (or_intror eq_refl)) asleep 12%positive CC_ACTOR_ENABLED restarted
    [] [4%positive] [4%positive] [] asleep_runs)
    as (b & s1' & lins & louts & w' & E1 & E2 & Hw & Hi & Ho & Hs).
  - intros l [[? H]|[? H]]; vm_compute in H; by destruct l.
  - constructor; [apply wake_route; by left|constructor].
  - constructor; [apply wake_route; by right|constructor].
  - reflexivity.
  - inversion Hi as [|? ? lin ? ? ? Hi1 Hi2]; subst. inversion Hi2; subst.
    inversion Ho as [|? ? lout ? ? ? Ho1 Ho2]; subst. inversion Ho2; subst.
    exists b, s1', lin, lout, w'. rewrite app_nil_r in E2. split; [exact E1|]. split; [exact E2|].
    destruct Hw as (p & m & n & c & -> & _). split; [reflexivity|]. split; [vm_compute; reflexivity|]. split; [exact Hi1|reflexivity].
Defined.
