(* ===== verification/CoderProps.v ===== *)
(** Properties of the coder: what the lookups find in a message, and where they
    find something else. *)
From S2P Require Import Prelude CString MsgPuck MsgPackRef Coder CoderSpec.

Section coder_props.
Context `{MP : MsgPuck} `{L : !MsgPuckLaws MP}.

(** C25: the lookups of a message.  In an encoded map, inside any buffer, when no
    other key is a prefix of the wanted key nor starts with it,
    [cc_coder_get_value_from_map] answers the position of the first value under
    that key, [cc_coder_has_key] whether there is one, and
    [cc_coder_decode_string_from_map] the string it is, or a failure when it is
    missing or no string; the string is a pointer into the message. *)
Theorem coder_map_lookup (kvs : list (bytes * mpval)) (key rest : bytes) :
  nul_free key -> clear_for key kvs -> mp_wf (smap kvs) ->
  let buffer := mp_enc (smap kvs) ++ rest in
  cc_coder_get_value_from_map buffer key
    = (fun vr => mp_enc vr.1 ++ vr.2) <$> assoc_at key kvs rest
  /\ cc_coder_has_key buffer key = bool_decide (is_Some (assoc key kvs))
  /\ cc_coder_decode_string_from_map buffer key
    = match assoc_at key kvs rest with
      | Some (VStr s, r) => Some (s ++ r, length s)
      | _ => None
      end.
Proof using L.
  intros Hk Hc Hw buffer. split; [by apply get_value_from_map_assoc|].
  split; [|by apply decode_string_from_map_assoc].
  unfold buffer. rewrite has_key_assoc by done.
  case_bool_decide as E; [by destruct E as [v ->]|].
  destruct (assoc key kvs); [exfalso; eauto|done].
Qed.

(** A scalar of a message.  Under the same conditions on the keys,
    [cc_coder_decode_uint_from_map] answers the integer stored under the key cut
    to 32 bits, [cc_coder_decode_bool_from_map] the boolean; a missing key is a
    failure. *)
Theorem coder_map_scalars (kvs : list (bytes * mpval)) (key rest : bytes) :
  nul_free key -> clear_for key kvs -> mp_wf (smap kvs) ->
  let buffer := mp_enc (smap kvs) ++ rest in
  (forall n, assoc key kvs = Some (VUint n) -> cc_coder_decode_uint_from_map buffer key = Some (u32 n))
  /\ (forall b, assoc key kvs = Some (VBool b) -> cc_coder_decode_bool_from_map buffer key = Some b)
  /\ (assoc key kvs = None -> cc_coder_decode_uint_from_map buffer key = None
      /\ cc_coder_decode_bool_from_map buffer key = None).
Proof using L.
  intros Hk Hc Hw buffer. pose proof (assoc_at_assoc key kvs rest) as Ha.
  split; [|split].
  - intros n E. rewrite E in Ha. destruct (assoc_at key kvs rest) as [[v r]|] eqn:E'; [|done].
    simpl in Ha. simplify_eq. eapply decode_uint_from_map_assoc; try done.
    exact (assoc_wf key kvs Hw (VUint n) E).
  - intros b E. rewrite E in Ha. destruct (assoc_at key kvs rest) as [[v r]|] eqn:E'; [|done].
    simpl in Ha. simplify_eq. by eapply decode_bool_from_map_assoc.
  - intros E. split; [by apply decode_uint_from_map_none|].
    unfold buffer, cc_coder_decode_bool_from_map. rewrite in_map_enc, length_map by done.
    rewrite scan_str_keys_spec by (try apply mp_wf_map in Hw as [_ Hw]; done).
    rewrite E in Ha. by destruct (assoc_at key kvs rest).
Qed.

(** The keys are compared as prefixes.  When the first key of a map is a
    prefix of the wanted key (the empty key is one of every key), the string
    lookup answers its value even if the wanted key follows; when the first key
    starts with the wanted key, the value lookup answers its value. *)
Theorem coder_lookup_prefix (k key s : bytes) (v : mpval) (kvs : list (bytes * mpval)) (rest : bytes) :
  nul_free key -> mp_wf (smap ((k, v) :: kvs)) ->
  (k `prefix_of` key -> v = VStr s ->
   cc_coder_decode_string_from_map (mp_enc (smap ((k, v) :: kvs)) ++ rest) key
   = Some (s ++ mp_enc_kvs (skvs kvs) ++ rest, length s))
  /\ (key `prefix_of` k ->
   cc_coder_get_value_from_map (mp_enc (smap ((k, v) :: kvs)) ++ rest) key
   = Some (mp_enc v ++ mp_enc_kvs (skvs kvs) ++ rest)).
Proof using L.
  intros Hk Hw. pose proof Hw as Hw'. apply mp_wf_map in Hw' as [_ Hw'].
  apply skvs_wf_cons in Hw' as [[Hwk Hwv] _].
  unfold cc_coder_decode_string_from_map, cc_coder_get_value_from_map, cc_coder_get_value_from_map_n.
  rewrite !in_map_enc by done. cbn [map length scan_keys scan_value fst snd].
  rewrite mp_enc_kvs_cons, <- !app_assoc, !decode_str_enc, !next_enc by done.
  rewrite strlen_nul_free_all by done. split.
  - intros [t ->] ->. apply nul_free_app in Hk as [Hk _].
    assert (streq_n (k ++ mp_enc (VStr s) ++ mp_enc_kvs (skvs kvs) ++ rest) (k ++ t) (length k)
            = true) as ->.
    { apply streq_n_spec. rewrite (cstr_app k (_ ++ _)), (cstr_app k t) by done.
      by rewrite <- !app_assoc, !take_app_length. }
    by rewrite decode_str_enc.
  - intros [t ->].
    assert (streq_n key ((key ++ t) ++ mp_enc v ++ mp_enc_kvs (skvs kvs) ++ rest) (length key)
            = true) as ->; [|done].
    rewrite <- app_assoc. by apply value_test_eq.
Qed.

(** A key that is not a string.  A scalar lookup does not get past it: it
    answers a failure although the wanted entry follows.  The other lookups step
    over the key alone and take its value for the next key: a value equal to the
    wanted key is found as if it were one. *)
Theorem coder_lookup_odd_key (k v : mpval) (kvs : list (mpval * mpval)) (key rest : bytes) :
  mp_wf (VMap ((k, v) :: kvs)) -> mpval_type k <> MP_STR -> nul_free key ->
  let buffer := mp_enc (VMap ((k, v) :: kvs)) ++ rest in
  cc_coder_decode_uint_from_map buffer key = None
  /\ cc_coder_decode_bool_from_map buffer key = None
  /\ cc_coder_get_value_from_map buffer key = None
  /\ (v = VStr key -> kvs <> [] -> cc_coder_has_key buffer key = true).
Proof using L.
  intros Hw Ht Hk buffer. pose proof Hw as Hw'. apply mp_wf_map in Hw' as [_ Hw'].
  apply Forall_cons in Hw' as [[Hwk Hwv] Hw']. simpl in Hwk, Hwv.
  assert (forall tl, cc_coder_decode_str (mp_enc k ++ tl) = None) as Hd.
  { intros tl. by apply decode_str_other. }
  assert (forall {A} n (found : bytes -> A) tl,
    scan_str_keys n (mp_enc k ++ tl) key found = None) as Hs.
  { intros A n. induction n as [|n IH]; intros; simpl; [done|]. by rewrite Hd. }
  unfold buffer, cc_coder_decode_uint_from_map, cc_coder_decode_bool_from_map,
    cc_coder_get_value_from_map, cc_coder_get_value_from_map_n, cc_coder_has_key.
  rewrite !in_map_enc, mp_enc_kvs_cons, <- !app_assoc, !Hs by done.
  split; [done|]. split; [done|]. split; [simpl; by rewrite Hd|].
  intros -> Hne. destruct kvs as [|kv kvs]; [done|]. cbn [length scan_keys].
  rewrite Hd, next_enc, decode_str_enc by done. by rewrite key_test_eq.
Qed.
End coder_props.

(** ** Witnesses, on the MessagePack format *)

Definition a_reply : list (bytes * mpval) :=
  [(str "cmd", VStr (str "REPLY")); (str "status", VUint 200); (str "redeploy", VBool false)].

Lemma coder_map_lookup_witness :
  cc_coder_decode_string_from_map (MP := ref_msgpuck) (mp_enc (smap a_reply)) (str "cmd")
  = Some (str "REPLY" ++ mp_enc_kvs (skvs (tail a_reply)), 5%nat).
Proof.
  pose proof (coder_map_lookup (MP := ref_msgpuck) a_reply (str "cmd") []) as H.
  rewrite !app_nil_r in H. destruct H as (_ & _ & E).
  - apply (bool_decide_unpack _). vm_compute. exact I.
  - apply (bool_decide_unpack _). vm_compute. exact I.
  - vm_compute. repeat split; done.
  - rewrite E. vm_compute. reflexivity.
Defined.

Lemma coder_map_scalars_witness :
  cc_coder_decode_uint_from_map (MP := ref_msgpuck) (mp_enc (smap a_reply)) (str "status")
  = Some 200.
Proof.
  pose proof (coder_map_scalars (MP := ref_msgpuck) a_reply (str "status") []) as H.
  rewrite !app_nil_r in H. destruct H as (E & _).
  - apply (bool_decide_unpack _). vm_compute. exact I.
  - apply (bool_decide_unpack _). vm_compute. exact I.
  - vm_compute. repeat split; done.
  - exact (E 200 eq_refl).
Defined.

Lemma coder_lookup_prefix_witness :
  cc_coder_decode_string_from_map (MP := ref_msgpuck)
    (mp_enc (smap [([], VStr (str "x")); (str "cmd", VStr (str "REPLY"))])) (str "cmd")
  = Some (str "x" ++ mp_enc_kvs (skvs [(str "cmd", VStr (str "REPLY"))]), 1%nat).
Proof.
  pose proof (coder_lookup_prefix (MP := ref_msgpuck) [] (str "cmd") (str "x") (VStr (str "x"))
    [(str "cmd", VStr (str "REPLY"))] []) as H.
  rewrite !app_nil_r in H. apply H.
  - apply (bool_decide_unpack _). vm_compute. exact I.
  - vm_compute. repeat split; done.
  - apply prefix_nil.
  - reflexivity.
Defined.

Lemma coder_lookup_odd_key_witness :
  cc_coder_has_key (MP := ref_msgpuck)
    (mp_enc (VMap [(VUint 1, VStr (str "cmd")); (VStr (str "id"), VNil)])) (str "cmd") = true.
Proof.
  pose proof (coder_lookup_odd_key (MP := ref_msgpuck) (VUint 1) (VStr (str "cmd"))
    [(VStr (str "id"), VNil)] (str "cmd") []) as H.
  rewrite app_nil_r in H. apply H.
  - vm_compute. repeat split; done.
  - discriminate.
  - apply (bool_decide_unpack _). vm_compute. exact I.
  - reflexivity.
  - discriminate.
Defined.
