(* ===== verification/FifoProps.v ===== *)
(** Properties of the queue: every sequence of the operations of an actor and of
    the transmission of a port behaves as a bounded queue, until the 32-bit
    counters wrap; what acknowledgements do; where the guards are void. *)
From S2P Require Import Prelude CString MsgPuck Coder Fifo FifoSpec.

(** ** Runs *)

(** What the users of a queue do with it: a write ([cc_fifo_write]), a read
    ([cc_fifo_tokens_available] before [cc_fifo_peek]), the end of the reads
    ([cc_fifo_commit_read(fifo, false)]) and giving them up ([cc_fifo_cancel_commit]). *)
Inductive fifo_op := OpWrite (data : option loc) (size : Z) | OpRead | OpCommit | OpCancel.
Inductive fifo_out := OutWritten (r : cc_result_t) | OutToken (t : option cc_token_t) | OutDone.

Definition fifo_step (op : fifo_op) (f : cc_fifo_t) : M mem (fifo_out * cc_fifo_t) :=
  match op with
  | OpWrite data size => '(r, f') ← cc_fifo_write f data size; mret (OutWritten r, f')
  | OpRead =>
      if cc_fifo_tokens_available f 1
      then '(f', t) ← cc_fifo_peek f; mret (OutToken (Some t), f')
      else mret (OutToken None, f)
  | OpCommit => f' ← cc_fifo_commit_read f false; mret (OutDone, f')
  | OpCancel => mret (OutDone, cc_fifo_cancel_commit f)
  end.

Definition aq_step (cap : Z) (op : fifo_op) (q : aqueue) : fifo_out * aqueue :=
  match op with
  | OpWrite data size =>
      match aq_write cap {| tok_value := data; tok_size := size |} q with
      | Some q' => (OutWritten CC_SUCCESS, q')
      | None => (OutWritten CC_FAIL, q)
      end
  | OpRead => match aq_peek q with
              | Some (t, q') => (OutToken (Some t), q')
              | None => (OutToken None, q)
              end
  | OpCommit => (OutDone, aq_commit q)
  | OpCancel => (OutDone, aq_cancel q)
  end.

Fixpoint run_fifo (ops : list fifo_op) (f : cc_fifo_t) : M mem (list fifo_out * cc_fifo_t) :=
  match ops with
  | [] => mret ([], f)
  | op :: ops =>
      '(o, f') ← fifo_step op f;
      '(os, f'') ← run_fifo ops f';
      mret (o :: os, f'')
  end.

Fixpoint run_aq (cap : Z) (ops : list fifo_op) (q : aqueue) : list fifo_out * aqueue :=
  match ops with
  | [] => ([], q)
  | op :: ops =>
      let '(o, q') := aq_step cap op q in
      let '(os, q'') := run_aq cap ops q' in (o :: os, q'')
  end.

(** The writes of a run: the counter can only wrap when there are 2^32 of them. *)
Definition is_write (op : fifo_op) : bool :=
  match op with OpWrite _ _ => true | _ => false end.
Definition writes (ops : list fifo_op) : Z := Z.of_nat (length (List.filter is_write ops)).

Lemma writes_cons op ops : writes (op :: ops) = writes ops + Z.b2z (is_write op).
Proof. unfold writes. simpl. destruct op; simpl; lia. Qed.

Lemma pending_nil f q : repr f q -> pending q = [] -> read_pos f = tentative_read_pos f.
Proof.
  intros (H & Hp & _) E. pose proof (ok_pos f H).
  apply (f_equal (fun l => Z.of_nat (length l))) in Hp.
  rewrite length_window, E in Hp by lia. simpl in Hp. lia.
Qed.

Lemma unread_nil f q : repr f q -> unread q = [] -> tentative_read_pos f = write_pos f.
Proof.
  intros (H & _ & Hu) E. pose proof (ok_pos f H).
  apply (f_equal (fun l => Z.of_nat (length l))) in Hu.
  rewrite length_window, E in Hu by lia. simpl in Hu. lia.
Qed.

(** One step is simulated. *)
Lemma fifo_step_sim op f q m :
  repr f q -> write_pos f + Z.b2z (is_write op) < 2 ^ 32 ->
  exists f', fifo_step op f m = Ok (((aq_step (fifo_size f - 1) op q).1, f'), m)
    /\ fifo_size f' = fifo_size f
    /\ write_pos f' <= write_pos f + Z.b2z (is_write op)
    /\ repr f' (aq_step (fifo_size f - 1) op q).2.
Proof.
  intros HR Hw. pose proof HR as (H & Hp & Hu). pose proof (ok_pos f H).
  destruct op as [data size| | |]; unfold fifo_step, aq_step.
  - destruct (cc_fifo_write_repr f q data size m HR Hw) as (f' & E & Es & HR').
    exists f'. rewrite (bind_Ok _ _ _ _ _ E). simpl Z.b2z in *.
    assert (write_pos f' <= write_pos f + 1).
    { revert E. unfold cc_fifo_write. exec. rewrite slots_available_ok by done. exec.
      destruct (1 <=? _); simpl; [|intros; simplify_eq; lia].
      pose proof (@get_slot_ok mem f (write_pos f) m H) as G. exec. rewrite G. simpl.
      unfold cc_token_set_data. rewrite write_slot_free by done. exec. intros; simplify_eq/=.
      rewrite u32_id; [lia|unfold is_u32; lia]. }
    destruct (aq_write _ _ _); done.
  - rewrite tokens_available_ok by done.
    destruct (Z.leb_spec 1 (write_pos f - tentative_read_pos f)).
    + destruct (aq_peek q) as [[t q']|] eqn:E.
      * destruct (cc_fifo_peek_repr f q t q' m HR E) as [E' HR'].
        rewrite (bind_Ok _ _ _ _ _ E'). eexists. split; [done|]. split; [done|]. split; [simpl; lia|]. exact HR'.
      * unfold aq_peek in E. destruct (unread q) eqn:Eu; [|done].
        apply (unread_nil f q HR) in Eu. lia.
    + unfold aq_peek. rewrite Hu. replace (write_pos f) with (tentative_read_pos f) by lia.
      rewrite window_empty. exists f. split; [done|]. split; [done|]. split; [simpl; lia|exact HR].
  - destruct (pending q) as [|t p] eqn:Ep.
    + pose proof (pending_nil f q HR Ep). exists f. unfold cc_fifo_commit_read.
      rewrite (proj2 (Z.ltb_ge _ _)) by lia. split; [done|]. split; [done|]. split; [simpl; lia|].
      unfold aq_commit. rewrite Ep. simpl. rewrite <- Ep. by destruct q.
    + destruct (cc_fifo_commit_read_repr f q m HR) as (f' & E & Es & Ew & HR'); [by rewrite Ep|].
      exists f'. rewrite (bind_Ok _ _ _ _ _ E). split; [done|]. split; [done|]. split; [simpl; lia|exact HR'].
  - exists (cc_fifo_cancel_commit f). split; [done|]. split; [done|]. split; [simpl; lia|].
    exact (cc_fifo_cancel_repr f q HR).
Qed.

(** A run is simulated. *)
Lemma run_fifo_sim ops f q m :
  repr f q -> write_pos f + writes ops < 2 ^ 32 ->
  exists f', run_fifo ops f m = Ok (((run_aq (fifo_size f - 1) ops q).1, f'), m)
    /\ repr f' (run_aq (fifo_size f - 1) ops q).2.
Proof.
  revert f q. induction ops as [|op ops IH]; intros f q HR Hb; [by exists f|].
  rewrite writes_cons in Hb. assert (0 <= writes ops) by (unfold writes; lia).
  destruct (fifo_step_sim op f q m HR) as (f1 & E1 & Es & Hw1 & HR1); [lia|].
  destruct (aq_step (fifo_size f - 1) op q) as [o q1] eqn:Eq. simpl in E1, HR1.
  destruct (IH f1 q1 HR1) as (f2 & E2 & HR2); [lia|]. rewrite Es in E2, HR2.
  exists f2. cbn [run_fifo run_aq]. rewrite Eq, (bind_Ok _ _ _ _ _ E1).
  rewrite (bind_Ok _ _ _ _ _ E2).
  by destruct (run_aq (fifo_size f - 1) ops q1) as [os q2] eqn:Er.
Qed.

(** C2: the queue of a port is a bounded first-in first-out queue with a
    tentative reader.  From an empty queue with room for [size - 1] tokens, any
    sequence of writes, reads, commits and cancellations with fewer than 2^32
    writes runs without undefined behaviour, answers exactly what the abstract
    queue answers and frees no buffer. *)
Theorem fifo_refines_queue (size : Z) (ops : list fifo_op) (m : mem) :
  0 < size < 2 ^ 32 -> writes ops < 2 ^ 32 ->
  exists f', run_fifo ops (new_fifo size) m
    = Ok (((run_aq (size - 1) ops {| pending := []; unread := [] |}).1, f'), m)
    /\ repr f' (run_aq (size - 1) ops {| pending := []; unread := [] |}).2.
Proof. intros Hs Hw. apply (run_fifo_sim ops (new_fifo size)); [by apply new_fifo_repr|done]. Qed.

Lemma fifo_refines_queue_witness :
  exists f', run_fifo [OpWrite (Some 5%positive) 1; OpRead; OpWrite (Some 6%positive) 2;
                       OpCommit; OpRead; OpCancel; OpRead] (new_fifo 4) ∅
    = Ok (([OutWritten CC_SUCCESS; OutToken (Some {| tok_value := Some 5%positive; tok_size := 1 |});
            OutWritten CC_SUCCESS; OutDone;
            OutToken (Some {| tok_value := Some 6%positive; tok_size := 2 |}); OutDone;
            OutToken (Some {| tok_value := Some 6%positive; tok_size := 2 |})], f'), ∅).
Proof.
  destruct (fifo_refines_queue 4 [OpWrite (Some 5%positive) 1; OpRead; OpWrite (Some 6%positive) 2;
    OpCommit; OpRead; OpCancel; OpRead] ∅) as (f' & E & _); [lia|vm_compute; done|].
  exists f'. exact E.
Defined.

(** ** The counters *)

(** C40: the 32-bit counters are not allowed to wrap.  When the reader stands at
    2^32 - 1, the token it takes is never released: [cc_fifo_peek] wraps the
    tentative position to 0, after which [cc_fifo_commit_read] and the
    acknowledgement of that very token ([cc_fifo_com_commit_read]) are both
    refused and leave the queue as it is. *)
Theorem fifo_wrap_sticks (f : cc_fifo_t) (m : mem) :
  0 < fifo_size f -> Z.of_nat (length (tokens f)) = fifo_size f ->
  read_pos f = UINT32_MAX -> tentative_read_pos f = UINT32_MAX ->
  exists f' t, cc_fifo_com_peek f m = Ok ((f', (t, UINT32_MAX)), m)
    /\ cc_fifo_commit_read f' false m = Ok (f', m)
    /\ cc_fifo_com_commit_read f' UINT32_MAX m = Ok (f', m)
    /\ read_pos f' = UINT32_MAX /\ tokens f' = tokens f.
Proof.
  intros Hs Hl Hr Ht.
  assert (Z.to_nat (UINT32_MAX mod fifo_size f) < length (tokens f))%nat as L.
  { pose proof (Z.mod_pos_bound UINT32_MAX (fifo_size f) Hs). lia. }
  apply lookup_lt_is_Some_2 in L as [t L].
  exists (set_tentative_read_pos 0 f), t.
  unfold cc_fifo_com_peek, cc_fifo_peek, get_slot, slot_index. rewrite Ht.
  rewrite (proj2 (Z.eqb_neq _ _)) by lia. exec. rewrite L. simpl.
  unfold cc_fifo_commit_read, cc_fifo_com_commit_read. simpl. rewrite Hr. done.
Qed.

Definition wrapping_fifo : cc_fifo_t :=
  {| fifo_size := 5; write_pos := 0; read_pos := UINT32_MAX; tentative_read_pos := UINT32_MAX;
     tokens := replicate 5 {| tok_value := Some 7%positive; tok_size := 1 |} |}.

Lemma fifo_wrap_sticks_witness :
  exists f' t, cc_fifo_com_peek wrapping_fifo (∅ : mem) = Ok ((f', (t, UINT32_MAX)), ∅)
    /\ cc_fifo_com_commit_read f' UINT32_MAX ∅ = Ok (f', ∅).
Proof.
  destruct (fifo_wrap_sticks wrapping_fifo ∅) as (f' & t & E & _ & E' & _);
    [simpl; lia|reflexivity|reflexivity|reflexivity|].
  exists f', t. done.
Defined.

(** ** Acknowledgements *)

(** An acknowledgement.  On a well-formed queue whose buffers are live,
    [cc_fifo_com_commit_read] frees the oldest token in flight and forgets it
    exactly when the acknowledged number is its number; every other number
    (a repeated, early or unknown acknowledgement) changes nothing.  The queue
    stays well formed. *)
Theorem com_commit_read_spec (f : cc_fifo_t) (q : aqueue) (seq : Z) (m : mem) :
  repr f q -> is_u32 seq ->
  (forall v, tok_value (slot f (read_pos f)) = Some v -> is_Some (m !! v)) ->
  exists f' m', cc_fifo_com_commit_read f seq m = Ok (f', m')
    /\ (if bool_decide (seq = read_pos f /\ pending q <> []) then
          repr f' (aq_commit q) /\ read_pos f' = read_pos f + 1
          /\ m' = match tok_value (slot f (read_pos f)) with Some v => delete v m | None => m end
        else f' = f /\ m' = m).
Proof. apply com_commit_read_run. Qed.

Definition acked_fifo : cc_fifo_t :=
  set_tentative_read_pos 1 (set_write_pos 1
    (set_token 0 {| tok_value := Some 7%positive; tok_size := 1 |} (new_fifo 4))).

Lemma acked_fifo_repr :
  repr acked_fifo {| pending := [{| tok_value := Some 7%positive; tok_size := 1 |}]; unread := [] |}.
Proof.
  split; [split|]; [simpl; lia|done|simpl; lia|simpl; lia| |done].
  intros i Hi N. destruct i as [|[|[|[|i]]]]; try done.
  exfalso. apply (N 0); [simpl; lia|done].
Qed.

Lemma com_commit_read_spec_witness :
  exists f' m', cc_fifo_com_commit_read acked_fifo 0 {[ 7%positive := [Byte.x01] ]} = Ok (f', m')
    /\ m' = delete 7%positive {[ 7%positive := [Byte.x01] ]}.
Proof.
  destruct (com_commit_read_spec acked_fifo _ 0 {[ 7%positive := [Byte.x01] ]} acked_fifo_repr)
    as (f' & m' & E & Hr).
  - unfold is_u32; lia.
  - intros v Hv. vm_compute in Hv. simplify_eq. by exists [Byte.x01].
  - exists f', m'. split; [exact E|]. rewrite bool_decide_true in Hr by done. by destruct Hr as (_ & _ & ?).
Defined.

(** A refusal is not checked.  The guard of [cc_fifo_com_cancel_read] asks for
    a number at once past the reader and before the oldest token, which no
    well-formed queue has: every number, even one past everything ever written,
    becomes the next position to send, after which the queue is no longer well
    formed. *)
Theorem com_cancel_read_unchecked (f : cc_fifo_t) (seq : Z) :
  fifo_ok f -> is_u32 seq ->
  tentative_read_pos (cc_fifo_com_cancel_read f seq) = seq
  /\ (fifo_ok (cc_fifo_com_cancel_read f seq) <-> read_pos f <= seq <= write_pos f).
Proof.
  intros H Hs. pose proof (ok_pos f H).
  assert (cc_fifo_com_cancel_read f seq = set_tentative_read_pos seq f) as E.
  { unfold cc_fifo_com_cancel_read.
    destruct (Z.leb_spec (tentative_read_pos f) seq), (Z.ltb_spec seq (read_pos f)); simpl; done || lia. }
  rewrite E. split; [done|]. split.
  - intros H'. pose proof (ok_pos _ H') as P. simpl in P. lia.
  - intros. destruct H. split; simpl in *; try done. lia.
Qed.

Lemma com_cancel_read_unchecked_witness :
  fifo_ok (new_fifo 4) /\ tentative_read_pos (cc_fifo_com_cancel_read (new_fifo 4) 1000) = 1000.
Proof.
  assert (fifo_ok (new_fifo 4)) as H by (apply (new_fifo_repr 4); lia).
  split; [exact H|]. apply (com_cancel_read_unchecked (new_fifo 4) 1000 H). unfold is_u32. lia.
Defined.
