(* ===== verification/Invariant.v ===== *)
(** The type invariant of the runtime: every array keeps its length, every counter
    its width, and the connection attempts of a port their bound, whatever the
    operations of links, tunnels and ports do and whatever message is parsed.

    [keepsQ P m Q] says that a computation that ends normally from a state with
    [P] ends in one, with an answer that satisfies [Q]; the proofs follow the
    text of the operations ([keeps_step]) and use the hints of [keeps].  The last part
    is about whole runs: sequences of port operations and received messages. *)
From S2P Require Import Prelude CString Common MsgPuck MsgPackRef Coder Fifo Machine Transport ProtoSend.
From S2P Require Import Link FifoInit Port Proto Examples.

(** ** Well-typed structures *)

Definition fifo_typed (f : cc_fifo_t) : Prop :=
  is_u32 (fifo_size f) /\ length (tokens f) = Z.to_nat (fifo_size f)
  /\ is_u32 (write_pos f) /\ is_u32 (read_pos f) /\ is_u32 (tentative_read_pos f).

Definition is_id (id : bytes) : Prop := length id = CC_UUID_BUFFER_SIZE.

Definition link_typed (l : cc_link_t) : Prop := is_id (link_peer_id l) /\ is_u8 (link_ref_count l).
Definition tunnel_typed (t : cc_tunnel_t) : Prop := is_id (tunnel_id t) /\ is_u8 (tunnel_ref_count t).

(** The attempts counter never passes 5. *)
Definition port_typed (p : cc_port_t) : Prop :=
  is_id (port_id p) /\ length (port_name p) = CC_MAX_PORT_NAME_LENGTH
  /\ is_id (port_peer_port_id p) /\ is_id (port_peer_id p) /\ 0 <= port_retries p <= 5
  /\ (forall f, port_fifo p = Some f -> fifo_typed f).

Record world_typed (w : world) : Prop := {
  wt_node : is_id (node_id (w_node w));
  wt_links : map_Forall (fun _ l => link_typed l) (w_links w);
  wt_tunnels : map_Forall (fun _ t => tunnel_typed t) (w_tunnels w);
  wt_ports : map_Forall (fun _ p => port_typed p) (w_ports w)
}.

(** ** The rules *)

Definition keepsQ {S A} (P : S -> Prop) (m : M S A) (Q : A -> Prop) : Prop :=
  forall s a s', m s = Ok (a, s') -> P s -> P s' /\ Q a.

Section rules.
Context {S : Type} (P : S -> Prop).

Lemma keepsQ_mono {A} (m : M S A) (Q R : A -> Prop) :
  keepsQ P m Q -> (forall a, Q a -> R a) -> keepsQ P m R.
Proof. intros H HQ s a s' E Hs. destruct (H s a s' E Hs). auto. Qed.

Lemma keepsQ_True {A} (m : M S A) Q : keepsQ P m Q -> keepsQ P m (fun _ => True).
Proof. intros H. eapply keepsQ_mono; eauto. Qed.

Lemma keepsQ_ret {A} (a : A) (Q : A -> Prop) : Q a -> keepsQ P (mret a) Q.
Proof. intros HQ s a' s' E Hs. cbv in E. by simplify_eq. Qed.

Lemma keepsQ_bind {A B} (m : M S A) (f : A -> M S B) (Q : A -> Prop) (R : B -> Prop) :
  keepsQ P m Q -> (forall a, Q a -> keepsQ P (f a) R) -> keepsQ P (m ≫= f) R.
Proof.
  intros Hm Hf s b s' [a [t [E1 E2]]]%bind_inv Hs.
  destruct (Hm s a t E1 Hs) as [Ht HQ]. by apply (Hf a HQ t b s').
Qed.

Lemma keepsQ_ub {A} u (Q : A -> Prop) : keepsQ P (ub_ u) Q.
Proof. intros s a s' E. done. Qed.

Lemma keepsQ_need {A} u (o : option A) (Q : A -> Prop) :
  (forall a, o = Some a -> Q a) -> keepsQ P (need u o) Q.
Proof. intros H. destruct o; [apply keepsQ_ret; auto|apply keepsQ_ub]. Qed.

Lemma keepsQ_lift {A} (o : outcome A) : keepsQ P (lift_outcome o) (fun _ => True).
Proof. destruct o; [by apply keepsQ_ret|apply keepsQ_ub]. Qed.

Lemma keepsQ_get : keepsQ P get_ P.
Proof. intros s a s' E Hs. cbv in E. by simplify_eq. Qed.

Lemma keepsQ_modify (f : S -> S) : (forall s, P s -> P (f s)) -> keepsQ P (modify f) (fun _ => True).
Proof. intros H s a s' E Hs. cbv in E. simplify_eq. auto. Qed.

Lemma keepsQ_put (s0 : S) : P s0 -> keepsQ P (put_ s0) (fun _ => True).
Proof. intros H s a s' E Hs. cbv in E. by simplify_eq. Qed.

Lemma keepsQ_when b (m : M S unit) : keepsQ P m (fun _ => True) -> keepsQ P (when b m) (fun _ => True).
Proof. intros H. destruct b; [done|by apply keepsQ_ret]. Qed.
End rules.

Create HintDb keeps discriminated.
#[export] Hint Constants Opaque : keeps.

(** One step along the text of an operation: the structure first, then the lemma
    of the operation at the head. *)
Ltac keeps_known := first [ solve [eauto 3 with keeps] | eapply keepsQ_True; solve [eauto 3 with keeps] ].
Ltac keeps_step :=
  match goal with
  | |- keepsQ _ (mret _) _ => apply keepsQ_ret; try done
  | |- keepsQ _ (ub_ _) _ => apply keepsQ_ub
  | |- keepsQ _ (lift_outcome _) (fun _ => True) => apply keepsQ_lift
  | |- keepsQ _ (when _ _) (fun _ => True) => apply keepsQ_when
  | |- keepsQ _ (need _ _) (fun _ => True) => apply keepsQ_need; done
  | |- keepsQ _ (match ?x with _ => _ end) _ => destruct x eqn:?; try done
  | |- keepsQ _ (let '(_, _) := ?x in _) _ => destruct x
  | |- keepsQ _ (mbind _ ?m) _ =>
      first [ eapply keepsQ_bind; [solve [eauto 3 with keeps]|intros ? ?]
            | eapply (keepsQ_bind _ _ _ (fun _ => True)); [|intros ? _] ]
  | |- keepsQ _ _ (fun _ => True) => keeps_known
  | |- keepsQ _ _ _ => solve [eauto 3 with keeps]
  end.
Ltac keeps := repeat keeps_step; simplify_eq; eauto 3 with keeps.

#[export] Hint Resolve keepsQ_get keepsQ_lift : keeps.

Ltac keeps_bind :=
  first [ eapply keepsQ_bind; [solve [eauto 3 with keeps]|intros ? ?]
        | eapply (keepsQ_bind _ _ _ (fun _ => True)); [solve [keeps]|intros ? _] ].

(** ** The primitive operations *)

Abbreviation WT := world_typed.

Lemma kt_get_node : keepsQ WT get_node (fun n => is_id (node_id n)).
Proof. intros w n w' E H. cbv in E. simplify_eq. split; [done|apply H]. Qed.
Lemma kt_get_link l : keepsQ WT (get_link l) link_typed.
Proof.
  unfold get_link. eapply keepsQ_bind; [apply keepsQ_get|]. intros w H. apply keepsQ_need.
  intros x Hx. by apply (wt_links w H l).
Qed.
Lemma kt_get_tunnel l : keepsQ WT (get_tunnel l) tunnel_typed.
Proof.
  unfold get_tunnel. eapply keepsQ_bind; [apply keepsQ_get|]. intros w H. apply keepsQ_need.
  intros x Hx. by apply (wt_tunnels w H l).
Qed.
Lemma kt_get_port l : keepsQ WT (get_port l) port_typed.
Proof.
  unfold get_port. eapply keepsQ_bind; [apply keepsQ_get|]. intros w H. apply keepsQ_need.
  intros x Hx. by apply (wt_ports w H l).
Qed.
Lemma kt_get_actor l : keepsQ WT (get_actor l) (fun _ => True).
Proof. unfold get_actor. eapply keepsQ_bind; [apply keepsQ_get|]. intros w H. by apply keepsQ_need. Qed.

Lemma kt_put_link l x : link_typed x -> keepsQ WT (put_link l x) (fun _ => True).
Proof.
  intros Hx. apply keepsQ_modify. intros w []. split; try done. simpl. by apply map_Forall_insert_2.
Qed.
Lemma kt_put_tunnel l x : tunnel_typed x -> keepsQ WT (put_tunnel l x) (fun _ => True).
Proof.
  intros Hx. apply keepsQ_modify. intros w []. split; try done. simpl. by apply map_Forall_insert_2.
Qed.
Lemma kt_put_port l x : port_typed x -> keepsQ WT (put_port l x) (fun _ => True).
Proof.
  intros Hx. apply keepsQ_modify. intros w []. split; try done. simpl. by apply map_Forall_insert_2.
Qed.
Lemma kt_put_actor l x : keepsQ WT (put_actor l x) (fun _ => True).
Proof. apply keepsQ_modify. intros w []. by split. Qed.
#[export] Hint Resolve kt_get_node kt_get_link kt_get_tunnel kt_get_port kt_get_actor kt_put_link
  kt_put_tunnel kt_put_port kt_put_actor : keeps.

Lemma kt_free_link l : keepsQ WT (free_link l) (fun _ => True).
Proof.
  unfold free_link. keeps. apply keepsQ_modify. intros w []. split; try done. simpl.
  by apply map_Forall_delete.
Qed.
Lemma kt_free_tunnel l : keepsQ WT (free_tunnel l) (fun _ => True).
Proof.
  unfold free_tunnel. keeps. apply keepsQ_modify. intros w []. split; try done. simpl.
  by apply map_Forall_delete.
Qed.
Lemma kt_free_port l : keepsQ WT (free_port l) (fun _ => True).
Proof.
  unfold free_port. keeps. apply keepsQ_modify. intros w []. split; try done. simpl.
  by apply map_Forall_delete.
Qed.
Lemma kt_upd_tunnel l f : (forall x, tunnel_typed x -> tunnel_typed (f x)) ->
  keepsQ WT (upd_tunnel l f) (fun _ => True).
Proof. intros H. unfold upd_tunnel. keeps. Qed.
Lemma kt_upd_port l f : (forall x, port_typed x -> port_typed (f x)) ->
  keepsQ WT (upd_port l f) (fun _ => True).
Proof. intros H. unfold upd_port. keeps. Qed.
Lemma kt_upd_actor l f : keepsQ WT (upd_actor l f) (fun _ => True).
Proof. unfold upd_actor. keeps. Qed.
Lemma kt_upd_node f : (forall n, node_id (f n) = node_id n) -> keepsQ WT (upd_node f) (fun _ => True).
Proof. intros H. apply keepsQ_modify. intros w []. split; try done. simpl. by rewrite H. Qed.
Lemma kt_on_mem {A} (m : M mem A) : keepsQ WT (on_mem m) (fun _ => True).
Proof.
  intros w a w' E []. unfold on_mem, zoom in E. destruct (m (w_mem w)) as [[]|]; simplify_eq. by split.
Qed.
Lemma kt_on_mem_post {A} (m : M mem A) (Q : A -> Prop) :
  (forall s a s', m s = Ok (a, s') -> Q a) -> keepsQ WT (on_mem m) Q.
Proof.
  intros H w a w' E []. unfold on_mem, zoom in E.
  destruct (m (w_mem w)) as [[]|] eqn:F; simplify_eq. split; [by split|eauto].
Qed.
Lemma kt_deref {A} (p : option A) (Q : A -> Prop) : (forall a, p = Some a -> Q a) -> keepsQ WT (deref p) Q.
Proof. apply keepsQ_need. Qed.
Lemma kt_deref_True {A} (p : option A) : keepsQ WT (deref p) (fun _ => True).
Proof. by apply keepsQ_need. Qed.
Lemma kt_fresh_loc : keepsQ WT fresh_loc (fun _ => True).
Proof. intros w a w' E []. cbv in E. simplify_eq. by split. Qed.
Lemma kt_walk {R} alive l (find : list loc -> option R) : keepsQ WT (walk alive l find) (fun _ => True).
Proof. unfold walk. keeps. Qed.
Lemma kt_readable b n : keepsQ WT (readable b n) (fun _ => True).
Proof. unfold readable. keeps. Qed.
Lemma kt_in_buffer n b : keepsQ WT (in_buffer n b) (fun _ => True).
Proof. unfold in_buffer. keeps. Qed.
#[export] Hint Resolve kt_free_link kt_free_tunnel kt_free_port kt_upd_tunnel kt_upd_port kt_upd_actor
  kt_upd_node kt_on_mem kt_deref_True kt_fresh_loc kt_walk kt_readable kt_in_buffer : keeps.
Lemma kt_walk_remove alive key l id : keepsQ WT (walk_remove alive key l id) (fun _ => True).
Proof. unfold walk_remove. keeps. Qed.
#[export] Hint Resolve kt_walk_remove : keeps.
#[export] Hint Extern 1 (node_id _ = node_id _) => reflexivity : keeps.

(** ** Field assignments *)

Lemma u8_is z : is_u8 (u8 z).
Proof. apply u8_range. Qed.
Lemma link_typed_ref v x : link_typed x -> link_typed (set_link_ref_count (u8 v) x).
Proof. intros [? _]. split; [done|apply u8_is]. Qed.
Lemma tunnel_typed_ref v x : tunnel_typed x -> tunnel_typed (set_tunnel_ref_count (u8 v) x).
Proof. intros [? _]. split; [done|apply u8_is]. Qed.
Lemma tunnel_typed_state v x : tunnel_typed x -> tunnel_typed (set_tunnel_state v x).
Proof. by intros [? ?]. Qed.
Lemma tunnel_typed_id v x : is_id v -> tunnel_typed x -> tunnel_typed (set_tunnel_id v x).
Proof. by intros ? [? ?]. Qed.
Lemma port_typed_peer_id v x : is_id v -> port_typed x -> port_typed (set_port_peer_id v x).
Proof. by intros ? (? & ? & ? & ? & ? & ?). Qed.
Lemma port_typed_peer_port v x : port_typed x -> port_typed (set_port_peer_port v x).
Proof. by intros (? & ? & ? & ? & ? & ?). Qed.
Lemma port_typed_tunnel v x : port_typed x -> port_typed (set_port_tunnel v x).
Proof. by intros (? & ? & ? & ? & ? & ?). Qed.
Lemma port_typed_state v x : port_typed x -> port_typed (set_port_state v x).
Proof. by intros (? & ? & ? & ? & ? & ?). Qed.
Lemma port_typed_fifo v x :
  (forall f, v = Some f -> fifo_typed f) -> port_typed x -> port_typed (set_port_fifo v x).
Proof. by intros ? (? & ? & ? & ? & ? & ?). Qed.
Lemma port_typed_retries v x : 0 <= v <= 5 -> port_typed x -> port_typed (set_port_retries v x).
Proof. by intros ? (? & ? & ? & ? & ? & ?). Qed.
Lemma is_id_zeroed : is_id (zeroed CC_UUID_BUFFER_SIZE).
Proof. done. Qed.
Lemma is_id_strncpy_bytes s : is_id (strncpy_bytes s CC_UUID_BUFFER_SIZE).
Proof. apply length_strncpy_bytes. Qed.
Lemma is_id_strncpy d s n b : is_id d -> strncpy d s n = Some b -> is_id b.
Proof. intros H E. apply strncpy_length in E. unfold is_id in *. lia. Qed.
Lemma is_id_strncpy_nul d s n b : is_id d -> strncpy_nul d s n = Some b -> is_id b.
Proof. intros H E. apply strncpy_nul_length in E. unfold is_id in *. lia. Qed.
Lemma port_typed_id p : port_typed p -> is_id (port_peer_id p).
Proof. by intros (? & ? & ? & ? & ?). Qed.
Lemma tunnel_typed_is t : tunnel_typed t -> is_id (tunnel_id t).
Proof. by intros [? ?]. Qed.
#[export] Hint Resolve link_typed_ref tunnel_typed_ref tunnel_typed_state tunnel_typed_id
  port_typed_peer_id port_typed_peer_port port_typed_tunnel port_typed_state port_typed_fifo
  is_id_zeroed is_id_strncpy_bytes is_id_strncpy is_id_strncpy_nul port_typed_id tunnel_typed_is : keeps.

Lemma kt_strncpy d s n : is_id d -> keepsQ WT (need BufferOverflow (strncpy d s n)) is_id.
Proof. intros H. apply keepsQ_need. eauto with keeps. Qed.
Lemma kt_strncpy_nul d s n : is_id d -> keepsQ WT (need BufferOverflow (strncpy_nul d s n)) is_id.
Proof. intros H. apply keepsQ_need. eauto with keeps. Qed.
Lemma kt_copy_field n s : keepsQ WT (copy_field n s) (fun b => length b = n).
Proof.
  apply keepsQ_need. intros b E. apply strncpy_nul_length in E.
  unfold zeroed in E. by rewrite length_replicate in E.
Qed.
#[export] Hint Resolve kt_strncpy kt_strncpy_nul kt_copy_field : keeps.

(** ** The platform, the transport and the senders *)

Section sends.
Context `{P : Platform}.

Lemma kt_tick : keepsQ WT tick (fun _ => True).
Proof. intros w a w' E []. cbv in E. simplify_eq. by split. Qed.
Lemma kt_mem_alloc : keepsQ WT cc_platform_mem_alloc (fun _ => True).
Proof. unfold cc_platform_mem_alloc. keeps. apply kt_tick. Qed.
Lemma kt_gen_uuid p : keepsQ WT (gen_uuid p) (fun u => length u = (length (cstr (default [] p)) + 37)%nat).
Proof.
  intros w u w' E []. unfold gen_uuid, get_, put_, mbind, M_bind, mret, M_ret in E. simplify_eq.
  split; [by split|]. unfold cc_gen_uuid. rewrite !length_app. simpl. lia.
Qed.
Lemma kt_gen_uuid_buffer : keepsQ WT (gen_uuid_buffer None) is_id.
Proof.
  unfold gen_uuid_buffer. eapply keepsQ_bind; [apply kt_gen_uuid|]. intros u L.
  apply keepsQ_ret. unfold is_id. simpl in L. rewrite length_app, length_drop, L. done.
Qed.
Lemma kt_gen_msg_uuid : keepsQ WT gen_msg_uuid (fun _ => True).
Proof.
  unfold gen_msg_uuid, gen_uuid_buffer. eapply keepsQ_bind; [apply kt_gen_uuid|].
  intros. by apply keepsQ_ret.
Qed.
Hint Resolve kt_tick kt_mem_alloc kt_gen_uuid_buffer kt_gen_msg_uuid : keeps.
Lemma kt_get_time : keepsQ WT cc_platform_get_time (fun _ => True).
Proof. unfold cc_platform_get_time. keeps. Qed.
Lemma kt_alloc_buffer d : keepsQ WT (alloc_buffer d) (fun _ => True).
Proof. unfold alloc_buffer. keeps. apply keepsQ_modify. intros w []. by split. Qed.
Lemma kt_list_add h l : keepsQ WT (cc_list_add h l) (fun _ => True).
Proof. unfold cc_list_add. keeps. Qed.
Lemma kt_list_add_n {A} (h : list (cc_list_t A)) i n d z : keepsQ WT (cc_list_add_n h i n d z) (fun _ => True).
Proof. unfold cc_list_add_n. keeps. Qed.
Hint Resolve kt_get_time kt_alloc_buffer kt_list_add @kt_list_add_n : keeps.
Lemma kt_transport_send c b : keepsQ WT (cc_transport_send c b) (fun _ => True).
Proof. unfold cc_transport_send. keeps. apply keepsQ_modify. intros w []. by split. Qed.
Lemma kt_add_pending u h d : keepsQ WT (cc_node_add_pending_msg u h d) (fun _ => True).
Proof. unfold cc_node_add_pending_msg. keeps. Qed.
Lemma kt_remove_pending u : keepsQ WT (cc_node_remove_pending_msg u) (fun _ => True).
Proof. unfold cc_node_remove_pending_msg. keeps. Qed.
Lemma kt_get_pending u : keepsQ WT (cc_node_get_pending_msg u) (fun _ => True).
Proof. unfold cc_node_get_pending_msg. keeps. Qed.
Hint Resolve kt_transport_send kt_add_pending kt_remove_pending kt_get_pending : keeps.
Lemma kt_send_request n b u h d : keepsQ WT (send_request n b u h d) (fun _ => True).
Proof. unfold send_request. keeps. Qed.
Lemma kt_send_buffer n b : keepsQ WT (send_buffer n b) (fun _ => True).
Proof. unfold send_buffer. keeps. Qed.
Lemma kt_tunnel_peer t : keepsQ WT (tunnel_peer t) (fun _ => True).
Proof. unfold tunnel_peer. keeps. Qed.
Lemma kt_port_tunnel_id p : keepsQ WT (port_tunnel_id p) (fun _ => True).
Proof. unfold port_tunnel_id. keeps. Qed.
Hint Resolve kt_send_request kt_send_buffer kt_tunnel_peer kt_port_tunnel_id : keeps.
Lemma kt_storage_route : keepsQ WT storage_route (fun _ => True).
Proof. unfold storage_route. keeps. Qed.
Hint Resolve kt_storage_route : keeps.
End sends.
#[export] Hint Resolve kt_tick kt_mem_alloc kt_gen_uuid_buffer kt_gen_msg_uuid kt_get_time
  kt_alloc_buffer kt_list_add kt_list_add_n kt_transport_send kt_add_pending kt_remove_pending
  kt_get_pending kt_send_request kt_send_buffer kt_tunnel_peer kt_port_tunnel_id
  kt_storage_route : keeps.

Section senders.
Context `{P : Platform} `{MP : MsgPuck}.

Lemma kt_send_tunnel_request t h : keepsQ WT (cc_proto_send_tunnel_request t h) (fun _ => True).
Proof. unfold cc_proto_send_tunnel_request. keeps. Qed.
Lemma kt_send_tunnel_destroy t h : keepsQ WT (cc_proto_send_tunnel_destroy t h) (fun _ => True).
Proof. unfold cc_proto_send_tunnel_destroy. keeps. Qed.
Lemma kt_send_token p t n : keepsQ WT (cc_proto_send_token p t n) (fun _ => True).
Proof. unfold cc_proto_send_token. keeps. Qed.
Lemma kt_send_port_connect p h : keepsQ WT (cc_proto_send_port_connect p h) (fun _ => True).
Proof. unfold cc_proto_send_port_connect. keeps. Qed.
Lemma kt_send_port_disconnect p h : keepsQ WT (cc_proto_send_port_disconnect p h) (fun _ => True).
Proof. unfold cc_proto_send_port_disconnect. keeps. Qed.
Lemma kt_send_set_port p h : keepsQ WT (cc_proto_send_set_port p h) (fun _ => True).
Proof. unfold cc_proto_send_set_port. keeps. Qed.
Lemma kt_send_get_port i h d : keepsQ WT (cc_proto_send_get_port i h d) (fun _ => True).
Proof. unfold cc_proto_send_get_port. keeps. Qed.
Lemma kt_send_remove_port p h : keepsQ WT (cc_proto_send_remove_port p h) (fun _ => True).
Proof. unfold cc_proto_send_remove_port. keeps. Qed.
Lemma kt_tunnel_new_reply a b c d e f g :
  keepsQ WT (proto_send_tunnel_new_reply a b c d e f g) (fun _ => True).
Proof. unfold proto_send_tunnel_new_reply. keeps. Qed.
Lemma kt_port_connect_reply a b c d e f g :
  keepsQ WT (cc_proto_send_port_connect_reply a b c d e f g) (fun _ => True).
Proof. unfold cc_proto_send_port_connect_reply. keeps. Qed.
Lemma kt_port_disconnect_reply a b c d e :
  keepsQ WT (cc_proto_send_port_disconnect_reply a b c d e) (fun _ => True).
Proof. unfold cc_proto_send_port_disconnect_reply. keeps. Qed.
End senders.
#[export] Hint Resolve kt_send_tunnel_request kt_send_tunnel_destroy kt_send_token
  kt_send_port_connect kt_send_port_disconnect kt_send_set_port kt_send_get_port
  kt_send_remove_port kt_tunnel_new_reply kt_port_connect_reply kt_port_disconnect_reply : keeps.

(** ** Links and tunnels *)

Section links_tunnels.
Context `{P : Platform} `{MP : MsgPuck}.

Lemma kt_link_get i n : keepsQ WT (cc_link_get i n) (fun _ => True).
Proof. unfold cc_link_get. keeps. Qed.
Hint Resolve kt_link_get : keeps.
Lemma kt_link_free l : keepsQ WT (cc_link_free l) (fun _ => True).
Proof. unfold cc_link_free. keeps. Qed.
Hint Resolve kt_link_free : keeps.
Lemma kt_link_add_ref l : keepsQ WT (cc_link_add_ref l) (fun _ => True).
Proof. unfold cc_link_add_ref. keeps. Qed.
Lemma kt_link_remove_ref l : keepsQ WT (cc_link_remove_ref l) (fun _ => True).
Proof. unfold cc_link_remove_ref. keeps. Qed.
Lemma kt_link_create i n b : keepsQ WT (cc_link_create i n b) (fun _ => True).
Proof.
  unfold cc_link_create. keeps_step. keeps_step; [keeps|]. keeps_step. keeps_step; [keeps|].
  eapply keepsQ_bind; [by apply kt_strncpy|]. intros id Hid. keeps.
  apply kt_put_link. done.
Qed.
Hint Resolve kt_link_add_ref kt_link_remove_ref kt_link_create : keeps.
Lemma kt_tunnel_get_from_id i n : keepsQ WT (cc_tunnel_get_from_id i n) (fun _ => True).
Proof. unfold cc_tunnel_get_from_id. keeps. Qed.
Lemma kt_find_peer_tunnel i n t l : keepsQ WT (find_peer_tunnel i n t l) (fun _ => True).
Proof. induction l; simpl; keeps. Qed.
Hint Resolve kt_tunnel_get_from_id kt_find_peer_tunnel : keeps.
Lemma kt_tunnel_get_peer i n t : keepsQ WT (cc_tunnel_get_from_peerid_and_type i n t) (fun _ => True).
Proof. unfold cc_tunnel_get_from_peerid_and_type. keeps. Qed.
Lemma kt_tunnel_add_ref t : keepsQ WT (cc_tunnel_add_ref t) (fun _ => True).
Proof. unfold cc_tunnel_add_ref. keeps. Qed.
Lemma kt_tunnel_free t b : keepsQ WT (cc_tunnel_free t b) (fun _ => True).
Proof. unfold cc_tunnel_free. keeps. Qed.
Hint Resolve kt_tunnel_get_peer kt_tunnel_add_ref kt_tunnel_free : keeps.
Lemma kt_tunnel_remove_ref t : keepsQ WT (cc_tunnel_remove_ref t) (fun _ => True).
Proof. unfold cc_tunnel_remove_ref. keeps. Qed.
Hint Resolve kt_tunnel_remove_ref : keeps.
Lemma kt_tunnel_create t s i n g : keepsQ WT (cc_tunnel_create t s i n g) (fun _ => True).
Proof.
  unfold cc_tunnel_create. keeps_step. keeps_step; [keeps|]. keeps_step. keeps_step; [keeps|].
  keeps_step; [|keeps]. keeps_step. keeps_step; [keeps|].
  eapply (keepsQ_bind _ _ _ is_id).
  { destruct g as [[tid len]|]; [by apply kt_strncpy_nul|]. eauto with keeps. }
  intros id Hid. keeps. apply kt_put_tunnel. done.
Qed.
Hint Resolve kt_tunnel_create : keeps.
Lemma kt_tunnel_new_request i n j k :
  keepsQ WT (cc_tunnel_handle_tunnel_new_request i n j k) (fun _ => True).
Proof. unfold cc_tunnel_handle_tunnel_new_request. keeps. Qed.
End links_tunnels.
#[export] Hint Resolve kt_link_get kt_link_add_ref kt_link_remove_ref kt_link_create
  kt_tunnel_get_from_id kt_tunnel_get_peer kt_tunnel_add_ref kt_tunnel_remove_ref kt_tunnel_create
  kt_tunnel_new_request : keeps.

(** ** Queues *)

Lemma fifo_typed_set_pos f : fifo_typed f ->
  (forall v, is_u32 v -> fifo_typed (set_write_pos v f))
  /\ (forall v, is_u32 v -> fifo_typed (set_read_pos v f))
  /\ (forall v, is_u32 v -> fifo_typed (set_tentative_read_pos v f))
  /\ (forall i t, fifo_typed (set_token i t f)).
Proof.
  intros (? & ? & ? & ? & ?). repeat split; simpl; try done; try apply H; try apply H1;
    try apply H2; try apply H3; try apply H4; by rewrite length_insert.
Qed.
Lemma fifo_typed_wp f z : fifo_typed f -> fifo_typed (set_write_pos (u32 z) f).
Proof. intros H. apply fifo_typed_set_pos; [done|apply u32_range]. Qed.
Lemma fifo_typed_rp f z : fifo_typed f -> fifo_typed (set_read_pos (u32 z) f).
Proof. intros H. apply fifo_typed_set_pos; [done|apply u32_range]. Qed.
Lemma fifo_typed_tp f z : fifo_typed f -> fifo_typed (set_tentative_read_pos (u32 z) f).
Proof. intros H. apply fifo_typed_set_pos; [done|apply u32_range]. Qed.
Lemma fifo_typed_token f i t : fifo_typed f -> fifo_typed (set_token i t f).
Proof. intros H. by apply fifo_typed_set_pos. Qed.
Lemma fifo_typed_cancel f : fifo_typed f -> fifo_typed (cc_fifo_cancel f).
Proof. intros H. apply fifo_typed_set_pos; [done|apply H]. Qed.
Lemma fifo_typed_cancel_commit f : fifo_typed f -> fifo_typed (cc_fifo_cancel_commit f).
Proof. apply fifo_typed_cancel. Qed.
#[export] Hint Resolve fifo_typed_cancel_commit : keeps.
Lemma fifo_typed_cancel_read f n : is_u32 n -> fifo_typed f -> fifo_typed (cc_fifo_com_cancel_read f n).
Proof. intros Hn H. unfold cc_fifo_com_cancel_read. case_match; [done|]. by apply fifo_typed_set_pos. Qed.
Lemma new_fifo_typed n : is_u32 n -> fifo_typed (new_fifo n).
Proof. intros H. repeat split; simpl; try lia; try apply H. apply length_replicate. Qed.
#[export] Hint Resolve fifo_typed_wp fifo_typed_rp fifo_typed_tp fifo_typed_token fifo_typed_cancel
  fifo_typed_cancel_read new_fifo_typed : keeps.

Lemma get_slot_state {S} f p (s s' : S) r : get_slot f p s = Ok (r, s') -> s' = s.
Proof.
  unfold get_slot. destruct (slot_index f p) as [i|]; [|done]. exec.
  destruct (tokens f !! i); [|done]. simpl. by intros [= _ <-].
Qed.

Lemma fifo_peek_typed {S} f (s s' : S) r :
  fifo_typed f -> cc_fifo_peek f s = Ok (r, s') -> fifo_typed r.1 /\ s' = s.
Proof.
  intros H E. unfold cc_fifo_peek in E. apply bind_inv in E as ([i t] & s1 & E1 & E).
  apply get_slot_state in E1. cbv [mret M_ret] in E. simplify_eq/=. eauto with keeps.
Qed.

Lemma fifo_com_peek_typed f : fifo_typed f -> keepsQ WT (cc_fifo_com_peek (S := world) f)
  (fun r => fifo_typed r.1 /\ is_u32 r.2.2).
Proof.
  intros H w a w' E Hw. unfold cc_fifo_com_peek in E.
  apply bind_inv in E as ([f' t] & w1 & E1 & E2). cbv [mret M_ret] in E2. simplify_eq.
  destruct (fifo_peek_typed _ _ _ _ H E1) as [? ->]. split; [done|]. split; [done|]. apply H.
Qed.

Lemma fifo_write_typed f d n m r m' :
  fifo_typed f -> cc_fifo_write f d n m = Ok (r, m') -> fifo_typed r.2.
Proof.
  intros H E. unfold cc_fifo_write in E. apply bind_inv in E as (free & m1 & _ & E).
  destruct free; simpl in E; [|cbv [mret M_ret] in E; by simplify_eq].
  apply bind_inv in E as ([i t] & m2 & _ & E). apply bind_inv in E as (t' & m3 & _ & E).
  cbv [mret M_ret] in E. simplify_eq. simpl. eauto with keeps.
Qed.

Lemma fifo_com_write_typed f d n q m r m' :
  fifo_typed f -> cc_fifo_com_write f d n q m = Ok (r, m') -> fifo_typed r.2.
Proof.
  intros H E. unfold cc_fifo_com_write in E. case_match; [|cbv [mret M_ret] in E; by simplify_eq].
  apply bind_inv in E as ([x f'] & m1 & E1 & E). cbv [mret M_ret] in E. simplify_eq.
  by apply (fifo_write_typed _ _ _ _ _ _ H E1).
Qed.

Lemma fifo_commit_typed f b m r m' :
  fifo_typed f -> cc_fifo_commit_read f b m = Ok (r, m') -> fifo_typed r.
Proof.
  intros H E. unfold cc_fifo_commit_read in E. case_match; [|cbv [mret M_ret] in E; by simplify_eq].
  apply bind_inv in E as ([i t] & m1 & _ & E). apply bind_inv in E as (t' & m2 & _ & E).
  cbv [mret M_ret] in E. simplify_eq. eauto with keeps.
Qed.

Lemma fifo_com_commit_typed f q m r m' :
  fifo_typed f -> cc_fifo_com_commit_read f q m = Ok (r, m') -> fifo_typed r.
Proof.
  intros H E. unfold cc_fifo_com_commit_read in E. case_match; [cbv [mret M_ret] in E; by simplify_eq|].
  case_match; [|cbv [mret M_ret] in E; by simplify_eq].
  apply bind_inv in E as ([i t] & m1 & _ & E). apply bind_inv in E as (t' & m2 & _ & E).
  cbv [mret M_ret] in E. simplify_eq. eauto with keeps.
Qed.

Lemma scan_str_keys_forall `{MP : MsgPuck} {A} n r key (found : bytes -> A) v (Q : A -> Prop) :
  (forall b, Q (found b)) -> scan_str_keys n r key found = Some v -> Q v.
Proof.
  intros H. revert r. induction n as [|n IH]; intros r E; simpl in E; [done|].
  destruct (cc_coder_decode_str r) as [[tmp len]|]; [|by eapply IH].
  destruct (streq_n _ _ _); [by simplify_eq|by eapply IH].
Qed.
Lemma decode_uint_u32 `{MP : MsgPuck} r key v :
  cc_coder_decode_uint_from_map r key = Some v -> is_u32 v.
Proof.
  unfold cc_coder_decode_uint_from_map, in_map. case_match; [|done]. case_match.
  apply scan_str_keys_forall. intros b. apply u32_range.
Qed.
#[export] Hint Resolve decode_uint_u32 : keeps.

Section queues.
Context `{P : Platform} `{MP : MsgPuck}.

Lemma kt_set_slot f i d n : fifo_typed f -> keepsQ WT (set_slot_data f i d n) fifo_typed.
Proof. intros H. unfold set_slot_data. keeps. Qed.
Hint Resolve kt_set_slot : keeps.

Lemma kt_init_tokens b n i f : fifo_typed f -> keepsQ WT (init_tokens b n i f) (fun r => fifo_typed r.2).
Proof.
  revert i f. induction n as [|n IH]; intros i f H; cbn [init_tokens]; [by apply keepsQ_ret|].
  keeps_step; [|by apply keepsQ_ret]. keeps_step; [|by apply keepsQ_ret].
  keeps_step; [|by apply IH]. keeps_bind. keeps_step; [|by apply keepsQ_ret].
  eapply keepsQ_bind; [by apply kt_set_slot|]. intros g Hg. by apply IH.
Qed.

Lemma kt_init_positions r f : fifo_typed f ->
  keepsQ WT (init_positions r f) (fun o => forall f, o = Some f -> fifo_typed f).
Proof.
  intros H. unfold init_positions.
  destruct (cc_coder_decode_uint_from_map r _) as [wp|] eqn:Ew; [|by apply keepsQ_ret].
  assert (fifo_typed (set_write_pos wp f)) as H1 by (apply fifo_typed_set_pos; eauto with keeps).
  do 3 (keeps_step; [|by apply keepsQ_ret]). keeps_step. keeps_bind.
  keeps_step; [|by apply keepsQ_ret]. keeps_step; [|by apply keepsQ_ret].
  set (tentative := cc_coder_decode_uint_from_map _ (strncpy_bytes _ _ ++ [NUL])).
  set (f1 := set_tentative_read_pos _ _).
  assert (fifo_typed f1) as H2.
  { apply fifo_typed_set_pos; [done|]. destruct tentative eqn:E; simpl; [eauto with keeps|apply H1]. }
  set (rp := match tentative with Some _ => _ | None => _ end).
  set (f2 := set_read_pos _ _).
  assert (fifo_typed f2) as H3.
  { apply fifo_typed_set_pos; [done|]. destruct rp eqn:E; simpl; [|apply H2].
    unfold rp in E. destruct tentative; [eauto with keeps|done]. }
  eapply (keepsQ_bind _ _ _ (fun x => fifo_typed x.2)).
  - destruct (cc_coder_get_value_from_map r (str "fifo")); [|by apply keepsQ_ret].
    eapply keepsQ_bind; [by apply kt_init_tokens|]. intros [? ?] ?. by apply keepsQ_ret.
  - intros [res g] Hg. keeps_bind. apply keepsQ_ret. intros h Hh.
    case_bool_decide; by simplify_eq.
Qed.

Lemma kt_fifo_init o b : keepsQ WT (cc_fifo_init o b) (fun o => forall f, o = Some f -> fifo_typed f).
Proof.
  unfold cc_fifo_init. keeps_bind. keeps_step; [by apply keepsQ_ret|].
  destruct o as [r|].
  - keeps_step; [|by apply keepsQ_ret]. keeps_step. keeps_step; [by apply keepsQ_ret|].
    destruct (cc_coder_decode_uint_from_map r _) eqn:E; [|by apply keepsQ_ret].
    keeps_bind. keeps_step; [by apply keepsQ_ret|].
    apply kt_init_positions. eauto with keeps.
  - keeps_bind. apply keepsQ_ret. intros f. case_match; [intros [= <-]|done].
    apply new_fifo_typed. destruct (cc_coder_decode_uint_from_map b _) eqn:E; simpl;
      [eauto with keeps|unfold is_u32; lia].
Qed.
End queues.
#[export] Hint Resolve kt_fifo_init : keeps.

Lemma kt_get_fifo l : keepsQ WT (get_fifo l) fifo_typed.
Proof.
  unfold get_fifo. eapply keepsQ_bind; [apply kt_get_port|]. intros p Hp. apply kt_deref.
  intros f Hf. by apply Hp.
Qed.
Lemma kt_put_fifo l f : fifo_typed f -> keepsQ WT (put_fifo l f) (fun _ => True).
Proof. intros H. unfold put_fifo. apply kt_upd_port. intros x Hx. apply port_typed_fifo; [|done]. by intros ? [= <-]. Qed.
#[export] Hint Resolve kt_get_fifo kt_put_fifo : keeps.

(** ** Ports *)

Lemma kt_set_actor_state a s : keepsQ WT (cc_actor_set_state a s) (fun _ => True).
Proof. unfold cc_actor_set_state. keeps. Qed.
Lemma kt_ports_state l : keepsQ WT (ports_state l) (fun _ => True).
Proof. induction l; simpl; keeps. Qed.
#[export] Hint Resolve kt_set_actor_state kt_ports_state : keeps.
Lemma kt_port_state_changed a : keepsQ WT (cc_actor_port_state_changed a) (fun _ => True).
Proof. unfold cc_actor_port_state_changed. keeps. Qed.
#[export] Hint Resolve kt_port_state_changed : keeps.
Lemma kt_port_set_state p s : keepsQ WT (cc_port_set_state p s) (fun _ => True).
Proof.
  unfold cc_port_set_state. keeps_bind. eapply (keepsQ_bind _ _ _ (fun _ => True)); [|intros; keeps].
  apply kt_put_port. case_match; [|by apply port_typed_state].
  apply port_typed_state, port_typed_retries; [lia|done].
Qed.
Lemma kt_clear_peer_id p : keepsQ WT (clear_peer_id p) (fun _ => True).
Proof. unfold clear_peer_id. keeps. Qed.
Lemma kt_port_in l i n : keepsQ WT (port_in l i n) (fun _ => True).
Proof. unfold port_in. keeps. Qed.
Lemma kt_first_port f l : keepsQ WT (first_port f l) (fun _ => True).
Proof. induction l; simpl; keeps. Qed.
#[export] Hint Resolve kt_port_set_state kt_clear_peer_id kt_port_in kt_first_port : keeps.
Lemma kt_find_port i n l : keepsQ WT (find_port i n l) (fun _ => True).
Proof. induction l; simpl; keeps. Qed.
Lemma kt_find_peer_port i n l : keepsQ WT (find_peer_port i n l) (fun _ => True).
Proof. induction l; simpl; keeps. Qed.
#[export] Hint Resolve kt_find_port kt_find_peer_port : keeps.
Lemma kt_port_get i n : keepsQ WT (cc_port_get i n) (fun _ => True).
Proof. unfold cc_port_get. keeps. Qed.
Lemma kt_port_get_peer i n : keepsQ WT (cc_port_get_from_peer_port_id i n) (fun _ => True).
Proof. unfold cc_port_get_from_peer_port_id. keeps. Qed.
#[export] Hint Resolve kt_port_get kt_port_get_peer : keeps.

Section ports.
Context `{P : Platform} `{MP : MsgPuck}.

Lemma kt_drop_tunnel p : keepsQ WT (drop_tunnel p) (fun _ => True).
Proof. unfold drop_tunnel. keeps. Qed.
Hint Resolve kt_drop_tunnel : keeps.
Lemma kt_drop_tunnel_if_any p : keepsQ WT (drop_tunnel_if_any p) (fun _ => True).
Proof. unfold drop_tunnel_if_any. keeps. Qed.
Lemma kt_set_peer_to_self p : keepsQ WT (set_peer_to_self p) (fun _ => True).
Proof. unfold set_peer_to_self. keeps. Qed.
Hint Resolve kt_drop_tunnel_if_any kt_set_peer_to_self : keeps.
Lemma kt_handle_connect a b c d : keepsQ WT (cc_port_handle_connect a b c d) (fun _ => True).
Proof. unfold cc_port_handle_connect. keeps. Qed.
Lemma kt_handle_disconnect a b : keepsQ WT (cc_port_handle_disconnect a b) (fun _ => True).
Proof. unfold cc_port_handle_disconnect. keeps. Qed.
Lemma kt_peer_lookup p : keepsQ WT (cc_port_do_peer_lookup p) (fun _ => True).
Proof. unfold cc_port_do_peer_lookup. keeps. Qed.
Lemma kt_connect_local p : keepsQ WT (cc_port_connect_local p) (fun _ => True).
Proof. unfold cc_port_connect_local. keeps. Qed.
Lemma kt_connect_pending p : keepsQ WT (cc_port_connect_with_pending_tunnel p) (fun _ => True).
Proof. unfold cc_port_connect_with_pending_tunnel. keeps. Qed.
Lemma kt_get_tunnel_of p : keepsQ WT (cc_port_get_tunnel p) (fun _ => True).
Proof. unfold cc_port_get_tunnel. keeps. Qed.
Hint Resolve kt_handle_connect kt_handle_disconnect kt_peer_lookup kt_connect_local kt_connect_pending
  kt_get_tunnel_of : keeps.
Lemma kt_connect_remote p : keepsQ WT (cc_port_connect_remote p) (fun _ => True).
Proof. unfold cc_port_connect_remote. keeps. Qed.
Hint Resolve kt_connect_remote : keeps.
Lemma kt_connect p : keepsQ WT (cc_port_connect p) (fun _ => True).
Proof.
  unfold cc_port_connect. keeps_bind. keeps_step; [by apply keepsQ_ret|].
  destruct (Z.eqb_spec (port_retries a) 5); [keeps|].
  eapply (keepsQ_bind _ _ _ (fun _ => True)); [|intros ? _; keeps].
  apply kt_upd_port. intros x Hx. apply port_typed_retries; [|done].
  destruct H as (_ & _ & _ & _ & Hr & _). rewrite u8_id; unfold is_u8; lia.
Qed.
Lemma kt_disconnect p b : keepsQ WT (cc_port_disconnect p b) (fun _ => True).
Proof. unfold cc_port_disconnect. keeps. Qed.
Lemma kt_port_free p b : keepsQ WT (cc_port_free p b) (fun _ => True).
Proof. unfold cc_port_free. keeps. Qed.
Hint Resolve kt_connect kt_disconnect kt_port_free : keeps.
Lemma kt_port_restore p r n : keepsQ WT (port_restore p r n) (fun _ => True).
Proof. unfold port_restore. keeps. Qed.
Hint Resolve kt_port_restore : keeps.
Lemma kt_port_create a o q d c : keepsQ WT (cc_port_create a o q d c) (fun _ => True).
Proof.
  unfold cc_port_create. keeps_step; [|by apply keepsQ_ret]. destruct p as [[id name] props].
  keeps_bind. keeps_step; [|by apply keepsQ_ret]. destruct p as [peer_id peer_port].
  keeps_bind. keeps_step; [by apply keepsQ_ret|]. do 3 keeps_bind.
  eapply (keepsQ_bind _ _ _ is_id).
  { destruct peer_id; [apply kt_copy_field|by apply keepsQ_ret]. }
  intros pid Hpid. keeps_bind. eapply (keepsQ_bind _ _ _ (fun _ => True)).
  { apply kt_put_port. repeat split; simpl; try done; lia. }
  intros _ _. eapply keepsQ_bind; [apply kt_fifo_init|]. intros f Hf.
  eapply (keepsQ_bind _ _ _ (fun _ => True)); [|intros; keeps].
  apply kt_upd_port. intros x Hx. by apply port_typed_fifo.
Qed.
Hint Resolve kt_port_create : keeps.
Lemma kt_transmit_token p : keepsQ WT (transmit_token p) (fun _ => True).
Proof.
  unfold transmit_token. eapply keepsQ_bind; [apply kt_get_fifo|]. intros f Hf.
  eapply keepsQ_bind; [by apply fifo_com_peek_typed|]. intros [g [t n]] [Hg Hn]. simpl in Hg, Hn.
  keeps_bind. keeps_bind. keeps_step; [keeps|]. keeps_step; [|keeps].
  eapply keepsQ_bind; [apply kt_get_fifo|]. intros pf Hpf.
  eapply (keepsQ_bind _ _ _ (fun r => fifo_typed r.2)).
  { apply kt_on_mem_post. intros m r m' E. by apply (fifo_write_typed _ _ _ _ _ _ Hpf E). }
  intros [r pf'] Hpf'. simpl in Hpf'. keeps_bind.
  eapply keepsQ_bind; [apply kt_get_fifo|]. intros h Hh. keeps_step; [|keeps].
  eapply (keepsQ_bind _ _ _ fifo_typed); [|intros; keeps].
  apply kt_on_mem_post. intros m r' m' E. by apply (fifo_commit_typed _ _ _ _ _ Hh E).
Qed.
Hint Resolve kt_transmit_token : keeps.
Lemma kt_transmit p : keepsQ WT (cc_port_transmit p) (fun _ => True).
Proof. unfold cc_port_transmit. keeps. Qed.
Lemma kt_store_reply d : keepsQ WT (cc_port_store_reply_handler d) (fun _ => True).
Proof. unfold cc_port_store_reply_handler. keeps. Qed.
Lemma kt_peer_port_reply d : keepsQ WT (cc_port_get_peer_port_reply_handler d) (fun _ => True).
Proof. unfold cc_port_get_peer_port_reply_handler. keeps. Qed.
Lemma kt_connect_reply d : keepsQ WT (cc_port_connect_reply_handler d) (fun _ => True).
Proof. unfold cc_port_connect_reply_handler. keeps. Qed.
Lemma kt_tunnel_request_reply d : keepsQ WT (tunnel_request_handler d) (fun _ => True).
Proof. unfold tunnel_request_handler. keeps. Qed.
End ports.
#[export] Hint Resolve kt_handle_connect kt_handle_disconnect kt_connect kt_disconnect kt_port_free
  kt_port_create kt_transmit : keeps.

(** ** Messages *)

Section messages.
Context `{P : Platform} `{MP : MsgPuck}.

Lemma kt_handle_token p d n q : keepsQ WT (cc_node_handle_token p d n q) (fun _ => True).
Proof.
  unfold cc_node_handle_token. keeps_bind. keeps_bind. keeps_step; [by apply keepsQ_ret|].
  eapply keepsQ_bind; [apply kt_get_fifo|]. intros f Hf.
  keeps_bind. keeps_step; [by apply keepsQ_ret|]. keeps_bind. keeps_bind.
  keeps_step; [|by apply keepsQ_ret].
  eapply (keepsQ_bind _ _ _ (fun r => fifo_typed r.2)).
  { apply kt_on_mem_post. intros m r m' E. by apply (fifo_com_write_typed _ _ _ _ _ _ _ Hf E). }
  intros [r g] Hg. simpl in Hg. keeps.
Qed.
Lemma kt_handle_token_reply i n t q : is_u32 q ->
  keepsQ WT (cc_node_handle_token_reply i n t q) (fun _ => True).
Proof.
  intros Hq. unfold cc_node_handle_token_reply. keeps_bind. keeps_step; [|by apply keepsQ_ret].
  eapply keepsQ_bind; [apply kt_get_fifo|]. intros f Hf. destruct t; [|keeps|by apply keepsQ_ret].
  eapply (keepsQ_bind _ _ _ fifo_typed); [|intros; keeps].
  apply kt_on_mem_post. intros m r' m' E. by apply (fifo_com_commit_typed _ _ _ _ _ Hf E).
Qed.
Hint Resolve kt_handle_token kt_handle_token_reply : keeps.
Lemma kt_parse_token r : keepsQ WT (proto_parse_token r) (fun _ => True).
Proof. unfold proto_parse_token. keeps. Qed.
Lemma kt_parse_token_reply r : keepsQ WT (proto_parse_token_reply r) (fun _ => True).
Proof. unfold proto_parse_token_reply. keeps. Qed.
Lemma kt_parse_destroy r : keepsQ WT (proto_parse_destroy r) (fun _ => True).
Proof. unfold proto_parse_destroy, upd_node_state, upd_node_stop_method. keeps. Qed.
Hint Resolve kt_parse_token kt_parse_token_reply kt_parse_destroy : keeps.

Section handlers.
Context (run_handler : cc_msg_handler_t -> bytes -> msg_data_t -> W cc_result_t)
  (Hrun : forall h b d, keepsQ WT (run_handler h b d) (fun _ => True)).

Lemma kt_run_pending u b r : keepsQ WT (run_pending run_handler u b r) (fun _ => True).
Proof using Hrun. unfold run_pending, lift, world_above. keeps. Qed.
Hint Resolve kt_run_pending : keeps.
Lemma kt_copy_msg_uuid s : keepsQ WT (copy_msg_uuid s) (fun _ => True).
Proof. unfold copy_msg_uuid. eapply keepsQ_True, kt_copy_field. Qed.
Hint Resolve kt_copy_msg_uuid : keeps.
Lemma kt_parse_reply b : keepsQ WT (cc_proto_parse_reply run_handler b) (fun _ => True).
Proof using Hrun. unfold cc_proto_parse_reply, lift, world_above. keeps. Qed.
Lemma kt_parse_tunnel_data b : keepsQ WT (cc_proto_parse_tunnel_data run_handler b) (fun _ => True).
Proof using Hrun. unfold cc_proto_parse_tunnel_data, lift, world_above. keeps. Qed.
End handlers.

Lemma kt_parse_port_disconnect b : keepsQ WT (cc_proto_parse_port_disconnect b) (fun _ => True).
Proof. unfold cc_proto_parse_port_disconnect. keeps. Qed.
Lemma kt_parse_port_connect b : keepsQ WT (cc_proto_parse_port_connect b) (fun _ => True).
Proof. unfold cc_proto_parse_port_connect. keeps. Qed.
Lemma kt_parse_tunnel_new b : keepsQ WT (cc_proto_parse_tunnel_new b) (fun _ => True).
Proof. unfold cc_proto_parse_tunnel_new. keeps. Qed.
End messages.

(** * The type invariant over runs: whatever sequence of port operations and of
    received messages a runtime goes through. *)

Section runs.
Context `{P : Platform} `{MP : MsgPuck}.

(** The reply handlers of links, tunnels and ports; [other] stands for the
    handlers of the actors and of the node. *)
Definition port_handlers (other : cc_msg_handler_t -> bytes -> msg_data_t -> W cc_result_t)
  (h : cc_msg_handler_t) (data : bytes) (md : msg_data_t) : W cc_result_t :=
  match h with
  | H_port_remove_reply => cc_port_remove_reply_handler data
  | H_port_disconnect_reply => cc_port_disconnect_reply_handler data
  | H_port_store_reply => cc_port_store_reply_handler data
  | H_port_get_peer_port_reply => cc_port_get_peer_port_reply_handler data
  | H_port_connect_reply => cc_port_connect_reply_handler data
  | H_tunnel_destroy => tunnel_destroy_handler data
  | H_tunnel_request => tunnel_request_handler data
  | _ => other h data md
  end.

(** What happens to a runtime: an operation of a port, or a message. *)
Inductive action :=
  | DoCreate (actor : loc) (obj_port obj_prev : bytes) (d : cc_port_direction_t) (cl : option bytes)
  | DoConnect (port : loc) | DoDisconnect (port : loc) (unref : bool) | DoTransmit (port : loc)
  | DoFree (port : loc) (registry : bool)
  | OnReply (data : bytes) | OnTunnelData (data : bytes) | OnPortConnect (data : bytes)
  | OnPortDisconnect (data : bytes) | OnTunnelNew (data : bytes).

Definition ignore {A} (m : W A) : W unit := _ ← m; mret tt.

Definition run_action (other : cc_msg_handler_t -> bytes -> msg_data_t -> W cc_result_t) (a : action)
  : W unit :=
  match a with
  | DoCreate actor o p d cl => ignore (cc_port_create actor o p d cl)
  | DoConnect p => cc_port_connect p
  | DoDisconnect p b => cc_port_disconnect p b
  | DoTransmit p => cc_port_transmit p
  | DoFree p b => cc_port_free p b
  | OnReply d => ignore (cc_proto_parse_reply (port_handlers other) d)
  | OnTunnelData d => ignore (cc_proto_parse_tunnel_data (port_handlers other) d)
  | OnPortConnect d => ignore (cc_proto_parse_port_connect d)
  | OnPortDisconnect d => ignore (cc_proto_parse_port_disconnect d)
  | OnTunnelNew d => ignore (cc_proto_parse_tunnel_new d)
  end.

Fixpoint run_actions (other : cc_msg_handler_t -> bytes -> msg_data_t -> W cc_result_t)
  (l : list action) : W unit :=
  match l with
  | [] => mret tt
  | a :: l => run_action other a ;; run_actions other l
  end.

Lemma kt_ignore {A} (m : W A) : keepsQ WT m (fun _ => True) -> keepsQ WT (ignore m) (fun _ => True).
Proof. intros H. unfold ignore. eapply keepsQ_bind; [exact H|]. intros. by apply keepsQ_ret. Qed.

Lemma kt_port_handlers other h b d :
  (forall h b d, keepsQ WT (other h b d) (fun _ => True)) ->
  keepsQ WT (port_handlers other h b d) (fun _ => True).
Proof.
  intros H. destruct h; simpl; try apply H; try by apply keepsQ_ret.
  - apply kt_store_reply.
  - apply kt_peer_port_reply.
  - apply kt_connect_reply.
  - apply kt_tunnel_request_reply.
Qed.

(** C23: the type invariant of every run.  Whatever operations of ports are called
    and whatever bytes arrive as messages, in any order and with any answers of
    the platform, a run that meets no undefined behaviour leaves every identifier
    array at its length, every reference counter within its 8 bits, every queue
    counter within 32 bits with as many slots as its size, and no port past five
    connection attempts. *)
Theorem runs_keep_types (other : cc_msg_handler_t -> bytes -> msg_data_t -> W cc_result_t)
  (l : list action) (w w' : world) :
  (forall h b d, keepsQ WT (other h b d) (fun _ => True)) ->
  world_typed w -> run_actions other l w = Ok (tt, w') -> world_typed w'.
Proof.
  intros Ho Hw E. revert w Hw E. induction l as [|a l IH]; intros w Hw E.
  { cbv in E. by simplify_eq. }
  apply bind_inv in E as ([] & w1 & E1 & E). apply (IH w1); [|done].
  assert (keepsQ WT (run_action other a) (fun _ => True)) as Ha.
  { pose proof (kt_port_handlers other) as Hh.
    destruct a; simpl; eauto 2 with keeps; apply kt_ignore; eauto 2 with keeps.
    - apply kt_parse_reply; auto.
    - apply kt_parse_tunnel_data; auto.
    - apply kt_parse_port_connect.
    - apply kt_parse_port_disconnect.
    - apply kt_parse_tunnel_new. }
  by destruct (Ha w tt w1 E1 Hw).
Qed.
End runs.

Lemma the_world_typed : world_typed the_world.
Proof.
  split; simpl; [done| | |].
  - apply map_Forall_singleton. split; [done|]. unfold is_u8. simpl. lia.
  - apply map_Forall_insert_2; [|apply map_Forall_singleton];
      (split; [done|unfold is_u8; simpl; lia]).
  - assert (forall f, Some (new_fifo 4) = Some f -> fifo_typed f) as Hf.
    { intros f [= <-]. apply new_fifo_typed. unfold is_u32. lia. }
    apply map_Forall_insert_2; [|apply map_Forall_singleton];
      (split; [done|split; [done|split; [done|split; [done|split; [simpl; lia|exact Hf]]]]]).
Qed.

Definition no_other : cc_msg_handler_t -> bytes -> msg_data_t -> W cc_result_t :=
  fun _ _ _ => mret CC_SUCCESS.

(** Connecting the two ports of the example and freeing one of them. *)
Definition some_actions : list action := [DoConnect 20%positive; DoTransmit 20%positive; DoFree 21%positive false].

Lemma runs_keep_types_witness :
  exists w', run_actions no_other some_actions the_world = Ok (tt, w') /\ world_typed w'.
Proof.
  destruct (run_actions no_other some_actions the_world) as [[[] w']|u] eqn:E.
  - exists w'. split; [reflexivity|]. apply (runs_keep_types no_other some_actions the_world w').
    + intros h b d. by apply keepsQ_ret.
    + apply the_world_typed.
    + exact E.
  - exfalso. vm_compute in E. discriminate E.
Defined.
