(* ===== verification/TunnelRefs.v ===== *)
(** The references to the tunnels: every tunnel is counted by the ports and by the node
    that refer to it, whatever the operations of ports do and whatever message is
    parsed, so that no port is left with a tunnel that was freed.

    [tsame] relates two worlds with the same references and counters, an [Inert] relation.
    [goes] is a triple of pre- and postcondition, used for the operations that count:
    [owing n d] allows one reference to [d] that is not counted yet, or no longer. *)
From S2P Require Import Prelude CString Common MsgPuck MsgPackRef Coder Fifo Machine Transport.
From S2P Require Import ProtoSend Link FifoInit Port Proto Quiet Inert Examples Invariant.

(** ** Who refers to a tunnel *)

(** One when it is so. *)
Definition one (P : Prop) `{!Decision P} : Z := if decide P then 1 else 0.

(** How many of the pointers are [t]. *)
Definition pointing (t : loc) (m : gmap loc (option loc)) : Z := map_fold (fun _ o n => one (o = Some t) + n) 0 m.

(** The references to a tunnel: those of the ports and the two of the node. *)
Definition refs (w : world) (t : loc) : Z :=
  pointing t (port_tunnel <$> w_ports w)
  + (one (node_storage_tunnel (w_node w) = Some t) + one (node_proxy_tunnel (w_node w) = Some t)).

(** Its counter; a tunnel that is freed has none. *)
Definition count_of (w : world) (t : loc) : Z := default 0 ((tunnel_ref_count <$> w_tunnels w) !! t).

(** Every tunnel is counted by those that refer to it, but one reference to [d]; no
    counter is over [n], which it can hold; the tunnels are below the next address. *)
Record owing (n : Z) (d : option loc) (w : world) : Prop := {
  ow_refs t : refs w t <= count_of w t + one (d = Some t);
  ow_count t : 0 <= count_of w t <= n;
  ow_next t x : w_tunnels w !! t = Some x -> (t < w_next w)%positive;
  ow_width : n <= 255
}.
Abbreviation counted n := (owing n None).

Lemma one_bounds P `{!Decision P} : 0 <= one P <= 1.
Proof. unfold one. case_decide; lia. Qed.
Lemma one_false (P : Prop) `{!Decision P} : ~ P -> one P = 0.
Proof. intros H. unfold one. by rewrite decide_False. Qed.
Lemma one_true (P : Prop) `{!Decision P} : P -> one P = 1.
Proof. intros H. unfold one. by rewrite decide_True. Qed.

Lemma pointing_insert t l o m : pointing t (<[l := o]> m) = one (o = Some t) + pointing t (delete l m).
Proof.
  unfold pointing. rewrite <- insert_delete_eq. rewrite map_fold_insert_L; [done|intros; lia|apply lookup_delete_eq].
Qed.
Lemma pointing_at t l o m : m !! l = Some o -> pointing t m = one (o = Some t) + pointing t (delete l m).
Proof. intros H. rewrite <- (pointing_insert t l o). by rewrite insert_id. Qed.
Lemma pointing_nonneg t m : 0 <= pointing t m.
Proof.
  unfold pointing. induction m as [|i x m Hi IH] using map_ind; [done|].
  rewrite map_fold_insert_L; [|intros; lia|done]. pose proof (one_bounds (x = Some t)). lia.
Qed.
Lemma pointing_none t m : map_Forall (fun _ o => o = None) m -> pointing t m = 0.
Proof.
  unfold pointing. induction m as [|i x m Hi IH] using map_ind; [done|]. intros [-> Hm]%map_Forall_insert; [|done].
  rewrite map_fold_insert_L; [|intros; lia|done]. by rewrite IH, one_false.
Qed.
Lemma pointing_delete_le t l m : pointing t (delete l m) <= pointing t m.
Proof.
  destruct (m !! l) as [o|] eqn:H; [|by rewrite delete_id].
  rewrite (pointing_at t l o m H). pose proof (one_bounds (o = Some t)). lia.
Qed.

(** A port that refers to a tunnel keeps it. *)
Lemma counted_live n w l p t : counted n w -> w_ports w !! l = Some p -> port_tunnel p = Some t ->
  exists x, w_tunnels w !! t = Some x /\ 1 <= tunnel_ref_count x.
Proof.
  intros H Hl Ht. pose proof (ow_refs _ _ _ H t) as Hr. unfold refs in Hr.
  rewrite (pointing_at t l (Some t)) in Hr by (by rewrite lookup_fmap, Hl, <- Ht).
  rewrite one_true in Hr by done. rewrite (one_false (None = Some t)) in Hr by done.
  pose proof (pointing_nonneg t (delete l (port_tunnel <$> w_ports w))).
  pose proof (one_bounds (node_storage_tunnel (w_node w) = Some t)).
  pose proof (one_bounds (node_proxy_tunnel (w_node w) = Some t)).
  unfold count_of in Hr. rewrite lookup_fmap in Hr. destruct (w_tunnels w !! t) as [x|]; simpl in Hr; [|lia].
  exists x. split; [done|lia].
Qed.

(** ** What changes neither references nor counters *)

Record tsame (w w' : world) : Prop := {
  ts_counts : tunnel_ref_count <$> w_tunnels w' = tunnel_ref_count <$> w_tunnels w;
  ts_ports : port_tunnel <$> w_ports w' = port_tunnel <$> w_ports w;
  ts_storage : node_storage_tunnel (w_node w') = node_storage_tunnel (w_node w);
  ts_proxy : node_proxy_tunnel (w_node w') = node_proxy_tunnel (w_node w);
  ts_next : (w_next w <= w_next w')%positive
}.
#[export] Instance tsame_preorder : PreOrder tsame.
Proof.
  split; [by split|]. intros x y z [] []. split; try congruence. by etransitivity.
Qed.

Lemma tsame_refs w w' t : tsame w w' -> refs w' t = refs w t.
Proof. intros [_ H2 H3 H4 _]. unfold refs. by rewrite H2, H3, H4. Qed.
Lemma tsame_count w w' t : tsame w w' -> count_of w' t = count_of w t.
Proof. intros [H _ _ _ _]. unfold count_of. by rewrite H. Qed.
Lemma tsame_port w w' l : tsame w w' -> port_tunnel <$> w_ports w' !! l = port_tunnel <$> w_ports w !! l.
Proof. intros H. by rewrite <- !lookup_fmap, (ts_ports _ _ H). Qed.
Lemma tsame_owing n d w w' : tsame w w' -> owing n d w -> owing n d w'.
Proof.
  intros H [H1 H2 H3 H4]. split; [| | |done].
  - intros t. rewrite (tsame_refs w w'), (tsame_count w w') by done. apply H1.
  - intros t. rewrite (tsame_count w w') by done. apply H2.
  - intros t x Hx. assert (is_Some (w_tunnels w !! t)) as [y Hy].
    { rewrite <- (fmap_is_Some tunnel_ref_count), <- lookup_fmap, <- (ts_counts _ _ H), lookup_fmap, Hx. by eexists. }
    pose proof (H3 t y Hy). pose proof (ts_next _ _ H). lia.
Qed.

Abbreviation TS m := (along tsame m).

Lemma ts_upd_port l f : (forall x, port_tunnel (f x) = port_tunnel x) -> TS (upd_port l f).
Proof.
  intros H w a w' (x & Hx & ->)%upd_port_inv. split; try done. simpl. rewrite fmap_insert, H.
  apply insert_id. by rewrite lookup_fmap, Hx.
Qed.
#[export] Instance tsame_inert : Inert tsame.
Proof.
  split; try (by split); [apply _| | |].
  - intros w. split; simpl; (done || lia).
  - intros w l x y Hx Hy. split; try done. simpl. rewrite fmap_insert, Hy. apply insert_id.
    by rewrite lookup_fmap, Hx.
  - intros w l x y Hx Hy _. split; try done. simpl. rewrite fmap_insert, Hy. apply insert_id.
    by rewrite lookup_fmap, Hx.
Qed.

(** Any state of a port, and its attempts. *)
Lemma ts_port_set_state p s : TS (cc_port_set_state p s).
Proof.
  intros w a w' (x & Hx & E)%set_state_inv. revert E. set (y := set_port_state _ _). intros E.
  assert (port_tunnel y = port_tunnel x) as Hy by (unfold y; by destruct (_ && _)).
  etransitivity; [|by eapply (fr_port_state_changed (R:=tsame))]. split; try done. simpl. rewrite fmap_insert, Hy.
  apply insert_id. by rewrite lookup_fmap, Hx.
Qed.
#[export] Hint Resolve ts_port_set_state : frame.
#[export] Hint Extern 2 (along tsame (upd_port _ _)) => apply ts_upd_port; done : frame.
Lemma ts_connect_reply `{P : Platform} `{MP : MsgPuck} d : TS (cc_port_connect_reply_handler d).
Proof. unfold cc_port_connect_reply_handler. framed. Qed.
#[export] Hint Resolve ts_connect_reply : frame.

(** ** The operations that count *)

(** [goes Pre m Post]: a normal end of [m] from a world with [Pre] is one with [Post]. *)
Definition goes {A} (Pre : world -> Prop) (m : W A) (Post : A -> world -> Prop) : Prop :=
  forall w a w', m w = Ok (a, w') -> Pre w -> Post a w'.

Lemma goes_bind {A B} (Pre : world -> Prop) (m : W A) (f : A -> W B) Mid (Post : B -> world -> Prop) :
  goes Pre m Mid -> (forall a, goes (Mid a) (f a) Post) -> goes Pre (m ≫= f) Post.
Proof. intros Hm Hf w b w' (a & t & E1 & E2)%bind_inv Hw. by eapply Hf, Hm. Qed.
Lemma goes_along {A} (Pre : world -> Prop) (m : W A) (R : relation world) :
  along R m -> (forall w w', R w w' -> Pre w -> Pre w') -> goes Pre m (fun _ => Pre).
Proof. intros Hm HR w a w' E Hw. by eapply HR, Hw; eapply Hm. Qed.

(** A port that has the tunnel [o]. *)
Definition port_has (l : loc) (o : option loc) (w : world) : Prop := port_tunnel <$> w_ports w !! l = Some o.

Lemma refs_insert w l p t : refs (set_ports (<[l := p]> (w_ports w)) w) t
  = refs w t - default 0 ((fun o => one (o = Some t)) <$> (port_tunnel <$> w_ports w !! l))
    + one (port_tunnel p = Some t).
Proof.
  unfold refs. simpl. rewrite fmap_insert, pointing_insert. destruct (w_ports w !! l) as [q|] eqn:Hq; simpl.
  - rewrite (pointing_at t l (port_tunnel q) (port_tunnel <$> w_ports w)) by (by rewrite lookup_fmap, Hq). lia.
  - rewrite delete_id by (by rewrite lookup_fmap, Hq). lia.
Qed.

(** The tunnel of a port is set. *)
Lemma point_port n l o : goes (counted n) (upd_port l (set_port_tunnel o)) (fun _ => owing n o).
Proof.
  intros w [] w' (p & Hp & ->)%upd_port_inv [H1 H2 H3 H4]. split; [|done|done|done]. intros t. rewrite refs_insert, Hp. simpl.
  change (count_of (set_ports _ w) t) with (count_of w t). specialize (H1 t).
  rewrite (one_false (None = Some t)) in H1 by done. pose proof (one_bounds (port_tunnel p = Some t)). lia.
Qed.
(** What is owed to the tunnel of a port is paid by the port's forgetting it. *)
Lemma forget_port n l o : goes (fun w => owing n o w /\ port_has l o w) (upd_port l (set_port_tunnel None))
  (fun _ => counted n).
Proof.
  intros w [] w' (p & Hq & ->)%upd_port_inv [[H1 H2 H3 H4] Hp]. split; [|done|done|done]. intros t.
  rewrite refs_insert, Hp. simpl.
  change (count_of (set_ports _ w) t) with (count_of w t). specialize (H1 t). lia.
Qed.
Lemma forget_any n l : goes (counted n) (upd_port l (set_port_tunnel None)) (fun _ => counted n).
Proof. apply point_port. Qed.
Lemma free_port_owing n l o : goes (fun w => owing n o w /\ port_has l o w) (free_port l) (fun _ => counted n).
Proof.
  intros w [] w' (p & Hq & ->)%free_port_inv [[H1 H2 H3 H4] Hp]. unfold port_has in Hp. rewrite Hq in Hp. injection Hp as Hp. split; [|done|done|done].
  intros t. specialize (H1 t). unfold refs in *. change (count_of (set_ports _ w) t) with (count_of w t). simpl.
  rewrite fmap_delete. rewrite (pointing_at t l o) in H1 by (by rewrite lookup_fmap, Hq, <- Hp).
  rewrite (one_false (None = Some t)) by done. lia.
Qed.

(** The counter of a tunnel is set. *)
Lemma count_of_insert w t x t' : count_of (set_tunnels (<[t := x]> (w_tunnels w)) w) t'
  = if decide (t = t') then tunnel_ref_count x else count_of w t'.
Proof.
  unfold count_of. simpl. rewrite fmap_insert. case_decide as D; [subst; by rewrite lookup_insert_eq|].
  by rewrite lookup_insert_ne.
Qed.
Lemma next_insert w t x : (forall t x, w_tunnels w !! t = Some x -> (t < w_next w)%positive) ->
  (t < w_next w)%positive ->
  forall t' y, w_tunnels (set_tunnels (<[t := x]> (w_tunnels w)) w) !! t' = Some y -> (t' < w_next w)%positive.
Proof.
  intros H Ht t' y. simpl. destruct (decide (t = t')) as [->|D]; [done|]. rewrite lookup_insert_ne by done. apply H.
Qed.
Lemma count_of_at w t x : w_tunnels w !! t = Some x -> count_of w t = tunnel_ref_count x.
Proof. intros H. unfold count_of. by rewrite lookup_fmap, H. Qed.

(** A reference is added: what was owed is there. *)
Lemma add_owing n t : n + 1 <= 255 -> goes (owing n (Some t)) (cc_tunnel_add_ref (Some t)) (fun _ => counted (n + 1)).
Proof.
  intros Hn w [] w' (x & Hq & ->)%upd_tunnel_inv [H1 H2 H3 H4]. pose proof (count_of_at w t x Hq) as Hc.
  assert (forall t', count_of (set_tunnels (<[t := set_tunnel_ref_count (u8 (tunnel_ref_count x + 1)) x]> (w_tunnels w)) w) t'
    = count_of w t' + one (Some t = Some t')) as Hc'.
  { intros t'. rewrite count_of_insert. case_decide as D.
    - subst t'. rewrite one_true by done. simpl. specialize (H2 t). rewrite u8_id; [lia|unfold is_u8; lia].
    - rewrite one_false by congruence. lia. }
  split; [| | |done].
  - intros t'. rewrite Hc'. specialize (H1 t'). rewrite (one_false (None = Some t')) by done.
    change (refs (set_tunnels _ w) t') with (refs w t'). lia.
  - intros t'. rewrite Hc'. specialize (H2 t'). pose proof (one_bounds (Some t = Some t')). lia.
  - by eapply next_insert, H3.
Qed.

(** A counter that is zero is that of a tunnel nothing refers to: it can be freed. *)
Lemma free_owing n d t Q : (forall w m, Q w -> Q (set_tunnels m w)) ->
  goes (fun w => (owing n d w /\ Q w) /\ count_of w t = 0) (free_tunnel t) (fun _ w => owing n d w /\ Q w).
Proof.
  intros HQ w [] w' (p & Hq & ->)%free_tunnel_inv [[[H1 H2 H3 H4] Hw] Hc]. split; [|by apply HQ].
  assert (forall t', count_of (set_tunnels (delete t (w_tunnels w)) w) t' = count_of w t') as Hd.
  { intros t'. destruct (decide (t = t')) as [<-|D]; unfold count_of; simpl; rewrite fmap_delete.
    - rewrite lookup_delete_eq. simpl. symmetry. exact Hc.
    - by rewrite lookup_delete_ne. }
  split; [intros t'; rewrite Hd; apply H1|intros t'; rewrite Hd; apply H2| |done].
  intros t' x. simpl. intros Hx. apply lookup_delete_Some in Hx as [_ Hx]. by eapply H3.
Qed.

(** What a computation that changes no reference and no counter leaves true. *)
Class Stable (Pre : world -> Prop) := stable w w' : tsame w w' -> Pre w -> Pre w'.
#[export] Instance owing_stable n d : Stable (owing n d).
Proof. intros w w'. apply tsame_owing. Qed.
#[export] Instance port_has_stable l o : Stable (port_has l o).
Proof. intros w w' H. unfold port_has. by rewrite (tsame_port w w'). Qed.
#[export] Instance count_stable t c : Stable (fun w => count_of w t = c).
Proof. intros w w' H. by rewrite (tsame_count w w'). Qed.
#[export] Instance and_stable Pre Post : Stable Pre -> Stable Post -> Stable (fun w => Pre w /\ Post w).
Proof. intros H1 H2 w w' H []. split; [by eapply H1|by eapply H2]. Qed.
Lemma goes_same {A} (Pre : world -> Prop) `{!Stable Pre} (m : W A) : TS m -> goes Pre m (fun _ => Pre).
Proof. intros H. apply (goes_along _ _ tsame H). apply stable. Qed.
Lemma goes_ret {A} (Pre : world -> Prop) (a : A) : goes Pre (mret a) (fun _ => Pre).
Proof. intros w a' w' E. injection E as _ <-. done. Qed.
Lemma goes_answer {A} (Post : A -> world -> Prop) (a : A) : goes (Post a) (mret a) Post.
Proof. intros w a' w' E. injection E as <- <-. done. Qed.
Lemma goes_weaken {A} (Pre Pre' : world -> Prop) (m : W A) (Post : A -> world -> Prop) :
  (forall w, Pre' w -> Pre w) -> goes Pre m Post -> goes Pre' m Post.
Proof. intros H1 H w a w' E Hw. eapply H; eauto. Qed.

(** A step that changes nothing, then the rest. *)
Ltac pass := eapply goes_bind; [apply goes_same; [apply _|framed]|intros ?].
Ltac split_goes := match goal with |- goes _ (match ?x with _ => _ end) _ => destruct x end.

Section references.
Context `{P : Platform} `{MP : MsgPuck}.

Lemma free_tunnel_goes n d l o t :
  goes (fun w => (owing n d w /\ port_has l o w) /\ count_of w t = 0) (cc_tunnel_free (Some t) true)
    (fun _ w => owing n d w /\ port_has l o w).
Proof. unfold cc_tunnel_free. do 5 pass. by apply free_owing. Qed.

Lemma release_goes n d l o t :
  goes (fun w => (owing n d w /\ port_has l o w) /\ count_of w t = 0)
    (node ← get_node;
     when (bool_decide (node_state node <> CC_NODE_DO_SLEEP) && bool_decide (node_transport_client node <> None))
       (_ ← cc_proto_send_tunnel_destroy t H_tunnel_destroy; mret tt) ;;
     cc_tunnel_free (Some t) true)
    (fun _ w => owing n d w /\ port_has l o w).
Proof. do 2 pass. apply free_tunnel_goes. Qed.

(** A counter that goes down by the reference that is owed. *)
Lemma give_back n w t x : counted n w -> w_tunnels w !! t = Some x -> 1 <= tunnel_ref_count x ->
  u8 (tunnel_ref_count x - 1) = tunnel_ref_count x - 1
  /\ owing n (Some t) (set_tunnels (<[t := set_tunnel_ref_count (tunnel_ref_count x - 1) x]> (w_tunnels w)) w).
Proof.
  intros [H1 H2 H3 H4] Hx Hc. pose proof (count_of_at w t x Hx) as Et. pose proof (H2 t) as H2t.
  split; [apply u8_id; unfold is_u8; lia|]. split; [| | |done].
  - intros t'. specialize (H1 t'). rewrite (one_false (None = Some t')) in H1 by done. rewrite count_of_insert.
    change (refs (set_tunnels _ w) t') with (refs w t'). case_decide as D.
    + subst t'. rewrite one_true by done. simpl. lia.
    + pose proof (one_bounds (Some t = Some t')). lia.
  - intros t'. specialize (H2 t'). rewrite count_of_insert. case_decide; simpl; lia.
  - by eapply next_insert, H3.
Qed.

(** The reference of a port is given back: from now on it is owed. *)
Lemma remove_goes n l t :
  goes (fun w => counted n w /\ port_has l (Some t) w) (cc_tunnel_remove_ref (Some t))
    (fun _ w => owing n (Some t) w /\ port_has l (Some t) w).
Proof.
  intros w [] w' (x & w1 & (w2 & w3 & E2 & E1)%bind_inv & E)%bind_inv [Hc Hp]. injection E2 as <- <-.
  pose proof Hp as (p & Hl & Ht)%fmap_Some. destruct (counted_live n w l p t Hc Hl) as (y & Hy & H1); [done|].
  rewrite Hy in E1. injection E1 as <- <-. destruct (give_back n w t y Hc Hy H1) as [Ec Ho]. rewrite Ec in E.
  apply bind_inv in E as ([] & w2 & E2 & E). injection E2 as <-. revert E.
  set (w2 := set_tunnels _ w) in *. assert (port_has l (Some t) w2) as Hp2 by done.
  destruct (Z.eqb_spec (tunnel_ref_count y - 1) 0) as [C|C]; cbn [when]; intros E.
  - assert (count_of w2 t = 0) as Hz by (unfold w2; rewrite count_of_insert, decide_True by done; exact C).
    by apply (release_goes n (Some t) l (Some t) t _ tt w' E).
  - injection E as <-. done.
Qed.

(** A tunnel is created with no reference to it. *)
Definition unused (l : loc) (w : world) : Prop := w_tunnels w !! l = None /\ (l < w_next w)%positive.

Lemma fresh_goes n : goes (counted n) fresh_loc (fun l w => counted n w /\ unused l w).
Proof.
  intros w l w' E Hc. pose proof (fr_fresh _ _ _ E) as Hs. split; [by apply (tsame_owing n None w)|].
  cbv [fresh_loc mbind M_bind get_ put_ mret M_ret] in E. injection E as <- <-. split; simpl; [|lia].
  destruct (w_tunnels w !! w_next w) eqn:Hx; [|done]. apply (ow_next _ _ _ Hc) in Hx. lia.
Qed.
Lemma new_goes n l x : tunnel_ref_count x = 0 ->
  goes (fun w => counted n w /\ unused l w) (put_tunnel l x) (fun _ w => counted n w /\ count_of w l = 0).
Proof.
  intros Hx w [] w' E [[H1 H2 H3 H4] [Hl Hn]]. injection E as <-.
  assert (count_of w l = 0) as Hz by (unfold count_of; by rewrite lookup_fmap, Hl).
  assert (forall t, count_of (set_tunnels (<[l := x]> (w_tunnels w)) w) t = count_of w t) as Hd.
  { intros t. rewrite count_of_insert. case_decide; [subst t; lia|done]. }
  split; [split; [| | |done]|].
  - intros t. rewrite Hd. apply H1.
  - intros t. rewrite Hd. apply H2.
  - by eapply next_insert, Hn.
  - by rewrite Hd.
Qed.
Lemma free_new n l : goes (fun w => counted n w /\ count_of w l = 0) (free_tunnel l) (fun _ => counted n).
Proof.
  intros w a w' E [Hw Hl]. apply (free_owing n None l (fun _ => True) ltac:(done) w a w' E). by split.
Qed.

Lemma create_goes n type state peer len given :
  goes (counted n) (cc_tunnel_create type state peer len given) (fun _ => counted n).
Proof.
  unfold cc_tunnel_create. pass. split_goes; [apply goes_ret|]. do 2 pass. split_goes; [|apply goes_ret].
  pass. split_goes; [apply goes_ret|]. pass. eapply goes_bind; [apply fresh_goes|]. intros l.
  eapply goes_bind; [by apply new_goes|]. intros ?. pass. split_goes.
  { eapply goes_bind; [apply free_new|]. intros ?. apply goes_ret. }
  do 2 pass. split_goes.
  - apply goes_weaken with (Pre := counted n); [by intros ? []|]. apply goes_same; [apply _|framed].
  - eapply goes_bind; [apply free_new|]. intros ?. apply goes_ret.
Qed.

(** [cc_tunnel_remove_ref(node, port->tunnel); port->tunnel = NULL;], and the release
    of the port. *)
Lemma drop_goes n l : goes (counted n) (drop_tunnel l) (fun _ => counted n).
Proof.
  intros w [] w' (p & w1 & (w2 & w3 & E2 & E1)%bind_inv & E)%bind_inv Hc. injection E2 as <- <-.
  destruct (w_ports w !! l) as [q|] eqn:Hq; [|done]. injection E1 as -> <-.
  destruct (port_tunnel p) as [t|] eqn:Ht.
  - assert (port_has l (Some t) w) as Hp by (unfold port_has; rewrite Hq; simpl; by rewrite Ht).
    eapply (goes_bind _ _ _ _ _ (remove_goes n l t) (fun _ => forget_port n l (Some t))); [exact E|done].
  - eapply (goes_bind _ _ _ _ _ (goes_ret _ _) (fun _ => forget_any n l)); [exact E|done].
Qed.
End references.

(** ** Operations that add no reference, and those that add one at most *)

Definition steady {A} (m : W A) : Prop := forall n, goes (counted n) m (fun _ => counted n).
Definition grows {A} (m : W A) : Prop := forall n, n + 1 <= 255 -> goes (counted n) m (fun _ => counted (n + 1)).

Lemma steady_same {A} (m : W A) : TS m -> steady m.
Proof. intros H n. by apply goes_same; [apply _|]. Qed.
Lemma steady_bind {A B} (m : W A) (f : A -> W B) : steady m -> (forall a, steady (f a)) -> steady (m ≫= f).
Proof. intros Hm Hf n. eapply goes_bind; [apply Hm|]. intros a. apply Hf. Qed.
Lemma counted_more n w : n + 1 <= 255 -> counted n w -> counted (n + 1) w.
Proof. intros Hn [H1 H2 H3 H4]. split; [done| |done|done]. intros t. specialize (H2 t). lia. Qed.
Lemma steady_grows {A} (m : W A) : steady m -> grows m.
Proof. intros H n Hn w a w' E Hw. apply counted_more; [done|]. by apply (H n w a w' E). Qed.
Lemma grows_after {A B} (m : W A) (f : A -> W B) : steady m -> (forall a, grows (f a)) -> grows (m ≫= f).
Proof. intros Hm Hf n Hn. eapply goes_bind; [apply Hm|]. intros a. by apply Hf. Qed.
Lemma grows_before {A B} (m : W A) (f : A -> W B) : grows m -> (forall a, steady (f a)) -> grows (m ≫= f).
Proof. intros Hm Hf n Hn. eapply goes_bind; [by apply Hm|]. intros a. apply Hf. Qed.
Lemma steady_ub {A} u : steady (ub_ u : W A).
Proof. intros n w a w' E. done. Qed.

Create HintDb counted discriminated.
#[export] Hint Constants Opaque : counted.
Ltac steady_step :=
  match goal with
  | |- steady _ => solve [eauto 2 with counted]
  | |- steady (when ?b _) => destruct b; cbn [when]
  | |- steady (mbind _ _) => apply steady_bind; [|intros ?]
  | |- steady (match ?x with _ => _ end) => destruct x eqn:?
  | |- steady _ => apply steady_same; solve [framed]
  end.
Ltac steady := repeat steady_step.
Ltac grows_step :=
  match goal with
  | |- grows _ => solve [eauto 2 with counted]
  | |- grows (when ?b _) => destruct b; cbn [when]
  | |- grows (mbind _ _) =>
      first [apply grows_after; [solve [steady]|intros ?] | apply grows_before; [|intros ?; solve [steady]]]
  | |- grows (match ?x with _ => _ end) => destruct x eqn:?
  | |- grows _ => apply steady_grows; solve [steady]
  end.
Ltac grows := repeat grows_step.

Section operations.
Context `{P : Platform} `{MP : MsgPuck}.

Lemma steady_create a b c d e : steady (cc_tunnel_create a b c d e).
Proof. intros n. apply create_goes. Qed.
Lemma steady_drop l : steady (drop_tunnel l).
Proof. intros n. apply drop_goes. Qed.
Lemma steady_forget l : steady (upd_port l (set_port_tunnel None)).
Proof. intros n. apply forget_any. Qed.
Hint Resolve steady_create steady_drop steady_forget : counted.
Lemma steady_drop_if_any l : steady (drop_tunnel_if_any l).
Proof. unfold drop_tunnel_if_any. steady. Qed.
Hint Resolve steady_drop_if_any : counted.

(** A tunnel becomes that of a port and gets its reference. *)
Lemma grows_point l t : grows (upd_port l (set_port_tunnel (Some t)) ;; cc_tunnel_add_ref (Some t)).
Proof. intros n Hn. eapply goes_bind; [apply point_port|]. intros ?. by apply add_owing. Qed.
Lemma grows_point_then {A} l t (f : unit -> W A) : (forall u, steady (f u)) ->
  grows (upd_port l (set_port_tunnel (Some t)) ;; u ← cc_tunnel_add_ref (Some t); f u).
Proof.
  intros Hf n Hn. eapply goes_bind; [apply point_port|]. intros ?.
  eapply goes_bind; [by apply add_owing|]. intros ?. apply Hf.
Qed.
Hint Resolve grows_point : counted.

Lemma grows_handle_connect a b c d : grows (cc_port_handle_connect a b c d).
Proof.
  unfold cc_port_handle_connect. grows_step. destruct a0 as [l|]; [|grows]. do 2 grows_step.
  destruct a1; [grows|]. do 2 grows_step. destruct a2 as [t|].
  - apply grows_point_then. intros ?. steady.
  - grows.
Qed.
Lemma steady_handle_disconnect a b : steady (cc_port_handle_disconnect a b).
Proof. unfold cc_port_handle_disconnect. steady. Qed.
Lemma steady_connect_local p : steady (cc_port_connect_local p).
Proof. unfold cc_port_connect_local. steady. Qed.
Lemma steady_connect_pending p : steady (cc_port_connect_with_pending_tunnel p).
Proof. unfold cc_port_connect_with_pending_tunnel. steady. Qed.
Lemma grows_get_tunnel p : grows (cc_port_get_tunnel p).
Proof.
  unfold cc_port_get_tunnel. do 2 grows_step. rename a0 into found. intros n Hn.
  eapply goes_bind; [apply point_port|]. intros ?.
  apply goes_bind with (Mid := fun o => owing n o).
  - destruct found as [t|]; [apply (goes_answer (owing n))|]. eapply goes_bind; [apply create_goes|]. intros o.
    eapply goes_bind; [apply point_port|]. intros ?. apply (goes_answer (owing n)).
  - intros [t|]; [|by apply (steady_grows (mret CC_FAIL)); [steady|]].
    eapply goes_bind; [by apply add_owing|]. intros ?. by apply (steady_same (_ ;; mret CC_SUCCESS)); framed.
Qed.
Hint Resolve grows_handle_connect steady_handle_disconnect steady_connect_local steady_connect_pending
  grows_get_tunnel : counted.
Lemma grows_connect_remote p : grows (cc_port_connect_remote p).
Proof. unfold cc_port_connect_remote. grows. Qed.
Hint Resolve grows_connect_remote : counted.
Lemma grows_connect p : grows (cc_port_connect p).
Proof. unfold cc_port_connect. grows. Qed.

(** The port as it is when its tunnel is read. *)
Lemma steady_at {A} l (f : cc_port_t -> W A) :
  (forall p n, goes (fun w => counted n w /\ port_has l (port_tunnel p) w) (f p) (fun _ => counted n)) ->
  steady (p ← get_port l; f p).
Proof.
  intros H n w a w' (p & w1 & (w2 & w3 & E2 & E1)%bind_inv & E)%bind_inv Hc. injection E2 as <- <-.
  destruct (w_ports w !! l) as [q|] eqn:Hq; [|done]. injection E1 as -> <-.
  apply (H p n w a w' E). split; [done|]. unfold port_has. by rewrite Hq.
Qed.
(** The reference of the port is given back; then the port forgets its tunnel, or is gone. *)
Lemma pay_goes n l (o : option loc) :
  goes (fun w => counted n w /\ port_has l o w) (cc_tunnel_remove_ref o) (fun _ w => owing n o w /\ port_has l o w).
Proof. destruct o as [t|]; [apply remove_goes|apply goes_ret]. Qed.
Lemma steady_disconnect p b : steady (cc_port_disconnect p b).
Proof.
  unfold cc_port_disconnect. apply steady_at. intros q n. destruct (_ && _); cbn [when].
  - eapply goes_bind; [eapply goes_bind; [apply goes_same; [apply _|framed]|intros ?; apply pay_goes]|]. intros ?.
    eapply goes_bind; [apply forget_port|]. intros ?. apply (steady_same (_ ;; _)). framed.
  - apply goes_weaken with (Pre := counted n); [by intros ? []|].
    assert (steady (mret tt : W unit)) as Hr by steady.
    eapply goes_bind; [apply Hr|]. intros ?. eapply goes_bind; [apply forget_any|]. intros ?.
    apply (steady_same (_ ;; _)). framed.
Qed.
Lemma steady_port_free p b : steady (cc_port_free p b).
Proof.
  unfold cc_port_free. apply steady_bind; [steady|]. intros _. apply steady_bind; [steady|]. intros _.
  apply steady_at. intros q n. eapply goes_bind.
  - instantiate (1 := fun _ w => owing n (port_tunnel q) w /\ port_has p (port_tunnel q) w).
    destruct (port_tunnel q) as [t|] eqn:Hq; [apply (pay_goes n p (Some t))|apply goes_ret].
  - intros ?. do 2 pass. apply free_port_owing.
Qed.
Hint Resolve grows_connect steady_disconnect steady_port_free : counted.
Lemma grows_port_restore p r n : grows (port_restore p r n).
Proof. unfold port_restore. grows. destruct a2; grows. Qed.
Lemma steady_new_port l p : port_tunnel p = None -> steady (put_port l p).
Proof.
  intros Hp n w [] w' E [H1 H2 H3 H4]. injection E as <-. split; [|done|done|done]. intros t.
  rewrite refs_insert, Hp, (one_false (None = Some t)) by done. specialize (H1 t).
  rewrite (one_false (None = Some t)) in H1 by done. change (count_of (set_ports _ w) t) with (count_of w t).
  destruct (port_tunnel <$> w_ports w !! l) as [o|]; simpl; [|lia]. pose proof (one_bounds (o = Some t)). lia.
Qed.
Hint Resolve grows_port_restore steady_new_port : counted.
Lemma grows_port_create a o q d c : grows (cc_port_create a o q d c).
Proof. unfold cc_port_create. grows. Qed.
Lemma grows_peer_port_reply d : grows (cc_port_get_peer_port_reply_handler d).
Proof. unfold cc_port_get_peer_port_reply_handler. grows. Qed.
Lemma steady_transmit p : steady (cc_port_transmit p).
Proof. unfold cc_port_transmit. steady. Qed.
Hint Resolve grows_port_create grows_peer_port_reply steady_transmit : counted.
End operations.
#[export] Hint Resolve steady_create steady_drop steady_drop_if_any grows_handle_connect steady_handle_disconnect
  steady_connect_pending grows_connect steady_disconnect steady_port_free grows_port_create
  grows_peer_port_reply steady_transmit : counted.

(** ** Messages, and runs *)

Section messages.
Context `{P : Platform} `{MP : MsgPuck}.

Lemma steady_tunnel_new a b c d : steady (cc_tunnel_handle_tunnel_new_request a b c d).
Proof. unfold cc_tunnel_handle_tunnel_new_request. steady. Qed.
Hint Resolve steady_tunnel_new : counted.
Lemma steady_parse_tunnel_new b : steady (cc_proto_parse_tunnel_new b).
Proof. unfold cc_proto_parse_tunnel_new. steady. Qed.
Lemma grows_parse_port_connect b : grows (cc_proto_parse_port_connect b).
Proof. unfold cc_proto_parse_port_connect. grows. Qed.
Lemma steady_parse_port_disconnect b : steady (cc_proto_parse_port_disconnect b).
Proof. unfold cc_proto_parse_port_disconnect. steady. Qed.

Section handlers.
Context (run_handler : cc_msg_handler_t -> bytes -> msg_data_t -> W cc_result_t)
  (Hrun : forall h b d, grows (run_handler h b d)).

Lemma grows_run_pending u b r : grows (run_pending run_handler u b r).
Proof using Hrun. unfold run_pending, lift, world_above. grows. Qed.
Hint Resolve grows_run_pending : counted.
Lemma grows_parse_reply b : grows (cc_proto_parse_reply run_handler b).
Proof using Hrun. unfold cc_proto_parse_reply, lift, world_above. grows. Qed.
Lemma grows_parse_tunnel_data b : grows (cc_proto_parse_tunnel_data run_handler b).
Proof using Hrun. unfold cc_proto_parse_tunnel_data, lift, world_above. grows. Qed.
End handlers.

Lemma grows_port_handlers other h b d : (forall h b d, grows (other h b d)) -> grows (port_handlers other h b d).
Proof. intros H. destruct h; simpl; try apply H; grows. Qed.
Hint Resolve grows_parse_reply grows_parse_tunnel_data grows_port_handlers grows_parse_port_connect
  steady_parse_port_disconnect steady_parse_tunnel_new : counted.

Lemma grows_action other a : (forall h b d, grows (other h b d)) -> grows (run_action other a).
Proof.
  intros H. assert (forall A (m : W A), grows m -> grows (ignore m)) as Hi.
  { intros A m Hm. unfold ignore. apply grows_before; [done|]. intros ?. steady. }
  destruct a; simpl; try apply Hi; grows.
  - apply grows_parse_reply. intros. by apply grows_port_handlers.
  - apply grows_parse_tunnel_data. intros. by apply grows_port_handlers.
Qed.

(** C6: no port is left with a tunnel that was freed.  From a runtime whose tunnels are
    counted by those that refer to them, with no counter over [n], any sequence [l] of
    operations of ports and of messages that ends, with [n] and the length of [l] within
    the 8 bits of a counter, leaves a runtime of that kind: every tunnel that a port or
    the node refers to is allocated, and its counter is at least the number of references
    to it.  The other handlers of replies may add one reference each. *)
Theorem tunnels_outlive_ports (other : cc_msg_handler_t -> bytes -> msg_data_t -> W cc_result_t)
  (l : list action) (w w' : world) (n : Z) :
  (forall h b d, grows (other h b d)) -> counted n w -> n + Z.of_nat (length l) <= 255 ->
  run_actions other l w = Ok (tt, w') ->
  counted (n + Z.of_nat (length l)) w'
  /\ (forall t, 0 < refs w' t -> exists x, w_tunnels w' !! t = Some x /\ refs w' t <= tunnel_ref_count x)
  /\ (forall p port t, w_ports w' !! p = Some port -> port_tunnel port = Some t ->
      exists x, w_tunnels w' !! t = Some x /\ 1 <= tunnel_ref_count x).
Proof.
  intros Ho Hw Hn E.
  assert (counted (n + Z.of_nat (length l)) w') as Hc.
  { revert n w Hw Hn E. induction l as [|a l IH]; intros n w Hw Hn E; cbn [length] in *.
    { injection E as <-. by rewrite Z.add_0_r. }
    apply bind_inv in E as ([] & w1 & E1 & E). replace (n + Z.of_nat (S (length l))) with (n + 1 + Z.of_nat (length l)) by lia.
    apply (IH (n + 1) w1); [|lia|done]. apply (grows_action other a Ho n ltac:(lia) w tt w1 E1 Hw). }
  split; [done|]. split; [|intros p port t; by apply (counted_live _ w' p port t Hc)].
  intros t Ht. pose proof (ow_refs _ _ _ Hc t) as Hr. rewrite (one_false (None = Some t)) in Hr by done.
  unfold count_of in Hr. rewrite lookup_fmap in Hr. destruct (w_tunnels w' !! t) as [x|]; simpl in Hr; [|lia].
  exists x. split; [done|lia].
Qed.
End messages.

(** The out-port of the example with its peer on the other runtime. *)
Definition remote_port : cc_port_t :=
  set_port_peer_id the_peer_id (a_port (str "out-port") (str "token") (str "far-port")
    CC_PORT_DIRECTION_OUT CC_PORT_DISCONNECTED 10%positive).
Definition remote_world : world := set_ports (<[20%positive := remote_port]> (w_ports the_world)) the_world.

Lemma remote_counted : counted 1 remote_world.
Proof.
  assert (forall t, count_of remote_world t = one (Some 2%positive = Some t) + one (Some 3%positive = Some t)) as Hc.
  { intros t. unfold count_of, one. destruct (decide (t = 2%positive)) as [->|D2]; [done|].
    destruct (decide (t = 3%positive)) as [->|D3]; [done|]. rewrite !decide_False by congruence.
    change (w_tunnels remote_world) with (w_tunnels the_world). simpl.
    rewrite lookup_fmap, lookup_insert_ne, lookup_singleton_ne by done. done. }
  split; [| | |done].
  - intros t. rewrite Hc. unfold refs. rewrite pointing_none; [|apply (bool_decide_unpack _); by vm_compute].
    rewrite (one_false (None = Some t)) by done. simpl. lia.
  - intros t. rewrite Hc. unfold one. do 2 case_decide; simplify_eq; lia.
  - intros t x. simpl. rewrite lookup_insert_Some, lookup_singleton_Some. intros [[<- _]|[_ [<- _]]]; simpl; lia.
Qed.

(** Connecting it makes a tunnel for it, the object at 100. *)
Lemma tunnels_outlive_ports_witness :
  exists w' p x, run_actions no_other [DoConnect 20%positive; DoFree 21%positive false] remote_world = Ok (tt, w')
    /\ w_ports w' !! 20%positive = Some p /\ port_tunnel p = Some 100%positive
    /\ w_tunnels w' !! 100%positive = Some x /\ 1 <= tunnel_ref_count x.
Proof.
  destruct (run_actions no_other [DoConnect 20%positive; DoFree 21%positive false] remote_world)
    as [[[] w']|u] eqn:E; [|exfalso; vm_compute in E; discriminate E].
  assert (exists p, w_ports w' !! 20%positive = Some p /\ port_tunnel p = Some 100%positive) as (p & Hp & Ht).
  { vm_compute in E. injection E as <-. eexists. split; reflexivity. }
  destruct (tunnels_outlive_ports no_other [DoConnect 20%positive; DoFree 21%positive false] remote_world w' 1)
    as (_ & _ & H).
  - intros h b d. apply steady_grows, steady_same, along_ret. apply _.
  - apply remote_counted.
  - vm_compute. discriminate.
  - exact E.
  - destruct (H 20%positive p 100%positive Hp Ht) as (x & Hx & Hc). exists w', p, x. repeat split; assumption.
Defined.
